(* ===== verification/_CoqProject ===== *)
-Q . S2P
Prelude.v
RustStr.v
IpAddr.v
Dhcp4.v
DhcpServer.v
Sys.v
Persistence.v
Journal.v
World.v
Netlink.v
IpLayer.v
DhcpClient.v
Dhcp6.v
Security.v
Firewall.v
Device.v
Routing.v
Connection.v
Ipc.v
F64.v
Pac.v
Proxy.v
Dns.v
Logging.v
Config.v
Store.v
ProfileStore.v
Wpa.v
Wireguard.v
OpenVpn.v
Connectivity.v
Monitoring.v
Bluetooth.v
Sharing.v
Activation.v
Panics.v
Wp.v
Manager.v
ManagerInv.v
ManagerPanics.v
Daemon.v
Serve.v
System.v
Footprint.v
ManagerFrame.v
Process.v
Restart.v
Confine.v
ConnRefine.v
Netctl.v
