(* ===== verification/Prelude.v ===== *)
(** * Verification of mitos-network

    mitos-network is a Linux network daemon.  One manager thread owns the
    devices, the profiles, the firewall and the active connections; clients
    talk to it over a Unix socket; it configures the kernel over netlink, runs
    its own DHCP clients and, for a hotspot, its own DHCP server; it keeps
    leases, profiles and secrets in files.  This library is a shallow embedding
    of the daemon's core logic with the theorems that make it correct.  Paths
    below are relative to [src/src/].

    ** How code is modelled

    - Fallible code returns [outcome]: [Ok], [Err] with the source's
      [NetworkError] (errors/error.rs), or [Panic].  A slice out of range, an
      overflow of checked arithmetic and a cut inside a character are [Panic],
      so "never panics" is a theorem and not an assumption.
    - Code that talks to the outside runs in [M W], a state monad over an
      abstract world [W].  What the outside does is given by interface classes:
      [Clock], [Sockets], [TcpStreams], [FileSystem], [Processes], [Children],
      [UnixStreams], [Threads], [HostNames], [Entropy] and the like (file
      [Sys]), [Codec], [Serde] and [Toml] for serde, [Accounts] for the user
      database, [ByteStream] and [ManagerChannel] for a client connection,
      [Management] for openvpn's lines, [Resolver] for name look-ups, [NlEnv]
      for [strerror], [PacText] for the Unicode classes of characters.  [Host]
      and [Formats] (file [Manager]) bundle all the daemon runs on.  Theorems
      hold for every instance.  Where one needs documented behaviour of the
      outside it takes a laws class: [FileSystemLaws], [DirLaws],
      [AppendLaws], [TimeLaws], [LinkLaws], [PromptLaws], [SleepLaws],
      [PollLaws], [ConnTimeLaws], [ServerLink], [NftLaws], [SerdeLaws],
      [StaticLaws], [AcceptView], [SpawnLaws], [HostFrame], and [HashOrder] and
      [HashIterLaws] for the order of a hash map.  [World] gives one concrete instance, on which
      witnesses run.
    - A [static] behind a [Mutex] is a part of the world ([Static]).  State a
      caller owns is beside the world: the firewall, the proxy state, a device
      under activation, the manager.  The manager's handlers are reasoned about
      with the weakest preconditions of [Wp], where the world is arbitrary.
    - Integers are [Z] with their wrap-around or overflow check written out.
      Strings are their UTF-8 bytes ([RustStr]).  Doubles are [F64].
    - Times are nanoseconds for [Instant] and seconds for [SystemTime], whose
      sums out of range are a [Panic] ([time_add]); so is a thread that cannot
      be made ([spawn_thread]).  The stack is unbounded.
    - What is asked of the outside can be recorded beside any world: the calls
      on sockets and children with their results ([traced], file [Sys]), what is
      done to files ([journaled], [process]), and what a connection passes on
      ([logged], [stamped]).

    ** Files

    - [Prelude]: errors, [outcome], [M], bytes and big-endian integers, the
      tactics and the [mitos] hint database.
    - [RustStr], [IpAddr], [F64]: what the sources use of [str], [std::net] and
      [f64]; [IpAddr] also has ip/ipv4.rs, ip/ipv6.rs, ip/mod.rs and
      [parse_cidr] of ip/address.rs.
    - [Sys], [World]: the interfaces to the outside and a concrete instance.
    - [Dhcp4]: dhcp/dhcp4.rs and dhcp/lease.rs.  [DhcpClient]: dhcp/client.rs and dns/hostname.rs.
      [Dhcp6]: dhcp/dhcp6.rs.  [DhcpServer]: sharing/dhcp_server.rs.
    - [Journal]: a record of what is done to files beside any file system, and
      which files it leaves in doubt.
    - [Persistence]: persistence/database.rs, the paths of persistence/state.rs, config/parser.rs.
    - [Netlink]: ip/netlink.rs.  [IpLayer]: ip/address.rs, interface.rs,
      route.rs, neighbor.rs, genetlink.rs, monitor.rs.  [Routing]: routing/.
    - [Security]: security/validation.rs, permissions.rs, policy.rs,
      secrets.rs.  [Firewall]: firewall/.
    - [Device]: device/.  [Connection]: wifi/security.rs, wifi/network.rs,
      connection/profile.rs, connection/autoconnect.rs, manager/state.rs.
    - [Ipc]: ipc/messages.rs, protocol.rs, server.rs, permissions.rs, client.rs.
    - [Pac], [Proxy]: proxy/pac.rs, proxy/proxy.rs.
    - [Dns]: dns/ but the host name.  [Config]: config/ but the file primitives.
      [Store]: persistence/profiles.rs; [ProfileStore] specifies it as a
      finite map.
    - [Wpa]: wifi/wpa.rs, wifi.rs, scanner.rs, roaming.rs, security/tempfile.rs.
    - [Wireguard]: vpn/wireguard.rs, vpn/tunnel.rs.  [OpenVpn]: vpn/openvpn.rs,
      vpn/vpn.rs.
    - [Connectivity]: connectivity/.  [Monitoring]: monitoring/, ethernet/.
      [Bluetooth]: bluetooth/.  [Logging]: logging/.
    - [Sharing]: wifi/hotspot.rs, sharing/.
    - [Activation]: connection/activation.rs, deactivation.rs, connection.rs.
    - [Wp]: the calculus for handlers.  [Manager]: manager/manager.rs,
      events.rs, and the two [OnceLock]s.  [ManagerInv]: its theorems.
    - [Panics]: for every operation the manager reaches, the panics it can end
      in, with the calculus and the [panics] hint database that derive them.
      [ManagerPanics]: the same for the handlers.
    - [Footprint]: for every operation the manager reaches, that it goes along
      a relation on the world once the paths it writes and the programs it
      starts are permitted: the calculus [within], the interfaces [Frame] and
      [Paths], and the [footprint] hint database.  [ManagerFrame]: the same for
      the handlers and the start.
    - [Process]: an outside with the statics of the daemon and a journal of what
      it touches.
    - [Restart]: one such relation, that the profile files stay; the manager's
      profile list against the directory, over whole runs and from one start to
      the next.  [Confine]: another, that a journal of what the process touches
      names only what is its own; it also has the socket of [serve].
    - [Daemon]: the threads of main.rs, manager/scheduler.rs and
      device/discovery.rs, [handle_connection] of ipc/server.rs,
      ipc/permissions.rs; and a connection composed with the manager.
    - [Serve]: [serve] of ipc/server.rs, and [main] of main.rs from the command
      line to the spawned threads.
    - [System]: the running daemon, whose threads interleave: the manager's
      ([manager_step]), a connection's and the one that forwards its events
      ([conn_step], from [handle_connection] and [request_loop]), and the other
      sources of commands ([source_step]).  Commands travel in one queue,
      answers and events in channels of their own.  [perform] is an executable
      scheduler for witnesses.  [ConnRefine] shows that the connection of
      [Daemon], a function, is one of the behaviours of these steps.
    - [Netctl]: bin/mitos-netctl.rs.

    Definitions keep the source's names; where two modules use one name the
    module is a prefix ([route_add], [address_add]).  A loop of the source
    is a function of its own ([run_loop], [offer_loop]), and the message an
    operation sends is one too ([route_payload]).

    ** What is proved

    - DHCP: packets round-trip and any datagram parses without a panic
      ([dhcp4_roundtrip], [dhcp4_parse_total], [dhcp6_codec_roundtrip],
      [dhcp6_parsers_total], [ia_request_roundtrip]); the server never grants
      an address twice or outside the pool and refuses only when the pool is
      exhausted ([server_leases_exclusive], [allocate_complete]); the client
      ends soon after its deadline ([dhcp_client_terminates]); client and server
      together reach a lease both agree on ([client_server_exchange]); a DHCPv6
      lease is backed by a matching exchange ([stateful_lease_backed]); lease
      timers are ordered ([lease_timers_ordered]).
    - Netlink: attributes round-trip, dumps are reassembled, no reply body
      panics a parser, and which datagrams panic the receive loop
      ([attrs_roundtrip], [dump_reassembles], [netlink_parsers_total],
      [datagram_alignment]); messages read back ([route_list_reads_dump],
      [address_add_roundtrip], [create_virtual_roundtrip]).
    - IPC: no request reaches the manager without its capability
      ([request_loop_mediates]); throttle, connection cap and frame size hold
      ([request_loop_throttled], [accept_loop_cap], [read_message_bounded]);
      framing round-trips and the client finds its response
      ([framing_roundtrip], [client_gets_response]).
    - Firewall: an invariant over all request sequences, rule text that cannot
      inject, and what the kernel holds after a load, which does not replace
      the table atomically ([firewall_invariant], [firewall_rule_text],
      [firewall_apply_table]).
    - Files and secrets: atomic replacement, confinement, round trips
      ([write_json_atomic], [secrets_confined], [secret_set_get],
      [resolv_conf_roundtrip], [profile_save_isolated]); the profile directory
      implements a finite map that a restart reads back, but for files that
      marking a profile as used failed to write over ([profile_store_refines],
      [touch_loses_profile], [torn_profile_noted]); a loaded configuration is valid and
      each section comes from its file ([config_load_valid]).
    - Wi-Fi: no input can break out of a command to wpa_supplicant, and a join
      is believed only on its word ([wpa_commands_clean], [wifi_join_confirmed]).
    - Choice and state: [autoconnect_best], [refresh_merges],
      [overall_state_sound], [gateway_is_best], [policy_routing_tables],
      [dns_merged_complete], [recently_used_order],
      [subnet_arithmetic], [cidr_text_roundtrip], [mac_text_roundtrip].
    - Proxy: the work of a PAC script is not bounded by its depth
      ([pac_exponential_cost]), and with a stack that is large enough its
      evaluation ends ([pac_evaluate_returns]); shell patterns and [no_proxy] entries match
      what they should ([sh_exp_match_correct], [no_proxy_by_labels]); what
      [apply] leaves behind and what a client is told ([proxy_apply_effect],
      [resolve_for_url_answers]).
    - VPN: the WireGuard message reads back as the configuration
      ([wireguard_message_roundtrip]); what connecting and disconnecting OpenVPN
      ask of the system, in which order, and that a connect follows its first verdict
      ([openvpn_session_lifecycle], [openvpn_first_verdict]).
    - Sharing: every hostapd started is in the table or was killed and waited
      for, and its file says what it should ([hostapd_children_tracked], [hostapd_config_lines]).
    - Connectivity and health: [connectivity_check_verdict],
      [health_threshold], [prune_keeps_fresh].
    - Activation: where a device is left on every path
      ([activation_device_states]).
    - The manager: an invariant over all command sequences
      ([manager_invariant]); what a run leaves in the audit trail and the
      clients' streams ([manager_run_trail]); that changes are put on
      record ([request_audited]); what connecting and disconnecting do
      ([connection_requests]); what each request is
      answered with ([request_answer_types]); which panics each command can end in, and
      that no other can happen ([manager_panics]); and that the profiles in
      memory and on disk agree over any run and in any interleaving of the
      threads, but for the files the journal says are in doubt, so that a
      restart keeps them ([restart_keeps_profiles]; [forgotten_profile_returns]
      shows such a file).
    - What the manager and the server's thread touch: files, directories and
      programs of a fixed list only ([daemon_confined]); what the client names
      goes into a path after it is checked, but for the file a hotspot's end
      removes ([stop_hotspot_unchecked]), and a lease has the name the registry
      has.
    - The composition of a connection with the manager: a peer without
      privileges can only look ([unprivileged_connection]).
    - The start: what is up when the daemon is up, and what its exit status
      says otherwise ([daemon_boot]).
    - The running daemon: in every interleaving of its threads the manager is
      in the state of a sequential run of what it has handled, all of it
      authorised ([system_linearizes]); each connection is told the answers to
      its own requests and the events of its own channel, in order
      ([system_answers]); peers without privileges leave no trace in the
      manager's state ([system_unprivileged]); and a waiting connection is
      answered after the commands before its own, if each of them ends
      ([system_in_turn]).  A
      connection's thread as a function is one of the behaviours of its steps
      ([connection_simulated]).
    - The command line is its usage text ([netctl_words]).

    ** Fuel

    A loop that ends by a deadline takes fuel, and [dhcp_client_terminates]
    says which is enough: each turn takes a datagram off the link, of which there
    are finitely many before the deadline ([LinkLaws]), or waits for the receive
    timeout.  [nl_fuel] bounds the
    datagrams of one netlink answer; a longer answer is a [Panic] of the model
    only, and [dump_reassembles] needs one unit for each datagram.  The PAC
    parser gets [FUEL_FACTOR] units for each token, more than the levels of its
    grammar, and the interpreter [CALL_FUEL], two more than the depth limit;
    [pac_evaluate_returns] shows that neither runs out (the stack of the program
    can, on deep nesting).  The client's
    [await_response] needs one unit for each message it skips.  Waiting for an
    association takes 68 polls of 300 milliseconds at most, which
    [wifi_join_confirmed] shows, and for OpenVPN 301 polls, which
    [openvpn_session_lifecycle] shows; [Fuels] gives the manager these.  Loops over a
    buffer take its length.  The request loop of the server runs on for as long
    as its peer sends, and the accept loop for as long as the daemon; their
    theorems hold for every number of turns.  [dechunk] takes the length of its
    text, which [manager_panics] shows to be enough.  The fuel of [nl_fuel] and
    [Fuels] is among the panics that [manager_panics] lists, as [FUEL].

    ** Not modelled

    What openvpn's reader thread does after a connect; the line the DHCP
    server's thread logs when a receive fails; installing the signal handlers,
    which is an effect of the interface [MainThread]; the library roots (mod.rs
    files and lib.rs), which only re-export, and functions and constants that
    nothing uses; the text of [serde_json]'s and [toml]'s formats, which are
    parameters; the width of the queue and of the stacks, which are unbounded,
    and the memory; panics of [eprintln!] on a closed standard error and of a
    poisoned lock; that the thread that forwards a connection's events cannot be
    made, which ends the connection's thread; what openvpn and hostapd do once
    they run; and the tests.  [System] has any number of connections; that there are at
    most 128 is [Serve]'s, where the threads share the slots.  The manager drops
    the session a hotspot start returns, so that there is no session to follow
    over a run: [hotspot_stop] is modelled, and nothing calls it. *)

From Stdlib Require Export ZArith Lia Sorted.
From stdpp Require Export base list gmap strings numbers.

#[export] Set Default Proof Using "Type".
#[global] Open Scope Z_scope.

(** ** Errors and outcomes

    [NetworkError] is the crate's one error type.  An [outcome] is what a Rust
    function of type [Result<A>] can end in: a value, an error returned to the
    caller, or a panic (an out-of-range slice, or an arithmetic overflow, which
    the dev profile turns into a panic). *)

Inductive io_kind :=
| IoNotFound | IoWouldBlock | IoTimedOut | IoPermissionDenied | IoAlreadyExists | IoOther.

Record io_error := IoError { io_err_kind : io_kind; io_err_text : string }.

Inductive NetworkError :=
| Io (e : io_error)
| Netlink (s : string)
| Device (s : string)
| Config (s : string)
| Dhcp (s : string)
| Dns (s : string)
| Wifi (s : string)
| Vpn (s : string)
| Firewall (s : string)
| NotFound (s : string)
| PermissionDenied (s : string)
| Timeout (s : string)
| InvalidState (s : string)
| Parse (s : string)
| Other (s : string).

(** [NetworkError::is_transient] of errors/error.rs. *)
Definition is_transient (e : NetworkError) : bool :=
  match e with
  | Timeout _ | Dhcp _ | Dns _ | Netlink _ => true
  | _ => false
  end.

(** The [Display] text [thiserror] derives from the [#[error]] attributes. *)
Definition error_to_string (e : NetworkError) : string :=
  match e with
  | Io e => ("I/O error: " ++ io_err_text e)%string
  | Netlink s => ("netlink error: " ++ s)%string
  | Device s => ("device error: " ++ s)%string
  | Config s => ("configuration error: " ++ s)%string
  | Dhcp s => ("DHCP error: " ++ s)%string
  | Dns s => ("DNS error: " ++ s)%string
  | Wifi s => ("Wi-Fi error: " ++ s)%string
  | Vpn s => ("VPN error: " ++ s)%string
  | Firewall s => ("firewall error: " ++ s)%string
  | NotFound s => ("not found: " ++ s)%string
  | PermissionDenied s => ("permission denied: " ++ s)%string
  | Timeout s => ("operation timed out: " ++ s)%string
  | InvalidState s => ("invalid state: " ++ s)%string
  | Parse s => ("parse error: " ++ s)%string
  | Other s => s
  end.

Inductive outcome (A : Type) :=
| Ok (a : A)
| Err (e : NetworkError)
| Panic (why : string).
Arguments Ok {A} a.
Arguments Err {A} e.
Arguments Panic {A} why.

#[export] Instance io_kind_eq_dec : EqDecision io_kind.
Proof. solve_decision. Defined.
#[export] Instance io_error_eq_dec : EqDecision io_error.
Proof. solve_decision. Defined.
#[export] Instance NetworkError_eq_dec : EqDecision NetworkError.
Proof. solve_decision. Defined.

#[export] Instance outcome_ret : MRet outcome := fun A a => Ok a.
#[export] Instance outcome_bind : MBind outcome := fun A B f m =>
  match m with
  | Ok a => f a
  | Err e => Err e
  | Panic w => Panic w
  end.
#[export] Instance outcome_fmap : FMap outcome := fun A B f m =>
  match m with
  | Ok a => Ok (f a)
  | Err e => Err e
  | Panic w => Panic w
  end.

Definition ok_or {A} (o : option A) (e : NetworkError) : outcome A :=
  match o with Some a => Ok a | None => Err e end.
Definition or_panic {A} (o : option A) (w : string) : outcome A :=
  match o with Some a => Ok a | None => Panic w end.
(** [.map_err(|_| e)?] *)
Definition map_err {A} (f : NetworkError -> NetworkError) (m : outcome A) : outcome A :=
  match m with Err e => Err (f e) | _ => m end.

Definition is_ok {A} (m : outcome A) : Prop := exists a, m = Ok a.
Definition is_err {A} (m : outcome A) : Prop := exists e, m = Err e.
Definition no_panic {A} (m : outcome A) : Prop := forall w, m <> Panic w.
Definition ok {A} (m : outcome A) : option A :=
  match m with Ok a => Some a | _ => None end.

Lemma outcome_bind_Ok {A B} (m : outcome A) (f : A -> outcome B) b :
  m ≫= f = Ok b <-> exists a, m = Ok a /\ f a = Ok b.
Proof.
  destruct m; cbn; split; try (intros; discriminate); try (intros (?&?&?); discriminate).
  - eauto.
  - intros (? & [= <-] & ?). done.
Qed.

Lemma no_panic_bind {A B} (m : outcome A) (f : A -> outcome B) :
  no_panic m -> (forall a, m = Ok a -> no_panic (f a)) -> no_panic (m ≫= f).
Proof. intros Hm Hf w. destruct m as [a|e|w']; cbn; [by apply Hf|done|]. by destruct (Hm w'). Qed.

Lemma no_panic_Ok {A} (a : A) : no_panic (Ok a).
Proof. done. Qed.
Lemma no_panic_Err {A} e : no_panic (@Err A e).
Proof. done. Qed.
Lemma no_panic_ok_or {A} (o : option A) e : no_panic (ok_or o e).
Proof. by destruct o. Qed.

(** ** Effects

    Code that talks to the kernel, a file system, a socket or a clock runs in
    [M W]: a computation over a world [W] that the outside code owns.  What the
    outside code does is given by the interface classes of [Sys]. *)

Definition M (W A : Type) : Type := W -> outcome A * W.

#[export] Instance M_ret {W} : MRet (M W) := fun A a w => (Ok a, w).
#[export] Instance M_bind {W} : MBind (M W) := fun A B f m w =>
  match m w with
  | (Ok a, w') => f a w'
  | (Err e, w') => (Err e, w')
  | (Panic s, w') => (Panic s, w')
  end.

Definition lift {W A} (o : outcome A) : M W A := fun w => (o, w).
Definition throw {W A} (e : NetworkError) : M W A := fun w => (Err e, w).
(** [let _ = c;] : run for the effect, drop the result (a panic still unwinds). *)
Definition ignore {W A} (c : M W A) : M W unit := fun w =>
  match c w with
  | (Panic s, w') => (Panic s, w')
  | (_, w') => (Ok tt, w')
  end.
(** [match c { Ok(a) => ..., Err(e) => ... }] *)
Definition attempt {W A} (c : M W A) : M W (A + NetworkError) := fun w =>
  match c w with
  | (Ok a, w') => (Ok (inl a), w')
  | (Err e, w') => (Ok (inr e), w')
  | (Panic s, w') => (Panic s, w')
  end.
(** [for x in l { body(x)?; }] *)
Fixpoint for_each {W A} (l : list A) (body : A -> M W unit) : M W unit :=
  match l with
  | [] => mret tt
  | x :: l => body x ;; for_each l body
  end.

Lemma M_bind_Ok {W A B} (m : M W A) (f : A -> M W B) w b w' :
  (m ≫= f) w = (Ok b, w') <-> exists a w1, m w = (Ok a, w1) /\ f a w1 = (Ok b, w').
Proof.
  unfold mbind, M_bind. destruct (m w) as [[a|e|s] w1]; split;
    try (intros; discriminate); try (intros (?&?&?&?); discriminate).
  - eauto.
  - intros (?&?&[= <- <-]&?). done.
Qed.

(** ** Machine integers

    A w-bit unsigned integer is a [Z] in [0, 2^w); arithmetic at width is
    written out where the source does it. *)

Definition wrap (w z : Z) : Z := z mod 2 ^ w.
Definition is_uint (w z : Z) : Prop := 0 <= z < 2 ^ w.
Abbreviation is_u8 := (is_uint 8).
Abbreviation is_u16 := (is_uint 16).
Abbreviation is_u32 := (is_uint 32).
Abbreviation is_u64 := (is_uint 64).
Definition bytes_ok (l : list Z) : Prop := Forall is_u8 l.

#[export] Instance is_uint_dec w z : Decision (is_uint w z).
Proof. unfold is_uint. apply _. Defined.
#[export] Instance bytes_ok_dec l : Decision (bytes_ok l).
Proof. unfold bytes_ok. apply _. Defined.

(** Two's complement reading of a w-bit word ([u32 as i32]). *)
Definition to_signed (w z : Z) : Z := if z <? 2 ^ (w - 1) then z else z - 2 ^ w.
Definition is_i32 (z : Z) : Prop := - 2 ^ 31 <= z < 2 ^ 31.

Lemma wrap_small w z : is_uint w z -> wrap w z = z.
Proof. unfold is_uint, wrap. apply Z.mod_small. Qed.
Lemma wrap_range w z : 0 <= w -> is_uint w (wrap w z).
Proof. unfold is_uint, wrap. intros. apply Z.mod_pos_bound. by apply Z.pow_pos_nonneg. Qed.
Lemma to_signed_wrap32 z : is_i32 z -> to_signed 32 (wrap 32 z) = z.
Proof.
  unfold is_i32, to_signed, wrap. intros H.
  change (2 ^ (32 - 1)) with 2147483648. change (2 ^ 32) with 4294967296.
  change (2 ^ 31) with 2147483648 in H.
  destruct (Z.ltb_spec (z mod 4294967296) 2147483648);
    destruct (Z_lt_le_dec z 0) as [Hn|Hp].
  - assert (z mod 4294967296 = z + 4294967296).
    { rewrite <- (Z.mod_add z 1) by lia. apply Z.mod_small. lia. }
    lia.
  - rewrite Z.mod_small; lia.
  - assert (z mod 4294967296 = z + 4294967296).
    { rewrite <- (Z.mod_add z 1) by lia. apply Z.mod_small. lia. }
    lia.
  - rewrite Z.mod_small in *; lia.
Qed.

(** ** Byte order *)

Fixpoint to_le (n : nat) (z : Z) : list Z :=
  match n with
  | O => []
  | S n => z mod 256 :: to_le n (z / 256)
  end.
Fixpoint from_le (l : list Z) : Z :=
  match l with
  | [] => 0
  | b :: l => b + 256 * from_le l
  end.
Definition to_be (n : nat) (z : Z) : list Z := rev (to_le n z).
Definition from_be (l : list Z) : Z := from_le (rev l).

Lemma length_to_le n z : length (to_le n z) = n.
Proof. revert z. induction n; intros; cbn; auto. Qed.
Lemma length_to_be n z : length (to_be n z) = n.
Proof. unfold to_be. by rewrite List.length_rev, length_to_le. Qed.

Lemma to_le_ok n z : bytes_ok (to_le n z).
Proof.
  revert z. induction n as [|n IH]; intros z; cbn; constructor; [|apply IH].
  unfold is_uint. change (2 ^ 8) with 256. apply Z.mod_pos_bound. lia.
Qed.
Lemma to_be_ok n z : bytes_ok (to_be n z).
Proof. unfold to_be, bytes_ok. apply Forall_rev, to_le_ok. Qed.

Lemma from_le_to_le n z : 0 <= z < 256 ^ Z.of_nat n -> from_le (to_le n z) = z.
Proof.
  revert z. induction n as [|n IH]; intros z Hz; cbn [to_le from_le].
  - change (256 ^ Z.of_nat 0) with 1 in Hz. lia.
  - rewrite Nat2Z.inj_succ, Z.pow_succ_r in Hz by lia.
    rewrite IH.
    + pose proof (Z.div_mod z 256). lia.
    + split; [apply Z.div_pos; lia|]. apply Z.div_lt_upper_bound; lia.
Qed.
Lemma from_be_to_be n z : 0 <= z < 256 ^ Z.of_nat n -> from_be (to_be n z) = z.
Proof. intros. unfold from_be, to_be. rewrite rev_involutive. by apply from_le_to_le. Qed.

Lemma from_le_range l : bytes_ok l -> 0 <= from_le l < 256 ^ Z.of_nat (length l).
Proof.
  induction 1 as [|b l Hb Hl IH]; cbn [from_le length]; [change (256 ^ Z.of_nat 0) with 1; lia|].
  rewrite Nat2Z.inj_succ, Z.pow_succ_r by lia. unfold is_uint in Hb.
  change (2 ^ 8) with 256 in Hb. lia.
Qed.
Lemma from_be_range l : bytes_ok l -> 0 <= from_be l < 256 ^ Z.of_nat (length l).
Proof.
  intros. unfold from_be. rewrite <- (List.length_rev l). apply from_le_range.
  unfold bytes_ok in *. by apply Forall_rev.
Qed.

Lemma to_le_from_le l : bytes_ok l -> to_le (length l) (from_le l) = l.
Proof.
  induction 1 as [|b l Hb Hl IH]; [done|]. cbn [from_le length to_le].
  unfold is_uint in Hb. change (2 ^ 8) with 256 in Hb.
  assert (Hd : (b + 256 * from_le l) / 256 = from_le l).
  { rewrite (Z.mul_comm 256), Z.div_add by lia. rewrite Z.div_small by lia. lia. }
  assert (Hm : (b + 256 * from_le l) mod 256 = b).
  { rewrite (Z.mul_comm 256), Z.mod_add by lia. apply Z.mod_small. lia. }
  by rewrite Hd, Hm, IH.
Qed.
Lemma to_be_from_be l : bytes_ok l -> to_be (length l) (from_be l) = l.
Proof.
  intros H. unfold to_be, from_be. rewrite <- (List.length_rev l), to_le_from_le.
  - apply rev_involutive.
  - unfold bytes_ok in *. by apply Forall_rev.
Qed.

#[global] Arguments to_be : simpl never.
#[global] Arguments from_be : simpl never.
#[global] Arguments to_le : simpl never.

(** ** Slices and bounds *)

(** [&l[a..b]]: [None] where Rust panics. *)
Definition slice {A} (l : list A) (a b : nat) : option (list A) :=
  if bool_decide (a <= b <= length l)%nat then Some (take (b - a) (drop a l)) else None.
(** [&l[a..]] *)
Definition slice_from {A} (l : list A) (a : nat) : option (list A) :=
  if bool_decide (a <= length l)%nat then Some (drop a l) else None.

Lemma slice_Some {A} (l : list A) a b :
  (a <= b <= length l)%nat -> slice l a b = Some (take (b - a) (drop a l)).
Proof. intros. unfold slice. by rewrite bool_decide_eq_true_2. Qed.
Lemma slice_from_Some {A} (l : list A) a :
  (a <= length l)%nat -> slice_from l a = Some (drop a l).
Proof. intros. unfold slice_from. by rewrite bool_decide_eq_true_2. Qed.
Lemma slice_length {A} (l r : list A) a b : slice l a b = Some r -> length r = (b - a)%nat.
Proof.
  unfold slice. case_bool_decide as H; [|done]. intros [= <-].
  rewrite length_take, length_drop. lia.
Qed.

(** [slice::chunks_exact(n)]: the full chunks, a shorter remainder is dropped. *)
Fixpoint chunks_fuel {A} (fuel n : nat) (l : list A) : list (list A) :=
  match fuel with
  | O => []
  | S fuel =>
      if bool_decide (length l < n)%nat then []
      else take n l :: chunks_fuel fuel n (drop n l)
  end.
Definition chunks_exact {A} (n : nat) (l : list A) : list (list A) :=
  chunks_fuel (length l) n l.

Lemma chunks_fuel_concat {A} (n : nat) (ls : list (list A)) fuel :
  (0 < n)%nat -> Forall (fun c => length c = n) ls -> (length ls <= fuel)%nat ->
  chunks_fuel fuel n (concat ls) = ls.
Proof.
  intros Hn. revert fuel. induction ls as [|c ls IH]; intros fuel Hf Hlen; cbn.
  - destruct fuel; cbn; [done|]. case_bool_decide; [done|]. cbn in *. lia.
  - apply Forall_cons_1 in Hf as [Hc Hf]. cbn in Hlen. destruct fuel as [|fuel]; [lia|]. cbn.
    rewrite bool_decide_eq_false_2 by (rewrite length_app; lia).
    rewrite take_app_length' by done. rewrite drop_app_length' by done.
    rewrite IH; [done|done|lia].
Qed.
Lemma chunks_exact_concat {A} (n : nat) (ls : list (list A)) :
  (0 < n)%nat -> Forall (fun c => length c = n) ls -> chunks_exact n (concat ls) = ls.
Proof.
  intros Hn Hf. unfold chunks_exact. apply chunks_fuel_concat; [done..|].
  clear - Hn Hf. induction Hf as [|c ls Hc _ IH]; cbn; [lia|]. rewrite length_app. lia.
Qed.

(** ** Iterators *)

(** [Vec::retain] *)
Definition retain {A} (f : A -> bool) (l : list A) : list A := List.filter f l.
(** [iter().position(p)] *)
Fixpoint position {A} (p : A -> bool) (l : list A) : option nat :=
  match l with
  | [] => None
  | x :: l => if p x then Some 0%nat else S <$> position p l
  end.

Lemma retain_In {A} (f : A -> bool) l x : In x (retain f l) <-> In x l /\ f x = true.
Proof. apply List.filter_In. Qed.
Lemma retain_id {A} (f : A -> bool) (l : list A) : (forall x, In x l -> f x = true) -> retain f l = l.
Proof.
  induction l as [|a l IH]; intros H; cbn; [done|].
  rewrite H by (left; done). f_equal. apply IH. intros; apply H; by right.
Qed.
Lemma retain_map_NoDup {A B} (g : A -> B) (f : A -> bool) l :
  List.NoDup (map g l) -> List.NoDup (map g (retain f l)).
Proof.
  induction l as [|a l IH]; cbn; [done|]. inversion 1; subst.
  destruct (f a); cbn; [constructor|]; auto.
  rewrite in_map_iff. intros (x & Hx & [Hin _]%retain_In). apply H2.
  rewrite <- Hx. by apply in_map.
Qed.
Lemma find_app {A} (f : A -> bool) l1 l2 :
  List.find f (l1 ++ l2) = match List.find f l1 with Some x => Some x | None => List.find f l2 end.
Proof. induction l1 as [|a l1 IH]; cbn; [done|]. destruct (f a); auto. Qed.
Lemma find_retain_None {A} (p f : A -> bool) l :
  (forall x, f x = true -> p x = false) -> List.find p (retain f l) = None.
Proof.
  intros H. induction l as [|a l IH]; cbn; [done|]. destruct (f a) eqn:E; cbn; [|done].
  by rewrite (H _ E).
Qed.

(** ** Automation *)

(** Splits the conjunctions and existentials of the context. *)
Ltac split_hyps :=
  repeat match goal with
  | H : _ /\ _ |- _ => destruct H
  | H : exists _, _ |- _ => destruct H
  end.

(** Destructs the innermost match scrutinised by the goal. *)
Ltac case_match_goal :=
  match goal with
  | |- context [match ?x with _ => _ end] =>
      lazymatch x with
      | context [match _ with _ => _ end] => fail
      | _ => destruct x eqn:?
      end
  end.

Create HintDb mitos.
#[export] Hint Resolve to_le_ok to_be_ok no_panic_Ok no_panic_Err no_panic_ok_or : mitos.
#[export] Hint Resolve Forall_app_2 Forall_nil_2 : mitos.
#[export] Hint Unfold bytes_ok : mitos.
Create Rewrite HintDb lens.
#[export] Hint Rewrite @length_app @length_to_be @length_to_le @length_take @length_drop
  @length_replicate : lens.

(** ** Concrete instances *)

(** Settle a decidable closed goal by computation. *)
Ltac by_decision :=
  match goal with |- ?P => refine (bool_decide_unpack P _); vm_compute; exact I end.

(** ** Stable sorting *)

(** [sort_by] is stable: an element goes before the equal ones that follow it. *)
Fixpoint insert_by {A} (le : A -> A -> bool) (x : A) (l : list A) : list A :=
  match l with
  | [] => [x]
  | y :: l' => if le x y then x :: l else y :: insert_by le x l'
  end.
Definition sort_by {A} (le : A -> A -> bool) (l : list A) : list A := foldr (insert_by le) [] l.

Section StableSort.
Context {A : Type} (le : A -> A -> bool).
Hypothesis le_total : forall x y, le x y = true \/ le y x = true.
Hypothesis le_trans : forall x y z, le x y = true -> le y z = true -> le x z = true.

Lemma insert_by_head x l :
  head (insert_by le x l) = match head l with
                            | Some y => if le x y then Some x else Some y
                            | None => Some x
                            end.
Proof. destruct l as [|y l]; cbn; [done|]. by destruct (le x y). Qed.

(** The head is the first of the least elements. *)
Lemma sort_by_head l :
  match head (sort_by le l) with
  | Some p => exists l1 l2, l = l1 ++ p :: l2
      /\ (forall q, In q l1 -> le q p = false) /\ (forall q, In q l -> le p q = true)
  | None => l = []
  end.
Proof using le_total le_trans.
  induction l as [|x l IH]; [done|]. cbn [sort_by foldr]. fold (sort_by le l).
  rewrite insert_by_head. destruct (head (sort_by le l)) as [p|].
  - destruct IH as (l1 & l2 & -> & H1 & H2).
    assert (Hr : forall y, le y y = true) by (intros y; by destruct (le_total y y)).
    destruct (le x p) eqn:E.
    + exists [], (l1 ++ p :: l2). split_and!; [done|done|].
      intros q [<-|Hq]; [done|]. eauto.
    + assert (Hpx : le p x = true) by (destruct (le_total x p); congruence).
      exists (x :: l1), l2. split_and!; [done| |].
      * intros q [<-|Hq]; [done|auto].
      * intros q [<-|Hq]; auto.
  - subst l. exists [], []. split_and!; [done|done|]. intros q [<-|[]].
    by destruct (le_total x x).
Qed.
Lemma insert_by_perm x l : insert_by le x l ≡ₚ x :: l.
Proof. induction l as [|y l IH]; cbn; [done|]. destruct (le x y); [done|]. rewrite IH. apply perm_swap. Qed.
Lemma sort_by_perm l : sort_by le l ≡ₚ l.
Proof. induction l as [|x l IH]; cbn; [done|]. by rewrite insert_by_perm, IH. Qed.
Lemma insert_by_sorted x l :
  StronglySorted (fun a b => le a b = true) l -> StronglySorted (fun a b => le a b = true) (insert_by le x l).
Proof using le_total le_trans.
  induction 1 as [|y l Hl IH Hy]; cbn; [by repeat constructor|]. destruct (le x y) eqn:E.
  - constructor; [by constructor|]. constructor; [done|]. eapply List.Forall_impl; [|exact Hy]. eauto.
  - constructor; [done|]. apply List.Forall_forall. intros z Hz. rewrite List.Forall_forall in Hy.
    apply (Permutation_in _ (insert_by_perm x l)) in Hz as [<-|Hz]; [|by apply Hy].
    by destruct (le_total x y); congruence.
Qed.
Lemma sort_by_sorted l : StronglySorted (fun a b => le a b = true) (sort_by le l).
Proof using le_total le_trans. induction l as [|x l IH]; cbn; [constructor|]. by apply insert_by_sorted. Qed.
End StableSort.
