(* ===== verification/RustStr.v ===== *)
(** * Rust strings

    A [String]/[&str] is its UTF-8 byte sequence, held in a [string]: [len] is
    the number of bytes, and a search for an ASCII character is a search for
    its byte, since no multi-byte UTF-8 sequence contains one.  Operations that
    look at [char]s decode first ([chars]).  The file holds the operations of
    [str], [char] and the integer parsers the sources use, with the lemmas the
    components need about them. *)

From Stdlib Require Import Ascii String.
From S2P Require Import Prelude.

#[global] Arguments String.append !_ _ / : simpl nomatch.

(** ** Bytes *)

Definition byte_of (a : ascii) : Z := Z.of_N (N_of_ascii a).
Definition ascii_of (z : Z) : ascii := ascii_of_N (Z.to_N z).

Fixpoint str_bytes (s : string) : list Z :=
  match s with
  | EmptyString => []
  | String a s => byte_of a :: str_bytes s
  end.
Fixpoint bytes_str (l : list Z) : string :=
  match l with
  | [] => EmptyString
  | b :: l => String (ascii_of b) (bytes_str l)
  end.
Definition str_len (s : string) : nat := String.length s.

Lemma byte_of_range a : is_u8 (byte_of a).
Proof.
  unfold byte_of, is_uint. change (2 ^ 8) with 256.
  pose proof (N_ascii_bounded a). lia.
Qed.
Lemma ascii_of_byte_of a : ascii_of (byte_of a) = a.
Proof. unfold ascii_of, byte_of. by rewrite N2Z.id, ascii_N_embedding. Qed.
Lemma byte_of_ascii_of z : is_u8 z -> byte_of (ascii_of z) = z.
Proof.
  unfold is_uint. change (2 ^ 8) with 256. intros H. unfold ascii_of, byte_of.
  rewrite N_ascii_embedding by lia. lia.
Qed.
Lemma byte_of_inj a b : byte_of a = byte_of b -> a = b.
Proof. intros H. by rewrite <- (ascii_of_byte_of a), H, ascii_of_byte_of. Qed.

Lemma str_bytes_ok s : bytes_ok (str_bytes s).
Proof. induction s; cbn; constructor; [apply byte_of_range|done]. Qed.
Lemma bytes_str_bytes s : bytes_str (str_bytes s) = s.
Proof. induction s; cbn; [done|]. by rewrite ascii_of_byte_of, IHs. Qed.
Lemma str_bytes_str l : bytes_ok l -> str_bytes (bytes_str l) = l.
Proof. induction 1; cbn; [done|]. by rewrite byte_of_ascii_of, IHForall. Qed.
Lemma length_str_bytes s : length (str_bytes s) = str_len s.
Proof. unfold str_len. induction s; cbn; auto. Qed.
Lemma str_bytes_app s t : str_bytes (s ++ t)%string = str_bytes s ++ str_bytes t.
Proof. induction s; cbn; [done|]. by rewrite IHs. Qed.
Lemma str_len_app s t : str_len (s ++ t)%string = (str_len s + str_len t)%nat.
Proof. unfold str_len. induction s as [|a s IH]; cbn; [done|]. by rewrite IH. Qed.
Lemma str_app_assoc (r s t : string) : ((r ++ s) ++ t = r ++ (s ++ t))%string.
Proof. induction r; cbn; [done|]. by f_equal. Qed.
Lemma str_app_nil_r (s : string) : (s ++ "" = s)%string.
Proof. induction s; cbn; [done|]. by f_equal. Qed.

#[export] Hint Resolve str_bytes_ok byte_of_range : mitos.

(** ** Code points *)

Definition encode_char (c : Z) : list Z :=
  if c <? 128 then [c]
  else if c <? 2048 then [192 + c / 64; 128 + c mod 64]
  else if c <? 65536 then [224 + c / 4096; 128 + (c / 64) mod 64; 128 + c mod 64]
  else [240 + c / 262144; 128 + (c / 4096) mod 64; 128 + (c / 64) mod 64; 128 + c mod 64].

Definition is_cont (b : Z) : bool := (128 <=? b) && (b <? 192).

(** One step of UTF-8 decoding as [core::str] does it: the code point and the
    bytes it takes, or the length of the maximal invalid prefix. *)
Definition decode_step (l : list Z) : option (Z * nat) + nat :=
  match l with
  | [] => inl None
  | b0 :: r =>
      if b0 <? 128 then inl (Some (b0, 1%nat))
      else if (194 <=? b0) && (b0 <? 224) then
        match r with
        | b1 :: _ => if is_cont b1 then inl (Some ((b0 - 192) * 64 + (b1 - 128), 2%nat)) else inr 1%nat
        | [] => inr 1%nat
        end
      else if (224 <=? b0) && (b0 <? 240) then
        match r with
        | b1 :: r1 =>
            let lo := if b0 =? 224 then 160 else 128 in
            let hi := if b0 =? 237 then 160 else 192 in
            if (lo <=? b1) && (b1 <? hi) then
              match r1 with
              | b2 :: _ =>
                  if is_cont b2
                  then inl (Some ((b0 - 224) * 4096 + (b1 - 128) * 64 + (b2 - 128), 3%nat))
                  else inr 2%nat
              | [] => inr 2%nat
              end
            else inr 1%nat
        | [] => inr 1%nat
        end
      else if (240 <=? b0) && (b0 <? 245) then
        match r with
        | b1 :: r1 =>
            let lo := if b0 =? 240 then 144 else 128 in
            let hi := if b0 =? 244 then 144 else 192 in
            if (lo <=? b1) && (b1 <? hi) then
              match r1 with
              | b2 :: r2 =>
                  if is_cont b2 then
                    match r2 with
                    | b3 :: _ =>
                        if is_cont b3
                        then inl (Some ((b0 - 240) * 262144 + (b1 - 128) * 4096
                                        + (b2 - 128) * 64 + (b3 - 128), 4%nat))
                        else inr 3%nat
                    | [] => inr 3%nat
                    end
                  else inr 2%nat
              | [] => inr 2%nat
              end
            else inr 1%nat
        | [] => inr 1%nat
        end
      else inr 1%nat
  end.

Fixpoint decode_fuel (fuel : nat) (l : list Z) : list Z :=
  match fuel with
  | O => []
  | S fuel =>
      match decode_step l with
      | inl None => []
      | inl (Some (c, n)) => c :: decode_fuel fuel (drop n l)
      | inr n => 65533 :: decode_fuel fuel (drop n l)
      end
  end.

(** [String::from_utf8_lossy(b).chars()]: every maximal invalid prefix becomes
    U+FFFD. *)
Definition lossy_chars (l : list Z) : list Z := decode_fuel (length l) l.
Definition of_chars (cs : list Z) : string := bytes_str (concat (map encode_char cs)).
Definition from_utf8_lossy (l : list Z) : string := of_chars (lossy_chars l).
(** [s.chars()] *)
Definition chars (s : string) : list Z := lossy_chars (str_bytes s).

Lemma decode_fuel_ascii l fuel :
  Forall (fun b => 0 <= b < 128) l -> (length l <= fuel)%nat -> decode_fuel fuel l = l.
Proof.
  revert fuel. induction l as [|b l IH]; intros fuel Hl Hf; cbn in *.
  - by destruct fuel.
  - apply Forall_cons_1 in Hl as [Hb Hl]. destruct fuel as [|fuel]; [lia|]. cbn.
    rewrite (proj2 (Z.ltb_lt b 128)) by lia. cbn. rewrite drop_0, IH; [done|done|lia].
Qed.
Lemma lossy_ascii l : Forall (fun b => 0 <= b < 128) l -> lossy_chars l = l.
Proof. intros. by apply decode_fuel_ascii. Qed.
Lemma of_chars_ascii l : Forall (fun b => 0 <= b < 128) l -> of_chars l = bytes_str l.
Proof.
  intros H. unfold of_chars. f_equal. induction H as [|b l Hb _ IH]; cbn; [done|].
  unfold encode_char at 1. rewrite (proj2 (Z.ltb_lt b 128)) by lia. cbn. by rewrite IH.
Qed.
Lemma from_utf8_lossy_ascii l :
  Forall (fun b => 0 <= b < 128) l -> from_utf8_lossy l = bytes_str l.
Proof. intros H. unfold from_utf8_lossy. by rewrite lossy_ascii, of_chars_ascii. Qed.

Definition is_ascii_str (s : string) : bool := forallb (fun b => b <? 128) (str_bytes s).
Lemma from_utf8_lossy_str s : is_ascii_str s = true -> from_utf8_lossy (str_bytes s) = s.
Proof.
  intros H. rewrite from_utf8_lossy_ascii, bytes_str_bytes; [done|].
  apply List.Forall_forall. intros b Hb.
  unfold is_ascii_str in H. rewrite forallb_forall in H. specialize (H _ Hb).
  pose proof (str_bytes_ok s) as Ho. unfold bytes_ok in Ho. rewrite List.Forall_forall in Ho.
  specialize (Ho b Hb). unfold is_uint in Ho. lia.
Qed.
(** An ASCII prefix is kept as it is. *)
Lemma from_utf8_lossy_prefix s rest : is_ascii_str s = true -> from_utf8_lossy (str_bytes s ++ rest) = (s ++ from_utf8_lossy rest)%string.
Proof.
  intros Hs. unfold from_utf8_lossy. assert (E : forall l, forallb (fun b => b <? 128) l = true -> lossy_chars (l ++ rest) = l ++ lossy_chars rest).
  { unfold lossy_chars. induction l as [|b l IH]; [done|]. cbn. intros [Hb Hl]%andb_true_iff. rewrite Hb. cbn. by rewrite drop_0, IH. }
  rewrite E by done. unfold of_chars. rewrite map_app, concat_app. unfold is_ascii_str in Hs.
  assert (Ec : concat (map encode_char (str_bytes s)) = str_bytes s).
  { induction (str_bytes s) as [|b l IH]; [done|]. cbn in Hs |- *. apply andb_true_iff in Hs as [Hb Hs].
    unfold encode_char at 1. rewrite Hb. cbn. by rewrite IH. }
  rewrite Ec. transitivity (bytes_str (str_bytes s) ++ bytes_str (concat (map encode_char (lossy_chars rest))))%string; [|by rewrite bytes_str_bytes].
  clear. induction (str_bytes s) as [|b l IH]; [done|]. cbn. by rewrite IH.
Qed.

Lemma decode_step_high b r :
  128 <= b -> match decode_step (b :: r) with
              | inl (Some (c, _)) => 128 <= c | inl None => False | inr _ => True end.
Proof.
  intros Hb. cbn [decode_step]. rewrite (proj2 (Z.ltb_ge b 128)) by lia.
  repeat case_match; unfold is_cont in *; simplify_eq; try done; lia.
Qed.
(** Text whose characters are all ASCII is its own bytes. *)
Lemma decode_fuel_ascii_inv l fuel :
  (length l <= fuel)%nat -> Forall (fun c => c < 128) (decode_fuel fuel l) -> decode_fuel fuel l = l.
Proof.
  revert fuel. induction l as [|b l IH]; intros fuel Hf Ha.
  - by destruct fuel.
  - destruct fuel as [|fuel]; [cbn in Hf; lia|]. cbn [decode_fuel] in *.
    destruct (Z_lt_le_dec b 128) as [Hb|Hb].
    + cbn [decode_step] in *. rewrite (proj2 (Z.ltb_lt b 128)) in * by lia. cbn [drop] in *.
      rewrite drop_0 in *. apply Forall_cons_1 in Ha as [_ Ha]. rewrite IH; [done| |done]. cbn in Hf. lia.
    + pose proof (decode_step_high b l Hb) as Hd.
      destruct (decode_step (b :: l)) as [[[c n]|]|n]; [|done|];
        apply Forall_cons_1 in Ha as [Ha _]; lia.
Qed.
(** A step past a high byte takes high bytes only, so an ASCII byte is always a
    character of its own. *)
Lemma decode_step_taken b r :
  128 <= b -> exists n, (1 <= n)%nat /\ Forall (fun x => 128 <= x) (take n (b :: r))
    /\ (decode_step (b :: r) = inr n \/ exists c, decode_step (b :: r) = inl (Some (c, n))).
Proof.
  intros Hb. cbn [decode_step]. rewrite (proj2 (Z.ltb_ge b 128)) by lia.
  repeat case_match; eexists; (split; [|split; [|eauto]]); try lia; unfold is_cont in *;
    repeat (apply Forall_cons_2; [lia|]); apply Forall_nil_2.
Qed.
Lemma decode_fuel_keeps_ascii l fuel b :
  (length l <= fuel)%nat -> In b l -> b < 128 -> In b (decode_fuel fuel l).
Proof.
  revert l. induction fuel as [|fuel IH]; intros l Hf Hin Hb; (destruct l as [|x l]; [done|]); [cbn in Hf; lia|].
  cbn [decode_fuel]. destruct (Z_lt_le_dec x 128) as [Hx|Hx].
  - cbn [decode_step]. rewrite (proj2 (Z.ltb_lt x 128)) by lia. cbn [drop]. rewrite drop_0.
    destruct Hin as [->|Hin]; [by left|right]. apply IH; [cbn in Hf; lia|done|done].
  - destruct (decode_step_taken x l Hx) as (n & Hn & Hh & Hd).
    assert (Hr : In b (drop n (x :: l))).
    { rewrite <- (take_drop n (x :: l)) in Hin. apply in_app_or in Hin as [Hin|Hin]; [|done].
      rewrite List.Forall_forall in Hh. specialize (Hh b Hin). lia. }
    assert (Hl : (length (drop n (x :: l)) <= fuel)%nat) by (rewrite length_drop; cbn [length] in *; lia).
    destruct Hd as [->|[c ->]]; right; by apply IH.
Qed.
Lemma chars_keep_ascii s b : In b (str_bytes s) -> b < 128 -> In b (chars s).
Proof. intros. by apply decode_fuel_keeps_ascii. Qed.
Lemma chars_forallb (P : Z -> bool) s :
  (forall c, P c = true -> c < 128) -> forallb P (chars s) = true ->
  chars s = str_bytes s /\ forallb P (str_bytes s) = true.
Proof.
  intros HP H. assert (chars s = str_bytes s) as E.
  { apply decode_fuel_ascii_inv; [done|]. apply List.Forall_forall. intros c Hc. apply HP.
    rewrite forallb_forall in H. by apply H. }
  split; [done|]. by rewrite <- E.
Qed.

(** ** Characters *)

Definition is_digit (b : Z) : bool := (48 <=? b) && (b <=? 57).
Definition is_upper (b : Z) : bool := (65 <=? b) && (b <=? 90).
Definition is_lower (b : Z) : bool := (97 <=? b) && (b <=? 122).
Definition is_ascii_alpha (b : Z) : bool := is_upper b || is_lower b.
Definition is_ascii_alphanumeric (b : Z) : bool := is_ascii_alpha b || is_digit b.
Definition is_ascii_hexdigit (b : Z) : bool :=
  is_digit b || ((65 <=? b) && (b <=? 70)) || ((97 <=? b) && (b <=? 102)).

(** [char::is_whitespace]: the Unicode White_Space property. *)
Definition is_whitespace (c : Z) : bool :=
  ((9 <=? c) && (c <=? 13)) || (c =? 32) || (c =? 133) || (c =? 160) || (c =? 5760)
  || ((8192 <=? c) && (c <=? 8202)) || (c =? 8232) || (c =? 8233) || (c =? 8239)
  || (c =? 8287) || (c =? 12288).

Definition lower_byte (b : Z) : Z := if is_upper b then b + 32 else b.
Definition upper_byte (b : Z) : Z := if is_lower b then b - 32 else b.
Definition to_ascii_lowercase (s : string) : string := bytes_str (map lower_byte (str_bytes s)).
Definition to_ascii_uppercase (s : string) : string := bytes_str (map upper_byte (str_bytes s)).

(** ** Searching and splitting *)

Definition contains_char (c : ascii) (s : string) : bool :=
  existsb (Z.eqb (byte_of c)) (str_bytes s).

Fixpoint strip_prefix (p s : string) : option string :=
  match p, s with
  | EmptyString, s => Some s
  | String a p, String b s => if Ascii.eqb a b then strip_prefix p s else None
  | _, EmptyString => None
  end.
Definition starts_with (p s : string) : bool := bool_decide (is_Some (strip_prefix p s)).
Definition str_rev (s : string) : string := bytes_str (rev (str_bytes s)).
Definition ends_with (p s : string) : bool := starts_with (str_rev p) (str_rev s).

(** [s.split_once(c)] *)
Fixpoint split_once (c : ascii) (s : string) : option (string * string) :=
  match s with
  | EmptyString => None
  | String a r =>
      if Ascii.eqb a c then Some (EmptyString, r)
      else match split_once c r with
           | Some (x, y) => Some (String a x, y)
           | None => None
           end
  end.
(** [s.split_once(pat)] for a string pattern *)
Fixpoint split_once_str (p : string) (s : string) : option (string * string) :=
  match strip_prefix p s with
  | Some r => Some (EmptyString, r)
  | None =>
      match s with
      | EmptyString => None
      | String a s =>
          match split_once_str p s with
          | Some (x, y) => Some (String a x, y)
          | None => None
          end
      end
  end.
(** [s.rsplit_once(c)] *)
Definition rsplit_once (c : ascii) (s : string) : option (string * string) :=
  match split_once c (str_rev s) with
  | Some (x, y) => Some (str_rev y, str_rev x)
  | None => None
  end.
(** [s.split(f)] for a byte predicate *)
Fixpoint split_by (f : ascii -> bool) (s : string) : list string :=
  match s with
  | EmptyString => [EmptyString]
  | String a r =>
      if f a then EmptyString :: split_by f r
      else match split_by f r with
           | x :: xs => String a x :: xs
           | [] => [String a EmptyString]
           end
  end.
Definition split (c : ascii) (s : string) : list string := split_by (Ascii.eqb c) s.

Definition join (sep : string) (l : list string) : string :=
  match l with
  | [] => EmptyString
  | x :: l => fold_left (fun acc y => (acc ++ sep ++ y)%string) l x
  end.

Fixpoint drop_while (f : Z -> bool) (l : list Z) : list Z :=
  match l with
  | [] => []
  | x :: r => if f x then drop_while f r else l
  end.
Definition trim_end (s : string) : string :=
  of_chars (rev (drop_while is_whitespace (rev (chars s)))).
Definition trim (s : string) : string :=
  of_chars (rev (drop_while is_whitespace (rev (drop_while is_whitespace (chars s))))).
(** [s.trim_end_matches('\0')] *)
Definition trim_end_nul (s : string) : string :=
  bytes_str (rev (drop_while (Z.eqb 0) (rev (str_bytes s)))).

Lemma split_once_spec c s :
  match split_once c s with
  | Some (x, y) => s = (x ++ String c y)%string /\ contains_char c x = false
  | None => contains_char c s = false
  end.
Proof.
  induction s as [|a s IH]; cbn; [done|].
  destruct (Ascii.eqb_spec a c) as [->|Hne]; [done|].
  assert ((byte_of c =? byte_of a) = false) as E.
  { apply Z.eqb_neq. intros H. apply Hne. symmetry. by apply byte_of_inj. }
  destruct (split_once c s) as [[x y]|]; unfold contains_char in *; cbn; rewrite E; cbn.
  - destruct IH as [-> ?]. done.
  - done.
Qed.

Lemma split_once_app c x y :
  contains_char c x = false -> split_once c (x ++ String c y)%string = Some (x, y).
Proof.
  induction x as [|a x IH]; cbn; intros H.
  - by rewrite Ascii.eqb_refl.
  - unfold contains_char in *. cbn in H. apply orb_false_elim in H as [Ha Hx].
    destruct (Ascii.eqb_spec a c) as [->|_]; [by rewrite Z.eqb_refl in Ha|].
    by rewrite IH.
Qed.
Lemma split_once_None c s : contains_char c s = false -> split_once c s = None.
Proof.
  intros H. pose proof (split_once_spec c s) as Hs. destruct (split_once c s) as [[x y]|]; [|done].
  destruct Hs as [-> _]. unfold contains_char in H. rewrite str_bytes_app, existsb_app in H.
  cbn in H. rewrite Z.eqb_refl, orb_true_r in H. done.
Qed.
Lemma contains_char_app c s t :
  contains_char c (s ++ t)%string = contains_char c s || contains_char c t.
Proof. unfold contains_char. by rewrite str_bytes_app, existsb_app. Qed.

(** [contains] on bytes and on characters. *)
Lemma contains_char_ascii c s : contains_char c s = existsb (Ascii.eqb c) (list_ascii_of_string s).
Proof.
  unfold contains_char. induction s as [|a s IH]; [done|]. cbn [str_bytes list_ascii_of_string existsb]. rewrite IH. f_equal.
  destruct (Ascii.eqb_spec c a) as [->|Hne]; [apply Z.eqb_refl|]. apply Z.eqb_neq. intros Hc. by apply byte_of_inj in Hc.
Qed.
Lemma strip_prefix_Some p s r : strip_prefix p s = Some r <-> s = (p ++ r)%string.
Proof.
  revert s. induction p as [|a p IH]; intros s; cbn.
  - split; congruence.
  - destruct s as [|b s]; [done|]. destruct (Ascii.eqb_spec a b) as [->|Hne].
    + rewrite IH. split; congruence.
    + split; [done|]. congruence.
Qed.
Lemma starts_with_spec p s : starts_with p s = true <-> exists r, s = (p ++ r)%string.
Proof.
  unfold starts_with. rewrite bool_decide_eq_true. unfold is_Some.
  split; intros [r Hr]; exists r; by apply strip_prefix_Some.
Qed.
Lemma str_bytes_rev s : str_bytes (str_rev s) = rev (str_bytes s).
Proof. unfold str_rev. apply str_bytes_str. apply Forall_rev, str_bytes_ok. Qed.
Lemma str_bytes_inj s t : str_bytes s = str_bytes t -> s = t.
Proof. intros H. by rewrite <- (bytes_str_bytes s), H, bytes_str_bytes. Qed.
Lemma str_rev_app s t : str_rev (s ++ t)%string = (str_rev t ++ str_rev s)%string.
Proof.
  apply str_bytes_inj. rewrite str_bytes_app, !str_bytes_rev, str_bytes_app. apply rev_app_distr.
Qed.
Lemma str_rev_involutive s : str_rev (str_rev s) = s.
Proof. apply str_bytes_inj. rewrite !str_bytes_rev. apply rev_involutive. Qed.
Lemma ends_with_spec p s : ends_with p s = true <-> exists r, s = (r ++ p)%string.
Proof.
  unfold ends_with. rewrite starts_with_spec. split; intros [r Hr].
  - exists (str_rev r). rewrite <- (str_rev_involutive s), Hr, str_rev_app.
    by rewrite str_rev_involutive.
  - exists (str_rev r). by rewrite Hr, str_rev_app.
Qed.

Lemma contains_char_rev c s : contains_char c (str_rev s) = contains_char c s.
Proof.
  unfold contains_char. rewrite str_bytes_rev. induction (str_bytes s) as [|b l IH]; cbn; [done|].
  rewrite existsb_app, IH. cbn. rewrite orb_false_r. apply orb_comm.
Qed.
Lemma rsplit_once_spec c s :
  match rsplit_once c s with
  | Some (x, y) => s = (x ++ String c y)%string /\ contains_char c y = false
  | None => contains_char c s = false
  end.
Proof.
  unfold rsplit_once. pose proof (split_once_spec c (str_rev s)) as H.
  destruct (split_once c (str_rev s)) as [[x y]|].
  - destruct H as [H Hx]. rewrite contains_char_rev. split; [|done].
    rewrite <- (str_rev_involutive s), H. change (String c y) with (String c "" ++ y)%string.
    rewrite !str_rev_app, str_app_assoc. f_equal. apply str_bytes_inj.
    rewrite str_bytes_app, str_bytes_rev. done.
  - by rewrite contains_char_rev in H.
Qed.
Lemma str_app_inj_l (x y z : string) : (x ++ y = x ++ z)%string -> y = z.
Proof. induction x as [|a x IH]; cbn; intros H; [done|]. injection H. apply IH. Qed.

Definition free_of (f : ascii -> bool) (s : string) : bool := negb (existsb f (list_ascii_of_string s)).
Lemma split_by_free f s : free_of f s = true -> split_by f s = [s].
Proof.
  unfold free_of. induction s as [|a s IH]; cbn; [done|]. destruct (f a); [done|]. cbn.
  intros H. by rewrite IH.
Qed.
Lemma split_by_app f x c y :
  free_of f x = true -> f c = true -> split_by f (x ++ String c y)%string = x :: split_by f y.
Proof.
  unfold free_of. intros Hx Hc. induction x as [|a x IH]; cbn in *; [by rewrite Hc|].
  destruct (f a); [done|]. cbn in Hx. by rewrite IH.
Qed.

Lemma split_by_nonnil f s : split_by f s <> [].
Proof. destruct s as [|a s]; cbn; [done|]. destruct (f a); [done|]. by destruct (split_by f s). Qed.
Lemma split_by_cut f x c y : f c = true -> split_by f (x ++ String c y)%string = split_by f x ++ split_by f y.
Proof.
  intros Hc. induction x as [|a x IH]; cbn; [by rewrite Hc|].
  destruct (f a); [by rewrite IH|]. rewrite IH. pose proof (split_by_nonnil f x). by destruct (split_by f x).
Qed.

(** ** Integers *)

Definition digit_char (d : Z) : ascii := ascii_of (48 + d).
Fixpoint dec_fuel (fuel : nat) (n : Z) (acc : string) : string :=
  match fuel with
  | O => acc
  | S fuel =>
      let acc := String (digit_char (n mod 10)) acc in
      if n <? 10 then acc else dec_fuel fuel (n / 10) acc
  end.
(** [n.to_string()] for an unsigned integer *)
Definition dec (n : Z) : string := dec_fuel (S (Z.to_nat (Z.log2 n))) n "".
(** [n.to_string()] for a signed integer *)
Definition dec_signed (n : Z) : string :=
  if n <? 0 then ("-" ++ dec (- n))%string else dec n.

Definition hex_char (d : Z) : ascii := ascii_of (if d <? 10 then 48 + d else 87 + d).
(** [format!("{b:02x}")] *)
Definition hex2 (b : Z) : string := String (hex_char (b / 16)) (String (hex_char (b mod 16)) "").

Definition to_digit (radix b : Z) : option Z :=
  let d := if is_digit b then Some (b - 48)
           else if is_lower b then Some (b - 87)
           else if is_upper b then Some (b - 55)
           else None in
  match d with
  | Some d => if d <? radix then Some d else None
  | None => None
  end.

Fixpoint digits_value (radix : Z) (acc : Z) (l : list Z) : option Z :=
  match l with
  | [] => Some acc
  | b :: l =>
      match to_digit radix b with
      | Some d => digits_value radix (acc * radix + d) l
      | None => None
      end
  end.
(** [uN::from_str_radix(s, radix)]: an optional ['+'], then digits; out of the
    type's range is an error. *)
Definition parse_uint_radix (bits radix : Z) (s : string) : option Z :=
  let l := str_bytes s in
  let l := match l with 43 :: r => r | _ => l end in
  match l with
  | [] => None
  | _ =>
      match digits_value radix 0 l with
      | Some n => if n <? 2 ^ bits then Some n else None
      | None => None
      end
  end.
Definition parse_uint (bits : Z) (s : string) : option Z := parse_uint_radix bits 10 s.

Lemma to_digit_char d : 0 <= d < 10 -> to_digit 10 (byte_of (digit_char d)) = Some d.
Proof.
  intros H. unfold digit_char. rewrite byte_of_ascii_of by (unfold is_uint; lia).
  unfold to_digit, is_digit.
  rewrite (proj2 (Z.leb_le 48 (48 + d))), (proj2 (Z.leb_le (48 + d) 57)) by lia. cbn [andb].
  rewrite (proj2 (Z.ltb_lt _ _)) by lia. f_equal. lia.
Qed.

Lemma str_bytes_dec_fuel fuel n acc :
  str_bytes (dec_fuel fuel n acc) = str_bytes (dec_fuel fuel n "") ++ str_bytes acc.
Proof.
  revert n acc. induction fuel as [|fuel IH]; intros n acc; cbn [dec_fuel]; [done|].
  destruct (n <? 10); [done|]. rewrite IH, (IH _ (String _ "")), <- app_assoc. done.
Qed.

Lemma dec_digits n b : 0 <= n -> In b (str_bytes (dec n)) -> is_digit b = true.
Proof.
  intros Hn. unfold dec. generalize (S (Z.to_nat (Z.log2 n))) as fuel.
  enough (H : forall fuel n acc, 0 <= n -> (forall b, In b (str_bytes acc) -> is_digit b = true) ->
    forall b, In b (str_bytes (dec_fuel fuel n acc)) -> is_digit b = true)
    by (intros fuel; apply H; [done|by intros ? []]).
  clear. induction fuel as [|fuel IH]; intros n acc Hn Hacc; cbn [dec_fuel]; [done|].
  assert (Hs : forall b, In b (str_bytes (String (digit_char (n mod 10)) acc)) -> is_digit b = true).
  { intros b [<-|Hb]; [|auto]. unfold digit_char. pose proof (Z.mod_pos_bound n 10).
    rewrite byte_of_ascii_of by (unfold is_uint; lia). unfold is_digit. lia. }
  destruct (n <? 10); [done|]. apply IH; [apply Z.div_pos; lia|done].
Qed.
Lemma digits_value_app radix acc l1 l2 :
  digits_value radix acc (l1 ++ l2)
  = match digits_value radix acc l1 with Some a => digits_value radix a l2 | None => None end.
Proof.
  revert acc. induction l1 as [|b l1 IH]; intros acc; cbn; [done|].
  destruct (to_digit radix b); [apply IH|done].
Qed.

Lemma digits_value_dec_fuel fuel n :
  0 <= n < 2 ^ Z.of_nat fuel ->
  digits_value 10 0 (str_bytes (dec_fuel fuel n "")) = Some n.
Proof.
  revert n. induction fuel as [|fuel IH]; intros n Hn.
  - cbn in *. f_equal. change (2 ^ 0) with 1 in Hn. lia.
  - cbn [dec_fuel]. pose proof (Z.mod_pos_bound n 10 ltac:(lia)) as Hm.
    pose proof (Z.div_mod n 10 ltac:(lia)) as Hdm.
    destruct (Z.ltb_spec n 10) as [Hlt|Hge].
    + cbn [str_bytes digits_value]. rewrite to_digit_char by lia.
      f_equal. rewrite Z.mod_small; lia.
    + rewrite str_bytes_dec_fuel, digits_value_app, IH.
      * cbn [str_bytes digits_value]. rewrite to_digit_char by lia. f_equal. lia.
      * rewrite Nat2Z.inj_succ, Z.pow_succ_r in Hn by lia. split; [apply Z.div_pos; lia|].
        apply Z.div_lt_upper_bound; lia.
Qed.

Lemma dec_fuel_head fuel n acc :
  (0 < fuel)%nat -> 0 <= n ->
  exists d r, dec_fuel fuel n acc = String (digit_char d) r /\ 0 <= d < 10.
Proof.
  revert n acc. induction fuel as [|fuel IH]; intros n acc Hf Hn; [lia|]. cbn [dec_fuel].
  pose proof (Z.mod_pos_bound n 10 ltac:(lia)) as Hm.
  destruct (n <? 10) eqn:E; [by eauto|]. destruct fuel as [|fuel].
  - cbn. eauto.
  - apply IH; [lia|]. apply Z.div_pos; lia.
Qed.

Lemma parse_uint_dec bits n : is_uint bits n -> parse_uint bits (dec n) = Some n.
Proof.
  unfold is_uint. intros Hn. unfold parse_uint, parse_uint_radix.
  assert (Hv : digits_value 10 0 (str_bytes (dec n)) = Some n).
  { apply digits_value_dec_fuel. split; [lia|].
    destruct (Z.eq_dec n 0) as [->|]; [cbn; lia|].
    rewrite Nat2Z.inj_succ, Z2Nat.id by apply Z.log2_nonneg. apply Z.log2_spec. lia. }
  destruct (dec_fuel_head (S (Z.to_nat (Z.log2 n))) n "") as (d & r & Hd & Hr); [lia|lia|].
  fold (dec n) in Hd. rewrite Hd in Hv |- *. cbn [str_bytes] in *.
  assert (byte_of (digit_char d) = 48 + d) as E.
  { unfold digit_char. apply byte_of_ascii_of. unfold is_uint. lia. }
  rewrite E in *.
  assert (Hc : match 48 + d :: str_bytes r with 43 :: r => r | _ => 48 + d :: str_bytes r end
          = 48 + d :: str_bytes r).
  { destruct (48 + d) as [|p|p] eqn:Ep; [lia| |lia].
    repeat (destruct p as [p|p|]; try reflexivity; try lia). }
  rewrite Hc. rewrite Hv. by rewrite (proj2 (Z.ltb_lt n (2 ^ bits))) by lia.
Qed.
#[global] Arguments dec : simpl never.
#[global] Arguments parse_uint : simpl never.

(** ** Lines, substrings and signed integers *)

(** [s.contains(p)] for a string pattern *)
Definition contains_str (p s : string) : bool := bool_decide (is_Some (split_once_str p s)).

Definition strip_cr (l : string) : string :=
  match rev (str_bytes l) with
  | 13 :: r => bytes_str (rev r)
  | _ => l
  end.
(** [s.lines()]: cut after each ['\n'], an empty last piece dropped, and a
    ['\r'] before the cut dropped with it. *)
Definition lines (s : string) : list string :=
  let parts := split "010" s in
  match rev parts with
  | [] => []
  | lst :: r => map strip_cr (rev r) ++ (if String.eqb lst "" then [] else [lst])
  end.

(** [iN::from_str]: an optional sign, then digits, in the type's range. *)
Definition parse_int (bits : Z) (s : string) : option Z :=
  let l := str_bytes s in
  let '(neg, l) := match l with 45 :: r => (true, r) | 43 :: r => (false, r) | _ => (false, l) end in
  match l with
  | [] => None
  | _ =>
      match digits_value 10 0 l with
      | Some n =>
          let n := if (neg : bool) then - n else n in
          if (- 2 ^ (bits - 1) <=? n) && (n <? 2 ^ (bits - 1)) then Some n else None
      | None => None
      end
  end.

(** [s.split_whitespace()] *)
Fixpoint words_of (word : list Z) (cs : list Z) : list (list Z) :=
  match cs with
  | [] => match word with [] => [] | _ => [word] end
  | c :: cs =>
      if is_whitespace c then (match word with [] => words_of [] cs | _ => word :: words_of [] cs end)
      else words_of (word ++ [c]) cs
  end.
Definition split_whitespace (s : string) : list string := map of_chars (words_of [] (chars s)).

(** ** Text made of visible ASCII characters *)

Definition graphic (b : Z) : bool := (33 <=? b) && (b <=? 126).
(** A word: not empty, and no white space in it. *)
Definition word_ok (s : string) : bool := negb (String.eqb s "") && forallb graphic (str_bytes s).
(** A line of text that [trim] leaves alone. *)
Definition line_ok (s : string) : bool :=
  forallb (fun b => graphic b || (b =? 32)) (str_bytes s)
  && match str_bytes s with b :: _ => graphic b | [] => false end
  && match rev (str_bytes s) with b :: _ => graphic b | [] => false end.

Lemma graphic_not_space b : graphic b = true -> is_whitespace b = false.
Proof. unfold graphic, is_whitespace. lia. Qed.
Lemma ascii_line (P : Z -> bool) s :
  (forall b, P b = true -> b < 128) -> forallb P (str_bytes s) = true -> chars s = str_bytes s /\ of_chars (str_bytes s) = s.
Proof.
  intros HP Hs. assert (Ha : Forall (fun b => 0 <= b < 128) (str_bytes s)).
  { apply List.Forall_forall. intros b Hb. rewrite forallb_forall in Hs. specialize (HP b (Hs b Hb)).
    pose proof (str_bytes_ok s) as Ho. unfold bytes_ok in Ho. rewrite List.Forall_forall in Ho.
    specialize (Ho b Hb). unfold is_uint in Ho. lia. }
  split; [by apply lossy_ascii|]. by rewrite of_chars_ascii, bytes_str_bytes.
Qed.
Lemma drop_while_head f l : match l with b :: _ => f b = false | [] => True end -> drop_while f l = l.
Proof. destruct l as [|b l]; cbn; [done|]. by intros ->. Qed.
Lemma trim_line s : line_ok s = true -> trim s = s.
Proof.
  unfold line_ok, trim. intros H. apply andb_true_iff in H as [[Ha Hf]%andb_true_iff Hl].
  destruct (ascii_line (fun b => graphic b || (b =? 32)) s) as [Hc Ho]; [unfold graphic; lia|done|]. rewrite Hc.
  rewrite (drop_while_head _ (str_bytes s)).
  - rewrite drop_while_head; [by rewrite rev_involutive|]. destruct (rev (str_bytes s)); [done|]. by apply graphic_not_space.
  - destruct (str_bytes s); [done|]. by apply graphic_not_space.
Qed.
Lemma word_line s : word_ok s = true -> line_ok s = true.
Proof.
  unfold word_ok, line_ok. intros [Hn Hw]%andb_true_iff.
  assert (Hg : forall b, In b (str_bytes s) -> graphic b = true) by (by apply forallb_forall).
  apply andb_true_iff. split; [apply andb_true_iff; split|].
  - apply forallb_forall. intros b Hb. by rewrite Hg.
  - destruct s as [|a s]; [done|]. apply Hg. by left.
  - destruct (rev (str_bytes s)) as [|b l] eqn:E; [|apply Hg; rewrite in_rev, E; by left].
    apply (f_equal (@rev Z)) in E. rewrite rev_involutive in E. by destruct s.
Qed.
Lemma words_of_word w cs :
  forallb graphic cs = true -> words_of w cs = match w ++ cs with [] => [] | l => [l] end.
Proof.
  revert w. induction cs as [|c cs IH]; intros w; cbn.
  - intros _. rewrite app_nil_r. by destruct w.
  - intros [Hc Hcs]%andb_true_iff. rewrite (graphic_not_space c Hc), IH by done. by rewrite <- app_assoc.
Qed.
Lemma words_of_space w l cs :
  forallb graphic l = true -> w ++ l <> [] -> words_of w (l ++ 32 :: cs) = (w ++ l) :: words_of [] cs.
Proof.
  revert w. induction l as [|c l IH]; intros w; cbn.
  - intros _. rewrite app_nil_r. by destruct w.
  - intros [Hc Hl]%andb_true_iff Hn. rewrite (graphic_not_space c Hc), IH by (done || by destruct w). by rewrite <- app_assoc.
Qed.

(** Lines that end in a line break. *)
Lemma lines_cons x y :
  forallb (fun b => negb (b =? 10)) (str_bytes x) = true ->
  lines (x ++ String "010" y)%string = strip_cr x :: lines y.
Proof.
  intros Hx. unfold lines, split. rewrite split_by_app; [|unfold free_of|done].
  - pose proof (split_by_nonnil (Ascii.eqb "010") y) as Hn. cbn [rev].
    destruct (rev (split_by (Ascii.eqb "010") y)) as [|b r] eqn:E.
    + apply (f_equal (@rev string)) in E. by rewrite rev_involutive in E.
    + cbn [app]. rewrite rev_app_distr. done.
  - clear y. induction x as [|a x IH]; cbn [list_ascii_of_string existsb str_bytes forallb] in *; [done|]. apply andb_true_iff in Hx as [Ha Hx].
    destruct (Ascii.eqb_spec "010" a) as [<-|_]; [done|]. by apply IH.
Qed.
