(* ===== verification/IpAddr.v ===== *)
(** * IP addresses and IPv4/IPv6 arithmetic

    [std::net] addresses (an [Ipv4Addr] is its 32-bit value, an [Ipv6Addr] its
    128-bit value), their [FromStr] and [Display], and the address arithmetic
    of ip/ipv4.rs, ip/ipv6.rs, ip/mod.rs and [parse_cidr] of ip/address.rs. *)

From Stdlib Require Import Ascii String.
From S2P Require Import Prelude RustStr.

(** ** The address types of [std::net] *)

Inductive IpAddr := V4 (a : Z) | V6 (a : Z).
#[export] Instance IpAddr_eq_dec : EqDecision IpAddr.
Proof. solve_decision. Defined.

Definition ip_ok (ip : IpAddr) : Prop :=
  match ip with V4 a => is_uint 32 a | V6 a => is_uint 128 a end.
Definition is_ipv4 (ip : IpAddr) : bool := match ip with V4 _ => true | V6 _ => false end.
Definition is_ipv6 (ip : IpAddr) : bool := negb (is_ipv4 ip).

Definition octets4 (a : Z) : list Z := to_be 4 a.
Definition octets6 (a : Z) : list Z := to_be 16 a.
Definition ipv4_new (a b c d : Z) : Z := from_be [a; b; c; d].
(** [Ipv6Addr::new] *)
Definition ipv6_new (segs : list Z) : Z := from_be (concat (map (to_be 2) segs)).
Definition segments (a : Z) : list Z := map from_be (chunks_exact 2 (octets6 a)).

#[global] Arguments octets4 : simpl never.
#[global] Arguments octets6 : simpl never.
#[global] Arguments ipv4_new : simpl never.
#[global] Arguments ipv6_new : simpl never.

(** ** [FromStr]

    The readers of [core::net::parser] take the remaining input and give the
    value read with what is left. *)

Fixpoint read_digits (fuel : nat) (radix bits : Z) (max : nat) (acc : Z) (count : nat) (l : list Z)
  : option (Z * nat * list Z) :=
  match fuel with
  | O => None
  | S fuel =>
      match l with
      | b :: r =>
          match to_digit radix b with
          | Some d =>
              let acc := acc * radix + d in
              if 2 ^ bits <=? acc then None
              else if bool_decide (max < S count)%nat then None
              else read_digits fuel radix bits max acc (S count) r
          | None => Some (acc, count, l)
          end
      | [] => Some (acc, count, l)
      end
  end.

Definition read_number (radix bits : Z) (max : nat) (allow_zero_prefix : bool) (l : list Z)
  : option (Z * list Z) :=
  let leading_zero := match l with 48 :: _ => true | _ => false end in
  match read_digits (S (length l)) radix bits max 0 0 l with
  | Some (n, count, r) =>
      if bool_decide (count = 0%nat) then None
      else if negb allow_zero_prefix && leading_zero && bool_decide (1 < count)%nat then None
      else Some (n, r)
  | None => None
  end.

Definition read_given (c : Z) (l : list Z) : option (list Z) :=
  match l with b :: r => if b =? c then Some r else None | [] => None end.
(** [read_separator(sep, index, inner)]: the separator precedes every item but
    the first. *)
Definition read_separator {A} (sep : Z) (index : nat) (inner : list Z -> option (A * list Z))
    (l : list Z) : option (A * list Z) :=
  if bool_decide (0 < index)%nat
  then match read_given sep l with Some r => inner r | None => None end
  else inner l.

Definition read_ipv4 (l : list Z) : option (Z * list Z) :=
  let num := read_number 10 8 3 false in
  '(a, l) ← read_separator 46 0 num l;
  '(b, l) ← read_separator 46 1 num l;
  '(c, l) ← read_separator 46 2 num l;
  '(d, l) ← read_separator 46 3 num l;
  Some (ipv4_new a b c d, l).

(** [read_groups]: up to [limit] groups, the last two possibly an IPv4 tail. *)
Fixpoint read_groups (n i limit : nat) (l : list Z) : list Z * bool * list Z :=
  match n with
  | O => ([], false, l)
  | S n =>
      let v4 := if bool_decide (i < limit - 1)%nat
                then read_separator 58 i read_ipv4 l else None in
      match v4 with
      | Some (a, r) => ([a / 65536; a mod 65536], true, r)
      | None =>
          match read_separator 58 i (read_number 16 16 4 true) l with
          | Some (g, r) =>
              let '(gs, v4, r) := read_groups n (S i) limit r in (g :: gs, v4, r)
          | None => ([], false, l)
          end
      end
  end.

Definition read_ipv6 (l : list Z) : option (Z * list Z) :=
  let '(head, head_v4, l1) := read_groups 8 0 8 l in
  if bool_decide (length head = 8%nat) then Some (ipv6_new head, l1)
  else if head_v4 then None
  else
    l2 ← read_given 58 l1;
    l3 ← read_given 58 l2;
    let limit := (8 - (length head + 1))%nat in
    let '(tail, _, l4) := read_groups limit 0 limit l3 in
    Some (ipv6_new (head ++ replicate (8 - length head - length tail) 0 ++ tail), l4).

Definition parse_ipv4 (s : string) : option Z :=
  if bool_decide (15 < str_len s)%nat then None
  else match read_ipv4 (str_bytes s) with Some (a, []) => Some a | _ => None end.
Definition parse_ipv6 (s : string) : option Z :=
  match read_ipv6 (str_bytes s) with Some (a, []) => Some a | _ => None end.
Definition parse_ip (s : string) : option IpAddr :=
  match read_ipv4 (str_bytes s) with
  | Some (a, []) => Some (V4 a)
  | Some (_, _ :: _) => None
  | None => match read_ipv6 (str_bytes s) with Some (a, []) => Some (V6 a) | _ => None end
  end.

(** ** [Display] *)

Definition show_ipv4 (a : Z) : string := join "." (map dec (octets4 a)).

Fixpoint hex_fuel (fuel : nat) (n : Z) (acc : string) : string :=
  match fuel with
  | O => acc
  | S fuel =>
      let acc := String (hex_char (n mod 16)) acc in
      if n <? 16 then acc else hex_fuel fuel (n / 16) acc
  end.
(** [format!("{n:x}")] *)
Definition hex (n : Z) : string := hex_fuel 4 n "".

(** The first longest run of zero segments: (start, length). *)
Fixpoint longest_zeros (l : list Z) (i : nat) (cur best : nat * nat) : nat * nat :=
  match l with
  | [] => best
  | s :: l =>
      if s =? 0 then
        let cur := if bool_decide (cur.2 = 0%nat) then (i, 1%nat) else (cur.1, S cur.2) in
        longest_zeros l (S i) cur (if bool_decide (best.2 < cur.2)%nat then cur else best)
      else longest_zeros l (S i) (0%nat, 0%nat) best
  end.

Definition show_ipv6 (a : Z) : string :=
  let segs := segments a in
  if (65535 * 2 ^ 32 <=? a) && (a <? 65536 * 2 ^ 32)
  then ("::ffff:" ++ show_ipv4 (a mod 2 ^ 32))%string
  else
    let '(start, len) := longest_zeros segs 0 (0%nat, 0%nat) (0%nat, 0%nat) in
    if bool_decide (1 < len)%nat
    then (join ":" (map hex (take start segs)) ++ "::"
          ++ join ":" (map hex (drop (start + len) segs)))%string
    else join ":" (map hex segs).

Definition show_ip (ip : IpAddr) : string :=
  match ip with V4 a => show_ipv4 a | V6 a => show_ipv6 a end.

(** ** ip/mod.rs *)

Inductive Family := FamV4 | FamV6.
#[export] Instance Family_eq_dec : EqDecision Family.
Proof. solve_decision. Defined.
Definition AF_INET : Z := 2.
Definition AF_INET6 : Z := 10.
Definition family_raw (f : Family) : Z := match f with FamV4 => AF_INET | FamV6 => AF_INET6 end.
Definition family_of_addr (ip : IpAddr) : Family :=
  match ip with V4 _ => FamV4 | V6 _ => FamV6 end.

(** ** ip/ipv4.rs *)

Definition u32_not (z : Z) : Z := wrap 32 (Z.lnot z).

Definition subnet_mask (prefixlen : Z) : outcome Z :=
  if prefixlen =? 0 then Ok (ipv4_new 0 0 0 0)
  else if 32 <? prefixlen then Panic "attempt to subtract with overflow"
  else Ok (wrap 32 (Z.shiftl (2 ^ 32 - 1) (32 - prefixlen))).

Definition broadcast_address (addr prefixlen : Z) : outcome Z :=
  mask_bits ← subnet_mask prefixlen;
  Ok (Z.lor addr (u32_not mask_bits)).

Definition network_address (addr prefixlen : Z) : outcome Z :=
  mask_bits ← subnet_mask prefixlen;
  Ok (Z.land addr mask_bits).

Definition same_subnet (a b prefixlen : Z) : outcome bool :=
  na ← network_address a prefixlen;
  nb ← network_address b prefixlen;
  Ok (na =? nb).

(** [u32::count_ones] *)
Fixpoint count_ones_fuel (fuel : nat) (z : Z) : Z :=
  match fuel with
  | O => 0
  | S fuel => z mod 2 + count_ones_fuel fuel (z / 2)
  end.
Definition count_ones32 (z : Z) : Z := count_ones_fuel 32 z.

(** ** ip/ipv6.rs *)

(** A [[u8; 6]]. *)
Definition mac_ok (m : list Z) : Prop := length m = 6%nat /\ bytes_ok m.
#[export] Instance mac_ok_dec m : Decision (mac_ok m).
Proof. unfold mac_ok. apply _. Defined.

Definition link_local_from_mac (mac : list Z) : Z :=
  let at_ i := mac !!! i in
  let eui64 := [Z.lxor (at_ 0%nat) 2; at_ 1%nat; at_ 2%nat; 255; 254; at_ 3%nat; at_ 4%nat; at_ 5%nat] in
  ipv6_new ([65152; 0; 0; 0] ++ map from_be (chunks_exact 2 eui64)).

Definition is_link_local (addr : Z) : bool := Z.land (segments addr !!! 0%nat) 65472 =? 65152.
Definition is_unique_local (addr : Z) : bool := Z.land (segments addr !!! 0%nat) 65024 =? 64512.

(** ** [parse_cidr] of ip/address.rs *)

Definition parse_cidr (s : string) : outcome (IpAddr * Z) :=
  '(ip_part, len_part) ← ok_or (split_once "/" s)
    (Parse ("'" ++ s ++ "' is not in CIDR form (addr/prefix)"));
  ip ← ok_or (parse_ip ip_part) (Parse ("'" ++ ip_part ++ "' is not a valid IP address"));
  prefixlen ← ok_or (parse_uint 8 len_part)
    (Parse ("'" ++ len_part ++ "' is not a valid prefix length"));
  let max := if is_ipv4 ip then 32 else 128 in
  if max <? prefixlen
  then Err (Parse ("prefix length " ++ dec prefixlen ++ " out of range for " ++ show_ip ip))
  else Ok (ip, prefixlen).

(** ** Properties of the arithmetic *)

(** Every statement about a prefix length 0..32 that computes can be checked on
    the 33 values. *)
Lemma prefix_cases (P : Z -> bool) :
  forallb P (seqZ 0 33) = true -> forall p, 0 <= p <= 32 -> P p = true.
Proof.
  intros H p Hp. rewrite forallb_forall in H. apply H.
  apply list_elem_of_In, elem_of_seqZ. lia.
Qed.

Lemma subnet_mask_value p : 0 <= p <= 32 -> subnet_mask p = Ok (2 ^ 32 - 2 ^ (32 - p)).
Proof.
  intros Hp.
  pose proof (prefix_cases (fun p => match subnet_mask p with
     | Ok m => m =? 2 ^ 32 - 2 ^ (32 - p) | _ => false end) eq_refl p Hp) as H.
  cbn beta in H. destruct (subnet_mask p); [|done..]. f_equal. lia.
Qed.

Lemma count_ones_mask p : 0 <= p <= 32 -> count_ones32 (2 ^ 32 - 2 ^ (32 - p)) = p.
Proof.
  intros Hp. apply Z.eqb_eq.
  apply (prefix_cases (fun p => count_ones32 (2 ^ 32 - 2 ^ (32 - p)) =? p)); [|done].
  vm_compute. done.
Qed.

Lemma subnet_mask_panics p : 32 < p -> exists w, subnet_mask p = Panic w.
Proof.
  intros Hp. unfold subnet_mask. rewrite (proj2 (Z.eqb_neq p 0)) by lia.
  rewrite (proj2 (Z.ltb_lt 32 p)) by lia. eauto.
Qed.

Lemma land_high_ones a k :
  is_u32 a -> 0 <= k <= 32 -> Z.land a (2 ^ 32 - 2 ^ k) = a - a mod 2 ^ k.
Proof.
  intros Ha Hk.
  assert (Hm : 2 ^ 32 - 2 ^ k = Z.shiftl (Z.ones (32 - k)) k).
  { rewrite Z.shiftl_mul_pow2, Z.ones_equiv by lia. rewrite <- Z.sub_1_r, Z.mul_sub_distr_r.
    rewrite <- Z.pow_add_r by lia. replace (32 - k + k) with 32 by lia. lia. }
  rewrite Hm. replace (a - a mod 2 ^ k) with (Z.shiftl (Z.shiftr a k) k).
  2:{ rewrite Z.shiftl_mul_pow2, Z.shiftr_div_pow2 by lia.
      pose proof (Z.div_mod a (2 ^ k) ltac:(apply Z.pow_nonzero; lia)). lia. }
  apply Z.bits_inj'. intros n Hn. rewrite Z.land_spec.
  rewrite !Z.shiftl_spec by lia. destruct (Z_lt_le_dec n k) as [Hlt|Hge].
  - rewrite !(Z.testbit_neg_r _ (n - k)) by lia. apply andb_false_r.
  - rewrite Z.shiftr_spec by lia. replace (n - k + k) with n by lia.
    destruct (Z_lt_le_dec n 32) as [Hs|Hl].
    + rewrite Z.ones_spec_low by lia. apply andb_true_r.
    + unfold is_uint in Ha. assert (Z.testbit a n = false) as ->; [|done].
      destruct (Z.eq_dec a 0) as [->|]; [apply Z.testbit_0_l|].
      apply Z.bits_above_log2; [lia|]. apply Z.log2_lt_pow2; [lia|].
      apply Z.lt_le_trans with (2 ^ 32); [lia|]. apply Z.pow_le_mono_r; lia.
Qed.

Lemma network_address_value a p :
  is_u32 a -> 0 <= p <= 32 -> network_address a p = Ok (a - a mod 2 ^ (32 - p)).
Proof.
  intros Ha Hp. unfold network_address. rewrite subnet_mask_value by done. cbn -[Z.pow].
  rewrite land_high_ones by (done || lia). done.
Qed.

Lemma u32_not_mask k : 0 <= k <= 32 -> u32_not (2 ^ 32 - 2 ^ k) = 2 ^ k - 1.
Proof.
  intros Hk. unfold u32_not, wrap, Z.lnot.
  assert (0 < 2 ^ k <= 2 ^ 32).
  { split; [apply Z.pow_pos_nonneg; lia|apply Z.pow_le_mono_r; lia]. }
  replace (Z.pred (- (2 ^ 32 - 2 ^ k))) with (2 ^ k - 1 + (-1) * 2 ^ 32) by lia.
  rewrite Z.mod_add by lia. apply Z.mod_small. lia.
Qed.

Lemma broadcast_address_value a p :
  is_u32 a -> 0 <= p <= 32 ->
  broadcast_address a p = Ok (a - a mod 2 ^ (32 - p) + (2 ^ (32 - p) - 1)).
Proof.
  intros Ha Hp. unfold broadcast_address. rewrite subnet_mask_value by done. cbn -[Z.pow].
  rewrite u32_not_mask by lia. f_equal. set (k := 32 - p). assert (0 <= k) by lia.
  pose proof (Z.mod_pos_bound a (2 ^ k) ltac:(apply Z.pow_pos_nonneg; lia)).
  pose proof (Z.div_mod a (2 ^ k) ltac:(apply Z.pow_nonzero; lia)).
  rewrite Z.sub_1_r, <- Z.ones_equiv. apply Z.bits_inj'. intros n Hn.
  replace (a - a mod 2 ^ k + Z.ones k) with (Z.shiftl (a / 2 ^ k) k + Z.ones k)
    by (rewrite Z.shiftl_mul_pow2 by lia; lia).
  rewrite Z.add_nocarry_lxor.
  2:{ apply Z.bits_inj'. intros i Hi. rewrite Z.land_spec, Z.shiftl_spec, Z.bits_0 by lia.
      destruct (Z_lt_le_dec i k); [by rewrite Z.testbit_neg_r by lia|].
      by rewrite Z.ones_spec_high, andb_false_r by lia. }
  rewrite Z.lor_spec, Z.lxor_spec, Z.shiftl_spec by lia.
  destruct (Z_lt_le_dec n k).
  - rewrite Z.ones_spec_low, (Z.testbit_neg_r _ (n - k)) by lia. by rewrite orb_true_r.
  - rewrite Z.ones_spec_high by lia. rewrite orb_false_r, xorb_false_r.
    rewrite <- Z.shiftr_div_pow2, Z.shiftr_spec by lia. f_equal. lia.
Qed.

Lemma same_subnet_value a b p :
  is_u32 a -> is_u32 b -> 0 <= p <= 32 ->
  same_subnet a b p = Ok (a / 2 ^ (32 - p) =? b / 2 ^ (32 - p)).
Proof.
  intros Ha Hb Hp. unfold same_subnet. rewrite !network_address_value by done. cbn -[Z.pow].
  f_equal. set (m := 2 ^ (32 - p)). assert (0 < m) by (apply Z.pow_pos_nonneg; lia).
  pose proof (Z.div_mod a m ltac:(lia)). pose proof (Z.div_mod b m ltac:(lia)).
  apply eq_bool_prop_intro. rewrite !Is_true_true, !Z.eqb_eq. split.
  - intros. apply (Z.mul_reg_l _ _ m); lia.
  - intros E. rewrite E in *. lia.
Qed.

(** ** Octets *)

Lemma octets4_ipv4_new a : is_u32 a -> from_be (octets4 a) = a.
Proof. intros H. apply from_be_to_be. exact H. Qed.
Lemma octets6_from a : is_uint 128 a -> from_be (octets6 a) = a.
Proof. intros H. apply from_be_to_be. exact H. Qed.
Lemma from_be_4_range l : length l = 4%nat -> bytes_ok l -> is_u32 (from_be l).
Proof. intros Hl Hb. pose proof (from_be_range l Hb) as H. rewrite Hl in H. exact H. Qed.

(** ** What the parsers accept *)

Lemma to_digit_range radix b d : to_digit radix b = Some d -> 0 <= d < radix.
Proof.
  unfold to_digit, is_digit, is_lower, is_upper.
  intros H; repeat case_match; simplify_eq; lia.
Qed.

Lemma read_digits_range fuel radix bits max acc count l n c r :
  0 <= acc < 2 ^ bits -> read_digits fuel radix bits max acc count l = Some (n, c, r) ->
  0 <= n < 2 ^ bits.
Proof.
  revert acc count l. induction fuel as [|fuel IH]; intros acc count l Hacc; cbn [read_digits]; [done|].
  destruct l as [|b l]; [by intros [= <- <- <-]|].
  destruct (to_digit radix b) as [d|] eqn:Ed; [|by intros [= <- <- <-]].
  pose proof (to_digit_range _ _ _ Ed).
  case_match; [done|]. case_bool_decide; [done|]. apply IH. nia.
Qed.
Lemma read_number_range radix bits max z l n r :
  0 <= bits -> read_number radix bits max z l = Some (n, r) -> is_uint bits n.
Proof.
  intros Hb. unfold read_number.
  destruct (read_digits _ _ _ _ _ _ _) as [[[n' c] r']|] eqn:E; [|done].
  apply read_digits_range in E; [|pose proof (Z.pow_pos_nonneg 2 bits); lia].
  intros H. repeat case_match; simplify_eq; exact E.
Qed.
Lemma read_separator_range {A} (P : A -> Prop) sep i inner l a r :
  (forall l a r, inner l = Some (a, r) -> P a) ->
  @read_separator A sep i inner l = Some (a, r) -> P a.
Proof. unfold read_separator. intros H. case_bool_decide; [case_match; [|done]|]; apply H. Qed.

Lemma read_ipv4_range l a r : read_ipv4 l = Some (a, r) -> is_u32 a.
Proof.
  unfold read_ipv4. intros H.
  assert (HR : forall l a r, read_number 10 8 3 false l = Some (a, r) -> is_u8 a)
    by (intros *; by apply read_number_range).
  repeat match type of H with
  | mbind _ ?m = _ => let E := fresh "E" in destruct m as [[? ?]|] eqn:E; [cbn -[ipv4_new] in H|done];
      apply (read_separator_range is_u8) in E; [|exact HR]
  end.
  simplify_eq. apply from_be_4_range; [done|]. repeat (constructor; try done).
Qed.

Lemma read_groups_range n i limit l gs v r :
  read_groups n i limit l = (gs, v, r) -> Forall is_u16 gs.
Proof.
  revert i l gs v r. induction n as [|n IH]; intros i l gs v r; cbn [read_groups].
  - intros [= <- _ _]. constructor.
  - destruct (if bool_decide (i < limit - 1)%nat then read_separator 58 i read_ipv4 l else None)
      as [[a r']|] eqn:E.
    + intros [= <- <- <-]. case_bool_decide; [|done].
      apply (read_separator_range is_u32) in E; [|apply read_ipv4_range].
      unfold is_uint in E. repeat constructor; unfold is_uint.
      * apply Z.div_pos; lia.
      * apply Z.div_lt_upper_bound; lia.
      * apply Z.mod_pos_bound; lia.
      * apply Z.mod_pos_bound; lia.
    + destruct (read_separator 58 i (read_number 16 16 4 true) l) as [[g r']|] eqn:Eg; [|intros [= <- _ _]; constructor].
      apply (read_separator_range is_u16) in Eg; [|intros *; by apply read_number_range].
      destruct (read_groups n (S i) limit r') as [[gs' v'] r''] eqn:Er.
      intros [= <- <- <-]. constructor; [done|]. by eapply IH.
Qed.

Lemma read_groups_length n i limit l gs v r :
  (i + n = limit)%nat -> read_groups n i limit l = (gs, v, r) -> (length gs <= n)%nat.
Proof.
  revert i l gs v r. induction n as [|n IH]; intros i l gs v r Hn; cbn [read_groups].
  - intros [= <- _ _]. cbn. lia.
  - destruct (if bool_decide (i < limit - 1)%nat then read_separator 58 i read_ipv4 l else None)
      as [[a r']|] eqn:E.
    + case_bool_decide; [|done]. intros [= <- <- <-]. cbn. lia.
    + destruct (read_separator 58 i (read_number 16 16 4 true) l) as [[g r']|]; [|intros [= <- _ _]; cbn; lia].
      destruct (read_groups n (S i) limit r') as [[gs' v'] r''] eqn:Er.
      intros [= <- <- <-]. cbn. apply IH in Er; lia.
Qed.

Lemma ipv6_new_range segs :
  length segs = 8%nat -> is_uint 128 (ipv6_new segs).
Proof.
  intros Hl. unfold ipv6_new.
  pose proof (from_be_range (concat (map (to_be 2) segs))) as H.
  assert (Hlen : length (concat (map (to_be 2) segs)) = 16%nat).
  { do 9 (destruct segs as [|? segs]; try done). }
  rewrite Hlen in H. apply H. clear. induction segs; cbn; [constructor|].
  apply Forall_app_2; [apply to_be_ok|done].
Qed.

Lemma read_ipv6_range l a r : read_ipv6 l = Some (a, r) -> is_uint 128 a.
Proof.
  unfold read_ipv6. destruct (read_groups 8 0 8 l) as [[head v] l1] eqn:Eh.
  pose proof (read_groups_length 8 0 8 l head v l1 eq_refl Eh) as Hh.
  case_bool_decide as H8; [intros [= <- <-]; by apply ipv6_new_range|].
  destruct v; [done|]. destruct (read_given 58 l1) as [l2|]; [cbn|done].
  destruct (read_given 58 l2) as [l3|]; [cbn|done].
  destruct (read_groups (8 - (length head + 1)) 0 (8 - (length head + 1)) l3)
    as [[tail v'] l4] eqn:Et.
  apply read_groups_length in Et; [|lia].
  intros [= <- <-]. apply ipv6_new_range. rewrite !length_app, length_replicate. lia.
Qed.

Lemma parse_ip_ok s ip : parse_ip s = Some ip -> ip_ok ip.
Proof.
  unfold parse_ip. intros H.
  destruct (read_ipv4 (str_bytes s)) as [[a [|? ?]]|] eqn:E; simplify_eq.
  - by apply read_ipv4_range in E.
  - destruct (read_ipv6 (str_bytes s)) as [[a [|? ?]]|] eqn:E6; simplify_eq.
    by apply read_ipv6_range in E6.
Qed.

Lemma parse_uint_range bits s n : parse_uint bits s = Some n -> n < 2 ^ bits.
Proof.
  unfold parse_uint, parse_uint_radix. intros H. repeat case_match; simplify_eq; lia.
Qed.
Lemma digits_value_nonneg radix acc l n :
  0 < radix -> 0 <= acc -> digits_value radix acc l = Some n -> acc <= n.
Proof.
  intros Hr. revert acc. induction l as [|b l IH]; intros acc Ha; cbn; [intros [= <-]; lia|].
  destruct (to_digit radix b) as [d|] eqn:E; [|done]. apply to_digit_range in E.
  intros H. apply IH in H; nia.
Qed.
Lemma parse_uint_nonneg bits s n : parse_uint bits s = Some n -> 0 <= n.
Proof.
  unfold parse_uint, parse_uint_radix. intros H.
  set (l := match str_bytes s with 43 :: r => r | _ => str_bytes s end) in H.
  destruct l as [|b l']; [done|].
  destruct (digits_value 10 0 (b :: l')) as [m|] eqn:E; [|done].
  apply digits_value_nonneg in E; [|lia|lia]. case_match; simplify_eq. done.
Qed.

Lemma parse_cidr_inv s ip p :
  parse_cidr s = Ok (ip, p) ->
  exists x y, s = (x ++ String "/" y)%string /\ parse_ip x = Some ip /\ parse_uint 8 y = Some p
    /\ p <= (if is_ipv4 ip then 32 else 128).
Proof.
  unfold parse_cidr. pose proof (split_once_spec "/" s) as Hs.
  destruct (split_once "/" s) as [[x y]|]; [cbn|done].
  destruct (parse_ip x) as [ip'|] eqn:Ei; [cbn|done].
  destruct (parse_uint 8 y) as [p'|] eqn:Ep; [cbn|done].
  case_match; [done|]. intros [= -> ->]. destruct Hs as [-> _]. exists x, y.
  repeat split; try done. lia.
Qed.

(** ** Parsing what [Display] prints (IPv4) *)

Definition no_digit_first (r : list Z) : Prop :=
  match r with b :: _ => to_digit 10 b = None | [] => True end.

Lemma read_digits_app bits max ds fuel acc count r n :
  digits_value 10 acc ds = Some n -> 0 <= acc -> n < 2 ^ bits ->
  (count + length ds <= max)%nat -> (length ds < fuel)%nat -> no_digit_first r ->
  read_digits fuel 10 bits max acc count (ds ++ r) = Some (n, count + length ds, r)%nat.
Proof.
  revert fuel acc count. induction ds as [|d ds IH]; intros fuel acc count Hv Ha Hn Hc Hf Hr;
    cbn in *.
  - destruct fuel as [|fuel]; [lia|]. cbn. simplify_eq. rewrite Nat.add_0_r.
    destruct r as [|b r]; [done|]. cbn in Hr. by rewrite Hr.
  - destruct fuel as [|fuel]; [lia|]. cbn [read_digits app].
    destruct (to_digit 10 d) as [v|] eqn:Ed; [|done].
    pose proof (to_digit_range _ _ _ Ed). assert (acc * 10 + v <= n) by (eapply digits_value_nonneg; [..|exact Hv]; lia).
    rewrite (proj2 (Z.leb_gt _ _)) by lia. rewrite bool_decide_eq_false_2 by lia.
    rewrite IH by (done || lia). by rewrite Nat.add_succ_r.
Qed.

Definition octet_text_ok (o : Z) : bool :=
  let l := str_bytes (dec o) in
  bool_decide (digits_value 10 0 l = Some o)
  && bool_decide (1 <= length l <= 3)%nat
  && (bool_decide (length l = 1%nat) || match l with 48 :: _ => false | _ => true end).

Lemma octet_text o : is_u8 o -> octet_text_ok o = true.
Proof.
  intros Ho. assert (H : forallb octet_text_ok (seqZ 0 256) = true) by (vm_compute; done).
  rewrite forallb_forall in H. apply H. apply list_elem_of_In, elem_of_seqZ.
  unfold is_uint in Ho. lia.
Qed.

Lemma read_number_dec o r :
  is_u8 o -> no_digit_first r ->
  read_number 10 8 3 false (str_bytes (dec o) ++ r) = Some (o, r).
Proof.
  intros Ho Hr. pose proof (octet_text o Ho) as Hok. unfold octet_text_ok in Hok.
  apply andb_prop in Hok as [[Hv Hl]%andb_prop Hz].
  apply bool_decide_eq_true in Hv, Hl. unfold read_number. cbn zeta.
  erewrite (read_digits_app 8 3 (str_bytes (dec o))); try done; try lia.
  2:{ unfold is_uint in Ho. lia. }
  2:{ rewrite length_app. lia. }
  rewrite bool_decide_eq_false_2 by lia. cbn [negb andb].
  assert (E : (match str_bytes (dec o) ++ r with 48 :: _ => true | _ => false end)
          && bool_decide (1 < 0 + length (str_bytes (dec o)))%nat = false).
  { destruct (str_bytes (dec o)) as [|b l] eqn:El; [cbn in Hl; lia|].
    destruct (decide (length l = 0%nat)) as [H0|H0].
    { rewrite (bool_decide_eq_false_2 (1 < _)%nat) by (cbn; lia). apply andb_false_r. }
    rewrite (bool_decide_eq_true_2 (1 < _)%nat) by (cbn; lia).
    rewrite bool_decide_eq_false_2 in Hz by (cbn in *; lia). cbn in Hz. cbn [app].
    rewrite andb_true_r. repeat case_match; congruence. }
  by rewrite E.
Qed.

Lemma to_be_4 a : exists x y z w, to_be 4 a = [x; y; z; w] /\ is_u8 x /\ is_u8 y /\ is_u8 z /\ is_u8 w.
Proof.
  pose proof (to_be_ok 4 a) as H. unfold bytes_ok in H.
  assert (Hl : length (to_be 4 a) = 4%nat) by apply length_to_be.
  destruct (to_be 4 a) as [|x [|y [|z [|w [|? ?]]]]]; try done.
  repeat match goal with H : Forall _ (_ :: _) |- _ => apply Forall_cons_1 in H as [? H] end.
  exists x, y, z, w. done.
Qed.

Lemma str_bytes_dot s : str_bytes ("." ++ s)%string = 46 :: str_bytes s.
Proof. done. Qed.

Lemma read_separator_first {A} sep inner l : @read_separator A sep 0 inner l = inner l.
Proof. done. Qed.
Lemma read_separator_next {A} sep i inner r : @read_separator A sep (S i) inner (sep :: r) = inner r.
Proof. unfold read_separator. cbn. by rewrite Z.eqb_refl. Qed.

Lemma read_ipv4_show a r :
  is_u32 a -> no_digit_first r ->
  read_ipv4 (str_bytes (show_ipv4 a) ++ r) = Some (a, r).
Proof.
  intros Ha Hr. unfold show_ipv4, octets4. pose proof (octets4_ipv4_new a Ha) as Hfb.
  unfold octets4 in Hfb. destruct (to_be_4 a) as (x & y & z & w & E & ? & ? & ? & ?).
  rewrite E in *. cbn [map join fold_left].
  rewrite !str_bytes_app, <- !app_assoc. unfold read_ipv4.
  rewrite read_separator_first, read_number_dec by done. cbn -[read_number dec].
  rewrite read_separator_next, read_number_dec by done. cbn -[read_number dec].
  rewrite read_separator_next, read_number_dec by done. cbn -[read_number dec].
  rewrite read_separator_next, read_number_dec by done. cbn -[read_number dec].
  unfold ipv4_new. by rewrite Hfb.
Qed.

Lemma show_ipv4_len a : is_u32 a -> (str_len (show_ipv4 a) <= 15)%nat.
Proof.
  intros Ha. unfold show_ipv4, octets4. destruct (to_be_4 a) as (x & y & z & w & E & H1 & H2 & H3 & H4).
  rewrite E. cbn [map join fold_left]. rewrite !str_len_app.
  assert (D : forall o, is_u8 o -> (str_len (dec o) <= 3)%nat).
  { intros o Ho. pose proof (octet_text o Ho) as Hok. unfold octet_text_ok in Hok.
    apply andb_prop in Hok as [[_ Hl]%andb_prop _]. apply bool_decide_eq_true in Hl.
    rewrite length_str_bytes in Hl. lia. }
  pose proof (D x H1). pose proof (D y H2). pose proof (D z H3). pose proof (D w H4).
  cbn [str_len String.length]. unfold str_len in *. cbn. lia.
Qed.

Lemma parse_ipv4_show a : is_u32 a -> parse_ipv4 (show_ipv4 a) = Some a.
Proof.
  intros Ha. unfold parse_ipv4.
  rewrite bool_decide_eq_false_2 by (pose proof (show_ipv4_len a Ha); lia).
  pose proof (read_ipv4_show a [] Ha I) as H. rewrite app_nil_r in H. by rewrite H.
Qed.
Lemma parse_ip_show4 a : is_u32 a -> parse_ip (show_ip (V4 a)) = Some (V4 a).
Proof.
  intros Ha. unfold parse_ip, show_ip.
  pose proof (read_ipv4_show a [] Ha I) as H. rewrite app_nil_r in H. by rewrite H.
Qed.

(** ** The characters of an address

    What the parsers accept is made of hexadecimal digits, dots and colons. *)

Definition ip_char (b : Z) : bool := is_ascii_hexdigit b || (b =? 46) || (b =? 58).
Definition consumes (l r : list Z) : Prop := exists p, l = p ++ r /\ Forall (fun b => ip_char b = true) p.

Lemma consumes_refl l : consumes l l.
Proof. exists []. by split. Qed.
Lemma consumes_trans l r s : consumes l r -> consumes r s -> consumes l s.
Proof. intros (p & -> & Hp) (q & -> & Hq). exists (p ++ q). rewrite <- app_assoc. split; [done|by apply Forall_app_2]. Qed.
Lemma consumes_cons b l r : ip_char b = true -> consumes l r -> consumes (b :: l) r.
Proof. intros Hb (p & -> & Hp). exists (b :: p). split; [done|by apply Forall_cons_2]. Qed.

Lemma to_digit_char_ok radix b d : radix <= 16 -> to_digit radix b = Some d -> ip_char b = true.
Proof.
  unfold to_digit, ip_char, is_ascii_hexdigit, is_digit, is_lower, is_upper. intros Hr H.
  repeat case_match; simplify_eq; lia.
Qed.
Lemma read_digits_consumes fuel radix bits max acc count l n c r :
  radix <= 16 -> read_digits fuel radix bits max acc count l = Some (n, c, r) -> consumes l r.
Proof.
  intros Hr. revert acc count l. induction fuel as [|fuel IH]; intros acc count l; cbn [read_digits]; [done|].
  destruct l as [|b l]; [intros [= <- <- <-]; apply consumes_refl|].
  destruct (to_digit radix b) as [d|] eqn:Ed; [|intros [= <- <- <-]; apply consumes_refl].
  case_match; [done|]. case_bool_decide; [done|]. intros Hrec%IH.
  apply consumes_cons; [by eapply to_digit_char_ok|done].
Qed.
Lemma read_number_consumes radix bits max z l n r :
  radix <= 16 -> read_number radix bits max z l = Some (n, r) -> consumes l r.
Proof.
  intros Hr. unfold read_number.
  destruct (read_digits _ _ _ _ _ _ _) as [[[n' c] r']|] eqn:E; [|done].
  apply read_digits_consumes in E; [|done]. intros H. repeat case_match; simplify_eq; exact E.
Qed.
Lemma read_given_consumes c l r : ip_char c = true -> read_given c l = Some r -> consumes l r.
Proof.
  intros Hc. destruct l as [|b l]; cbn; [done|]. destruct (Z.eqb_spec b c) as [->|]; [|done].
  intros [= <-]. apply consumes_cons; [done|apply consumes_refl].
Qed.
Lemma read_separator_consumes {A} sep i inner l (a : A) r :
  ip_char sep = true -> (forall l a r, inner l = Some (a, r) -> consumes l r) ->
  read_separator sep i inner l = Some (a, r) -> consumes l r.
Proof.
  unfold read_separator. intros Hs Hi. case_bool_decide; [|apply Hi].
  destruct (read_given sep l) as [l'|] eqn:E; [|done]. apply read_given_consumes in E; [|done].
  intros Hin%Hi. by eapply consumes_trans.
Qed.
Lemma read_ipv4_consumes l a r : read_ipv4 l = Some (a, r) -> consumes l r.
Proof.
  unfold read_ipv4. intros H.
  assert (HR : forall l a r, read_number 10 8 3 false l = Some (a, r) -> consumes l r)
    by (intros *; by apply read_number_consumes).
  repeat match type of H with
  | mbind _ ?m = _ => let E := fresh "E" in destruct m as [[? ?]|] eqn:E; [cbn -[ipv4_new] in H|done];
      apply read_separator_consumes in E; [|done|exact HR]
  end.
  simplify_eq. repeat (eapply consumes_trans; [eassumption|]). apply consumes_refl.
Qed.
Lemma read_groups_consumes n i limit l gs v r : read_groups n i limit l = (gs, v, r) -> consumes l r.
Proof.
  revert i l gs v r. induction n as [|n IH]; intros i l gs v r; cbn [read_groups].
  - intros [= _ _ <-]. apply consumes_refl.
  - destruct (if bool_decide (i < limit - 1)%nat then read_separator 58 i read_ipv4 l else None)
      as [[a r']|] eqn:E.
    + intros [= _ _ <-]. case_bool_decide; [|done].
      apply read_separator_consumes in E; [done|done|]. intros *. apply read_ipv4_consumes.
    + destruct (read_separator 58 i (read_number 16 16 4 true) l) as [[g r']|] eqn:Eg;
        [|intros [= _ _ <-]; apply consumes_refl].
      apply read_separator_consumes in Eg; [|done|intros *; by apply read_number_consumes].
      destruct (read_groups n (S i) limit r') as [[gs' v'] r''] eqn:Er.
      intros [= _ _ <-]. eapply consumes_trans; [done|]. by eapply IH.
Qed.
Lemma read_ipv6_consumes l a r : read_ipv6 l = Some (a, r) -> consumes l r.
Proof.
  unfold read_ipv6. destruct (read_groups 8 0 8 l) as [[head v] l1] eqn:Eh.
  apply read_groups_consumes in Eh. case_bool_decide; [by intros [= _ <-]|].
  destruct v; [done|]. destruct (read_given 58 l1) as [l2|] eqn:E1; [cbn|done].
  destruct (read_given 58 l2) as [l3|] eqn:E2; [cbn|done].
  destruct (read_groups (8 - (length head + 1)) 0 (8 - (length head + 1)) l3) as [[tail v'] l4] eqn:Et.
  apply read_groups_consumes in Et. apply read_given_consumes in E1, E2; [|done..].
  intros [= _ <-]. eauto using consumes_trans.
Qed.
Lemma parse_ip_chars s ip : parse_ip s = Some ip -> forallb ip_char (str_bytes s) = true.
Proof.
  assert (Hall : forall l, consumes l [] -> forallb ip_char l = true).
  { intros l (p & -> & Hp). rewrite app_nil_r. apply forallb_forall. intros b Hb.
    rewrite List.Forall_forall in Hp. by apply Hp. }
  unfold parse_ip. intros H.
  destruct (read_ipv4 (str_bytes s)) as [[a [|? ?]]|] eqn:E; simplify_eq.
  - apply Hall. by eapply read_ipv4_consumes.
  - destruct (read_ipv6 (str_bytes s)) as [[a [|? ?]]|] eqn:E6; simplify_eq.
    apply Hall. by eapply read_ipv6_consumes.
Qed.
Lemma digits_value_chars radix acc l n :
  radix <= 16 -> digits_value radix acc l = Some n -> forallb ip_char l = true.
Proof.
  intros Hr. revert acc. induction l as [|b l IH]; intros acc; cbn; [done|].
  destruct (to_digit radix b) as [d|] eqn:E; [|done]. intros H%IH.
  by rewrite (to_digit_char_ok radix b d), H.
Qed.
(** A prefix length may carry a plus sign. *)
Lemma parse_uint_chars bits s n :
  parse_uint bits s = Some n -> forallb (fun b => ip_char b || (b =? 43)) (str_bytes s) = true.
Proof.
  unfold parse_uint, parse_uint_radix. intros H.
  assert (Hm : forall l, forallb ip_char l = true -> forallb (fun b => ip_char b || (b =? 43)) l = true).
  { intros l Hl. rewrite forallb_forall in *. intros b Hb. by rewrite Hl. }
  set (l := match str_bytes s with 43 :: r => r | _ => str_bytes s end) in H.
  assert (Hl : forallb ip_char l = true).
  { destruct l as [|b l']; [done|]. destruct (digits_value 10 0 (b :: l')) as [m|] eqn:E; [|done].
    by apply (digits_value_chars 10 0 _ m). }
  apply Hm in Hl. unfold l in Hl. clear - Hl. destruct (str_bytes s) as [|b r]; [done|].
  destruct (Z.eq_dec b 43) as [->|Hne]; [by cbn; rewrite Hl|].
  replace (match b with 43 => r | _ => b :: r end) with (b :: r) in Hl; [done|].
  destruct b as [|b|b]; try done. do 6 (destruct b as [b|b|]; try done).
Qed.
Lemma parse_cidr_chars s r :
  parse_cidr s = Ok r -> forallb (fun b => ip_char b || (b =? 43) || (b =? 47)) (str_bytes s) = true.
Proof.
  destruct r as [ip p]. intros (x & y & -> & Hx & Hy & _)%parse_cidr_inv.
  apply parse_ip_chars in Hx. apply parse_uint_chars in Hy. rewrite str_bytes_app, forallb_app. cbn.
  apply andb_true_iff. split; apply forallb_forall; intros b Hb; rewrite forallb_forall in *.
  - by rewrite Hx.
  - by rewrite Hy.
Qed.

Lemma forallb_no_char (P : Z -> bool) s c :
  forallb P (str_bytes s) = true -> P (byte_of c) = false -> contains_char c s = false.
Proof.
  intros Hs Hc. unfold contains_char. apply not_true_is_false. intros (b & Hb & He)%existsb_exists.
  rewrite forallb_forall in Hs. specialize (Hs b Hb). apply Z.eqb_eq in He. subst. congruence.
Qed.
Lemma cidr_show a p : is_u32 a -> 0 <= p <= 32 ->
  parse_cidr (show_ip (V4 a) +:+ "/" +:+ dec p) = Ok (V4 a, p).
Proof.
  intros Ha Hp. pose proof (parse_ip_show4 a Ha) as Hs. unfold parse_cidr.
  assert (Hc : contains_char "/" (show_ip (V4 a)) = false).
  { eapply forallb_no_char; [by eapply parse_ip_chars|done]. }
  change (show_ip (V4 a) +:+ "/" +:+ dec p) with (show_ip (V4 a) +:+ String "/" (dec p)).
  rewrite split_once_app by done. cbn [ok_or mbind outcome_bind]. rewrite Hs. cbn [ok_or mbind outcome_bind].
  rewrite parse_uint_dec by (unfold is_uint; lia). cbn [ok_or mbind outcome_bind is_ipv4].
  by rewrite (proj2 (Z.ltb_ge 32 p)) by lia.
Qed.

(** ** Properties *)

(** The subnet arithmetic of an address [a] with prefix length [p <= 32]:
    the mask has [p] leading ones, the network address clears the host bits,
    the broadcast address sets them, both lie around [a] in the same subnet, and
    two addresses share a subnet exactly when their network parts agree. *)
Theorem subnet_arithmetic a p :
  is_u32 a -> 0 <= p <= 32 ->
  subnet_mask p = Ok (2 ^ 32 - 2 ^ (32 - p))
  /\ (exists n b, network_address a p = Ok n /\ broadcast_address a p = Ok b
      /\ n <= a <= b /\ b - n = 2 ^ (32 - p) - 1 /\ n mod 2 ^ (32 - p) = 0
      /\ forall c, is_u32 c -> same_subnet a c p = Ok (bool_decide (n <= c <= b))).
Proof.
  intros Ha Hp. split; [by apply subnet_mask_value|].
  assert (Hk : 0 < 2 ^ (32 - p)) by (apply Z.pow_pos_nonneg; lia).
  exists (a - a mod 2 ^ (32 - p)), (a - a mod 2 ^ (32 - p) + (2 ^ (32 - p) - 1)).
  rewrite network_address_value, broadcast_address_value by done.
  set (k := 2 ^ (32 - p)) in *. pose proof (Z.mod_pos_bound a k Hk).
  pose proof (Z.div_mod a k ltac:(lia)) as Hd. split; [done|]. split; [done|]. split; [lia|]. split; [lia|]. split.
  - replace (a - a mod k) with (a / k * k) by lia. apply Z_mod_mult.
  - intros c Hc. rewrite same_subnet_value by done. fold k. f_equal.
    pose proof (Z.mod_pos_bound c k Hk). pose proof (Z.div_mod c k ltac:(lia)).
    destruct (Z.eqb_spec (a / k) (c / k)); case_bool_decide; try done; nia.
Qed.
Lemma subnet_arithmetic_witness :
  subnet_mask 20 = Ok (2 ^ 32 - 2 ^ 12) /\
  exists n b, network_address (ipv4_new 172 16 37 9) 20 = Ok n /\ broadcast_address (ipv4_new 172 16 37 9) 20 = Ok b
    /\ n <= ipv4_new 172 16 37 9 <= b.
Proof.
  destruct (subnet_arithmetic (ipv4_new 172 16 37 9) 20) as (Hm & n & b & Hn & Hb & Hr & _);
    [by_decision|by_decision|].
  split; [exact Hm|]. exists n, b. split; [exact Hn|]. split; [exact Hb|exact Hr].
Defined.

(** An IPv4 address printed and parsed again is the same address, and with a
    prefix length in CIDR notation [parse_cidr] gives both back exactly when the
    prefix fits the family; what [parse_cidr] accepts always fits. *)
Theorem cidr_text_roundtrip a p :
  is_u32 a -> 0 <= p < 256 ->
  parse_ip (show_ip (V4 a)) = Some (V4 a)
  /\ (parse_cidr (show_ip (V4 a) +:+ "/" +:+ dec p) = Ok (V4 a, p) <-> p <= 32)
  /\ forall s ip q, parse_cidr s = Ok (ip, q) -> ip_ok ip /\ 0 <= q <= (if is_ipv4 ip then 32 else 128).
Proof.
  intros Ha Hp. split; [by apply parse_ip_show4|]. split; [split|].
  - intros (x & y & _ & _ & _ & H)%parse_cidr_inv. exact H.
  - intros H. apply cidr_show; [done|lia].
  - intros s ip q (x & y & _ & Hx & Hy & Hq)%parse_cidr_inv.
    split; [by eapply parse_ip_ok|]. split; [by eapply parse_uint_nonneg|done].
Qed.
Lemma cidr_text_roundtrip_witness :
  parse_cidr (show_ip (V4 (ipv4_new 192 168 1 50)) +:+ "/" +:+ dec 24) = Ok (V4 (ipv4_new 192 168 1 50), 24).
Proof. apply (cidr_text_roundtrip (ipv4_new 192 168 1 50) 24); [by_decision|by_decision|by_decision]. Defined.
