(* ===== verification/Dhcp4.v ===== *)
(** * DHCPv4 packets (dhcp/dhcp4.rs) and leases (dhcp/lease.rs)

    [serialize]/[parse] are the RFC 2131 codec of [dhcp::dhcp4], shared by the
    client ([DhcpClient]) and the hotspot's server ([DhcpServer]); [Lease] is
    the lease record with its timers.  [parse] runs in [outcome]: an index out
    of range would be a [Panic], as would a loop that does not end within its
    fuel. *)

From S2P Require Import Prelude RustStr IpAddr.

(** ** Indexing *)

Definition index (buf : list Z) (i : nat) : outcome Z :=
  or_panic (buf !! i) "index out of bounds".
Definition sub (buf : list Z) (a b : nat) : outcome (list Z) :=
  or_panic (slice buf a b) "range end index out of range for slice".

Lemma index_app p b r : index (p ++ b :: r) (length p) = Ok b.
Proof. unfold index. by rewrite list_lookup_middle. Qed.
Lemma index_app1 p b c r : index (p ++ b :: c :: r) (length p + 1) = Ok c.
Proof.
  unfold index. rewrite lookup_app_r by lia. by replace (length p + 1 - length p)%nat with 1%nat by lia.
Qed.
Lemma sub_app p m r : sub (p ++ m ++ r) (length p) (length p + length m) = Ok m.
Proof.
  unfold sub. rewrite slice_Some by (rewrite !length_app; lia).
  rewrite drop_app_length. replace (length p + length m - length p)%nat with (length m) by lia.
  by rewrite take_app_length.
Qed.
Lemma index_ok buf i : (i < length buf)%nat -> is_ok (index buf i).
Proof. intros H. unfold index. destruct (lookup_lt_is_Some_2 buf i H) as [b ->]. by eexists. Qed.
Lemma sub_ok buf a b : (a <= b <= length buf)%nat -> is_ok (sub buf a b).
Proof. intros H. unfold sub. rewrite slice_Some by done. by eexists. Qed.

(** ** Constants *)

Definition CLIENT_PORT : Z := 68.
Definition SERVER_PORT : Z := 67.
Definition MAGIC_COOKIE : list Z := [99; 130; 83; 99].
Definition OP_BOOTREQUEST : Z := 1.
Definition OP_BOOTREPLY : Z := 2.
Definition HTYPE_ETHER : Z := 1.
Definition OPT_SUBNET_MASK : Z := 1.
Definition OPT_ROUTER : Z := 3.
Definition OPT_DNS : Z := 6.
Definition OPT_DOMAIN_NAME : Z := 15.
Definition OPT_REQUESTED_IP : Z := 50.
Definition OPT_LEASE_TIME : Z := 51.
Definition OPT_MSG_TYPE : Z := 53.
Definition OPT_SERVER_ID : Z := 54.
Definition OPT_PARAM_REQUEST_LIST : Z := 55.
Definition OPT_CLIENT_ID : Z := 61.
Definition OPT_HOSTNAME : Z := 12.
Definition OPT_END : Z := 255.
Definition OPT_PAD : Z := 0.
Definition MSG_DISCOVER : Z := 1.
Definition MSG_OFFER : Z := 2.
Definition MSG_REQUEST : Z := 3.
Definition MSG_ACK : Z := 5.
Definition MSG_NAK : Z := 6.
Definition MSG_RELEASE : Z := 7.
Definition UNSPECIFIED : Z := 0.
Definition BROADCAST : Z := 4294967295.

(** ** Packets *)

Record Packet := mkPacket {
  op : Z;
  xid : Z;
  secs : Z;
  flags : Z;
  ciaddr : Z;
  yiaddr : Z;
  siaddr : Z;
  chaddr : list Z;
  options : list (Z * list Z)
}.

Definition get_option (p : Packet) (code : Z) : option (list Z) :=
  snd <$> List.find (fun o => o.1 =? code) (options p).

Definition message_type (p : Packet) : option Z :=
  get_option p OPT_MSG_TYPE ≫= head.

Definition serialize_option (o : Z * list Z) : list Z :=
  o.1 :: wrap 8 (Z.of_nat (length o.2)) :: o.2.

Definition serialize (pkt : Packet) : list Z :=
  [op pkt; HTYPE_ETHER; 6; 0]
  ++ to_be 4 (xid pkt) ++ to_be 2 (secs pkt) ++ to_be 2 (flags pkt)
  ++ octets4 (ciaddr pkt) ++ octets4 (yiaddr pkt) ++ octets4 (siaddr pkt)
  ++ [0; 0; 0; 0]
  ++ (chaddr pkt ++ replicate 10 0)
  ++ replicate 64 0 ++ replicate 128 0
  ++ MAGIC_COOKIE
  ++ concat (map serialize_option (options pkt))
  ++ [OPT_END].

(** The option loop of [parse], [i] being the cursor. *)
Fixpoint parse_options_loop (fuel : nat) (buf : list Z) (i : nat) (acc : list (Z * list Z))
  : outcome (list (Z * list Z)) :=
  match fuel with
  | O => Panic "fuel"
  | S fuel =>
      if bool_decide (i < length buf)%nat then
        code ← index buf i;
        if code =? OPT_END then Ok acc
        else if code =? OPT_PAD then parse_options_loop fuel buf (i + 1) acc
        else if bool_decide (length buf <= i + 1)%nat then Ok acc
        else
          len ← index buf (i + 1);
          let len := Z.to_nat len in
          if bool_decide (length buf < i + 2 + len)%nat then Ok acc
          else
            data ← sub buf (i + 2) (i + 2 + len);
            parse_options_loop fuel buf (i + 2 + len) (acc ++ [(code, data)])
      else Ok acc
  end.

Definition parse (buf : list Z) : outcome (option Packet) :=
  if bool_decide (length buf < 240)%nat then Ok None
  else
    cookie ← sub buf 236 240;
    if negb (bool_decide (cookie = MAGIC_COOKIE)) then Ok None
    else
      op ← index buf 0;
      xid ← sub buf 4 8;
      secs ← sub buf 8 10;
      flags ← sub buf 10 12;
      ciaddr ← sub buf 12 16;
      yiaddr ← sub buf 16 20;
      siaddr ← sub buf 20 24;
      chaddr ← sub buf 28 34;
      options ← parse_options_loop (length buf) buf 240 [];
      Ok (Some (mkPacket op (from_be xid) (from_be secs) (from_be flags) (from_be ciaddr)
                  (from_be yiaddr) (from_be siaddr) chaddr options)).

(** ** The client's messages *)

Definition base_request (xid : Z) (mac : list Z) (secs : Z) : Packet :=
  mkPacket OP_BOOTREQUEST xid secs 32768 UNSPECIFIED UNSPECIFIED UNSPECIFIED mac [].

Definition DEFAULT_PARAM_REQUEST_LIST : list Z :=
  [OPT_SUBNET_MASK; OPT_ROUTER; OPT_DNS; OPT_DOMAIN_NAME].

Definition client_id (mac : list Z) : list Z := HTYPE_ETHER :: mac.

Definition with_options (p : Packet) (opts : list (Z * list Z)) : Packet :=
  mkPacket (op p) (xid p) (secs p) (flags p) (ciaddr p) (yiaddr p) (siaddr p) (chaddr p)
    (options p ++ opts).
Definition with_ciaddr (p : Packet) (c : Z) (fl : Z) : Packet :=
  mkPacket (op p) (xid p) (secs p) fl c (yiaddr p) (siaddr p) (chaddr p) (options p).

Definition hostname_option (hostname : option string) : list (Z * list Z) :=
  match hostname with Some h => [(OPT_HOSTNAME, str_bytes h)] | None => [] end.

Definition discover_packet (xid : Z) (mac : list Z) (hostname : option string) : Packet :=
  with_options (base_request xid mac 0)
    ([(OPT_MSG_TYPE, [MSG_DISCOVER]); (OPT_CLIENT_ID, client_id mac);
      (OPT_PARAM_REQUEST_LIST, DEFAULT_PARAM_REQUEST_LIST)] ++ hostname_option hostname).
Definition build_discover (xid : Z) (mac : list Z) (hostname : option string) : list Z :=
  serialize (discover_packet xid mac hostname).

Definition request_packet (xid : Z) (mac : list Z) (requested_ip server_id : Z)
    (hostname : option string) : Packet :=
  with_options (base_request xid mac 0)
    ([(OPT_MSG_TYPE, [MSG_REQUEST]); (OPT_CLIENT_ID, client_id mac);
      (OPT_REQUESTED_IP, octets4 requested_ip); (OPT_SERVER_ID, octets4 server_id);
      (OPT_PARAM_REQUEST_LIST, DEFAULT_PARAM_REQUEST_LIST)] ++ hostname_option hostname).
Definition build_request (xid : Z) (mac : list Z) (requested_ip server_id : Z)
    (hostname : option string) : list Z :=
  serialize (request_packet xid mac requested_ip server_id hostname).

Definition renew_packet (xid : Z) (mac : list Z) (client_ip : Z) : Packet :=
  with_options (with_ciaddr (base_request xid mac 0) client_ip 0)
    [(OPT_MSG_TYPE, [MSG_REQUEST]); (OPT_CLIENT_ID, client_id mac)].
Definition build_renew_request (xid : Z) (mac : list Z) (client_ip : Z) : list Z :=
  serialize (renew_packet xid mac client_ip).

Definition release_packet (xid : Z) (mac : list Z) (client_ip server_id : Z) : Packet :=
  with_options (with_ciaddr (base_request xid mac 0) client_ip 32768)
    [(OPT_MSG_TYPE, [MSG_RELEASE]); (OPT_CLIENT_ID, client_id mac);
     (OPT_SERVER_ID, octets4 server_id)].
Definition build_release (xid : Z) (mac : list Z) (client_ip server_id : Z) : list Z :=
  serialize (release_packet xid mac client_ip server_id).

(** ** Leases *)

Record Lease := mkLease {
  address : Z;
  prefixlen : Z;
  gateway : option Z;
  dns_servers : list Z;
  domain : option string;
  server_id : Z;
  lease_time_secs : Z;
  obtained_at_unix : Z
}.

(** Times are seconds since the epoch.  [SystemTime] holds them in 64 bits with
    a sign, and [SystemTime + Duration] panics where they overflow. *)
Definition TIME : string := "overflow when adding duration to instant".
Definition time_add (t secs : Z) : outcome Z := if 2 ^ 63 <=? t + secs then Panic TIME else Ok (t + secs).
Definition UNIX_EPOCH : Z := 0.
Definition obtained_at (l : Lease) : outcome Z := time_add UNIX_EPOCH (obtained_at_unix l).
Definition renewal_time (l : Lease) : outcome Z := t ← obtained_at l; time_add t (lease_time_secs l / 2).
Definition rebind_time (l : Lease) : outcome Z := t ← obtained_at l; time_add t (lease_time_secs l * 7 / 8).
Definition expires_at (l : Lease) : outcome Z := t ← obtained_at l; time_add t (lease_time_secs l).
(** [now] is [SystemTime::now()]. *)
Definition is_expired (now : Z) (l : Lease) : outcome bool := t ← expires_at l; Ok (t <=? now).
Lemma time_add_Ok t secs : t + secs < 2 ^ 63 -> time_add t secs = Ok (t + secs).
Proof. intros Ht. unfold time_add. destruct (Z.leb_spec (2 ^ 63) (t + secs)); [lia|done]. Qed.

(** ** Well-formed packets *)

Definition option_ok (o : Z * list Z) : Prop :=
  0 < o.1 < 255 /\ (length o.2 <= 255)%nat /\ bytes_ok o.2.

Definition packet_ok (p : Packet) : Prop :=
  is_u8 (op p) /\ is_u32 (xid p) /\ is_u16 (secs p) /\ is_u16 (flags p)
  /\ is_u32 (ciaddr p) /\ is_u32 (yiaddr p) /\ is_u32 (siaddr p)
  /\ mac_ok (chaddr p) /\ Forall option_ok (options p).

#[export] Instance option_ok_dec o : Decision (option_ok o).
Proof. unfold option_ok. apply _. Defined.
#[export] Instance packet_ok_dec p : Decision (packet_ok p).
Proof. unfold packet_ok. apply _. Defined.

(** ** [parse] never panics *)

Lemma parse_options_loop_ok buf fuel i acc :
  (i <= length buf < fuel + i)%nat ->
  is_ok (parse_options_loop fuel buf i acc).
Proof.
  revert i acc. induction fuel as [|fuel IH]; intros i acc Hf; [lia|]. cbn [parse_options_loop].
  case_bool_decide as Hlt; [|by eexists].
  destruct (index_ok buf i Hlt) as [code ->]. cbn [mbind outcome_bind].
  destruct (code =? OPT_END); [by eexists|].
  destruct (code =? OPT_PAD); [apply IH; lia|].
  case_bool_decide as H1; [by eexists|].
  destruct (index_ok buf (i + 1)) as [len ->]; [lia|]. cbn [mbind outcome_bind].
  case_bool_decide as H2; [by eexists|].
  destruct (sub_ok buf (i + 2) (i + 2 + Z.to_nat len)) as [data ->]; [lia|]. cbn [mbind outcome_bind].
  apply IH; lia.
Qed.

Lemma parse_ok buf : is_ok (parse buf).
Proof.
  unfold parse. case_bool_decide as Hlen; [by eexists|].
  repeat (match goal with
    | |- context [sub buf ?a ?b] =>
        destruct (sub_ok buf a b) as [? ->]; [lia|]; cbn [mbind outcome_bind]
    | |- context [index buf ?a] =>
        destruct (index_ok buf a) as [? ->]; [lia|]; cbn [mbind outcome_bind]
    | |- context [if negb ?b then _ else _] => destruct b; cbn [negb]; [|by eexists]
    end).
  destruct (parse_options_loop_ok buf (length buf) 240 []) as [opts ->]; [lia..|].
  cbn [mbind outcome_bind]. by eexists.
Qed.

(** ** [parse] inverts [serialize] *)

Lemma parse_options_loop_serialize opts fuel pre acc :
  Forall option_ok opts ->
  (length (concat (map serialize_option opts)) < fuel)%nat ->
  parse_options_loop fuel (pre ++ concat (map serialize_option opts) ++ [OPT_END]) (length pre) acc
  = Ok (acc ++ opts).
Proof.
  intros Hok. revert fuel pre acc. induction Hok as [|[code data] opts Ho _ IH]; intros fuel pre acc Hf.
  - destruct fuel as [|fuel]; [cbn in Hf; lia|]. cbn [map concat app parse_options_loop].
    rewrite bool_decide_eq_true_2 by (rewrite length_app; cbn; lia).
    rewrite index_app. cbn. by rewrite app_nil_r.
  - destruct Ho as (Hc & Hl & Hd). cbn [fst snd] in *. destruct fuel as [|fuel]; [lia|].
    cbn [map concat] in *. rewrite length_app in Hf. unfold serialize_option at 1 in Hf. cbn in Hf.
    set (tl := concat (map serialize_option opts)) in *. cbn [parse_options_loop].
    unfold serialize_option at 1 2 3 4. cbn [fst snd].
    set (buf := pre ++ _).
    assert (Hb : buf = pre ++ code :: wrap 8 (Z.of_nat (length data)) :: data ++ tl ++ [OPT_END]).
    { unfold buf. cbn. by rewrite <- app_assoc. }
    assert (Hlen : length buf = (length pre + 2 + length data + length tl + 1)%nat).
    { rewrite Hb, length_app. cbn. rewrite !length_app. cbn. lia. }
    rewrite bool_decide_eq_true_2 by lia.
    rewrite Hb at 1. rewrite index_app. cbn [mbind outcome_bind].
    rewrite (proj2 (Z.eqb_neq code OPT_END)) by (unfold OPT_END; lia).
    rewrite (proj2 (Z.eqb_neq code OPT_PAD)) by (unfold OPT_PAD; lia).
    rewrite bool_decide_eq_false_2 by lia.
    rewrite Hb at 1. rewrite index_app1. cbn [mbind outcome_bind].
    rewrite wrap_small by (unfold is_uint; lia). rewrite Nat2Z.id.
    rewrite bool_decide_eq_false_2 by lia.
    assert (Hs : sub buf (length pre + 2) (length pre + 2 + length data) = Ok data).
    { rewrite Hb. replace (pre ++ code :: _) with
        ((pre ++ [code; wrap 8 (Z.of_nat (length data))]) ++ data ++ tl ++ [OPT_END])
        by (by rewrite <- app_assoc).
      replace (length pre + 2)%nat with (length (pre ++ [code; wrap 8 (Z.of_nat (length data))]))
        by (rewrite length_app; cbn; lia).
      apply sub_app. }
    rewrite Hs. cbn [mbind outcome_bind].
    replace buf with ((pre ++ [code; wrap 8 (Z.of_nat (length data))] ++ data) ++ tl ++ [OPT_END])
      by (rewrite Hb, <- app_assoc; cbn; done).
    replace (length pre + 2 + length data)%nat
      with (length (pre ++ [code; wrap 8 (Z.of_nat (length data))] ++ data))
      by (rewrite !length_app; cbn; lia).
    rewrite IH by lia. by rewrite <- app_assoc.
Qed.

Lemma sub_prefix h t a b :
  (a <= b <= length h)%nat -> sub (h ++ t) a b = Ok (take (b - a) (drop a h)).
Proof.
  intros H. unfold sub. rewrite slice_Some by (rewrite length_app; lia). cbn. f_equal.
  rewrite drop_app_le by lia. rewrite take_app_le by (rewrite length_drop; lia). done.
Qed.
Lemma index_prefix h t i x : h !! i = Some x -> index (h ++ t) i = Ok x.
Proof. intros H. unfold index. by erewrite lookup_app_l_Some. Qed.

(** The fixed 240-byte header, field by field. *)
Definition header (p : Packet) : list Z :=
  [op p; HTYPE_ETHER; 6; 0]
  ++ to_be 4 (xid p) ++ to_be 2 (secs p) ++ to_be 2 (flags p)
  ++ octets4 (ciaddr p) ++ octets4 (yiaddr p) ++ octets4 (siaddr p)
  ++ [0; 0; 0; 0] ++ (chaddr p ++ replicate 10 0)
  ++ replicate 64 0 ++ replicate 128 0 ++ MAGIC_COOKIE.

Lemma serialize_header p :
  serialize p = header p ++ concat (map serialize_option (options p)) ++ [OPT_END].
Proof. unfold serialize, header. by rewrite <- !app_assoc. Qed.

Lemma header_length p : length (chaddr p) = 6%nat -> length (header p) = 240%nat.
Proof. intros H. unfold header, octets4. autorewrite with lens. rewrite H. done. Qed.

(** A field that sits at offset [length pre] of the header. *)
Lemma header_field p pre m post a b :
  header p = pre ++ m ++ post -> length pre = a -> (length pre + length m)%nat = b ->
  take (b - a) (drop a (header p)) = m.
Proof.
  intros -> <- <-. rewrite drop_app_length.
  replace (length pre + length m - length pre)%nat with (length m) by lia.
  apply take_app_length.
Qed.

Lemma header_fields p :
  length (chaddr p) = 6%nat ->
  header p !! 0%nat = Some (op p)
  /\ take 4 (drop 4 (header p)) = to_be 4 (xid p)
  /\ take 2 (drop 8 (header p)) = to_be 2 (secs p)
  /\ take 2 (drop 10 (header p)) = to_be 2 (flags p)
  /\ take 4 (drop 12 (header p)) = octets4 (ciaddr p)
  /\ take 4 (drop 16 (header p)) = octets4 (yiaddr p)
  /\ take 4 (drop 20 (header p)) = octets4 (siaddr p)
  /\ take 6 (drop 28 (header p)) = chaddr p
  /\ take 4 (drop 236 (header p)) = MAGIC_COOKIE.
Proof.
  intros Hc. unfold octets4. split; [done|].
  pose proof (header_length p Hc) as Hl. unfold header, octets4 in *.
  pose proof (length_to_be 4 (xid p)). pose proof (length_to_be 2 (secs p)).
  pose proof (length_to_be 2 (flags p)). pose proof (length_to_be 4 (ciaddr p)).
  pose proof (length_to_be 4 (yiaddr p)). pose proof (length_to_be 4 (siaddr p)).
  destruct (to_be 4 (xid p)) as [|? [|? [|? [|? [|? ?]]]]]; try done.
  destruct (to_be 2 (secs p)) as [|? [|? [|? ?]]]; try done.
  destruct (to_be 2 (flags p)) as [|? [|? [|? ?]]]; try done.
  destruct (to_be 4 (ciaddr p)) as [|? [|? [|? [|? [|? ?]]]]]; try done.
  destruct (to_be 4 (yiaddr p)) as [|? [|? [|? [|? [|? ?]]]]]; try done.
  destruct (to_be 4 (siaddr p)) as [|? [|? [|? [|? [|? ?]]]]]; try done.
  destruct (chaddr p) as [|? [|? [|? [|? [|? [|? [|? ?]]]]]]]; done.
Qed.

Lemma parse_serialize_packet p : packet_ok p -> parse (serialize p) = Ok (Some p).
Proof.
  intros (Hop & Hx & Hs & Hf & Hc & Hy & Hsi & [Hm _] & Ho).
  pose proof (header_length p Hm) as Hl. rewrite serialize_header. unfold parse.
  rewrite bool_decide_eq_false_2 by (rewrite length_app; lia).
  destruct (header_fields p Hm) as (F0 & F4 & F8 & F10 & F12 & F16 & F20 & F28 & F236).
  rewrite !sub_prefix by lia. rewrite (index_prefix _ _ _ _ F0). cbn [Nat.sub].
  rewrite F4, F8, F10, F12, F16, F20, F28, F236. cbn [mbind outcome_bind].
  rewrite bool_decide_eq_true_2 by done. cbn [negb]. rewrite <- Hl.
  rewrite parse_options_loop_serialize by (done || (rewrite !length_app; cbn; lia)).
  cbn [mbind outcome_bind app]. unfold octets4.
  rewrite !from_be_to_be by done. by destruct p.
Qed.

(** ** The client's messages are well formed *)

Lemma octets4_ok a : length (octets4 a) = 4%nat /\ bytes_ok (octets4 a).
Proof. split; [apply length_to_be|apply to_be_ok]. Qed.

Lemma bytes_ok_cons b l : is_u8 b -> bytes_ok l -> bytes_ok (b :: l).
Proof. by constructor. Qed.
Lemma option_ok_intro c d : 0 < c < 255 -> (length d <= 255)%nat -> bytes_ok d -> option_ok (c, d).
Proof. by unfold option_ok. Qed.
Lemma option_ok_byte c b : 0 < c < 255 -> is_u8 b -> option_ok (c, [b]).
Proof. intros. apply option_ok_intro; [done|cbn; lia|apply bytes_ok_cons; [done|apply Forall_nil_2]]. Qed.
Lemma option_ok_addr c a : 0 < c < 255 -> option_ok (c, octets4 a).
Proof.
  intros. destruct (octets4_ok a) as [Hl Hb]. apply option_ok_intro; [done|lia|done].
Qed.
Lemma option_ok_client_id mac : mac_ok mac -> option_ok (OPT_CLIENT_ID, client_id mac).
Proof.
  intros [Hl Hb]. apply option_ok_intro; [done|cbn; lia|]. by constructor.
Qed.
Lemma option_ok_params : option_ok (OPT_PARAM_REQUEST_LIST, DEFAULT_PARAM_REQUEST_LIST).
Proof. apply (bool_decide_unpack _). vm_compute. done. Qed.
Lemma hostname_option_ok h :
  (match h with Some h => (str_len h <= 255)%nat | None => True end) ->
  Forall option_ok (hostname_option h).
Proof.
  destruct h as [h|]; cbn; intros H; [|apply Forall_nil_2].
  apply Forall_cons_2; [|apply Forall_nil_2].
  apply option_ok_intro; [done|by rewrite length_str_bytes|apply str_bytes_ok].
Qed.
Lemma is_u8_intro b : 0 <= b < 256 -> is_u8 b.
Proof. done. Qed.

Create HintDb dhcp.
#[export] Hint Resolve is_u8_intro option_ok_byte option_ok_addr option_ok_client_id
  option_ok_params hostname_option_ok : dhcp.

Definition hostname_ok (h : option string) : Prop :=
  match h with Some h => (str_len h <= 255)%nat | None => True end.

Lemma request_packet_base_ok x mac c fl opts :
  is_u32 x -> mac_ok mac -> is_u32 c -> is_u16 fl -> Forall option_ok opts ->
  packet_ok (with_options (with_ciaddr (base_request x mac 0) c fl) opts).
Proof. unfold packet_ok, with_options, with_ciaddr, base_request. cbn. by intuition. Qed.

(** Solves [Forall option_ok [...]]. *)
Ltac options_ok :=
  repeat (first [ apply Forall_nil_2 | apply hostname_option_ok; assumption
                | apply Forall_cons_2; [first [ apply option_ok_byte; done | apply option_ok_addr; done
                                              | apply option_ok_client_id; assumption
                                              | apply option_ok_params ]|] ]).

Lemma discover_packet_ok x mac h :
  is_u32 x -> mac_ok mac -> hostname_ok h -> packet_ok (discover_packet x mac h).
Proof.
  intros Hx Hm Hh. apply (request_packet_base_ok x mac UNSPECIFIED 32768); try done.
  cbn [app]. options_ok.
Qed.
Lemma request_packet_ok x mac r s h :
  is_u32 x -> mac_ok mac -> hostname_ok h -> packet_ok (request_packet x mac r s h).
Proof.
  intros Hx Hm Hh. apply (request_packet_base_ok x mac UNSPECIFIED 32768); try done.
  cbn [app]. options_ok.
Qed.
Lemma renew_packet_ok x mac c :
  is_u32 x -> mac_ok mac -> is_u32 c -> packet_ok (renew_packet x mac c).
Proof. intros Hx Hm Hc. apply request_packet_base_ok; try done. options_ok. Qed.
Lemma release_packet_ok x mac c s :
  is_u32 x -> mac_ok mac -> is_u32 c -> packet_ok (release_packet x mac c s).
Proof. intros Hx Hm Hc. apply request_packet_base_ok; try done. options_ok. Qed.

#[export] Hint Resolve discover_packet_ok request_packet_ok renew_packet_ok release_packet_ok : dhcp.

(** ** What [parse] yields on bytes *)

Lemma sub_inv buf a b r :
  bytes_ok buf -> sub buf a b = Ok r -> bytes_ok r /\ length r = (b - a)%nat.
Proof.
  intros Hb. unfold sub. destruct (slice buf a b) as [r'|] eqn:E; [|done]. intros [= <-].
  split; [|by eapply slice_length]. unfold slice in E. case_bool_decide; [|done].
  simplify_eq. by apply Forall_take, Forall_drop.
Qed.

Lemma parse_options_loop_bytes buf fuel i acc opts :
  bytes_ok buf -> Forall (fun o => bytes_ok o.2) acc ->
  parse_options_loop fuel buf i acc = Ok opts -> Forall (fun o => bytes_ok o.2) opts.
Proof.
  intros Hb. revert i acc. induction fuel as [|fuel IH]; intros i acc Hacc; cbn [parse_options_loop]; [done|].
  case_bool_decide; [|by intros [= <-]].
  destruct (index buf i) as [code| |]; cbn [mbind outcome_bind]; [|done..].
  destruct (code =? OPT_END); [by intros [= <-]|]. destruct (code =? OPT_PAD); [by apply IH|].
  case_bool_decide; [by intros [= <-]|].
  destruct (index buf (i + 1)) as [len| |]; cbn [mbind outcome_bind]; [|done..].
  case_bool_decide; [by intros [= <-]|].
  destruct (sub buf _ _) as [data| |] eqn:Es; cbn [mbind outcome_bind]; [|done..].
  apply sub_inv in Es as [? _]; [|done]. apply IH. apply Forall_app_2; [done|].
  by apply Forall_singleton.
Qed.

Lemma from_be_bits (l : list Z) (n : nat) w :
  bytes_ok l -> length l = n -> 256 ^ Z.of_nat n = 2 ^ w -> is_uint w (from_be l).
Proof. intros Hb Hl Hw. unfold is_uint. rewrite <- Hw, <- Hl. by apply from_be_range. Qed.

Lemma parse_fields buf p :
  bytes_ok buf -> parse buf = Ok (Some p) ->
  is_u32 (xid p) /\ is_u16 (flags p) /\ is_u32 (ciaddr p) /\ is_u32 (yiaddr p)
  /\ is_u32 (siaddr p) /\ mac_ok (chaddr p) /\ Forall (fun o => bytes_ok o.2) (options p).
Proof.
  intros Hb. unfold parse. case_bool_decide; [done|]. intros H'.
  repeat match type of H' with
  | mbind _ ?m = _ => let E := fresh "E" in destruct m eqn:E; cbn [mbind outcome_bind] in H'; [|done..]
  | (if negb ?b then _ else _) = _ => destruct b; cbn [negb] in H'; [|done]
  end.
  simplify_eq. cbn.
  repeat match goal with H : sub _ _ _ = Ok _ |- _ => apply sub_inv in H as [? ?]; [|done] end.
  apply parse_options_loop_bytes in E8; [|done|apply Forall_nil_2].
  split_and!; try done; by eapply from_be_bits.
Qed.

(** ** Properties *)

(** C22: a well-formed packet survives the wire: parsing what [serialize] writes
    gives the packet back, options in order. *)
Theorem dhcp4_roundtrip p : packet_ok p -> parse (serialize p) = Ok (Some p).
Proof. apply parse_serialize_packet. Qed.

(** The MAC the witnesses use. *)
Definition demo_mac : list Z := [2; 66; 172; 17; 0; 9].
Lemma demo_mac_ok : mac_ok demo_mac.
Proof. split; [done|]. repeat constructor; done. Qed.
Lemma dhcp4_roundtrip_witness :
  packet_ok (discover_packet 7 demo_mac (Some "mitos"%string)) /\
  parse (serialize (discover_packet 7 demo_mac (Some "mitos"%string))) =
    Ok (Some (discover_packet 7 demo_mac (Some "mitos"%string))).
Proof.
  assert (H : packet_ok (discover_packet 7 demo_mac (Some "mitos"%string))).
  { apply discover_packet_ok; [done|apply demo_mac_ok|]. vm_compute. repeat constructor. }
  split; [exact H|]. exact (dhcp4_roundtrip _ H).
Defined.

(** Parsing never panics, whatever the datagram, and what it accepts has
    fields in range: addresses and the transaction id are u32, the hardware
    address is six bytes, every option's data is bytes. *)
Theorem dhcp4_parse_total buf :
  exists r, parse buf = Ok r /\
    match r with
    | Some p => bytes_ok buf ->
        is_u32 (xid p) /\ is_u16 (flags p) /\ is_u32 (ciaddr p) /\ is_u32 (yiaddr p)
        /\ is_u32 (siaddr p) /\ mac_ok (chaddr p) /\ Forall (fun o => bytes_ok o.2) (options p)
    | None => True
    end.
Proof.
  destruct (parse_ok buf) as [[p|] Hr]; eexists; split; try done. intros Hb. by apply (parse_fields buf).
Qed.

(** What the client builds is what a server reads: the four messages parse
    back to a packet with their transaction id, hardware address, message type
    and addresses. *)
Theorem client_messages_parse x mac r s h c :
  is_u32 x -> mac_ok mac -> hostname_ok h -> is_u32 c ->
  parse (build_discover x mac h) = Ok (Some (discover_packet x mac h))
  /\ parse (build_request x mac r s h) = Ok (Some (request_packet x mac r s h))
  /\ parse (build_renew_request x mac c) = Ok (Some (renew_packet x mac c))
  /\ parse (build_release x mac c s) = Ok (Some (release_packet x mac c s))
  /\ message_type (discover_packet x mac h) = Some MSG_DISCOVER
  /\ message_type (request_packet x mac r s h) = Some MSG_REQUEST
  /\ message_type (renew_packet x mac c) = Some MSG_REQUEST
  /\ message_type (release_packet x mac c s) = Some MSG_RELEASE.
Proof.
  intros Hx Hm Hh Hc. split_and!; try done; apply parse_serialize_packet.
  - by apply discover_packet_ok.
  - by apply request_packet_ok.
  - by apply renew_packet_ok.
  - by apply release_packet_ok.
Qed.
Lemma client_messages_parse_witness :
  parse (build_release 7 demo_mac 167772161 167772162) = Ok (Some (release_packet 7 demo_mac 167772161 167772162)).
Proof. apply (client_messages_parse 7 demo_mac 0 167772162 None 167772161); [done|apply demo_mac_ok|done|done]. Defined.
