(* ===== verification/DhcpServer.v ===== *)
(** * The hotspot's DHCPv4 server (sharing/dhcp_server.rs)

    [LeaseTable] and [allocate] hand out pool addresses; [handle_packet] is the
    body of the receive loop of [run] for one datagram, and [run] the loop over
    what the socket delivers.  u32 arithmetic is checked: an overflow panics. *)

From S2P Require Import Prelude RustStr IpAddr Dhcp4.

Definition u32_add (a b : Z) : outcome Z :=
  if a + b <? 2 ^ 32 then Ok (a + b) else Panic "attempt to add with overflow".
Definition u32_sub (a b : Z) : outcome Z :=
  if b <=? a then Ok (a - b) else Panic "attempt to subtract with overflow".

Record DhcpServerConfig := mkServerConfig {
  interface : string;
  server_ip : Z;
  pool_start : Z;
  pool_end : Z;
  cfg_prefixlen : Z;
  cfg_lease_time_secs : Z;
  cfg_dns_servers : list Z
}.

Record LeaseTable := mkLeaseTable {
  by_mac : gmap (list Z) Z;
  next_candidate : Z
}.

(** The set of addresses in [self.by_mac.values()], as u32. *)
Definition taken_set (t : LeaseTable) : gset Z := list_to_set (map_to_list (by_mac t)).*2.

(** The [for _ in 0..=(end - start)] loop: the free candidate, if one is met,
    and the new [next_candidate]. *)
Fixpoint allocate_loop (n : nat) (taken : gset Z) (start end_ next : Z) : outcome (option Z * Z) :=
  match n with
  | O => Ok (None, next)
  | S n =>
      d ← u32_sub next start;
      range ← u32_sub end_ start;
      m ← u32_add range 1;
      candidate ← u32_add start (d mod m);
      next ← u32_add candidate 1;
      if bool_decide (candidate ∈ taken) then allocate_loop n taken start end_ next
      else Ok (Some candidate, next)
  end.

Definition allocate (t : LeaseTable) (mac : list Z) (cfg : DhcpServerConfig)
  : outcome (option Z * LeaseTable) :=
  match by_mac t !! mac with
  | Some existing => Ok (Some existing, t)
  | None =>
      let start := pool_start cfg in
      let end_ := pool_end cfg in
      if end_ <? start then Ok (None, t)
      else
        '(found, next) ← allocate_loop (Z.to_nat (end_ - start + 1)) (taken_set t) start end_
                            (next_candidate t);
        match found with
        | Some addr => Ok (Some addr, mkLeaseTable (<[mac := addr]> (by_mac t)) next)
        | None => Ok (None, mkLeaseTable (by_mac t) next)
        end
  end.

Definition reply_options (cfg : DhcpServerConfig) (msg_type mask : Z) : list (Z * list Z) :=
  [(OPT_MSG_TYPE, [msg_type]); (OPT_SERVER_ID, octets4 (server_ip cfg))]
  ++ (if negb (msg_type =? MSG_NAK) then
        [(OPT_SUBNET_MASK, octets4 mask); (OPT_ROUTER, octets4 (server_ip cfg));
         (OPT_LEASE_TIME, to_be 4 (cfg_lease_time_secs cfg))]
        ++ (match cfg_dns_servers cfg with
            | [] => []
            | l => [(OPT_DNS, concat (map octets4 l))]
            end)
      else []).

Definition reply_packet (request : Packet) (yi : Z) (cfg : DhcpServerConfig) (msg_type mask : Z)
  : Packet :=
  mkPacket OP_BOOTREPLY (xid request) 0 (flags request) UNSPECIFIED
    (if msg_type =? MSG_NAK then UNSPECIFIED else yi) (server_ip cfg) (chaddr request)
    (reply_options cfg msg_type mask).

Definition build_reply (request : Packet) (yi : Z) (cfg : DhcpServerConfig) (msg_type : Z)
  : outcome (list Z) :=
  if negb (msg_type =? MSG_NAK) then
    mask ← subnet_mask (cfg_prefixlen cfg);
    Ok (serialize (reply_packet request yi cfg msg_type mask))
  else Ok (serialize (reply_packet request yi cfg msg_type 0)).

(** [.and_then(|b| <[u8; 4]>::try_from(b).ok()).map(Ipv4Addr::from)] *)
Definition addr_option (p : Packet) (code : Z) : option Z :=
  b ← get_option p code;
  if bool_decide (length b = 4%nat) then Some (from_be b) else None.

Definition requested_address (pkt : Packet) : Z :=
  default (ciaddr pkt) (addr_option pkt OPT_REQUESTED_IP).

(** One iteration of [run] after a datagram arrived. *)
Definition handle_packet (cfg : DhcpServerConfig) (t : LeaseTable) (buf : list Z)
  : outcome (option (list Z) * LeaseTable) :=
  parsed ← parse buf;
  match parsed with
  | None => Ok (None, t)
  | Some pkt =>
      match message_type pkt with
      | Some ty =>
          if ty =? MSG_DISCOVER then
            '(addr, t) ← allocate t (chaddr pkt) cfg;
            match addr with
            | Some addr => reply ← build_reply pkt addr cfg MSG_OFFER; Ok (Some reply, t)
            | None => Ok (None, t)
            end
          else if ty =? MSG_REQUEST then
            let requested := requested_address pkt in
            if bool_decide (by_mac t !! chaddr pkt = Some requested)
            then reply ← build_reply pkt requested cfg MSG_ACK; Ok (Some reply, t)
            else reply ← build_reply pkt requested cfg MSG_NAK; Ok (Some reply, t)
          else Ok (None, t)
      | None => Ok (None, t)
      end
  end.

(** What [sock.recv_from] can give; both error arms of the loop only log and
    go on. *)
Inductive recv_event := Datagram (b : list Z) | RecvError (e : io_error).

Definition initial_table (cfg : DhcpServerConfig) : LeaseTable :=
  mkLeaseTable ∅ (pool_start cfg).

(** [run] on a finite stream of events, the [stop] flag set when the stream
    ends: the replies broadcast to port 68, in order, and the final table. *)
Fixpoint run_loop (cfg : DhcpServerConfig) (t : LeaseTable) (evs : list recv_event)
  : outcome (list (list Z) * LeaseTable) :=
  match evs with
  | [] => Ok ([], t)
  | RecvError _ :: evs => run_loop cfg t evs
  | Datagram buf :: evs =>
      '(reply, t) ← handle_packet cfg t buf;
      '(replies, t) ← run_loop cfg t evs;
      Ok (match reply with Some r => r :: replies | None => replies end, t)
  end.
Definition run (cfg : DhcpServerConfig) (evs : list recv_event) : outcome (list (list Z) * LeaseTable) :=
  run_loop cfg (initial_table cfg) evs.

(** ** The pool invariant *)

Definition config_ok (cfg : DhcpServerConfig) : Prop :=
  is_u32 (server_ip cfg) /\ 0 <= pool_start cfg <= pool_end cfg /\ pool_end cfg < 2 ^ 32 - 1
  /\ 0 <= cfg_prefixlen cfg <= 32 /\ is_u32 (cfg_lease_time_secs cfg)
  /\ Forall is_u32 (cfg_dns_servers cfg) /\ (length (cfg_dns_servers cfg) <= 63)%nat.

Definition in_pool (cfg : DhcpServerConfig) (a : Z) : Prop := pool_start cfg <= a <= pool_end cfg.

Record table_ok (cfg : DhcpServerConfig) (t : LeaseTable) : Prop := {
  table_in_pool : forall mac a, by_mac t !! mac = Some a -> in_pool cfg a;
  table_inj : forall m1 m2 a, by_mac t !! m1 = Some a -> by_mac t !! m2 = Some a -> m1 = m2;
  table_next : pool_start cfg <= next_candidate t <= pool_end cfg + 1
}.

#[export] Instance config_ok_dec cfg : Decision (config_ok cfg).
Proof. unfold config_ok. apply _. Defined.

Lemma taken_set_spec t a : a ∈ taken_set t <-> exists mac, by_mac t !! mac = Some a.
Proof.
  unfold taken_set. rewrite elem_of_list_to_set, list_elem_of_fmap. split.
  - intros ([m b] & -> & H). apply elem_of_map_to_list in H. eauto.
  - intros [m H]. exists (m, a). split; [done|]. by apply elem_of_map_to_list.
Qed.

Lemma u32_add_ok a b : a + b < 2 ^ 32 -> u32_add a b = Ok (a + b).
Proof. intros H. unfold u32_add. by rewrite (proj2 (Z.ltb_lt _ _)). Qed.
Lemma u32_sub_ok a b : b <= a -> u32_sub a b = Ok (a - b).
Proof. intros H. unfold u32_sub. by rewrite (proj2 (Z.leb_le _ _)). Qed.

Lemma mod_step o n : 0 < n -> (o mod n + 1) mod n = (o + 1) mod n.
Proof. intros. by rewrite Z.add_mod_idemp_l by lia. Qed.

(** The loop probes the pool cyclically from the cursor: it gives the first
    free address met, and [None] only when every address probed is taken. *)
Lemma allocate_loop_spec n taken start end_ o :
  0 <= start -> start <= end_ < 2 ^ 32 - 1 -> 0 <= o <= end_ - start + 1 ->
  exists r next,
    allocate_loop n taken start end_ (start + o) = Ok (r, next)
    /\ start <= next <= end_ + 1
    /\ match r with
       | Some a => start <= a <= end_ /\ a ∉ taken
       | None => forall k, 0 <= k < Z.of_nat n -> start + (o + k) mod (end_ - start + 1) ∈ taken
       end.
Proof.
  intros Hs He. revert o. set (m := end_ - start + 1) in *.
  induction n as [|n IH]; intros o Ho; cbn [allocate_loop].
  - exists None, (start + o). split; [done|]. split; [lia|]. intros. lia.
  - rewrite (u32_sub_ok (start + o) start) by lia. cbn [mbind outcome_bind].
    rewrite u32_sub_ok by lia. cbn [mbind outcome_bind].
    rewrite u32_add_ok by lia. cbn [mbind outcome_bind]. fold m.
    replace (start + o - start) with o by lia.
    pose proof (Z.mod_pos_bound o m ltac:(lia)) as Hm.
    rewrite u32_add_ok by lia. cbn [mbind outcome_bind].
    rewrite u32_add_ok by lia. cbn [mbind outcome_bind].
    case_bool_decide as Ht.
    + replace (start + o mod m + 1) with (start + (o mod m + 1)) by lia.
      destruct (IH (o mod m + 1)) as (r & next & -> & Hn & Hr); [lia|].
      exists r, next. split; [done|]. split; [done|]. destruct r as [a|]; [done|].
      intros k Hk. destruct (Z.eq_dec k 0) as [->|]; [by rewrite Z.add_0_r|].
      specialize (Hr (k - 1) ltac:(lia)).
      replace ((o + k) mod m) with ((o mod m + 1 + (k - 1)) mod m); [done|].
      replace (o mod m + 1 + (k - 1)) with (o mod m + k) by lia.
      by rewrite Z.add_mod_idemp_l by lia.
    + exists (Some (start + o mod m)), (start + o mod m + 1). split; [done|]. split; [lia|].
      split; [lia|done].
Qed.

Lemma cyclic_cover o j m : 0 < m -> 0 <= j < m -> exists k, 0 <= k < m /\ (o + k) mod m = j.
Proof.
  intros Hm Hj. exists ((j - o) mod m). split; [apply Z.mod_pos_bound; lia|].
  rewrite Z.add_mod_idemp_r by lia. replace (o + (j - o)) with j by lia. by apply Z.mod_small.
Qed.

Lemma initial_table_ok cfg : config_ok cfg -> table_ok cfg (initial_table cfg).
Proof.
  intros (_ & Hp & _). split; cbn.
  - intros mac a H. by rewrite lookup_empty in H.
  - intros m1 m2 a H. by rewrite lookup_empty in H.
  - lia.
Qed.

Lemma table_ok_insert cfg t mac a next :
  table_ok cfg t -> by_mac t !! mac = None -> in_pool cfg a -> a ∉ taken_set t ->
  pool_start cfg <= next <= pool_end cfg + 1 ->
  table_ok cfg (mkLeaseTable (<[mac := a]> (by_mac t)) next).
Proof.
  intros [Hin Hinj _] Hn Ha Hf Hnext. rewrite taken_set_spec in Hf. split; cbn.
  - intros m b. rewrite lookup_insert. case_decide; [intros [= <-]; done|apply Hin].
  - intros m1 m2 b. rewrite !lookup_insert. repeat case_decide; subst; try done.
    + intros [= <-] Hl. destruct Hf. eauto.
    + intros Hl [= <-]. destruct Hf. eauto.
    + apply Hinj.
  - done.
Qed.

(** What [allocate] does on a table that satisfies the invariant. *)
Lemma allocate_correct cfg t mac :
  config_ok cfg -> table_ok cfg t ->
  exists r t',
    allocate t mac cfg = Ok (r, t')
    /\ table_ok cfg t'
    /\ by_mac t ⊆ by_mac t'
    /\ match r with
       | Some a => by_mac t' !! mac = Some a /\ in_pool cfg a
       | None => by_mac t' = by_mac t /\ by_mac t !! mac = None
                 /\ forall a, in_pool cfg a -> exists m, by_mac t !! m = Some a
       end.
Proof.
  intros (_ & Hp & He & _) Hok. unfold allocate.
  destruct (by_mac t !! mac) as [a|] eqn:Em.
  { exists (Some a), t. split_and!; try done. by apply (table_in_pool _ _ Hok mac). }
  rewrite (proj2 (Z.ltb_ge _ _)) by lia. pose proof (table_next _ _ Hok) as Hn.
  set (o := next_candidate t - pool_start cfg).
  destruct (allocate_loop_spec (Z.to_nat (pool_end cfg - pool_start cfg + 1)) (taken_set t)
              (pool_start cfg) (pool_end cfg) o) as (r & next & Hl & Hnx & Hr); [lia..|].
  replace (pool_start cfg + o) with (next_candidate t) in Hl by lia. rewrite Hl. cbn.
  destruct r as [a|].
  - destruct Hr as [Ha Hf]. eexists _, _. split; [done|]. split; [by apply table_ok_insert|].
    split; [by apply insert_subseteq|]. cbn. by rewrite lookup_insert_eq.
  - eexists None, _. split; [done|]. split_and!; try done.
    + destruct Hok as [H1 H2 _]. by split.
    + intros a Ha. unfold in_pool in Ha.
      destruct (cyclic_cover o (a - pool_start cfg) (pool_end cfg - pool_start cfg + 1))
        as (k & Hk & Hc); [lia..|].
      apply taken_set_spec. specialize (Hr k ltac:(lia)). rewrite Hc in Hr.
      by replace (pool_start cfg + (a - pool_start cfg)) with a in Hr by lia.
Qed.

(** ** Replies *)

Lemma concat_octets4_ok l : bytes_ok (concat (map octets4 l)) /\ length (concat (map octets4 l)) = (4 * length l)%nat.
Proof.
  induction l as [|a l [IH1 IH2]]; [split; [constructor|done]|]. cbn [map concat length].
  destruct (octets4_ok a) as [Hl Hb]. split; [by apply Forall_app_2|].
  rewrite length_app, Hl, IH2. lia.
Qed.

Lemma reply_packet_ok req yi cfg ty mask :
  config_ok cfg -> is_u32 (xid req) -> is_u16 (flags req) -> mac_ok (chaddr req) -> is_u32 yi ->
  is_u8 ty -> packet_ok (reply_packet req yi cfg ty mask).
Proof.
  intros (Hip & _ & _ & _ & Hl & Hd & Hdl) Hx Hf Hm Hy Ht.
  unfold packet_ok, reply_packet, reply_options. cbn.
  split_and!; try done; [case_match; done|by apply Hm..|].
  apply Forall_cons_2; [by apply option_ok_byte|]. apply Forall_cons_2; [by apply option_ok_addr|].
  destruct (negb (ty =? MSG_NAK)); [cbn|apply Forall_nil_2].
  do 2 (apply Forall_cons_2; [by apply option_ok_addr|]).
  apply Forall_cons_2; [apply (option_ok_addr OPT_LEASE_TIME); done|].
  destruct (cfg_dns_servers cfg) as [|d ds] eqn:E; [apply Forall_nil_2|].
  apply Forall_singleton. destruct (concat_octets4_ok (d :: ds)) as [Hb Hc].
  apply option_ok_intro; [done| |done]. cbn [map concat] in Hc. rewrite Hc. lia.
Qed.

(** A reply to a parsed request is [serialize] of a well-formed packet. *)
Lemma build_reply_ok req yi cfg ty :
  config_ok cfg -> is_u32 (xid req) -> is_u16 (flags req) -> mac_ok (chaddr req) -> is_u32 yi ->
  is_u8 ty ->
  exists mask, build_reply req yi cfg ty = Ok (serialize (reply_packet req yi cfg ty mask))
    /\ (ty <> MSG_NAK -> mask = 2 ^ 32 - 2 ^ (32 - cfg_prefixlen cfg))
    /\ parse (serialize (reply_packet req yi cfg ty mask)) = Ok (Some (reply_packet req yi cfg ty mask)).
Proof.
  intros Hcfg Hx Hf Hm Hy Ht. unfold build_reply.
  assert (Hp : 0 <= cfg_prefixlen cfg <= 32) by (destruct Hcfg; tauto).
  destruct (Z.eqb_spec ty MSG_NAK) as [->|Hn]; cbn [negb].
  - exists 0. split_and!; [done..|]. by apply parse_serialize_packet, reply_packet_ok.
  - rewrite subnet_mask_value by done. cbn [mbind outcome_bind]. eexists. split_and!; [done..|].
    by apply parse_serialize_packet, reply_packet_ok.
Qed.

Lemma build_reply_total req yi cfg ty : config_ok cfg -> is_ok (build_reply req yi cfg ty).
Proof.
  intros (_ & _ & _ & Hp & _). unfold build_reply. rewrite subnet_mask_value by done.
  case_match; by eexists.
Qed.

Lemma in_pool_u32 cfg a : config_ok cfg -> in_pool cfg a -> is_u32 a.
Proof. unfold in_pool, is_uint. intros (_ & ? & ? & _) ?. lia. Qed.

(** [handle_packet] keeps the invariant, only adds leases, and an OFFER or ACK
    it sends names the address the table holds for that client. *)
Definition reply_backed (cfg : DhcpServerConfig) (t : LeaseTable) (r : list Z) : Prop :=
  exists p, parse r = Ok (Some p)
    /\ ((message_type p = Some MSG_NAK /\ yiaddr p = UNSPECIFIED)
        \/ ((message_type p = Some MSG_OFFER \/ message_type p = Some MSG_ACK)
            /\ by_mac t !! chaddr p = Some (yiaddr p))).

Lemma handle_packet_correct cfg t buf :
  config_ok cfg -> table_ok cfg t -> bytes_ok buf ->
  exists r t', handle_packet cfg t buf = Ok (r, t') /\ table_ok cfg t' /\ by_mac t ⊆ by_mac t'
    /\ match r with Some r => reply_backed cfg t' r | None => True end.
Proof.
  intros Hcfg Hok Hb. unfold handle_packet.
  destruct (parse_ok buf) as [[pkt|] Hparse]; rewrite Hparse; cbn [mbind outcome_bind].
  2:{ exists None, t. done. }
  destruct (parse_fields buf pkt Hb Hparse) as (Hx & Hf & Hci & _ & _ & Hm & _).
  destruct (message_type pkt) as [ty|]; [|exists None, t; done].
  destruct (ty =? MSG_DISCOVER).
  - destruct (allocate_correct cfg t (chaddr pkt) Hcfg Hok) as (r & t' & -> & Hok' & Hsub & Hr).
    cbn [mbind outcome_bind]. destruct r as [a|]; [|exists None, t'; done]. destruct Hr as [Hl Ha].
    destruct (build_reply_ok pkt a cfg MSG_OFFER) as (mask & -> & _ & Hp);
      [try done; by eapply in_pool_u32..|].
    cbn [mbind outcome_bind]. eexists (Some _), t'. split_and!; try done.
    eexists. split; [exact Hp|]. right. split; [by left|done].
  - destruct (ty =? MSG_REQUEST); [|exists None, t; done].
    case_bool_decide as Hl.
    + destruct (build_reply_ok pkt (requested_address pkt) cfg MSG_ACK) as (mask & -> & _ & Hp);
        [try done; eapply in_pool_u32; try done; by eapply table_in_pool..|].
      cbn [mbind outcome_bind]. eexists (Some _), t. split_and!; try done.
      eexists. split; [exact Hp|]. right. split; [by right|done].
    + set (yi := requested_address pkt).
      assert (build_reply pkt yi cfg MSG_NAK = build_reply pkt 0 cfg MSG_NAK) as -> by done.
      destruct (build_reply_ok pkt 0 cfg MSG_NAK) as (mask & -> & _ & Hp); [done..|].
      cbn [mbind outcome_bind]. eexists (Some _), t. split_and!; try done.
      eexists. split; [exact Hp|]. by left.
Qed.

Lemma reply_backed_mono cfg t t' r :
  by_mac t ⊆ by_mac t' -> reply_backed cfg t r -> reply_backed cfg t' r.
Proof.
  intros Hsub (p & Hp & [H|[H1 H2]]); exists p; (split; [done|]); [by left|right].
  split; [done|]. by eapply lookup_weaken.
Qed.

Definition event_ok (ev : recv_event) : Prop :=
  match ev with Datagram b => bytes_ok b | RecvError _ => True end.
#[export] Instance event_ok_dec ev : Decision (event_ok ev).
Proof. destruct ev; apply _. Defined.

Lemma run_loop_correct cfg t evs :
  config_ok cfg -> table_ok cfg t -> Forall event_ok evs ->
  exists replies t', run_loop cfg t evs = Ok (replies, t') /\ table_ok cfg t'
    /\ by_mac t ⊆ by_mac t' /\ Forall (reply_backed cfg t') replies.
Proof.
  intros Hcfg Hok Hev. revert t Hok. induction Hev as [|[buf|e] evs He _ IH]; intros t Hok; cbn [run_loop].
  - exists [], t. split_and!; try done. 
  - destruct (handle_packet_correct cfg t buf Hcfg Hok He) as (r & t1 & -> & Hok1 & Hsub1 & Hr).
    cbn [mbind outcome_bind]. destruct (IH t1 Hok1) as (rs & t2 & -> & Hok2 & Hsub2 & Hrs).
    cbn [mbind outcome_bind]. eexists _, t2. split; [done|]. split; [done|].
    split; [by etrans|]. destruct r as [r|]; [|done].
    apply Forall_cons_2; [by eapply reply_backed_mono|done].
  - by apply IH.
Qed.

(** ** Properties *)

(** The address a reply grants to a hardware address. *)
Definition grants (r : list Z) (mac : list Z) (a : Z) : Prop :=
  exists p, parse r = Ok (Some p) /\ (message_type p = Some MSG_OFFER \/ message_type p = Some MSG_ACK)
    /\ chaddr p = mac /\ yiaddr p = a.
Lemma reply_backed_grants cfg t r mac a :
  reply_backed cfg t r -> grants r mac a -> by_mac t !! mac = Some a.
Proof.
  intros (p & Hp & Hc) (q & Hq & Ht & <- & <-). rewrite Hp in Hq. injection Hq as <-.
  destruct Hc as [[Hn _]|[_ Hb]]; [|done]. rewrite Hn in Ht. destruct Ht; discriminate.
Qed.

(** C12: over any run of the server, on any sequence of datagrams and receive
    errors, the server never panics, every address it offers or acknowledges is
    in the pool, and no address is ever granted to two hardware addresses. *)
Theorem server_leases_exclusive cfg evs :
  config_ok cfg -> Forall event_ok evs ->
  exists replies t, run cfg evs = Ok (replies, t) /\ table_ok cfg t
    /\ (forall r mac a, In r replies -> grants r mac a -> in_pool cfg a /\ by_mac t !! mac = Some a)
    /\ (forall r1 r2 m1 m2 a, In r1 replies -> In r2 replies -> grants r1 m1 a -> grants r2 m2 a -> m1 = m2).
Proof.
  intros Hcfg Hev. destruct (run_loop_correct cfg (initial_table cfg) evs) as (rs & t & Hr & Hok & _ & Hb);
    [done|by apply initial_table_ok|done|].
  exists rs, t. assert (Hg : forall r mac a, In r rs -> grants r mac a -> by_mac t !! mac = Some a).
  { intros r mac a Hin. apply (reply_backed_grants cfg). by eapply (proj1 (List.Forall_forall _ _)). }
  split_and!; [done|done| |].
  - intros r mac a Hin Hgr. pose proof (Hg r mac a Hin Hgr) as Hl. split; [by eapply table_in_pool|done].
  - intros r1 r2 m1 m2 a H1 H2 G1 G2. exact (table_inj _ _ Hok m1 m2 a (Hg _ _ _ H1 G1) (Hg _ _ _ H2 G2)).
Qed.

Definition demo_cfg : DhcpServerConfig :=
  mkServerConfig "wlan0" (ipv4_new 10 42 0 1) (ipv4_new 10 42 0 10) (ipv4_new 10 42 0 11) 24 3600 [ipv4_new 10 42 0 1].
Lemma demo_cfg_ok : config_ok demo_cfg.
Proof. unfold config_ok. by_decision. Qed.
Definition demo_events : list recv_event :=
  [Datagram (build_discover 7 demo_mac None); RecvError (IoError IoWouldBlock ""); Datagram [1; 2]].
Lemma server_leases_exclusive_witness :
  exists replies t, run demo_cfg demo_events = Ok (replies, t) /\ table_ok demo_cfg t /\ length replies = 1%nat.
Proof.
  destruct (server_leases_exclusive demo_cfg demo_events demo_cfg_ok) as (rs & t & Hr & Hok & _).
  { by_decision. }
  exists rs, t. split; [exact Hr|]. split; [exact Hok|].
  assert (Hn : ((fun x => length x.1) <$> run demo_cfg demo_events) = Ok 1%nat) by (vm_compute; reflexivity).
  rewrite Hr in Hn. by injection Hn.
Defined.

(** Allocation is complete and stable: a client that holds a lease gets it
    again, a new client gets a free pool address that is then its own, other
    leases are kept, and "no address" is answered only when every pool address
    is leased. *)
Theorem allocate_complete cfg t mac :
  config_ok cfg -> table_ok cfg t ->
  exists r t', allocate t mac cfg = Ok (r, t') /\ table_ok cfg t' /\ by_mac t ⊆ by_mac t'
    /\ match r with
       | Some a => by_mac t' !! mac = Some a /\ in_pool cfg a
       | None => by_mac t' = by_mac t /\ by_mac t !! mac = None
                 /\ forall a, in_pool cfg a -> exists m, by_mac t !! m = Some a
       end.
Proof. apply allocate_correct. Qed.
Lemma allocate_complete_witness :
  exists r t', allocate (initial_table demo_cfg) demo_mac demo_cfg = Ok (r, t') /\ table_ok demo_cfg t'.
Proof.
  destruct (allocate_complete demo_cfg (initial_table demo_cfg) demo_mac demo_cfg_ok
              (initial_table_ok _ demo_cfg_ok)) as (r & t' & Ha & Ht & _).
  exists r, t'. split; [exact Ha|exact Ht].
Defined.
