(* ===== verification/Sys.v ===== *)
(** * The outside world

    What the sources call and do not contain: clocks, sockets and the file
    system of the kernel, and the external tools.  Each is an interface class
    over an abstract world [W]; the components' definitions and theorems are
    stated against the classes, so they hold for every behaviour of the
    outside code.  An operation gives its result or an [io_error], with the
    world after it. *)

From S2P Require Import Prelude RustStr IpAddr.

Definition io (W A : Type) : Type := W -> (A + io_error) * W.

(** [f()?] on an [io::Result]: [From<io::Error> for NetworkError]. *)
Definition io_try {W A} (c : io W A) : M W A := fun w =>
  match c w with
  | (inl a, w') => (Ok a, w')
  | (inr e, w') => (Err (Io e), w')
  end.
(** [f().map_err(g)?] *)
Definition io_try_with {W A} (g : io_error -> NetworkError) (c : io W A) : M W A := fun w =>
  match c w with
  | (inl a, w') => (Ok a, w')
  | (inr e, w') => (Err (g e), w')
  end.
(** [match f() { Ok .. Err .. }] *)
Definition io_match {W A} (c : io W A) : M W (A + io_error) := fun w =>
  let '(r, w') := c w in (Ok r, w').
(** A call whose result the source drops. *)
Definition io_ignore {W A} (c : io W A) : M W unit := fun w => (Ok tt, (c w).2).
Definition effect {W} (f : W -> W) : M W unit := fun w => (Ok tt, f w).
(** [Drop]: run when the scope ends, by a value, an error or a panic. *)
Definition finally {W A} (c : M W A) (f : W -> W) : M W A := fun w =>
  let '(r, w') := c w in (r, f w').
Definition observe {W A} (f : W -> A * W) : M W A := fun w =>
  let '(a, w') := f w in (Ok a, w').

(** ** Clocks *)

Class Clock (W : Type) := {
  (** [Instant::now()], in nanoseconds *)
  clk_instant : W -> Z * W;
  (** [SystemTime::now().duration_since(UNIX_EPOCH).unwrap_or_default()]:
      seconds and the nanoseconds within the second *)
  clk_unix : W -> (Z * Z) * W;
  (** [std::process::id()] *)
  clk_pid : W -> Z;
  (** [thread::sleep], in nanoseconds *)
  clk_sleep : Z -> W -> W
}.

Definition now_secs {W} `{Clock W} : M W Z := observe (fun w => let '((s, _), w') := clk_unix w in (s, w')).
Definition instant_now {W} `{Clock W} : M W Z := observe clk_instant.
Definition secs_to_nanos (s : Z) : Z := s * 1000000000.

(** ** Sockets *)

Inductive sock_kind := SkUdp4 | SkUdp6 | SkNetlink (protocol : Z) | SkUnixDatagram.
Inductive sock_opt := SoBroadcast | SoReuseAddr | SoBindToDevice (name : string) | SoRcvTimeout (nanos : Z).
Inductive sock_addr :=
| AnyPort4 (port : Z)
| AnyPort6 (port : Z)
| NlGroups (groups : Z)
| UnixPath (path : string).
Inductive dest_addr :=
| Dest4 (addr port : Z)
| Dest6 (addr port scope : Z)
| DestKernel
| DestPeer.

Class Sockets (W : Type) := {
  so_socket : sock_kind -> io W Z;
  so_setsockopt : Z -> sock_opt -> io W unit;
  so_bind : Z -> sock_addr -> io W unit;
  so_connect : Z -> sock_addr -> io W unit;
  so_close : Z -> W -> W;
  so_send : Z -> list Z -> dest_addr -> io W unit;
  (** the datagram, cut at the given buffer size *)
  so_recv : Z -> nat -> io W (list Z)
}.

(** Connected streams: [TcpStream::connect] resolves the host name. *)
Class TcpStreams (W : Type) := {
  tcp_connect : string -> Z -> io W Z;
  (** [TcpStream::connect_timeout], the time in nanoseconds *)
  tcp_connect_timeout : IpAddr -> Z -> Z -> io W Z;
  tcp_read_timeout : Z -> Z -> io W unit;
  tcp_write_timeout : Z -> Z -> io W unit;
  tcp_write_all : Z -> list Z -> io W unit;
  (** [stream.take(limit).read_to_end] *)
  tcp_read_to_end : Z -> Z -> io W (list Z);
  tcp_close : Z -> W -> W
}.

(** An address and a port. *)
Record SocketAddr := mkSocketAddr { sa_ip : IpAddr; sa_port : Z }.
(** [to_socket_addrs] on ["host:port"]: the addresses in the order the
    resolver gives them. *)
Class SocketAddrs (W : Type) := { to_socket_addrs : string -> io W (list SocketAddr) }.
(** [stream.read] into a buffer of the given size *)
Class TcpReads (W : Type) := { tcp_read : Z -> nat -> io W (list Z) }.

(** ** Files *)

Class FileSystem (W : Type) := {
  fs_read : string -> io W string;
  (** [fs::read]: the bytes, whether or not they are UTF-8 *)
  fs_read_raw : string -> io W string;
  fs_write : string -> string -> io W unit;
  fs_rename : string -> string -> io W unit;
  fs_remove : string -> io W unit;
  fs_create_dir_all : string -> io W unit;
  (** the file names in a directory *)
  fs_read_dir : string -> io W (list string);
  (** [metadata(p).modified()], nanoseconds since the epoch *)
  fs_mtime : string -> io W Z;
  (** [set_permissions(p, Permissions::from_mode(mode))] *)
  fs_chmod : string -> Z -> io W unit;
  fs_exists : string -> W -> bool * W;
  (** the text of a symbolic link *)
  fs_read_link : string -> io W string;
  (** [File::open], the handle dropped at once *)
  fs_open : string -> io W unit;
  (** [OpenOptions::create_new] and [DirBuilder::create] with a mode: refuse a
      path that exists *)
  fs_create_new : string -> Z -> io W unit;
  fs_create_dir : string -> Z -> io W unit
}.
(** [/dev/urandom], and [std::env::temp_dir()] *)
Class Entropy (W : Type) := {
  rand_bytes : nat -> io W (list Z);
  env_temp_dir : string
}.

(** ** Commands: [Command::new(prog).args(args)] with the text piped to its
    standard input, run to its end. *)
Record Output := mkOutput {
  out_success : bool;
  (** [ExitStatus]'s [Display] *)
  out_status : string;
  out_stdout : list Z;
  out_stderr : list Z
}.
(** A child that is fed its input by a thread of its own: it cannot be started
    or waited for, the thread cannot be made, or it has ended. *)
Inductive fed :=
| FedError (e : io_error)
| FedNoThread
| FedOutput (o : Output).
Class Processes (W : Type) := {
  run_command : string -> list string -> io W Output;
  run_fed : string -> list string -> string -> W -> fed * W
}.

(** ** Child processes that run beside the daemon, directories removed whole,
    Unix stream sockets, and threads that only clean up. *)
Class Children (W : Type) := {
  cp_spawn : string -> list string -> io W Z;
  cp_kill : Z -> io W unit;
  cp_wait : Z -> io W unit
}.
Class WorkDirs (W : Type) := {
  (** [Path::is_file] *)
  fs_is_file : string -> W -> bool * W;
  fs_remove_dir_all : string -> io W unit
}.
Class UnixStreams (W : Type) := {
  us_bind : string -> io W Z;
  us_nonblocking : Z -> bool -> io W unit;
  us_accept : Z -> io W Z;
  us_write : Z -> string -> io W unit;
  us_try_clone : Z -> io W Z;
  us_close : Z -> W -> W
}.
Class Threads (W : Type) := {
  (** whether the system can make the thread [std::thread::spawn] asks for *)
  thread_starts : W -> bool * W;
  (** a thread that sleeps for the nanoseconds, then removes the file *)
  spawn_remove_after : Z -> string -> W -> W
}.

(** [std::thread::spawn] panics where no thread can be made. *)
Definition SPAWN : string := "failed to spawn thread".
Definition spawn_thread {W} `{Threads W} : M W unit :=
  ok ← observe thread_starts; if (ok : bool) then mret tt else lift (Panic SPAWN).

(** ** Statics: a [static] behind a [Mutex] is a part of the world. *)
Class Static (S W : Type) := { st_get : W -> S; st_put : S -> W -> W }.
Class StaticLaws (S W : Type) `{Static S W} := {
  st_get_put s w : st_get (st_put s w) = s
}.
Definition static_get {S W} `{Static S W} : M W S := fun w => (Ok (st_get w), w).
Definition static_put {S W} `{Static S W} (s : S) : M W unit := fun w => (Ok tt, st_put s w).

(** ** The kernel's host name: [gethostname] fills the given buffer. *)
Class HostNames (W : Type) := {
  sys_gethostname : nat -> W -> option (list Z) * W;
  sys_sethostname : string -> io W unit
}.

(** ** Traces

    Any world with the messages that went through its sockets, the children it
    started, and the calls that write to a stream, kill and wait for a child or remove a directory,
    with whether they succeeded, recorded beside it: what a protocol sends and
    accepts, and what a failure leaves behind, is stated over the trace. *)
Inductive sock_event :=
| EvSend (fd : Z) (b : list Z) (d : dest_addr)
| EvRecv (fd : Z) (b : list Z)
| EvSpawn (pid : Z) (prog : string) (args : list string)
| EvTell (fd : Z) (text : string) (ok : bool)
| EvKill (pid : Z) (ok : bool)
| EvWait (pid : Z) (ok : bool)
| EvRmDir (path : string) (ok : bool).
Definition went_well {A E} (r : A + E) : bool := match r with inl _ => true | inr _ => false end.

Definition traced (W : Type) : Type := (W * list sock_event)%type.
Definition untraced {W A} (c : io W A) : io (traced W) A := fun w =>
  let '(r, w') := c w.1 in (r, (w', w.2)).

#[export] Instance traced_sockets {W} `{Sockets W} : Sockets (traced W) := {
  so_socket k := untraced (so_socket k);
  so_setsockopt fd o := untraced (so_setsockopt fd o);
  so_bind fd a := untraced (so_bind fd a);
  so_connect fd a := untraced (so_connect fd a);
  so_close fd w := (so_close fd w.1, w.2);
  so_send fd b d w := match so_send fd b d w.1 with
    | (inl _, w') => (inl tt, (w', w.2 ++ [EvSend fd b d]))
    | (inr e, w') => (inr e, (w', w.2)) end;
  so_recv fd n w := match so_recv fd n w.1 with
    | (inl b, w') => (inl b, (w', w.2 ++ [EvRecv fd b]))
    | (inr e, w') => (inr e, (w', w.2)) end
}.
#[export] Instance traced_clock {W} `{Clock W} : Clock (traced W) := {
  clk_instant w := let '(t, w') := clk_instant w.1 in (t, (w', w.2));
  clk_unix w := let '(t, w') := clk_unix w.1 in (t, (w', w.2));
  clk_pid w := clk_pid w.1;
  clk_sleep d w := (clk_sleep d w.1, w.2)
}.

#[export] Instance traced_files {W} `{FileSystem W} : FileSystem (traced W) := {
  fs_read p := untraced (fs_read p);
  fs_read_raw p := untraced (fs_read_raw p);
  fs_write p s := untraced (fs_write p s);
  fs_rename a b := untraced (fs_rename a b);
  fs_remove p := untraced (fs_remove p);
  fs_create_dir_all p := untraced (fs_create_dir_all p);
  fs_read_dir p := untraced (fs_read_dir p);
  fs_mtime p := untraced (fs_mtime p);
  fs_chmod p m := untraced (fs_chmod p m);
  fs_exists p w := let '(b, w') := fs_exists p w.1 in (b, (w', w.2));
  fs_read_link p := untraced (fs_read_link p);
  fs_open p := untraced (fs_open p);
  fs_create_new p m := untraced (fs_create_new p m);
  fs_create_dir p m := untraced (fs_create_dir p m)
}.
#[export] Instance traced_entropy {W} `{Entropy W} : Entropy (traced W) := {
  rand_bytes n := untraced (rand_bytes n);
  env_temp_dir := env_temp_dir (W := W)
}.

#[export] Instance traced_children {W} `{Children W} : Children (traced W) := {
  cp_spawn prog args w := match cp_spawn prog args w.1 with
    | (inl pid, w') => (inl pid, (w', w.2 ++ [EvSpawn pid prog args]))
    | (inr e, w') => (inr e, (w', w.2)) end;
  cp_kill pid w := let '(r, w') := cp_kill pid w.1 in (r, (w', w.2 ++ [EvKill pid (went_well r)]));
  cp_wait pid w := let '(r, w') := cp_wait pid w.1 in (r, (w', w.2 ++ [EvWait pid (went_well r)]))
}.
#[export] Instance traced_workdirs {W} `{WorkDirs W} : WorkDirs (traced W) := {
  fs_is_file p w := let '(b, w') := fs_is_file p w.1 in (b, (w', w.2));
  fs_remove_dir_all p w := let '(r, w') := fs_remove_dir_all p w.1 in (r, (w', w.2 ++ [EvRmDir p (went_well r)]))
}.
#[export] Instance traced_unix_streams {W} `{UnixStreams W} : UnixStreams (traced W) := {
  us_bind p := untraced (us_bind p);
  us_nonblocking fd b := untraced (us_nonblocking fd b);
  us_accept fd := untraced (us_accept fd);
  us_write fd s w := let '(r, w') := us_write fd s w.1 in (r, (w', w.2 ++ [EvTell fd s (went_well r)]));
  us_try_clone fd := untraced (us_try_clone fd);
  us_close fd w := (us_close fd w.1, w.2)
}.
#[export] Instance traced_threads {W} `{Threads W} : Threads (traced W) := {
  thread_starts w := let '(b, w') := thread_starts w.1 in (b, (w', w.2));
  spawn_remove_after d p w := (spawn_remove_after d p w.1, w.2)
}.
#[export] Instance traced_static {S W} `{Static S W} : Static S (traced W) := {
  st_get w := st_get w.1;
  st_put s w := (st_put s w.1, w.2)
}.
#[export] Instance traced_static_laws {S W} `{StaticLaws S W} : StaticLaws S (traced W).
Proof. constructor. intros s w. exact (st_get_put s w.1). Qed.

(** ** Monad lemmas *)

Lemma lift_Ok {W A} (o : outcome A) w a w' : lift o w = (Ok a, w') <-> o = Ok a /\ w' = w :> W.
Proof. unfold lift. split; [by intros [= -> ->]|by intros [-> ->]]. Qed.
Lemma mret_Ok {W A} (x : A) w a w' : (mret x : M W A) w = (Ok a, w') <-> a = x /\ w' = w.
Proof. unfold mret, M_ret. split; [by intros [= -> ->]|by intros [-> ->]]. Qed.
Lemma throw_Ok {W A} e w (a : A) (w' : W) : throw e w = (Ok a, w') <-> False.
Proof. unfold throw. by split. Qed.
Lemma io_try_Ok {W A} (c : io W A) w a w' : io_try c w = (Ok a, w') <-> c w = (inl a, w').
Proof. unfold io_try. destruct (c w) as [[x|e] w1]; split; intros; simplify_eq; done. Qed.

Lemma traced_send {W} `{Sockets W} fd b d (w w' : traced W) u :
  so_send fd b d w = (inl u, w') -> w'.2 = w.2 ++ [EvSend fd b d].
Proof. cbn. by destruct (so_send fd b d w.1) as [[?|?] ?]; intros; simplify_eq. Qed.
Lemma traced_recv {W} `{Sockets W} fd n b (w w' : traced W) :
  so_recv fd n w = (inl b, w') -> w'.2 = w.2 ++ [EvRecv fd b].
Proof. cbn. by destruct (so_recv fd n w.1) as [[?|?] ?]; intros; simplify_eq. Qed.
Lemma traced_instant {W} `{Clock W} (w : traced W) : (clk_instant w).2.2 = w.2.
Proof. cbn. by destruct (clk_instant w.1). Qed.
Lemma traced_unix {W} `{Clock W} (w : traced W) : (clk_unix w).2.2 = w.2.
Proof. cbn. by destruct (clk_unix w.1). Qed.


Lemma observe_run {W A} (f : W -> A * W) w : observe f w = (Ok (f w).1, (f w).2).
Proof. unfold observe. by destruct (f w). Qed.

(** ** Frames

    [keeps f c]: the computation leaves the part [f] of the world alone;
    [safe c]: it does not panic.  Both go through the combinators, and [frame]
    drives them over a whole body, leaving the primitive operations. *)
Definition keeps {W X A} (f : W -> X) (c : M W A) : Prop := forall w, f (c w).2 = f w.
Definition safe {W A} (c : M W A) : Prop := forall w, no_panic (c w).1.
(** The same for an operation of the outside. *)
Definition keeps_io {W X A} (f : W -> X) (c : io W A) : Prop := forall w, f (c w).2 = f w.

Section Frames.
Context {W X : Type} (f : W -> X).
Lemma keeps_bind {A B} (m : M W A) (g : A -> M W B) : keeps f m -> (forall a, keeps f (g a)) -> keeps f (m ≫= g).
Proof.
  intros Hm Hg w. unfold mbind, M_bind. specialize (Hm w). destruct (m w) as [[a|e|s] w1]; cbn in *; [|done..].
  by rewrite Hg.
Qed.
Lemma keeps_ret {A} (a : A) : keeps f (mret a).
Proof. done. Qed.
Lemma keeps_lift {A} (o : outcome A) : keeps f (lift o).
Proof. done. Qed.
Lemma keeps_throw {A} e : keeps f (throw e : M W A).
Proof. done. Qed.
Lemma keeps_attempt {A} (c : M W A) : keeps f c -> keeps f (attempt c).
Proof. intros Hc w. specialize (Hc w). unfold attempt. by destruct (c w) as [[a|e|s] w1]. Qed.
Lemma keeps_ignore {A} (c : M W A) : keeps f c -> keeps f (ignore c).
Proof. intros Hc w. specialize (Hc w). unfold ignore. by destruct (c w) as [[a|e|s] w1]. Qed.
Lemma keeps_finally {A} (c : M W A) d : keeps f c -> (forall w, f (d w) = f w) -> keeps f (finally c d).
Proof. intros Hc Hd w. specialize (Hc w). unfold finally. destruct (c w); cbn in *. by rewrite Hd. Qed.
Lemma keeps_effect d : (forall w, f (d w) = f w) -> keeps f (effect d).
Proof. intros Hd w. apply Hd. Qed.
Lemma keeps_observe {A} (o : W -> A * W) : (forall w, f (o w).2 = f w) -> keeps f (observe o).
Proof. intros Ho w. rewrite observe_run. apply Ho. Qed.
Lemma keeps_io_try {A} (c : io W A) : keeps_io f c -> keeps f (io_try c).
Proof. intros Hc w. specialize (Hc w). unfold io_try. by destruct (c w) as [[a|e] w1]. Qed.
Lemma keeps_io_try_with {A} g (c : io W A) : keeps_io f c -> keeps f (io_try_with g c).
Proof. intros Hc w. specialize (Hc w). unfold io_try_with. by destruct (c w) as [[a|e] w1]. Qed.
Lemma keeps_io_match {A} (c : io W A) : keeps_io f c -> keeps f (io_match c).
Proof. intros Hc w. specialize (Hc w). unfold io_match. by destruct (c w) as [[a|e] w1]. Qed.
Lemma keeps_io_ignore {A} (c : io W A) : keeps_io f c -> keeps f (io_ignore c).
Proof. intros Hc w. apply Hc. Qed.
Lemma keeps_for_each {A} (l : list A) (g : A -> M W unit) : (forall x, keeps f (g x)) -> keeps f (for_each l g).
Proof. intros Hg. induction l as [|x l IH]; cbn; [apply keeps_ret|]. by apply keeps_bind. Qed.
End Frames.

Section Safety.
Context {W : Type}.
Lemma safe_bind {A B} (m : M W A) (g : A -> M W B) : safe m -> (forall a, safe (g a)) -> safe (m ≫= g).
Proof.
  intros Hm Hg w. unfold mbind, M_bind. specialize (Hm w). destruct (m w) as [[a|e|s] w1]; cbn in *;
    [apply Hg|done|by destruct (Hm s)].
Qed.
Lemma safe_ret {A} (a : A) : safe (mret a : M W A).
Proof. done. Qed.
Lemma safe_lift {A} (o : outcome A) : no_panic o -> safe (lift o : M W A).
Proof. intros Ho w. exact Ho. Qed.
Lemma safe_throw {A} e : safe (throw e : M W A).
Proof. done. Qed.
Lemma safe_attempt {A} (c : M W A) : safe c -> safe (attempt c).
Proof. intros Hc w. specialize (Hc w). unfold attempt. destruct (c w) as [[a|e|s] w1]; [done..|by destruct (Hc s)]. Qed.
Lemma safe_ignore {A} (c : M W A) : safe c -> safe (ignore c).
Proof. intros Hc w. specialize (Hc w). unfold ignore. destruct (c w) as [[a|e|s] w1]; [done..|by destruct (Hc s)]. Qed.
Lemma safe_finally {A} (c : M W A) d : safe c -> safe (finally c d).
Proof. intros Hc w. specialize (Hc w). unfold finally. by destruct (c w). Qed.
Lemma safe_effect d : safe (effect d : M W unit).
Proof. done. Qed.
Lemma safe_observe {A} (o : W -> A * W) : safe (observe o).
Proof. intros w. by rewrite observe_run. Qed.
Lemma safe_io_try {A} (c : io W A) : safe (io_try c).
Proof. intros w. unfold io_try. by destruct (c w) as [[a|e] w1]. Qed.
Lemma safe_io_try_with {A} g (c : io W A) : safe (io_try_with g c).
Proof. intros w. unfold io_try_with. by destruct (c w) as [[a|e] w1]. Qed.
Lemma safe_io_match {A} (c : io W A) : safe (io_match c).
Proof. intros w. unfold io_match. by destruct (c w) as [[a|e] w1]. Qed.
Lemma safe_io_ignore {A} (c : io W A) : safe (io_ignore c).
Proof. done. Qed.
Lemma safe_for_each {A} (l : list A) (g : A -> M W unit) : (forall x, safe (g x)) -> safe (for_each l g).
Proof. intros Hg. induction l as [|x l IH]; cbn; [apply safe_ret|]. by apply safe_bind. Qed.
End Safety.

Create HintDb frame.
#[export] Hint Resolve keeps_ret keeps_lift keeps_throw safe_ret safe_throw safe_effect safe_observe safe_io_try
  safe_io_try_with safe_io_match safe_io_ignore : frame.
(** One step along the structure of a body; a case analysis where it branches. *)
Ltac frame_step :=
  match goal with
  | |- _ => solve [assumption | auto with frame]
  | |- keeps _ (_ ≫= _) => apply keeps_bind; [|intros]
  | |- keeps _ (attempt _) => apply keeps_attempt
  | |- keeps _ (ignore _) => apply keeps_ignore
  | |- keeps _ (finally _ _) => apply keeps_finally; [|intros]
  | |- keeps _ (io_try _) => apply keeps_io_try
  | |- keeps _ (io_try_with _ _) => apply keeps_io_try_with
  | |- keeps _ (io_match _) => apply keeps_io_match
  | |- keeps _ (io_ignore _) => apply keeps_io_ignore
  | |- keeps _ (effect _) => apply keeps_effect; intros
  | |- keeps _ (observe _) => apply keeps_observe; intros
  | |- keeps _ (for_each _ _) => apply keeps_for_each; intros
  | |- safe (_ ≫= _) => apply safe_bind; [|intros]
  | |- safe (attempt _) => apply safe_attempt
  | |- safe (ignore _) => apply safe_ignore
  | |- safe (finally _ _) => apply safe_finally
  | |- safe (lift _) => apply safe_lift
  | |- safe (for_each _ _) => apply safe_for_each; intros
  | |- keeps _ (match _ with _ => _ end) => case_match_goal
  | |- safe (match _ with _ => _ end) => case_match_goal
  end.
Ltac frame := repeat frame_step.
