(* ===== verification/Persistence.v ===== *)
(** * Persistence (persistence/database.rs, persistence/state.rs, config/parser.rs)

    The "temp file and rename" primitive behind leases, profiles and the
    configuration, over the [FileSystem] interface, and the theorem that makes
    it worth having: whatever fails on the way, the file is its old text or the
    whole new one.  [serde_json] and [toml] are parameters: a [Codec]. *)

From Stdlib Require Import Ascii String.
From S2P Require Import Prelude RustStr Sys.

(** ** Paths *)

(** [Path::join] *)
Definition path_join (base leaf : string) : string :=
  if starts_with "/" leaf then leaf
  else if bool_decide (base = "") || ends_with "/" base then base +:+ leaf
  else base +:+ "/" +:+ leaf.
(** [Path::parent] of a path with a file name *)
Definition path_parent (p : string) : string :=
  match rsplit_once "/" p with Some (dir, _) => dir | None => "" end.
Definition path_file_name (p : string) : string :=
  match rsplit_once "/" p with Some (_, f) => f | None => p end.
(** [Path::file_stem]: the text before the last dot, a leading dot apart. *)
Definition file_stem (f : string) : string :=
  match rsplit_once "." f with
  | Some (stem, _) => if bool_decide (stem = "") then f else stem
  | None => f
  end.
(** [Path::extension] *)
Definition extension (f : string) : option string :=
  match rsplit_once "." f with
  | Some (stem, e) => if bool_decide (stem = "") then None else Some e
  | None => None
  end.
Definition with_extension (p ext : string) : string :=
  match rsplit_once "/" p with
  | Some (dir, f) => dir +:+ "/" +:+ file_stem f +:+ "." +:+ ext
  | None => file_stem p +:+ "." +:+ ext
  end.

Lemma file_stem_ext f ext : contains_char "." ext = true -> file_stem f +:+ "." +:+ ext <> f.
Proof.
  intros Hext Heq. unfold file_stem in Heq. pose proof (rsplit_once_spec "." f) as Hs.
  assert (Hself : forall g : string, g +:+ "." +:+ ext <> g).
  { intros g Hg. apply (f_equal str_len) in Hg. rewrite !str_len_app in Hg. cbn in Hg. lia. }
  destruct (rsplit_once "." f) as [[stem e]|]; [|by apply Hself in Heq].
  case_bool_decide; [by apply Hself in Heq|]. destruct Hs as [-> He].
  apply str_app_inj_l in Heq. injection Heq as <-. congruence.
Qed.
(** A temp file never is the file itself. *)
Lemma with_extension_ne p ext : contains_char "." ext = true -> with_extension p ext <> p.
Proof.
  intros Hext Heq. unfold with_extension in Heq. pose proof (rsplit_once_spec "/" p) as Hs.
  destruct (rsplit_once "/" p) as [[dir f]|]; [|by apply file_stem_ext in Heq].
  destruct Hs as [-> _]. apply str_app_inj_l in Heq. injection Heq as Heq.
  by apply file_stem_ext in Heq.
Qed.

(** The last byte of a path tells the kinds of files apart. *)
Definition last_byte (s : string) : option Z := head (str_bytes (str_rev s)).
Lemma last_byte_app s t : t <> "" -> last_byte (s +:+ t) = last_byte t.
Proof.
  intros Ht. unfold last_byte. rewrite str_rev_app, str_bytes_app, str_bytes_rev.
  destruct (rev (str_bytes t)) as [|b l] eqn:E; [|done]. destruct t as [|a t]; [done|].
  cbn in E. by destruct (rev (str_bytes t)).
Qed.
Lemma path_join_last base leaf : leaf <> "" -> last_byte (path_join base leaf) = last_byte leaf.
Proof.
  intros Hl. unfold path_join. destruct (starts_with "/" leaf); [done|].
  destruct (_ || _); [by apply last_byte_app|]. rewrite last_byte_app by done.
  by apply (last_byte_app "/").
Qed.
Lemma with_extension_last p ext : ext <> "" -> last_byte (with_extension p ext) = last_byte ext.
Proof.
  intros He. unfold with_extension.
  destruct (rsplit_once "/" p) as [[d f]|]; rewrite last_byte_app by done.
  - change ("/" +:+ file_stem f +:+ "." +:+ ext) with (("/" +:+ file_stem f) +:+ ("." +:+ ext)).
    rewrite last_byte_app by done. by apply (last_byte_app ".").
  - by apply (last_byte_app ".").
Qed.
(** Joining is putting a fixed text before the file name. *)
Definition join_prefix (base : string) : string :=
  if bool_decide (base = "") || ends_with "/" base then base else base +:+ "/".
Lemma path_join_prefix base leaf : starts_with "/" leaf = false -> path_join base leaf = join_prefix base +:+ leaf.
Proof. intros Hl. unfold path_join, join_prefix. rewrite Hl. destruct (_ || _); [done|]. by rewrite str_app_assoc. Qed.

(** ** Text formats *)

(** A text format for [A]: [serde_json] or [toml] with the derived instances,
    the error they report already turned into a [NetworkError]. *)
Class Codec (A : Type) := {
  encode : A -> outcome string;
  decode : string -> outcome A
}.

Section Database.
Context {W : Type} `{FileSystem W}.

Definition is_not_found (e : io_error) : bool :=
  match io_err_kind e with IoNotFound => true | _ => false end.

Definition read_json {A} `{Codec A} (path : string) : M W (option A) :=
  r ← io_match (fs_read path);
  match r with
  | inl s => a ← lift (decode s); mret (Some a)
  | inr e => if is_not_found e then mret None else throw (Io e)
  end.

Definition write_json {A} `{Codec A} (path : string) (value : A) : M W unit :=
  io_try (fs_create_dir_all (path_parent path)) ;;
  text ← lift (encode value);
  let tmp := with_extension path "json.tmp" in
  io_try (fs_write tmp text) ;;
  io_try (fs_rename tmp path).

Definition db_remove (path : string) : M W unit :=
  r ← io_match (fs_remove path);
  match r with
  | inl _ => mret tt
  | inr e => if is_not_found e then mret tt else throw (Io e)
  end.

(** [list_dir]: the entries with the given extension, in the order the
    directory is read. *)
Definition list_dir (dir ext : string) : M W (list string) :=
  r ← io_match (fs_read_dir dir);
  match r with
  | inl entries =>
      mret (map (path_join dir)
              (List.filter (fun f => bool_decide (extension f = Some ext)) entries))
  | inr e => if is_not_found e then mret [] else throw (Io e)
  end.

(** config/parser.rs *)
Definition parse_optional {A} `{Codec A} (path : string) : M W (option A) :=
  r ← io_match (fs_read path);
  match r with
  | inl s => a ← lift (decode s); mret (Some a)
  | inr e => if is_not_found e then mret None else throw (Io e)
  end.
Definition write_atomic {A} `{Codec A} (path : string) (value : A) : M W unit :=
  text ← lift (encode value);
  let tmp := with_extension path "toml.tmp" in
  io_try (fs_create_dir_all (path_parent path)) ;;
  io_try (fs_write tmp text) ;;
  io_try (fs_rename tmp path).
End Database.

(** ** Where leases live (persistence/state.rs) *)

Definition lease_path (base ifname : string) : string :=
  path_join (path_join base "leases") (ifname +:+ ".json").
Definition lease6_path (base ifname : string) : string :=
  path_join (path_join base "leases") (ifname +:+ ".v6.json").

(** ** What a file system does *)

(** The contents a world's files have, and the documented effect of the calls:
    a failed write may leave anything in the file it was writing, a failed
    rename changes nothing. *)
Class FileSystemLaws (W : Type) `{FileSystem W} := {
  files : W -> gmap string string;
  law_read p w : match fs_read p w with
    | (inl s, w') => files w !! p = Some s /\ files w' = files w
    | (inr e, w') => (is_not_found e = true -> files w !! p = None) /\ files w' = files w end;
  law_read_raw p w : match fs_read_raw p w with
    | (inl s, w') => files w !! p = Some s /\ files w' = files w
    | (inr _, w') => files w' = files w end;
  law_write p s w : match fs_write p s w with
    | (inl _, w') => files w' = <[p := s]> (files w)
    | (inr _, w') => delete p (files w') = delete p (files w) end;
  law_rename a b w : match fs_rename a b w with
    | (inl _, w') => exists s, files w !! a = Some s /\ files w' = <[b := s]> (delete a (files w))
    | (inr _, w') => files w' = files w end;
  law_remove p w : match fs_remove p w with
    | (inl _, w') => files w' = delete p (files w)
    | (inr e, w') => (is_not_found e = true -> files w !! p = None) /\ files w' = files w end;
  law_create_dir p w : files (fs_create_dir_all p w).2 = files w;
  law_open p w : files (fs_open p w).2 = files w;
  law_create_new p m w : match fs_create_new p m w with
    | (inl _, w') => files w !! p = None /\ files w' = <[p := ""%string]> (files w)
    | (inr _, w') => files w' = files w end;
  law_chmod p m w : files (fs_chmod p m w).2 = files w;
  law_read_dir d w : match fs_read_dir d w with
    | (inl entries, w') => files w' = files w /\ forall f, In f entries -> contains_char "/" f = false
    | (inr e, w') => files w' = files w end
}.

Section Atomic.
Context {W : Type} `{FileSystemLaws W} {A : Type} `{Codec A}.

(** Replacing [path] through [tmp]. *)
Definition replaced (path tmp text : string) (r : outcome unit) (f f' : gmap string string) : Prop :=
  (forall p, p <> path -> p <> tmp -> f' !! p = f !! p)
  /\ match r with
     | Ok _ => f' !! path = Some text
     | _ => f' !! path = f !! path
     end.

Lemma write_then_rename path tmp text w :
  tmp <> path ->
  let r := (io_try (fs_write tmp text) ;; io_try (fs_rename tmp path)) w in
  replaced path tmp text r.1 (files w) (files r.2).
Proof.
  intros Hne. cbn zeta. unfold mbind, M_bind, io_try. pose proof (law_write tmp text w) as Hw.
  destruct (fs_write tmp text w) as [[[]|e] w1]; cbn [fst snd].
  - pose proof (law_rename tmp path w1) as Hr. destruct (fs_rename tmp path w1) as [[[]|e] w2]; cbn [fst snd].
    + destruct Hr as (s & Hs & ->). rewrite Hw, lookup_insert_eq in Hs. injection Hs as <-. split.
      * intros p Hp Ht. rewrite lookup_insert_ne, lookup_delete_ne, Hw, lookup_insert_ne by done. done.
      * by rewrite lookup_insert_eq.
    + rewrite Hr, Hw. split; [intros p Hp Ht|]; by rewrite lookup_insert_ne.
  - assert (Hl : forall p, p <> tmp -> files w1 !! p = files w !! p).
    { intros p Hp. rewrite <- (lookup_delete_ne _ tmp p), Hw, lookup_delete_ne by done. done. }
    split; [intros p _ Ht|]; apply Hl; done.
Qed.

(** Both writers are the same three file operations once the text is known. *)
Definition replace_file (path tmp text : string) : M W unit :=
  io_try (fs_create_dir_all (path_parent path)) ;;
  (io_try (fs_write tmp text) ;; io_try (fs_rename tmp path)).

Lemma replace_file_replaces path tmp text w :
  tmp <> path ->
  replaced path tmp text (replace_file path tmp text w).1
    (files w) (files (replace_file path tmp text w).2).
Proof.
  intros Hne. pose proof (law_create_dir (path_parent path) w) as Hd.
  assert (E : replace_file path tmp text w =
    match fs_create_dir_all (path_parent path) w with
    | (inl _, w1) => (io_try (fs_write tmp text) ;; io_try (fs_rename tmp path)) w1
    | (inr e, w1) => (Err (Io e), w1)
    end).
  { unfold replace_file. unfold mbind at 1, M_bind at 1, io_try at 1.
    by destruct (fs_create_dir_all (path_parent path) w) as [[[]|e] w1]. }
  rewrite E. destruct (fs_create_dir_all (path_parent path) w) as [[[]|e] w1]; cbn [fst snd] in *.
  - rewrite <- Hd. by apply write_then_rename.
  - rewrite Hd. by split.
Qed.
(** The two calls alone, also when the temp file is the file. *)
Lemma write_then_rename_gen path tmp text w :
  let r := (io_try (fs_write tmp text) ;; io_try (fs_rename tmp path)) w in
  (forall p, p <> path -> p <> tmp -> files r.2 !! p = files w !! p)
  /\ (r.1 = Ok tt -> files r.2 !! path = Some text)
  /\ (r.1 <> Ok tt -> tmp <> path -> files r.2 !! path = files w !! path).
Proof.
  destruct (decide (tmp = path)) as [->|Hne]; cbn zeta.
  - unfold mbind, M_bind, io_try. pose proof (law_write path text w) as Hw.
    destruct (fs_write path text w) as [[[]|e] w1]; cbn [fst snd].
    + pose proof (law_rename path path w1) as Hr. destruct (fs_rename path path w1) as [[[]|e] w2]; cbn [fst snd].
      * destruct Hr as (s & Hs & ->). rewrite Hw, lookup_insert_eq in Hs. injection Hs as <-.
        split_and!; [|by rewrite lookup_insert_eq|done]. intros p Hp _.
        rewrite lookup_insert_ne, lookup_delete_ne, Hw, lookup_insert_ne by done. done.
      * rewrite Hr, Hw. split_and!; try done. intros p Hp _. by rewrite lookup_insert_ne.
    + split_and!; try done. intros p Hp _.
      rewrite <- (lookup_delete_ne _ path p), Hw, lookup_delete_ne by done. done.
  - pose proof (write_then_rename path tmp text w Hne) as [Hk Hr]. cbn zeta in Hk, Hr.
    split_and!; [done| |]; intros Hres; [by rewrite Hres in Hr|].
    intros _. destruct ((io_try (fs_write tmp text) ≫= (λ _ : (), io_try (fs_rename tmp path))) w) as [[[]|?|?] ?];
      by cbn [fst snd] in *.
Qed.

Lemma write_json_replace path text (v : A) w :
  encode v = Ok text -> write_json path v w = replace_file path (with_extension path "json.tmp") text w.
Proof.
  intros He. unfold write_json, replace_file, mbind, M_bind, io_try, lift. rewrite He.
  by destruct (fs_create_dir_all (path_parent path) w) as [[[]|e] w1].
Qed.
Lemma write_atomic_replace path text (v : A) w :
  encode v = Ok text -> write_atomic path v w = replace_file path (with_extension path "toml.tmp") text w.
Proof. intros He. unfold write_atomic, mbind at 1, M_bind at 1, lift. by rewrite He. Qed.
Lemma write_json_replaces path text (v : A) w :
  encode v = Ok text ->
  replaced path (with_extension path "json.tmp") text (write_json path v w).1
    (files w) (files (write_json path v w).2).
Proof. intros He. rewrite (write_json_replace _ _ _ _ He). apply replace_file_replaces. by apply with_extension_ne. Qed.
Lemma write_atomic_replaces path text (v : A) w :
  encode v = Ok text ->
  replaced path (with_extension path "toml.tmp") text (write_atomic path v w).1
    (files w) (files (write_atomic path v w).2).
Proof. intros He. rewrite (write_atomic_replace _ _ _ _ He). apply replace_file_replaces. by apply with_extension_ne. Qed.

(** A value written is the value read back. *)
Lemma read_back path text (v : A) w :
  decode text = Ok v -> files w !! path = Some text ->
  match read_json path w with
  | (Ok r, _) => r = Some v
  | (Err (Io _), _) => True
  | _ => False
  end.
Proof.
  intros Hd Hf. unfold read_json, mbind, M_bind, io_match. pose proof (law_read path w) as Hr.
  destruct (fs_read path w) as [[s|e] w1].
  - destruct Hr as [Hs _]. rewrite Hf in Hs. injection Hs as <-. unfold lift. by rewrite Hd.
  - destruct Hr as [Hs _]. destruct (is_not_found e); [|done]. rewrite Hf in Hs. by discriminate Hs.
Qed.
End Atomic.

(** ** Properties *)

(** [write_json] replaces a file as a whole.  Whatever call fails on the
    way, the file holds its old content; on success it holds the new text, no
    other file but the temporary one changes, and [read_json] gives the value
    back (or an I/O error of the read itself). *)
Theorem write_json_atomic {W} `{FileSystemLaws W} {A} `{Codec A} path text (v : A) w :
  encode v = Ok text -> decode text = Ok v ->
  let '(r, w') := write_json path v w in
  (forall p, p <> path -> p <> with_extension path "json.tmp" -> files w' !! p = files w !! p)
  /\ (r = Ok tt -> files w' !! path = Some text /\
        match read_json path w' with
        | (Ok x, _) => x = Some v
        | (Err (Io _), _) => True
        | _ => False
        end)
  /\ (r <> Ok tt -> files w' !! path = files w !! path).
Proof.
  intros He Hd. pose proof (write_json_replaces path text v w He) as [Ho Hp].
  destruct (write_json path v w) as [r w']. cbn [fst snd] in *. split; [done|]. split.
  - intros ->. split; [done|]. by apply (read_back path text).
  - intros Hr. destruct r as [[]|e|s]; [done|done|done].
Qed.
