(* ===== verification/Journal.v ===== *)
(** * A journal of what is done to files

    A world that notes the calls that leave something behind, each with its
    result: [Journal] is what the store asks of it, [journaled] adds it to any
    file system.  From the journal one can tell which files are in doubt: a
    write in place that fails may leave anything in its file, and a file that
    cannot be removed is still there. *)

From Stdlib Require Import Ascii String.
From S2P Require Import Prelude RustStr Sys Persistence.

Inductive deed :=
| DWrite (path : string) (ok : bool)
| DRename (from to : string) (ok : bool)
| DRemove (path : string) (r : unit + io_error)
(** left to a thread *)
| DRemoveLater (path : string)
(** created empty, bound to, or opened for appending *)
| DMake (path : string)
| DAppend (path text : string) (ok : bool)
| DMkdir (path : string)
| DChmod (path : string)
| DWorkdir (path : string)
| DRun (program : string).

Class Journal (W : Type) `{FileSystem W} := {
  journal : W -> list deed;
  jr_read_raw p w : journal (fs_read_raw p w).2 = journal w;
  jr_create_dir_all p w : journal (fs_create_dir_all p w).2 = journal w ++ [DMkdir p];
  jr_write p s w : journal (fs_write p s w).2 = journal w ++ [DWrite p (went_well (fs_write p s w).1)];
  jr_rename a b w : journal (fs_rename a b w).2 = journal w ++ [DRename a b (went_well (fs_rename a b w).1)];
  jr_remove p w : journal (fs_remove p w).2 = journal w ++ [DRemove p (fs_remove p w).1]
}.

(** ** Files in doubt

    A rename onto a file or its removal settles what is there.  [removals]:
    whether a removal that failed leaves the file in doubt too. *)
Definition doubt_step (removals : bool) (D : gset string) (d : deed) : gset string :=
  match d with
  | DWrite p false => {[p]} ∪ D
  | DRename _ b true => D ∖ {[b]}
  | DRemove p (inl _) => D ∖ {[p]}
  | DRemove p (inr e) => if removals && negb (is_not_found e) then {[p]} ∪ D else D
  | _ => D
  end.
Definition in_doubt (removals : bool) (j : list deed) : gset string := foldl (doubt_step removals) ∅ j.
Lemma in_doubt_snoc removals j d : in_doubt removals (j ++ [d]) = doubt_step removals (in_doubt removals j) d.
Proof. unfold in_doubt. by rewrite foldl_app. Qed.

(** ** A journal beside any file system *)

Definition journaled (W : Type) : Type := (W * list deed)%type.
Definition jot {W A} (d : A -> list deed) (c : W -> A * W) : journaled W -> A * journaled W := fun w =>
  let '(a, w') := c w.1 in (a, (w', w.2 ++ d a)).
Definition unseen {W A} (c : W -> A * W) : journaled W -> A * journaled W := fun w => let '(a, w') := c w.1 in (a, (w', w.2)).
#[export] Instance journaled_files {W} `{FileSystem W} : FileSystem (journaled W) := {
  fs_read p := unseen (fs_read p);
  fs_read_raw p := unseen (fs_read_raw p);
  fs_write p s := jot (fun r => [DWrite p (went_well r)]) (fs_write p s);
  fs_rename a b := jot (fun r => [DRename a b (went_well r)]) (fs_rename a b);
  fs_remove p := jot (fun r => [DRemove p r]) (fs_remove p);
  fs_create_dir_all p := jot (fun _ => [DMkdir p]) (fs_create_dir_all p);
  fs_read_dir p := unseen (fs_read_dir p);
  fs_mtime p := unseen (fs_mtime p);
  fs_chmod p m := jot (fun _ => [DChmod p]) (fs_chmod p m);
  fs_exists p := unseen (fs_exists p);
  fs_read_link p := unseen (fs_read_link p);
  fs_open p := unseen (fs_open p);
  fs_create_new p m := jot (fun _ => [DMake p]) (fs_create_new p m);
  fs_create_dir p m := jot (fun _ => [DWorkdir p]) (fs_create_dir p m)
}.
#[export] Instance journaled_static {S W} `{Static S W} : Static S (journaled W) := {
  st_get w := st_get w.1;
  st_put s w := (st_put s w.1, w.2)
}.
#[export] Instance journaled_journal {W} `{FileSystem W} : Journal (journaled W).
Proof.
  refine {| journal w := w.2 |}; intros; cbn; unfold jot, unseen; by case_match.
Defined.
#[export] Instance journaled_laws {W} `{FileSystemLaws W} : FileSystemLaws (journaled W).
Proof.
  refine {| files w := files w.1 |}.
  - intros p w. pose proof (law_read p w.1) as Hl. cbn. unfold unseen. by destruct (fs_read p w.1) as [[]].
  - intros p w. pose proof (law_read_raw p w.1) as Hl. cbn. unfold unseen. by destruct (fs_read_raw p w.1) as [[]].
  - intros p s w. pose proof (law_write p s w.1) as Hl. cbn. unfold jot. by destruct (fs_write p s w.1) as [[]].
  - intros a b w. pose proof (law_rename a b w.1) as Hl. cbn. unfold jot. by destruct (fs_rename a b w.1) as [[]].
  - intros p w. pose proof (law_remove p w.1) as Hl. cbn. unfold jot. by destruct (fs_remove p w.1) as [[]].
  - intros p w. pose proof (law_create_dir p w.1) as Hl. cbn. unfold jot. by destruct (fs_create_dir_all p w.1).
  - intros p w. pose proof (law_open p w.1) as Hl. cbn. unfold unseen. by destruct (fs_open p w.1).
  - intros p m w. pose proof (law_create_new p m w.1) as Hl. cbn. unfold jot. by destruct (fs_create_new p m w.1) as [[]].
  - intros p m w. pose proof (law_chmod p m w.1) as Hl. cbn. unfold jot. by destruct (fs_chmod p m w.1).
  - intros d w. pose proof (law_read_dir d w.1) as Hl. cbn. unfold unseen. by destruct (fs_read_dir d w.1) as [[]].
Defined.
