(* ===== verification/World.v ===== *)
(** * A concrete outside world

    One instance of the interfaces of [Sys]: files in a map, datagrams from a
    script, a clock that advances by a step at each reading.  It shows that the
    interfaces and their laws can hold, and the witnesses run on it. *)

From Stdlib Require Import Ascii String.
From S2P Require Import Prelude RustStr IpAddr Sys Persistence.

Record sim := mkSim {
  sim_files : gmap string string;
  sim_inbox : list (list Z + io_error);
  sim_sent : list (list Z * dest_addr);
  sim_open : list Z;
  sim_next_fd : Z;
  sim_time : Z;
  sim_tick : Z;
  sim_commands : list (string * list string * option string)
}.
Definition sim_start (inbox : list (list Z + io_error)) : sim :=
  mkSim ∅ inbox [] [] 3 0 1000000000 [].
Definition with_files (f : gmap string string) (w : sim) : sim :=
  mkSim f (sim_inbox w) (sim_sent w) (sim_open w) (sim_next_fd w) (sim_time w) (sim_tick w) (sim_commands w).

Definition not_found : io_error := IoError IoNotFound "No such file or directory (os error 2)".
Definition would_block : io_error := IoError IoWouldBlock "Resource temporarily unavailable (os error 11)".

Definition sim_advance (w : sim) : sim :=
  mkSim (sim_files w) (sim_inbox w) (sim_sent w) (sim_open w) (sim_next_fd w)
    (sim_time w + sim_tick w) (sim_tick w) (sim_commands w).

#[export] Instance sim_clock : Clock sim := {
  clk_instant w := (sim_time w, sim_advance w);
  clk_unix w := ((sim_time w / 1000000000, sim_time w mod 1000000000), sim_advance w);
  clk_pid _ := 1;
  clk_sleep d w := mkSim (sim_files w) (sim_inbox w) (sim_sent w) (sim_open w) (sim_next_fd w)
    (sim_time w + d) (sim_tick w) (sim_commands w)
}.

#[export] Instance sim_sockets : Sockets sim := {
  so_socket _ w := (inl (sim_next_fd w),
    mkSim (sim_files w) (sim_inbox w) (sim_sent w) (sim_next_fd w :: sim_open w) (sim_next_fd w + 1)
      (sim_time w) (sim_tick w) (sim_commands w));
  so_setsockopt _ _ w := (inl tt, w);
  so_bind _ _ w := (inl tt, w);
  so_connect _ _ w := (inl tt, w);
  so_close fd w := mkSim (sim_files w) (sim_inbox w) (sim_sent w)
    (List.filter (fun x => negb (x =? fd)) (sim_open w)) (sim_next_fd w) (sim_time w) (sim_tick w)
    (sim_commands w);
  so_send _ b d w := (inl tt, mkSim (sim_files w) (sim_inbox w) (sim_sent w ++ [(b, d)]) (sim_open w)
    (sim_next_fd w) (sim_time w) (sim_tick w) (sim_commands w));
  so_recv _ n w := match sim_inbox w with
    | inl b :: rest => (inl (take n b), mkSim (sim_files w) rest (sim_sent w) (sim_open w)
        (sim_next_fd w) (sim_time w) (sim_tick w) (sim_commands w))
    | inr e :: rest => (inr e, mkSim (sim_files w) rest (sim_sent w) (sim_open w)
        (sim_next_fd w) (sim_time w) (sim_tick w) (sim_commands w))
    | [] => (inr would_block, w)
    end
}.

#[export] Instance sim_fs : FileSystem sim := {
  fs_read p w := (match sim_files w !! p with Some s => inl s | None => inr not_found end, w);
  fs_read_raw p w := (match sim_files w !! p with Some s => inl s | None => inr not_found end, w);
  fs_write p s w := (inl tt, with_files (<[p := s]> (sim_files w)) w);
  fs_rename a b w := match sim_files w !! a with
    | Some s => (inl tt, with_files (<[b := s]> (delete a (sim_files w))) w)
    | None => (inr not_found, w) end;
  fs_remove p w := match sim_files w !! p with
    | Some _ => (inl tt, with_files (delete p (sim_files w)) w)
    | None => (inr not_found, w) end;
  fs_create_dir_all _ w := (inl tt, w);
  fs_read_dir dir w := (inl (omap (fun p => match rsplit_once "/" p with
      | Some (d, f) => if bool_decide (d = dir) then Some f else None | None => None end)
      (map_to_list (sim_files w)).*1), w);
  fs_mtime _ w := (inl 0, w);
  fs_chmod _ _ w := (inl tt, w);
  fs_exists p w := (bool_decide (is_Some (sim_files w !! p)), w);
  fs_read_link p w := (match sim_files w !! p with Some s => inl s | None => inr not_found end, w);
  fs_open p w := (match sim_files w !! p with Some _ => inl tt | None => inr not_found end, w);
  fs_create_new p _ w := match sim_files w !! p with
    | Some _ => (inr (IoError IoAlreadyExists "File exists (os error 17)"), w)
    | None => (inl tt, with_files (<[p := ""]> (sim_files w)) w) end;
  fs_create_dir _ _ w := (inl tt, w)
}.

#[export] Instance sim_hostnames : HostNames sim := {
  sys_gethostname _ w := (Some (str_bytes "mitos" ++ [0]), w);
  sys_sethostname _ w := (inl tt, w)
}.

Definition sim_ran (c : string * list string * option string) (w : sim) : sim :=
  mkSim (sim_files w) (sim_inbox w) (sim_sent w) (sim_open w) (sim_next_fd w) (sim_time w) (sim_tick w) (sim_commands w ++ [c]).
#[export] Instance sim_processes : Processes sim := {
  run_command prog args w := (inl (mkOutput true "exit status: 0" [] []), sim_ran (prog, args, None) w);
  run_fed prog args input w := (FedOutput (mkOutput true "exit status: 0" [] []), sim_ran (prog, args, Some input) w)
}.

#[export] Instance sim_entropy : Entropy sim := {
  rand_bytes n w := (inl (replicate n 7), w);
  env_temp_dir := "/tmp"
}.

#[export] Instance sim_fs_laws : FileSystemLaws sim.
Proof.
  refine {| files := sim_files |}; intros; cbn.
  - destruct (sim_files w !! p); cbn; auto.
  - destruct (sim_files w !! p); cbn; auto.
  - done.
  - destruct (sim_files w !! a) eqn:E; cbn; eauto.
  - destruct (sim_files w !! p) eqn:E; cbn; auto.
  - done.
  - done.
  - destruct (sim_files w !! p) eqn:E; cbn; auto.
  - done.
  - split; [done|]. intros f Hf. apply list_elem_of_In, list_elem_of_omap in Hf as (q & _ & Hq).
    pose proof (rsplit_once_spec "/" q) as Hs. destruct (rsplit_once "/" q) as [[d' g]|]; [|done].
    case_bool_decide; simplify_eq. by destruct Hs.
Defined.

(** A codec for the witnesses: numbers in decimal. *)
Definition decimal_codec : Codec Z :=
  {| encode n := Ok (dec n); decode s := ok_or (parse_uint 64 s) (Parse "bad number") |}.
#[local] Existing Instance decimal_codec.
Lemma write_json_atomic_witness :
  files (write_json "/var/lib/mitos/x.json" 42 (sim_start [])).2 !! "/var/lib/mitos/x.json"%string = Some "42"%string.
Proof.
  pose proof (write_json_atomic "/var/lib/mitos/x.json" "42" 42 (sim_start []) eq_refl eq_refl) as H.
  destruct (write_json "/var/lib/mitos/x.json" 42 (sim_start [])) as [r w'] eqn:E.
  assert (Hr : r = Ok tt) by (vm_compute in E; by injection E). destruct H as (_ & H & _). exact (proj1 (H Hr)).
Defined.
