(* ===== verification/Netlink.v ===== *)
(** * The netlink transport (ip/netlink.rs)

    The attribute codec ([AttrBuilder], [parse_attrs]), the message framing of
    [NlSocket], and the fixed headers with their parsers.  Native byte order is
    little endian, as on the daemon's targets.  Slices that Rust checks are
    checked here: the receive loops run in [outcome]. *)

From Stdlib Require Import Ascii String.
From S2P Require Import Prelude RustStr IpAddr Sys Dhcp4 World.

Definition NETLINK_ROUTE : Z := 0.
Definition NETLINK_GENERIC : Z := 16.
Definition NLMSG_ALIGNTO : Z := 4.
Definition NLMSG_HDRLEN : nat := 16.
Definition NLMSG_ERROR : Z := 2.
Definition NLMSG_DONE : Z := 3.
Definition NLM_F_REQUEST : Z := 1.
Definition NLM_F_ACK : Z := 4.
Definition NLM_F_DUMP : Z := Z.lor 256 512.
Definition NLM_F_CREATE : Z := 1024.
Definition NLM_F_EXCL : Z := 512.
Definition NLM_F_REPLACE : Z := 256.
Definition RTM_NEWLINK : Z := 16.
Definition RTM_DELLINK : Z := 17.
Definition RTM_GETLINK : Z := 18.
Definition RTM_NEWADDR : Z := 20.
Definition RTM_DELADDR : Z := 21.
Definition RTM_GETADDR : Z := 22.
Definition RTM_NEWROUTE : Z := 24.
Definition RTM_DELROUTE : Z := 25.
Definition RTM_GETROUTE : Z := 26.
Definition RTM_NEWRULE : Z := 32.
Definition RTM_DELRULE : Z := 33.
Definition RTMGRP_LINK : Z := 1.
Definition RTMGRP_IPV4_IFADDR : Z := 16.
Definition RTMGRP_IPV6_IFADDR : Z := 256.
Definition IFLA_ADDRESS : Z := 1.
Definition IFLA_IFNAME : Z := 3.
Definition IFLA_MTU : Z := 4.
Definition IFLA_OPERSTATE : Z := 16.
Definition IFLA_LINKINFO : Z := 18.
Definition IFLA_INFO_KIND : Z := 1.
Definition IFA_ADDRESS : Z := 1.
Definition IFA_LOCAL : Z := 2.
Definition IFA_LABEL : Z := 3.
Definition IFA_BROADCAST : Z := 4.
Definition RTA_DST : Z := 1.
Definition RTA_OIF : Z := 4.
Definition RTA_GATEWAY : Z := 5.
Definition RTA_PRIORITY : Z := 6.
Definition FRA_SRC : Z := 2.
Definition FRA_PRIORITY : Z := 6.
Definition FR_ACT_TO_TBL : Z := 1.
Definition IFF_UP : Z := 1.
Definition IFF_LOOPBACK : Z := 8.
Definition IFF_RUNNING : Z := 64.
Definition RT_TABLE_MAIN : Z := 254.
Definition RTPROT_STATIC : Z := 4.
Definition RTPROT_DHCP : Z := 16.
Definition RT_SCOPE_UNIVERSE : Z := 0.
Definition RT_SCOPE_LINK : Z := 253.
Definition RTN_UNICAST : Z := 1.

Definition align (len : nat) : nat := Z.to_nat (Z.land (Z.of_nat len + NLMSG_ALIGNTO - 1) (Z.lnot (NLMSG_ALIGNTO - 1))).

(** ** Attributes *)

(** [AttrBuilder::push_raw]: the builder is its byte buffer. *)
Definition push_raw (buf : list Z) (rta_type : Z) (payload : list Z) : list Z :=
  let rta_len := (4 + length payload)%nat in
  buf ++ to_le 2 (wrap 16 (Z.of_nat rta_len)) ++ to_le 2 rta_type ++ payload
    ++ replicate (align rta_len - rta_len) 0.
Definition attr_u8 (buf : list Z) (t v : Z) : list Z := push_raw buf t [v].
Definition attr_u16 (buf : list Z) (t v : Z) : list Z := push_raw buf t (to_le 2 v).
Definition attr_u32 (buf : list Z) (t v : Z) : list Z := push_raw buf t (to_le 4 v).
Definition attr_bytes (buf : list Z) (t : Z) (v : list Z) : list Z := push_raw buf t v.
Definition attr_nul_str (buf : list Z) (t : Z) (v : string) : list Z :=
  push_raw buf t (str_bytes v ++ [0]).
Definition attr_nested (buf : list Z) (t : Z) (inner : list Z) : list Z := push_raw buf t inner.

Fixpoint parse_attrs_loop (fuel : nat) (buf : list Z) (out : gmap Z (list Z))
  : outcome (gmap Z (list Z)) :=
  match fuel with
  | O => Panic "fuel"
  | S fuel =>
      if bool_decide (4 <= length buf)%nat then
        lenb ← sub buf 0 2;
        tyb ← sub buf 2 4;
        let rta_len := Z.to_nat (from_le lenb) in
        let rta_type := from_le tyb in
        if bool_decide (rta_len < 4)%nat || bool_decide (length buf < rta_len)%nat then Ok out
        else
          payload ← sub buf 4 rta_len;
          let out := <[rta_type := payload]> out in
          let padded := align rta_len in
          if bool_decide (length buf <= padded)%nat then Ok out
          else
            rest ← or_panic (slice_from buf padded) "range start index out of range for slice";
            parse_attrs_loop fuel rest out
      else Ok out
  end.
Definition parse_attrs (buf : list Z) : outcome (gmap Z (list Z)) :=
  parse_attrs_loop (S (length buf)) buf ∅.

(** ** Messages *)

Definition nlmsg := (Z * Z * list Z)%type.
(** [out.iter().any(|(t, _, _)| *t == NLMSG_ERROR)] *)
Definition has_error (out : list nlmsg) : bool := existsb (fun m : nlmsg => m.1.1 =? NLMSG_ERROR) out.

(** The bytes [NlSocket::send] puts on the wire. *)
Definition frame (msg_type flags seq : Z) (payload : list Z) : list Z :=
  let total_len := (NLMSG_HDRLEN + length payload)%nat in
  let buf := to_le 4 (wrap 32 (Z.of_nat total_len)) ++ to_le 2 msg_type ++ to_le 2 flags
             ++ to_le 4 seq ++ to_le 4 0 ++ payload in
  buf ++ replicate (align (length buf) - length buf) 0.

(** The inner [while rest.len() >= NLMSG_HDRLEN] of [recv_until_done]. *)
Fixpoint recv_datagram (fuel : nat) (seq : Z) (rest : list Z) (out : list nlmsg) (done : bool)
  : outcome (list nlmsg * bool) :=
  match fuel with
  | O => Panic "fuel"
  | S fuel =>
      if bool_decide (NLMSG_HDRLEN <= length rest)%nat then
        lenb ← sub rest 0 4;
        tyb ← sub rest 4 6;
        flb ← sub rest 6 8;
        sqb ← sub rest 8 12;
        let len := Z.to_nat (from_le lenb) in
        let msg_type := from_le tyb in
        let flags := from_le flb in
        let msg_seq := from_le sqb in
        if bool_decide (len < NLMSG_HDRLEN)%nat || bool_decide (length rest < len)%nat then Ok (out, done)
        else
          body ← sub rest NLMSG_HDRLEN len;
          let is_multi := negb (Z.land flags 2 =? 0) in
          let mine := (msg_seq =? seq) || (msg_type =? NLMSG_ERROR) in
          let '(out, done) :=
            if mine then
              if msg_type =? NLMSG_DONE then (out, true) else (out ++ [(msg_type, flags, body)], done)
            else (out, done) in
          let done :=
            if negb is_multi && negb (msg_type =? NLMSG_DONE)
            then done || (msg_type =? NLMSG_ERROR) || (msg_seq =? seq) else done in
          rest ← or_panic (slice_from rest (align len)) "range start index out of range for slice";
          recv_datagram fuel seq rest out done
      else Ok (out, done)
  end.

(** [check_ack]: [strerror] is libc's text for an errno. *)
Definition check_ack (strerror : Z -> string) (body : list Z) : outcome unit :=
  if bool_decide (length body < 4)%nat then Err (Netlink "truncated ack")
  else
    b ← sub body 0 4;
    let errno := to_signed 32 (from_le b) in
    if errno =? 0 then Ok tt
    else if errno =? - 2 ^ 31 then Panic "attempt to negate with overflow"
    else Err (Netlink (strerror (- errno))).

(** ** [NlSocket] *)

Record NlSocket := mkNlSocket { nl_fd : Z; nl_seq : Z }.

(** What the exchanges with the kernel depend on besides its sockets: libc's
    text for an errno, and how many datagrams a reply is read for (the source's
    loop has no bound; the theorems say which bound is enough). *)
Class NlEnv := { strerror : Z -> string; nl_fuel : nat }.

Section Socket.
Context {W : Type} `{Sockets W} `{NlEnv}.

Definition with_protocol (protocol groups : Z) : M W NlSocket :=
  fd ← io_try_with (fun e => Netlink ("socket(AF_NETLINK) failed: " ++ io_err_text e))
         (so_socket (SkNetlink protocol));
  r ← io_match (so_bind fd (NlGroups groups));
  match r with
  | inl _ => mret (mkNlSocket fd 1)
  | inr e => effect (so_close fd) ;; throw (Netlink ("bind(AF_NETLINK) failed: " ++ io_err_text e))
  end.
Definition with_groups (groups : Z) : M W NlSocket := with_protocol NETLINK_ROUTE groups.
Definition nl_new : M W NlSocket := with_groups 0.

(** [Drop for NlSocket]: whatever ends the body, the descriptor is closed. *)
Definition with_sock {A} (open : M W NlSocket) (body : NlSocket -> M W A) : M W A :=
  sock ← open;
  finally (body sock) (so_close (nl_fd sock)).

(** [send] : the sequence number used, and the socket with the next one. *)
Definition nl_send (sock : NlSocket) (msg_type flags : Z) (payload : list Z) : M W (Z * NlSocket) :=
  let seq := nl_seq sock in
  let sock := mkNlSocket (nl_fd sock) (wrap 32 (seq + 1)) in
  io_try_with (fun e => Netlink ("send() failed: " ++ io_err_text e))
    (so_send (nl_fd sock) (frame msg_type flags seq payload) DestKernel) ;;
  mret (seq, sock).

Definition RECV_BUF : nat := Z.to_nat (32 * 1024).

(** The outer loop of [recv_until_done]; [fuel] bounds the datagrams read. *)
Fixpoint recv_until_done (fuel : nat) (sock : NlSocket) (seq : Z) (out : list nlmsg)
  : M W (list nlmsg) :=
  match fuel with
  | O => lift (Panic "fuel")
  | S fuel =>
      dgram ← io_try_with (fun e => Netlink ("recv() failed: " ++ io_err_text e))
                (so_recv (nl_fd sock) RECV_BUF);
      '(out, done) ← lift (recv_datagram (S (length dgram)) seq dgram out false);
      if done || has_error out then mret out
      else if bool_decide (length dgram = 0%nat) then mret out
      else recv_until_done fuel sock seq out
  end.

Fixpoint check_acks (msgs : list nlmsg) : outcome unit :=
  match msgs with
  | [] => Ok tt
  | (t, _, body) :: msgs =>
      if t =? NLMSG_ERROR then check_ack strerror body ;; check_acks msgs else check_acks msgs
  end.
(** The reply loop shared by [dump] and [query]. *)
Fixpoint collect_bodies (msgs : list nlmsg) (out : list (list Z)) : outcome (list (list Z)) :=
  match msgs with
  | [] => Ok out
  | (t, _, body) :: msgs =>
      if t =? NLMSG_ERROR then check_ack strerror body ;; collect_bodies msgs out
      else if negb (t =? NLMSG_DONE) then collect_bodies msgs (out ++ [body])
      else collect_bodies msgs out
  end.

Definition nl_request (sock : NlSocket) (msg_type flags : Z) (payload : list Z) : M W unit :=
  let flags := Z.lor flags (Z.lor NLM_F_REQUEST NLM_F_ACK) in
  '(seq, sock) ← nl_send sock msg_type flags payload;
  msgs ← recv_until_done nl_fuel sock seq [];
  lift (check_acks msgs).

Definition nl_dump (sock : NlSocket) (msg_type : Z) (payload : list Z) : M W (list (list Z)) :=
  '(seq, sock) ← nl_send sock msg_type (Z.lor NLM_F_REQUEST NLM_F_DUMP) payload;
  msgs ← recv_until_done nl_fuel sock seq [];
  lift (collect_bodies msgs []).

(** The one request that is followed by another on the same socket: the
    socket with its next sequence number is returned with the replies. *)
Definition nl_query (sock : NlSocket) (msg_type flags : Z) (payload : list Z)
  : M W (list (list Z) * NlSocket) :=
  '(seq, sock) ← nl_send sock msg_type (Z.lor NLM_F_REQUEST flags) payload;
  msgs ← recv_until_done nl_fuel sock seq [];
  bodies ← lift (collect_bodies msgs []);
  mret (bodies, sock).

(** [recv_multicast]: one datagram, [f] on every message in it. *)
Fixpoint multicast_loop {T} (fuel : nat) (f : Z -> list Z -> outcome (option T)) (rest : list Z) (out : list T)
  : outcome (list T) :=
  match fuel with
  | O => Panic "fuel"
  | S fuel =>
      if bool_decide (NLMSG_HDRLEN <= length rest)%nat then
        lenb ← sub rest 0 4;
        tyb ← sub rest 4 6;
        let len := Z.to_nat (from_le lenb) in
        if bool_decide (len < NLMSG_HDRLEN)%nat || bool_decide (length rest < len)%nat then Ok out
        else
          body ← sub rest NLMSG_HDRLEN len;
          v ← f (from_le tyb) body;
          let out := match v with Some v => out ++ [v] | None => out end in
          rest ← or_panic (slice_from rest (align len)) "range start index out of range for slice";
          multicast_loop fuel f rest out
      else Ok out
  end.
Definition recv_multicast {T} (sock : NlSocket) (f : Z -> list Z -> outcome (option T)) : M W (list T) :=
  dgram ← io_try_with (fun e => Netlink ("recv() failed: " ++ io_err_text e))
            (so_recv (nl_fd sock) RECV_BUF);
  lift (multicast_loop (S (length dgram)) f dgram []).
End Socket.

(** ** Fixed headers *)

(** [index.to_ne_bytes()] for an i32 *)
Definition i32_bytes (z : Z) : list Z := to_le 4 (wrap 32 z).
Definition i32_of (l : list Z) : Z := to_signed 32 (from_le l).

Definition build_ifinfomsg (index flags change : Z) : list Z :=
  [0; 0] ++ to_le 2 0 ++ i32_bytes index ++ to_le 4 flags ++ to_le 4 change.
Definition build_ifaddrmsg (family prefixlen index : Z) : list Z :=
  [family; prefixlen; 0; RT_SCOPE_UNIVERSE] ++ i32_bytes index.
Definition build_rtmsg (family dst_len table protocol scope rtype : Z) : list Z :=
  [family; dst_len; 0; 0; table; protocol; scope; rtype; 0; 0; 0; 0].
Definition build_fib_rule_hdr (family src_len table action : Z) : list Z :=
  [family; 0; src_len; 0; table; 0; 0; action; 0; 0; 0; 0].

(** ** Parsed messages *)

Record LinkInfo := mkLinkInfo {
  li_index : Z; li_flags : Z; li_name : string; li_mtu : Z;
  li_hwaddr : option (list Z); li_operstate : option Z; li_kind : option string
}.
Record AddrInfo := mkAddrInfo {
  ai_index : Z; ai_family : Z; ai_prefixlen : Z; ai_address : list Z; ai_label : option string
}.
Record RouteInfo := mkRouteInfo {
  ri_family : Z; ri_dst_len : Z; ri_table : Z; ri_dst : option (list Z);
  ri_gateway : option (list Z); ri_oif : option Z; ri_priority : option Z
}.

(** [attrs.get(&t)] *)
Definition attr (attrs : gmap Z (list Z)) (t : Z) : option (list Z) := attrs !! t.
Definition attr_string (b : list Z) : string := trim_end_nul (from_utf8_lossy b).
(** [b.get(0..4)] *)
Definition get_first (n : nat) (b : list Z) : option (list Z) := slice b 0 n.

Definition link_kind (attrs : gmap Z (list Z)) : outcome (option string) :=
  match attr attrs IFLA_LINKINFO with
  | Some linkinfo => nested ← parse_attrs linkinfo; Ok (attr_string <$> attr nested IFLA_INFO_KIND)
  | None => Ok None
  end.
Definition parse_link (body : list Z) : outcome (option LinkInfo) :=
  if bool_decide (length body < 16)%nat then Ok None
  else
    ib ← sub body 4 8;
    fb ← sub body 8 12;
    ab ← sub body 16 (length body);
    attrs ← parse_attrs ab;
    kind ← link_kind attrs;
    Ok (Some (mkLinkInfo (i32_of ib) (from_le fb)
      (default "" (attr_string <$> attr attrs IFLA_IFNAME))
      (default 0 (from_le <$> (attr attrs IFLA_MTU ≫= get_first 4)))
      (attr attrs IFLA_ADDRESS ≫= get_first 6)
      (attr attrs IFLA_OPERSTATE ≫= head)
      kind)).

Definition parse_addr (body : list Z) : outcome (option AddrInfo) :=
  if bool_decide (length body < 8)%nat then Ok None
  else
    family ← index body 0;
    prefixlen ← index body 1;
    ib ← sub body 4 8;
    ab ← sub body 8 (length body);
    attrs ← parse_attrs ab;
    let address := default [] (match attr attrs IFA_LOCAL with
                               | Some b => Some b | None => attr attrs IFA_ADDRESS end) in
    Ok (Some (mkAddrInfo (i32_of ib) family prefixlen address (attr_string <$> attr attrs IFA_LABEL))).

Definition parse_route (body : list Z) : outcome (option RouteInfo) :=
  if bool_decide (length body < 12)%nat then Ok None
  else
    family ← index body 0;
    dst_len ← index body 1;
    table ← index body 4;
    ab ← sub body 12 (length body);
    attrs ← parse_attrs ab;
    Ok (Some (mkRouteInfo family dst_len table (attr attrs RTA_DST) (attr attrs RTA_GATEWAY)
      (i32_of <$> (attr attrs RTA_OIF ≫= get_first 4))
      (from_le <$> (attr attrs RTA_PRIORITY ≫= get_first 4)))).

(** ** Alignment *)

Lemma align_Z n : Z.of_nat (align n) = 4 * ((Z.of_nat n + 3) / 4).
Proof.
  unfold align, NLMSG_ALIGNTO. replace (Z.of_nat n + 4 - 1) with (Z.of_nat n + 3) by lia.
  change (Z.lnot (4 - 1)) with (Z.lnot (Z.ones 2)).
  rewrite <- Z.ldiff_land, Z.ldiff_ones_r, Z.shiftl_mul_pow2, Z.shiftr_div_pow2 by lia.
  change (2 ^ 2) with 4. pose proof (Z.div_pos (Z.of_nat n + 3) 4). lia.
Qed.
Lemma align_bounds n : (n <= align n < n + 4)%nat.
Proof. pose proof (align_Z n). pose proof (Z.div_mod (Z.of_nat n + 3) 4).
  pose proof (Z.mod_pos_bound (Z.of_nat n + 3) 4). lia. Qed.
Lemma align_aligned k : align (4 * k) = (4 * k)%nat.
Proof. apply Nat2Z.inj. rewrite align_Z.
  replace (Z.of_nat (4 * k) + 3) with (3 + Z.of_nat k * 4) by lia.
  rewrite Z.div_add by lia. change (3 / 4) with 0. lia. Qed.
Lemma align_multiple n : exists k, align n = (4 * k)%nat.
Proof. exists (Z.to_nat ((Z.of_nat n + 3) / 4)). pose proof (align_Z n).
  pose proof (Z.div_pos (Z.of_nat n + 3) 4). lia. Qed.
Lemma align_le_mult n k : (n <= 4 * k)%nat -> (align n <= 4 * k)%nat.
Proof. intros. pose proof (align_Z n). pose proof (Z.div_mod (Z.of_nat n + 3) 4).
  pose proof (Z.mod_pos_bound (Z.of_nat n + 3) 4).
  assert ((Z.of_nat n + 3) / 4 <= Z.of_nat k); [|lia].
  apply Z.lt_succ_r, Z.div_lt_upper_bound; lia. Qed.
#[global] Opaque align.

(** ** Attribute chains *)

Definition attr_ok (a : Z * list Z) : Prop :=
  is_u16 a.1 /\ Z.of_nat (4 + length a.2) < 2 ^ 16.
Definition enc_attr (a : Z * list Z) : list Z := push_raw [] a.1 a.2.
Definition enc_attrs (l : list (Z * list Z)) : list Z := concat (map enc_attr l).
(** A repeated attribute keeps its last value. *)
Definition attrs_map (l : list (Z * list Z)) (m : gmap Z (list Z)) : gmap Z (list Z) :=
  fold_left (fun m a => <[a.1 := a.2]> m) l m.

Lemma push_raw_enc buf t p : push_raw buf t p = buf ++ enc_attr (t, p).
Proof. done. Qed.
Lemma enc_attrs_app l1 l2 : enc_attrs (l1 ++ l2) = enc_attrs l1 ++ enc_attrs l2.
Proof. unfold enc_attrs. by rewrite map_app, concat_app. Qed.
Lemma enc_attrs_snoc l t p : push_raw (enc_attrs l) t p = enc_attrs (l ++ [(t, p)]).
Proof. rewrite enc_attrs_app, push_raw_enc. unfold enc_attrs at 3. cbn [map concat].
  by rewrite app_nil_r. Qed.
Lemma length_enc_attr a : length (enc_attr a) = align (4 + length a.2).
Proof. unfold enc_attr, push_raw. cbn [app]. autorewrite with lens.
  pose proof (align_bounds (4 + length a.2)). lia. Qed.
Lemma sub_mid p m r a b buf :
  buf = p ++ m ++ r -> a = length p -> b = (length p + length m)%nat -> sub buf a b = Ok m.
Proof. intros -> -> ->. apply sub_app. Qed.
Lemma slice_from_app {A} (p r : list A) n : n = length p -> slice_from (p ++ r) n = Some r.
Proof. intros ->. rewrite slice_from_Some by (rewrite length_app; lia). by rewrite drop_app_length. Qed.

Lemma parse_attrs_step fuel a rest out :
  attr_ok a ->
  parse_attrs_loop (S fuel) (enc_attr a ++ rest) out =
    if bool_decide (rest = []) then Ok (<[a.1 := a.2]> out)
    else parse_attrs_loop fuel rest (<[a.1 := a.2]> out).
Proof.
  intros [Ht Hl]. destruct a as [t p]; cbn [fst snd] in *.
  pose proof (length_enc_attr (t, p)) as Hlen. cbn [snd] in Hlen.
  pose proof (align_bounds (4 + length p)) as Hal.
  set (pad := replicate (align (4 + length p) - (4 + length p)) 0).
  assert (Henc : enc_attr (t, p) = to_le 2 (Z.of_nat (4 + length p)) ++ to_le 2 t ++ p ++ pad).
  { unfold enc_attr, push_raw. cbn [app fst snd]. rewrite wrap_small by (split; lia). done. }
  set (buf := enc_attr (t, p) ++ rest).
  assert (Hb : length buf = (align (4 + length p) + length rest)%nat).
  { unfold buf. by rewrite length_app, Hlen. }
  cbn [parse_attrs_loop]. rewrite bool_decide_eq_true_2 by lia.
  rewrite (sub_mid [] (to_le 2 (Z.of_nat (4 + length p))) ((to_le 2 t ++ p ++ pad) ++ rest) 0 2)
    by (try unfold buf; rewrite ?Henc, ?length_to_le, <- ?app_assoc; done).
  cbn [mbind outcome_bind].
  rewrite (sub_mid (to_le 2 (Z.of_nat (4 + length p))) (to_le 2 t) ((p ++ pad) ++ rest) 2 4)
    by (try unfold buf; rewrite ?Henc, ?length_to_le, <- ?app_assoc; done).
  cbn [mbind outcome_bind].
  rewrite !from_le_to_le by (unfold is_uint in *; cbn; lia). rewrite Nat2Z.id.
  rewrite bool_decide_eq_false_2, bool_decide_eq_false_2 by lia. cbn [orb].
  rewrite (sub_mid (to_le 2 (Z.of_nat (4 + length p)) ++ to_le 2 t) p (pad ++ rest) 4)
    by (try unfold buf; rewrite ?Henc, ?length_app, ?length_to_le, <- ?app_assoc; done).
  cbn [mbind outcome_bind]. rewrite Hb.
  destruct rest as [|r rest].
  - rewrite bool_decide_eq_true_2 by (cbn; lia). done.
  - rewrite bool_decide_eq_false_2 by (cbn; lia). unfold buf. rewrite slice_from_app by done. done.
Qed.

Lemma parse_attrs_enc_loop l fuel out :
  Forall attr_ok l -> (length (enc_attrs l) < fuel)%nat ->
  parse_attrs_loop fuel (enc_attrs l) out = Ok (attrs_map l out).
Proof.
  revert fuel out. induction l as [|a l IH]; intros fuel out Hok Hf.
  - destruct fuel; [cbn in Hf; lia|done].
  - apply Forall_cons_1 in Hok as [Ha Hok]. destruct fuel as [|fuel]; [lia|].
    change (enc_attrs (a :: l)) with (enc_attr a ++ enc_attrs l) in *.
    rewrite length_app, length_enc_attr in Hf. pose proof (align_bounds (4 + length a.2)).
    rewrite parse_attrs_step by done. cbn [attrs_map fold_left]. case_bool_decide as He.
    + destruct l as [|b l]; [done|].
      change (enc_attrs (b :: l)) with (enc_attr b ++ enc_attrs l) in He.
      apply (f_equal length) in He. rewrite length_app, length_enc_attr in He.
      pose proof (align_bounds (4 + length b.2)). cbn [length] in He. lia.
    + apply IH; [done|lia].
Qed.
Lemma parse_attrs_enc l : Forall attr_ok l -> parse_attrs (enc_attrs l) = Ok (attrs_map l ∅).
Proof. intros. apply parse_attrs_enc_loop; [done|lia]. Qed.

(** Whatever the bytes, the loop ends without a panic. *)
Lemma parse_attrs_loop_ok fuel buf out :
  (length buf < fuel)%nat -> is_ok (parse_attrs_loop fuel buf out).
Proof.
  revert buf out. induction fuel as [|fuel IH]; intros buf out Hf; [lia|].
  cbn [parse_attrs_loop]. case_bool_decide as H4; [|by eexists].
  destruct (sub_ok buf 0 2) as [lenb ->]; [lia|]. destruct (sub_ok buf 2 4) as [tyb ->]; [lia|].
  cbn [mbind outcome_bind]. set (n := Z.to_nat (from_le lenb)).
  destruct (decide (n < 4)%nat). { rewrite bool_decide_eq_true_2 by done. by eexists. }
  destruct (decide (length buf < n)%nat).
  { rewrite (bool_decide_eq_true_2 (length buf < n)%nat), orb_true_r by done. by eexists. }
  rewrite bool_decide_eq_false_2, bool_decide_eq_false_2 by done. cbn [orb].
  destruct (sub_ok buf 4 n) as [p ->]; [lia|]. cbn [mbind outcome_bind].
  pose proof (align_bounds n). case_bool_decide; [by eexists|].
  rewrite slice_from_Some by lia. cbn [or_panic mbind outcome_bind]. apply IH.
  rewrite length_drop. lia.
Qed.
Lemma parse_attrs_ok buf : is_ok (parse_attrs buf).
Proof. apply parse_attrs_loop_ok. lia. Qed.

(** ** Datagrams *)

(** A message as the kernel puts it in a datagram, padded to [NLMSG_ALIGNTO]. *)
Record wire := mkWire { w_type : Z; w_flags : Z; w_seq : Z; w_pid : Z; w_body : list Z }.
Definition wire_ok (m : wire) : Prop :=
  is_u16 (w_type m) /\ is_u16 (w_flags m) /\ is_u32 (w_seq m)
  /\ Z.of_nat (NLMSG_HDRLEN + length (w_body m)) < 2 ^ 32.
Definition enc_wire (m : wire) : list Z :=
  let len := (NLMSG_HDRLEN + length (w_body m))%nat in
  to_le 4 (Z.of_nat len) ++ to_le 2 (w_type m) ++ to_le 2 (w_flags m) ++ to_le 4 (w_seq m)
    ++ to_le 4 (w_pid m) ++ w_body m ++ replicate (align len - len) 0.

(** What a reader waiting for the replies to [seq] does with one message. *)
Definition recv_step (seq : Z) (st : list nlmsg * bool) (m : wire) : list nlmsg * bool :=
  let '(out, done) := st in
  let mine := (w_seq m =? seq) || (w_type m =? NLMSG_ERROR) in
  let multi := negb (Z.land (w_flags m) 2 =? 0) in
  if w_type m =? NLMSG_DONE then (out, done || mine)
  else (if mine then out ++ [(w_type m, w_flags m, w_body m)] else out,
        done || (negb multi && mine)).

Lemma length_enc_wire m : length (enc_wire m) = align (NLMSG_HDRLEN + length (w_body m)).
Proof. unfold enc_wire. autorewrite with lens.
  pose proof (align_bounds (NLMSG_HDRLEN + length (w_body m))). unfold NLMSG_HDRLEN in *. lia. Qed.

(** [NlSocket::send] puts a well-formed message on the wire. *)
Lemma frame_wire t f s p :
  Z.of_nat (NLMSG_HDRLEN + length p) < 2 ^ 32 -> frame t f s p = enc_wire (mkWire t f s 0 p).
Proof.
  intros Hl. unfold frame, enc_wire. cbn [w_type w_flags w_seq w_pid w_body].
  rewrite wrap_small by (split; lia). autorewrite with lens. unfold NLMSG_HDRLEN.
  rewrite <- !app_assoc. do 7 f_equal.
Qed.

Section DatagramStep.
Context (m : wire) (rest : list Z) (Hok : wire_ok m).
Let buf := enc_wire m ++ rest.
Let len := (NLMSG_HDRLEN + length (w_body m))%nat.
Let pad := replicate (align len - len) 0.

Lemma enc_wire_len : (NLMSG_HDRLEN <= len <= length buf)%nat.
Proof. unfold buf, len. rewrite length_app, length_enc_wire.
  pose proof (align_bounds (NLMSG_HDRLEN + length (w_body m))). lia. Qed.
Lemma wire_sub_len : sub buf 0 4 = Ok (to_le 4 (Z.of_nat len)).
Proof. eapply (sub_mid []); unfold buf, enc_wire; rewrite <- ?app_assoc; cbn [app];
  rewrite ?length_to_le; done. Qed.
Lemma wire_sub_type : sub buf 4 6 = Ok (to_le 2 (w_type m)).
Proof. eapply (sub_mid (to_le 4 (Z.of_nat len))); unfold buf, enc_wire; rewrite <- ?app_assoc;
  rewrite ?length_to_le; done. Qed.
Lemma wire_sub_flags : sub buf 6 8 = Ok (to_le 2 (w_flags m)).
Proof. eapply (sub_mid (to_le 4 (Z.of_nat len) ++ to_le 2 (w_type m))); unfold buf, enc_wire;
  rewrite <- ?app_assoc; autorewrite with lens; done. Qed.
Lemma wire_sub_seq : sub buf 8 12 = Ok (to_le 4 (w_seq m)).
Proof. eapply (sub_mid (to_le 4 (Z.of_nat len) ++ to_le 2 (w_type m) ++ to_le 2 (w_flags m)));
  unfold buf, enc_wire; rewrite <- ?app_assoc; autorewrite with lens; done. Qed.
Lemma wire_sub_body : sub buf NLMSG_HDRLEN len = Ok (w_body m).
Proof. eapply (sub_mid (to_le 4 (Z.of_nat len) ++ to_le 2 (w_type m) ++ to_le 2 (w_flags m)
    ++ to_le 4 (w_seq m) ++ to_le 4 (w_pid m)));
  unfold buf, enc_wire; rewrite <- ?app_assoc; autorewrite with lens; done. Qed.
Lemma wire_rest : slice_from buf (align len) = Some rest.
Proof. apply slice_from_app. by rewrite length_enc_wire. Qed.

Lemma recv_datagram_step fuel seq st :
  recv_datagram (S fuel) seq buf st.1 st.2 =
    recv_datagram fuel seq rest (recv_step seq st m).1 (recv_step seq st m).2.
Proof using Hok.
  destruct Hok as (Ht & Hf & Hs & Hl). destruct st as [out done]. pose proof enc_wire_len as Hlen.
  cbn [recv_datagram fst snd]. rewrite bool_decide_eq_true_2 by lia.
  rewrite wire_sub_len, wire_sub_type, wire_sub_flags, wire_sub_seq. cbn [mbind outcome_bind].
  rewrite !from_le_to_le by (unfold is_uint in *; cbn; unfold NLMSG_HDRLEN in *; lia).
  rewrite Nat2Z.id. rewrite bool_decide_eq_false_2, bool_decide_eq_false_2 by lia.
  cbn [orb]. rewrite wire_sub_body, wire_rest. cbn [mbind outcome_bind or_panic].
  unfold recv_step.
  destruct (w_type m =? NLMSG_DONE) eqn:Hd; destruct (w_seq m =? seq) eqn:Hq;
    destruct (w_type m =? NLMSG_ERROR) eqn:He; destruct (Z.land (w_flags m) 2 =? 0) eqn:Hm;
    cbn; rewrite ?orb_true_r, ?orb_false_r; done.
Qed.

Lemma multicast_step {T} fuel (f : Z -> list Z -> outcome (option T)) out :
  multicast_loop (S fuel) f buf out =
    (v ← f (w_type m) (w_body m);
     multicast_loop fuel f rest (match v with Some v => out ++ [v] | None => out end)).
Proof using Hok.
  destruct Hok as (Ht & Hf & Hs & Hl). pose proof enc_wire_len as Hlen.
  cbn [multicast_loop]. rewrite bool_decide_eq_true_2 by lia.
  rewrite wire_sub_len, wire_sub_type. cbn [mbind outcome_bind].
  rewrite !from_le_to_le by (unfold is_uint in *; cbn; unfold NLMSG_HDRLEN in *; lia).
  rewrite Nat2Z.id. rewrite bool_decide_eq_false_2, bool_decide_eq_false_2 by lia.
  cbn [orb]. rewrite wire_sub_body, wire_rest. done.
Qed.
End DatagramStep.

Definition enc_wires (l : list wire) : list Z := concat (map enc_wire l).

Lemma recv_datagram_wires seq l fuel st :
  Forall wire_ok l -> (length (enc_wires l) < fuel)%nat ->
  recv_datagram fuel seq (enc_wires l) st.1 st.2 = Ok (fold_left (recv_step seq) l st).
Proof.
  revert fuel st. induction l as [|m l IH]; intros fuel st Hok Hf.
  - destruct fuel; [cbn in Hf; lia|]. by destruct st.
  - apply Forall_cons_1 in Hok as [Hm Hok]. destruct fuel as [|fuel]; [lia|].
    change (enc_wires (m :: l)) with (enc_wire m ++ enc_wires l) in *.
    rewrite recv_datagram_step by done. cbn [fold_left]. apply IH; [done|].
    rewrite length_app, length_enc_wire in Hf.
    pose proof (align_bounds (NLMSG_HDRLEN + length (w_body m))). unfold NLMSG_HDRLEN in *. lia.
Qed.

(** A datagram of a multiple of four bytes, as [NLMSG_ALIGN] makes them, is
    always read to its end. *)
Lemma recv_datagram_ok fuel seq buf out done :
  (exists k, length buf = 4 * k)%nat -> (length buf < fuel)%nat ->
  is_ok (recv_datagram fuel seq buf out done).
Proof.
  revert buf out done. induction fuel as [|fuel IH]; intros buf out done [k Hk] Hf; [lia|].
  cbn [recv_datagram]. unfold NLMSG_HDRLEN. case_bool_decide as H16; [|by eexists].
  destruct (sub_ok buf 0 4) as [lenb ->]; [lia|]. destruct (sub_ok buf 4 6) as [tyb ->]; [lia|].
  destruct (sub_ok buf 6 8) as [flb ->]; [lia|]. destruct (sub_ok buf 8 12) as [sqb ->]; [lia|].
  cbn [mbind outcome_bind]. set (n := Z.to_nat (from_le lenb)).
  destruct (decide (n < 16)%nat). { rewrite bool_decide_eq_true_2 by done. by eexists. }
  destruct (decide (length buf < n)%nat).
  { rewrite (bool_decide_eq_true_2 (length buf < n)%nat), orb_true_r by done. by eexists. }
  rewrite bool_decide_eq_false_2, bool_decide_eq_false_2 by done. cbn [orb].
  destruct (sub_ok buf 16 n) as [p ->]; [lia|]. cbn [mbind outcome_bind].
  assert (align n <= 4 * k)%nat by (apply align_le_mult; lia).
  destruct (align_multiple n) as [j Hj]. pose proof (align_bounds n).
  rewrite slice_from_Some by lia. cbn [or_panic mbind outcome_bind].
  assert (HIH : forall o d, is_ok (recv_datagram fuel seq (drop (align n) buf) o d)).
  { intros. apply IH; rewrite length_drop; [exists (k - j)%nat; lia|lia]. }
  repeat case_match_goal; apply HIH.
Qed.

(** ** Exchanges *)

(** A part of a dump: an [NLM_F_MULTI] message with the request's number. *)
Definition is_part (seq : Z) (m : wire) : Prop :=
  w_seq m = seq /\ w_type m <> NLMSG_DONE /\ w_type m <> NLMSG_ERROR /\ Z.land (w_flags m) 2 <> 0.
Definition is_done (seq : Z) (m : wire) : Prop := w_seq m = seq /\ w_type m = NLMSG_DONE.
Definition wire_msg (m : wire) : nlmsg := (w_type m, w_flags m, w_body m).
#[export] Instance is_part_dec seq m : Decision (is_part seq m).
Proof. unfold is_part. apply _. Defined.
#[export] Instance wire_ok_dec m : Decision (wire_ok m).
Proof. unfold wire_ok. apply _. Defined.

Lemma fold_parts seq l out done :
  Forall (is_part seq) l ->
  fold_left (recv_step seq) l (out, done) = (out ++ map wire_msg l, done).
Proof.
  revert out. induction l as [|m l IH]; intros out Hl; cbn [fold_left map]; [by rewrite app_nil_r|].
  apply Forall_cons_1 in Hl as [(Hs & Hd & He & Hm) Hl].
  unfold recv_step at 2. rewrite (proj2 (Z.eqb_neq _ _) Hd), (proj2 (Z.eqb_eq _ _) Hs).
  rewrite (proj2 (Z.eqb_neq _ _) Hm). cbn. rewrite orb_false_r, IH by done.
  by rewrite <- app_assoc.
Qed.
Lemma parts_no_error seq l :
  Forall (is_part seq) l -> has_error (map wire_msg l) = false.
Proof.
  induction 1 as [|m l (Hs & Hd & He & Hm) _ IH]; cbn; [done|].
  by rewrite (proj2 (Z.eqb_neq _ _) He).
Qed.

Section Exchange.
Context {W : Type} `{Sockets W} `{NlEnv}.

(** The kernel answers successive [recv]s on [fd] with these datagrams. *)
Inductive delivers (fd : Z) : W -> list (list wire) -> W -> Prop :=
| delivers_nil w : delivers fd w [] w
| delivers_cons w w1 w2 l ds :
    so_recv fd RECV_BUF w = (inl (enc_wires l), w1) -> Forall wire_ok l ->
    delivers fd w1 ds w2 -> delivers fd w (l :: ds) w2.

Lemma recv_until_done_step fuel sock seq w w1 l out :
  so_recv (nl_fd sock) RECV_BUF w = (inl (enc_wires l), w1) -> Forall wire_ok l ->
  recv_until_done (S fuel) sock seq out w =
    (let '(out, done) := fold_left (recv_step seq) l (out, false) in
     if done || has_error out then (Ok out, w1)
     else if bool_decide (length (enc_wires l) = 0%nat) then (Ok out, w1)
     else recv_until_done fuel sock seq out w1).
Proof.
  intros Hr Hl. cbn [recv_until_done]. unfold mbind at 1, M_bind at 1, io_try_with at 1.
  rewrite Hr. unfold mbind at 1, M_bind at 1, lift at 1.
  rewrite (recv_datagram_wires seq l _ (out, false)) by (done || lia).
  destruct (fold_left (recv_step seq) l (out, false)) as [out' fin].
  by destruct (fin || has_error out'), (bool_decide (length (enc_wires l) = 0%nat)).
Qed.

Lemma enc_wires_nonempty l : l <> [] -> length (enc_wires l) <> 0%nat.
Proof.
  destruct l as [|m l]; [done|]. intros _.
  change (enc_wires (m :: l)) with (enc_wire m ++ enc_wires l).
  rewrite length_app, length_enc_wire. pose proof (align_bounds (NLMSG_HDRLEN + length (w_body m))).
  unfold NLMSG_HDRLEN in *. lia.
Qed.

(** A dump spread over any number of datagrams is read to its [NLMSG_DONE]. *)
Lemma recv_until_done_dump sock seq ds last d w w' fuel parts :
  delivers (nl_fd sock) w (ds ++ [last ++ [d]]) w' ->
  Forall (fun l => l <> [] /\ Forall (is_part seq) l) ds -> Forall (is_part seq) last ->
  is_done seq d -> (length ds < fuel)%nat -> Forall (is_part seq) parts ->
  recv_until_done fuel sock seq (map wire_msg parts) w =
    (Ok (map wire_msg (parts ++ concat ds ++ last)), w').
Proof.
  intros Hdel Hds Hlast [Hds1 Hds2]. revert w fuel parts Hdel.
  induction Hds as [|l ds [Hne Hl] Hds IH]; intros w fuel parts Hdel Hfuel Hparts;
    (destruct fuel as [|fuel]; [cbn in Hfuel; lia|]); cbn [app concat] in *.
  - inversion Hdel as [|? w1 ? ? ? Hr Hok Hn]; subst. inversion Hn; subst.
    rewrite (recv_until_done_step _ _ _ _ _ _ _ Hr Hok).
    rewrite fold_left_app, fold_parts by done. cbn [fold_left recv_step].
    rewrite Hds2, !Z.eqb_refl. cbn. by rewrite map_app.
  - inversion Hdel as [|? w1 ? ? ? Hr Hok Hn]; subst.
    rewrite (recv_until_done_step _ _ _ _ _ _ _ Hr Hok), fold_parts by done.
    rewrite <- map_app, (parts_no_error (w_seq d)) by (by apply Forall_app_2).
    cbn [orb]. rewrite bool_decide_eq_false_2 by (by apply enc_wires_nonempty).
    rewrite (IH w1 fuel (parts ++ l) Hn) by (cbn in Hfuel; lia || by apply Forall_app_2).
    by rewrite <- !app_assoc.
Qed.

Lemma collect_parts seq l out :
  Forall (is_part seq) l -> collect_bodies (map wire_msg l) out = Ok (out ++ map w_body l).
Proof.
  revert out. induction l as [|m l IH]; intros out Hl; cbn [map collect_bodies wire_msg].
  - by rewrite app_nil_r.
  - apply Forall_cons_1 in Hl as [(Hs & Hd & He & Hm) Hl].
    rewrite (proj2 (Z.eqb_neq _ _) He), (proj2 (Z.eqb_neq _ _) Hd). cbn.
    rewrite IH by done. by rewrite <- app_assoc.
Qed.
End Exchange.

(** ** The parsers never panic *)

Lemma parse_link_ok body : is_ok (parse_link body).
Proof.
  unfold parse_link. case_bool_decide; [by eexists|].
  destruct (sub_ok body 4 8) as [? ->]; [lia|]. destruct (sub_ok body 8 12) as [? ->]; [lia|].
  destruct (sub_ok body 16 (length body)) as [ab ->]; [lia|]. cbn [mbind outcome_bind].
  destruct (parse_attrs_ok ab) as [m ->]. cbn [mbind outcome_bind]. unfold link_kind.
  destruct (attr m IFLA_LINKINFO) as [li|]; [|by eexists].
  destruct (parse_attrs_ok li) as [m' ->]. by eexists.
Qed.
Lemma parse_addr_ok body : is_ok (parse_addr body).
Proof.
  unfold parse_addr. case_bool_decide; [by eexists|].
  destruct (index_ok body 0) as [? ->]; [lia|]. destruct (index_ok body 1) as [? ->]; [lia|].
  destruct (sub_ok body 4 8) as [? ->]; [lia|].
  destruct (sub_ok body 8 (length body)) as [ab ->]; [lia|]. cbn [mbind outcome_bind].
  destruct (parse_attrs_ok ab) as [m ->]. by eexists.
Qed.
Lemma parse_route_ok body : is_ok (parse_route body).
Proof.
  unfold parse_route. case_bool_decide; [by eexists|].
  destruct (index_ok body 0) as [? ->]; [lia|]. destruct (index_ok body 1) as [? ->]; [lia|].
  destruct (index_ok body 4) as [? ->]; [lia|].
  destruct (sub_ok body 12 (length body)) as [ab ->]; [lia|]. cbn [mbind outcome_bind].
  destruct (parse_attrs_ok ab) as [m ->]. by eexists.
Qed.

(** ** What a computation may send

    [sends P c]: whatever the network does, every message [c] puts on a socket
    satisfies [P]. *)

Section Sends.
Context {W : Type} `{Sockets W} `{NlEnv}.
Definition ev_ok (P : list Z -> Prop) (e : sock_event) : Prop :=
  match e with EvSend _ b _ => P b | _ => True end.
Definition sends {A} (P : list Z -> Prop) (c : M (traced W) A) : Prop :=
  forall w, exists tr, (c w).2.2 = w.2 ++ tr /\ Forall (ev_ok P) tr.

Lemma sends_quiet {A} P (c : M (traced W) A) : (forall w, (c w).2.2 = w.2) -> sends P c.
Proof. intros Hc w. exists []. rewrite app_nil_r. split; [apply Hc|constructor]. Qed.
Lemma sends_bind {A B} P (m : M (traced W) A) (f : A -> M (traced W) B) :
  sends P m -> (forall a, sends P (f a)) -> sends P (m ≫= f).
Proof.
  intros Hm Hf w. unfold mbind, M_bind. destruct (Hm w) as (tr & Ht & Ho).
  destruct (m w) as [[a|e|s] w1]; cbn [snd] in *; [|by exists tr..].
  destruct (Hf a w1) as (tr2 & Ht2 & Ho2). exists (tr ++ tr2). rewrite Ht2, Ht, <- app_assoc.
  split; [done|by apply Forall_app_2].
Qed.
Lemma sends_lift {A} P (o : outcome A) : sends P (lift o).
Proof. by apply sends_quiet. Qed.
Lemma sends_ignore {A} P (c : M (traced W) A) : sends P c -> sends P (ignore c).
Proof.
  intros Hc w. unfold ignore. destruct (Hc w) as (tr & Ht & Ho). exists tr.
  by destruct (c w) as [[a|e|s] w1].
Qed.
Lemma sends_for_each {A} P (l : list A) (f : A -> M (traced W) unit) :
  (forall a, In a l -> sends P (f a)) -> sends P (for_each l f).
Proof.
  induction l as [|a l IH]; intros Hf; cbn [for_each]; [by apply sends_quiet|].
  apply sends_bind; [apply Hf; by left|]. intros _. apply IH. intros; apply Hf; by right.
Qed.
Lemma sends_mono {A} (P Q : list Z -> Prop) (c : M (traced W) A) :
  (forall b, P b -> Q b) -> sends P c -> sends Q c.
Proof.
  intros HPQ Hc w. destruct (Hc w) as (tr & Ht & Ho). exists tr. split; [done|].
  eapply List.Forall_impl; [|exact Ho]. intros [] ?; cbn in *; auto.
Qed.

Lemma untraced_quiet {A} (c : io W A) (w : traced W) : (untraced c w).2.2 = w.2.
Proof. unfold untraced. by destruct (c w.1). Qed.
Lemma recv_traced fd n (w : traced W) :
  exists tr, (so_recv fd n w).2.2 = w.2 ++ tr /\ Forall (ev_ok (fun _ => False)) tr.
Proof.
  cbn. destruct (so_recv fd n w.1) as [[b|e] w']; cbn [snd].
  - exists [EvRecv fd b]. split; [done|]. by repeat constructor.
  - exists []. rewrite app_nil_r. split; [done|constructor].
Qed.
Lemma sends_recv P fd n f : sends P (io_try_with f (so_recv fd n)).
Proof.
  intros w. destruct (recv_traced fd n w) as (tr & Ht & Ho). exists tr.
  unfold io_try_with. destruct (so_recv fd n w) as [[b|e] w']; cbn [snd] in *; (split; [done|]);
    (eapply List.Forall_impl; [|exact Ho]); by intros [].
Qed.
Lemma sends_recv_until_done P fuel sock sq out : sends P (recv_until_done fuel sock sq out).
Proof.
  revert out. induction fuel as [|fuel IH]; intros out; cbn [recv_until_done]; [apply sends_lift|].
  apply sends_bind; [apply sends_recv|]. intros b. apply sends_bind; [apply sends_lift|].
  intros [o d]. destruct (d || has_error o); [by apply sends_quiet|].
  case_bool_decide; [by apply sends_quiet|apply IH].
Qed.
Lemma sends_nl_send (P : list Z -> Prop) sock t f p :
  P (frame t f (nl_seq sock) p) -> sends P (nl_send sock t f p).
Proof.
  intros HP. unfold nl_send. apply sends_bind; [|intros; by apply sends_quiet].
  intros w. unfold io_try_with. cbn. destruct (so_send _ _ _ w.1) as [[u|e] w']; cbn [snd].
  - eexists [_]. split; [done|]. by repeat constructor.
  - exists []. rewrite app_nil_r. split; [done|constructor].
Qed.
Lemma sends_nl_request (P : list Z -> Prop) sock t f p :
  (forall sq, P (frame t (Z.lor f (Z.lor NLM_F_REQUEST NLM_F_ACK)) sq p)) -> sends P (nl_request sock t f p).
Proof.
  intros HP. unfold nl_request. apply sends_bind; [apply sends_nl_send, HP|]. intros [sq s].
  apply sends_bind; [apply sends_recv_until_done|]. intros. apply sends_lift.
Qed.
Lemma sends_with_sock {A} P pr g (body : NlSocket -> M (traced W) A) :
  (forall s, sends P (body s)) -> sends P (with_sock (with_protocol pr g) body).
Proof.
  intros Hb. unfold with_sock. apply sends_bind.
  - unfold with_protocol. apply sends_bind.
    { apply sends_quiet. intros w. unfold io_try_with. pose proof (untraced_quiet (so_socket (SkNetlink pr)) w) as Hq.
      cbn in *. by destruct (untraced _ w) as [[?|?] ?]. }
    intros fd. apply sends_bind.
    { apply sends_quiet. intros w. unfold io_match. pose proof (untraced_quiet (so_bind fd (NlGroups g)) w) as Hq.
      cbn in *. by destruct (untraced _ w) as [[?|?] ?]. }
    intros [u|e]; [by apply sends_quiet|]. apply sends_bind; [by apply sends_quiet|]. intros. by apply sends_quiet.
  - intros s w. unfold finally. destruct (Hb s w) as (tr & Ht & Ho). exists tr.
    destruct (body s w) as [r w']. done.
Qed.
End Sends.

(** ** Properties *)

(** Attributes survive the wire: reading what the [AttrBuilder] wrote gives
    every attribute its payload, the last one where a type is repeated. *)
Theorem attrs_roundtrip (l : list (Z * list Z)) :
  Forall attr_ok l ->
  parse_attrs (fold_left (fun buf a => push_raw buf a.1 a.2) l []) =
    Ok (fold_left (fun m a => <[a.1 := a.2]> m) l ∅).
Proof.
  intros Hl. change (fold_left (fun m a => <[a.1 := a.2]> m) l ∅) with (attrs_map l ∅).
  rewrite <- parse_attrs_enc by done. f_equal. clear Hl.
  change (@nil Z) with (enc_attrs []). rewrite <- (app_nil_l l) at 2. generalize (@nil (Z * list Z)) as pre.
  induction l as [|[t p] l IH]; intros pre; cbn [fold_left]; [by rewrite app_nil_r|].
  cbn [fst snd]. rewrite enc_attrs_snoc, IH. by rewrite <- app_assoc.
Qed.
Lemma attrs_roundtrip_witness :
  parse_attrs (fold_left (fun buf a => push_raw buf a.1 a.2) [(3, [108; 111; 0]); (4, [0; 0; 1; 0])] []) =
    Ok (<[4 := [0; 0; 1; 0]]> (<[3 := [108; 111; 0]]> ∅)).
Proof. apply (attrs_roundtrip [(3, [108; 111; 0]); (4, [0; 0; 1; 0])]). unfold attr_ok. by_decision. Defined.

(** No reply body makes the link, address or route parser panic: attribute
    walking stops at the first attribute that does not fit. *)
Theorem netlink_parsers_total body :
  is_ok (parse_attrs body) /\ is_ok (parse_link body) /\ is_ok (parse_addr body) /\ is_ok (parse_route body).
Proof. split_and!; [apply parse_attrs_ok|apply parse_link_ok|apply parse_addr_ok|apply parse_route_ok]. Qed.

(** One message whose length is not a multiple of four, at the end of a datagram. *)
Definition unaligned_datagram : list Z :=
  to_le 4 17 ++ to_le 2 16 ++ to_le 2 0 ++ to_le 4 1 ++ to_le 4 0 ++ [7].

(** A datagram made of four-byte-aligned content never panics the reply
    loop, but one whose last message ends off the alignment does: the loop slices
    at the aligned length, which is past the end of the buffer. *)
Theorem datagram_alignment :
  (forall fuel seq buf out done, (exists k, length buf = 4 * k)%nat -> (length buf < fuel)%nat ->
     is_ok (recv_datagram fuel seq buf out done))
  /\ (forall fuel seq out, exists why, recv_datagram (S fuel) seq unaligned_datagram out false = Panic why).
Proof.
  split; [intros; by apply recv_datagram_ok|]. intros fuel seq out. eexists.
  destruct seq as [|[p|p|]|p]; vm_compute; reflexivity.
Qed.

(** C37: a multi-part dump, split over datagrams in any way, is put together
    again: [dump] returns the bodies of all its parts, in order, and none of the
    closing message. *)
Theorem dump_reassembles {W} `{Sockets W} `{NlEnv} sock msg payload w w1 w2 ds lst d :
  let seq := nl_seq sock in
  so_send (nl_fd sock) (frame msg (Z.lor NLM_F_REQUEST NLM_F_DUMP) seq payload) DestKernel w = (inl tt, w1) ->
  delivers (nl_fd sock) w1 (ds ++ [lst ++ [d]]) w2 ->
  Forall (fun l => l <> [] /\ Forall (is_part seq) l) ds -> Forall (is_part seq) lst -> is_done seq d ->
  (length ds < nl_fuel)%nat ->
  nl_dump sock msg payload w = (Ok (map w_body (concat ds ++ lst)), w2).
Proof.
  intros seq Hs Hdel Hds Hlst Hd Hf. unfold nl_dump, nl_send. unfold mbind, M_bind, io_try_with, mret, M_ret.
  cbn [nl_fd nl_seq]. fold seq. rewrite Hs.
  pose proof (recv_until_done_dump (mkNlSocket (nl_fd sock) (wrap 32 (seq + 1))) seq ds lst d w1 w2 nl_fuel []
    Hdel Hds Hlst Hd Hf (Forall_nil_2 _)) as Hr.
  change (map wire_msg []) with (@nil nlmsg) in Hr. rewrite Hr. cbn [app]. unfold lift.
  rewrite (collect_parts seq) by (apply Forall_app_2; [|done]; apply Forall_concat;
    eapply List.Forall_impl; [|exact Hds]; by intros l [_ Hl]). done.
Qed.
Definition demo_nl_env : NlEnv := {| strerror _ := ""%string; nl_fuel := 100 |}.
#[local] Existing Instance demo_nl_env.
Definition demo_part (b : Z) : wire := mkWire 16 2 1 0 [b].
Definition demo_done : wire := mkWire NLMSG_DONE 2 1 0 [0; 0; 0; 0].
Definition demo_dump : sim :=
  sim_start [inl (enc_wires [demo_part 1; demo_part 2]); inl (enc_wires [demo_part 3; demo_done])].
Lemma dump_reassembles_witness :
  (nl_dump (mkNlSocket 3 1) RTM_GETLINK [] demo_dump).1 = Ok [[1]; [2]; [3]].
Proof.
  erewrite (dump_reassembles (mkNlSocket 3 1) RTM_GETLINK [] demo_dump _ _
              [[demo_part 1; demo_part 2]] [demo_part 3] demo_done).
  - reflexivity.
  - reflexivity.
  - eapply delivers_cons; [reflexivity|by_decision|]. eapply delivers_cons; [reflexivity|by_decision|].
    apply delivers_nil.
  - by_decision.
  - by_decision.
  - unfold is_done. by_decision.
  - by_decision.
Defined.
