(* ===== verification/IpLayer.v ===== *)
(** * The IP layer (ip/address.rs, interface.rs, route.rs, neighbor.rs,
    genetlink.rs, monitor.rs)

    Each operation is the message it builds, sent over a fresh [NlSocket] that
    is closed when the operation ends.  The payloads are definitions of their
    own, so that what the kernel is asked for can be stated and read back with
    the parsers of [Netlink]. *)

From Stdlib Require Import Ascii String.
From S2P Require Import Prelude RustStr IpAddr Dhcp4 Sys World Netlink.

(** ** Shared helpers *)

Definition ip_bytes (ip : IpAddr) : list Z :=
  match ip with V4 v4 => octets4 v4 | V6 v6 => octets6 v6 end.

Definition bytes_to_ip (family : Z) (b : list Z) : option IpAddr :=
  if (family =? AF_INET) && bool_decide (length b = 4%nat) then Some (V4 (from_be b))
  else if (family =? AF_INET6) && bool_decide (length b = 16%nat) then Some (V6 (from_be b))
  else None.

(** [for body in &replies { if let Some(x) = f(body) { out.push(x) } }] *)
Fixpoint filter_map_out {A B} (f : A -> outcome (option B)) (l : list A) : outcome (list B) :=
  match l with
  | [] => Ok []
  | x :: l =>
      r ← f x;
      rest ← filter_map_out f l;
      Ok (match r with Some y => y :: rest | None => rest end)
  end.

(** ** Addresses *)

Record Address := mkAddress {
  ad_index : Z; ad_ip : IpAddr; ad_prefixlen : Z; ad_label : option string
}.

Definition address_add_payload (index : Z) (ip : IpAddr) (prefixlen : Z) : outcome (list Z) :=
  let hdr := build_ifaddrmsg (family_raw (family_of_addr ip)) prefixlen index in
  let bytes := ip_bytes ip in
  let attrs := attr_bytes [] IFA_LOCAL bytes in
  let attrs := attr_bytes attrs IFA_ADDRESS bytes in
  attrs ← match ip with
          | V4 v4 => bcast ← broadcast_address v4 prefixlen;
                     Ok (attr_bytes attrs IFA_BROADCAST (octets4 bcast))
          | V6 _ => Ok attrs
          end;
  Ok (hdr ++ attrs).
Definition address_del_payload (index : Z) (ip : IpAddr) (prefixlen : Z) : list Z :=
  build_ifaddrmsg (family_raw (family_of_addr ip)) prefixlen index
    ++ attr_bytes [] IFA_LOCAL (ip_bytes ip).

(** One reply of [list]. *)
Definition address_of_reply (family : Z) (index : option Z) (body : list Z) : outcome (option Address) :=
  a ← parse_addr body;
  match a with
  | None => Ok None
  | Some a =>
      if match index with Some idx => negb (ai_index a =? idx) | None => false end then Ok None
      else match bytes_to_ip family (ai_address a) with
           | Some ip => Ok (Some (mkAddress (ai_index a) ip (ai_prefixlen a) (ai_label a)))
           | None => Ok None
           end
  end.

Section Addresses.
Context {W : Type} `{Sockets W} `{NlEnv}.

Definition address_add (index : Z) (ip : IpAddr) (prefixlen : Z) : M W unit :=
  with_sock nl_new (fun sock =>
    payload ← lift (address_add_payload index ip prefixlen);
    nl_request sock RTM_NEWADDR (Z.lor NLM_F_CREATE NLM_F_REPLACE) payload).

Definition address_del (index : Z) (ip : IpAddr) (prefixlen : Z) : M W unit :=
  with_sock nl_new (fun sock =>
    nl_request sock RTM_DELADDR 0 (address_del_payload index ip prefixlen)).

Fixpoint address_list_families (families : list Z) (index : option Z) : M W (list Address) :=
  match families with
  | [] => mret []
  | family :: families =>
      here ← with_sock nl_new (fun sock =>
        replies ← nl_dump sock RTM_GETADDR (build_ifaddrmsg family 0 (default 0 index));
        lift (filter_map_out (address_of_reply family index) replies));
      rest ← address_list_families families index;
      mret (here ++ rest)
  end.
Definition address_list (index : option Z) : M W (list Address) :=
  address_list_families [AF_INET; AF_INET6] index.

Definition address_flush (index : Z) : M W unit :=
  addrs ← address_list (Some index);
  for_each addrs (fun a => address_del index (ad_ip a) (ad_prefixlen a)).
End Addresses.

(** ** Interfaces *)

Record Interface := mkInterface {
  if_index : Z; if_name : string; if_flags : Z; if_mtu : Z;
  if_hwaddr : option (list Z); if_operstate : option Z; if_kind : option string
}.
Definition is_up (i : Interface) : bool := negb (Z.land (if_flags i) IFF_UP =? 0).
Definition has_carrier (i : Interface) : bool := negb (Z.land (if_flags i) IFF_RUNNING =? 0).
Definition is_loopback (i : Interface) : bool := negb (Z.land (if_flags i) IFF_LOOPBACK =? 0).

Definition interface_of_link (l : LinkInfo) : Interface :=
  mkInterface (li_index l) (li_name l) (li_flags l) (li_mtu l) (li_hwaddr l) (li_operstate l) (li_kind l).
Definition interface_of_reply (body : list Z) : outcome (option Interface) :=
  l ← parse_link body; Ok (option_map interface_of_link l).

Definition set_hwaddr_payload (index : Z) (mac : list Z) : list Z :=
  build_ifinfomsg index 0 0 ++ attr_bytes [] IFLA_ADDRESS mac.
Definition set_mtu_payload (index mtu : Z) : list Z :=
  build_ifinfomsg index 0 0 ++ attr_u32 [] IFLA_MTU mtu.
Definition create_virtual_payload (name kind : string) : list Z :=
  let link_info := attr_nul_str [] IFLA_INFO_KIND kind in
  build_ifinfomsg 0 0 0
    ++ attr_nested (attr_nul_str [] IFLA_IFNAME name) IFLA_LINKINFO link_info.

Section Interfaces.
Context {W : Type} `{Sockets W} `{NlEnv}.

Definition interface_list : M W (list Interface) :=
  with_sock nl_new (fun sock =>
    replies ← nl_dump sock RTM_GETLINK (build_ifinfomsg 0 0 0);
    lift (filter_map_out interface_of_reply replies)).
Definition get_by_name (name : string) : M W Interface :=
  l ← interface_list;
  lift (ok_or (List.find (fun i => String.eqb (if_name i) name) l)
          (NotFound ("interface '" ++ name ++ "'"))).
Definition get_by_index (index : Z) : M W Interface :=
  l ← interface_list;
  lift (ok_or (List.find (fun i => if_index i =? index) l)
          (NotFound ("interface index " ++ dec_signed index))).
Definition set_flags (index flags change : Z) : M W unit :=
  with_sock nl_new (fun sock => nl_request sock RTM_NEWLINK 0 (build_ifinfomsg index flags change)).
Definition set_up (index : Z) : M W unit := set_flags index IFF_UP IFF_UP.
Definition set_down (index : Z) : M W unit := set_flags index 0 IFF_UP.
Definition set_hwaddr (index : Z) (mac : list Z) : M W unit :=
  with_sock nl_new (fun sock => nl_request sock RTM_NEWLINK 0 (set_hwaddr_payload index mac)).
Definition set_mtu (index mtu : Z) : M W unit :=
  with_sock nl_new (fun sock => nl_request sock RTM_NEWLINK 0 (set_mtu_payload index mtu)).
Definition interface_delete (index : Z) : M W unit :=
  with_sock nl_new (fun sock => nl_request sock RTM_DELLINK 0 (build_ifinfomsg index 0 0)).
Definition create_virtual (name kind : string) : M W unit :=
  with_sock nl_new (fun sock =>
    nl_request sock RTM_NEWLINK (Z.lor NLM_F_CREATE NLM_F_EXCL) (create_virtual_payload name kind)).
End Interfaces.

(** ** Routes *)

Inductive RouteProtocol := PStatic | PDhcp | PKernel.
#[export] Instance RouteProtocol_eq_dec : EqDecision RouteProtocol.
Proof. solve_decision. Defined.
Definition protocol_raw (p : RouteProtocol) : Z :=
  match p with PStatic => RTPROT_STATIC | PDhcp => RTPROT_DHCP | PKernel => 2 end.

Record Route := mkRoute {
  destination : option (IpAddr * Z);
  rt_gateway : option IpAddr;
  oif_index : Z;
  metric : option Z;
  protocol : RouteProtocol
}.
#[export] Instance Route_eq_dec : EqDecision Route.
Proof. solve_decision. Defined.

Definition family_of (r : Route) : Family :=
  match destination r with
  | Some (dst, _) => family_of_addr dst
  | None => match rt_gateway r with Some gw => family_of_addr gw | None => FamV4 end
  end.

(** route.rs has its own copies of the two helpers. *)
Definition addr_bytes (ip : IpAddr) : list Z :=
  match ip with V4 v => octets4 v | V6 v => octets6 v end.
Definition route_bytes_to_ip (family : Z) (b : list Z) : option IpAddr :=
  if (family =? AF_INET) && bool_decide (length b = 4%nat) then Some (V4 (from_be b))
  else if (family =? AF_INET6) && bool_decide (length b = 16%nat) then Some (V6 (from_be b))
  else None.

(** The attributes [build] and [add_to_table] start with. *)
Definition route_attrs (r : Route) : list Z :=
  let attrs := match destination r with
               | Some (dst, _) => attr_bytes [] RTA_DST (addr_bytes dst) | None => [] end in
  let attrs := match rt_gateway r with
               | Some gw => attr_bytes attrs RTA_GATEWAY (addr_bytes gw) | None => attrs end in
  attr_u32 attrs RTA_OIF (wrap 32 (oif_index r)).
Definition route_payload (r : Route) : list Z :=
  let hdr := build_rtmsg (family_raw (family_of r)) (default 0 (snd <$> destination r)) RT_TABLE_MAIN
    (protocol_raw (protocol r))
    (match rt_gateway r with Some _ => RT_SCOPE_UNIVERSE | None => RT_SCOPE_LINK end) RTN_UNICAST in
  let attrs := route_attrs r in
  let attrs := match metric r with Some m => attr_u32 attrs RTA_PRIORITY m | None => attrs end in
  hdr ++ attrs.
Definition table_payload (r : Route) (table : Z) : list Z :=
  build_rtmsg (family_raw (family_of r)) (default 0 (snd <$> destination r)) table
    (protocol_raw (protocol r)) RT_SCOPE_UNIVERSE RTN_UNICAST ++ route_attrs r.
Definition source_rule_payload (src : IpAddr) (prefixlen table priority : Z) : list Z :=
  build_fib_rule_hdr (family_raw (family_of_addr src)) prefixlen table FR_ACT_TO_TBL
    ++ attr_u32 (attr_bytes [] FRA_SRC (addr_bytes src)) FRA_PRIORITY priority.

(** One reply of [list]. *)
Definition route_of_info (r : RouteInfo) : option Route :=
  if negb (ri_table r =? RT_TABLE_MAIN) then None
  else Some (mkRoute
    ((fun ip => (ip, ri_dst_len r)) <$> (ri_dst r ≫= route_bytes_to_ip (ri_family r)))
    (ri_gateway r ≫= route_bytes_to_ip (ri_family r))
    (default 0 (ri_oif r)) (ri_priority r) PKernel).
Definition route_of_reply (body : list Z) : outcome (option Route) :=
  r ← parse_route body; Ok (match r with Some r => route_of_info r | None => None end).

Section Routes.
Context {W : Type} `{Sockets W} `{NlEnv}.

Definition route_build (r : Route) (msg_type extra_flags : Z) : M W unit :=
  with_sock nl_new (fun sock => nl_request sock msg_type extra_flags (route_payload r)).
Definition route_add (r : Route) : M W unit :=
  route_build r RTM_NEWROUTE (Z.lor NLM_F_CREATE NLM_F_REPLACE).
Definition route_del (r : Route) : M W unit := route_build r RTM_DELROUTE 0.
Definition set_default (oif : Z) (gw : IpAddr) (m : Z) (p : RouteProtocol) : M W unit :=
  route_add (mkRoute None (Some gw) oif (Some m) p).
Definition route_list (family : Family) : M W (list Route) :=
  with_sock nl_new (fun sock =>
    replies ← nl_dump sock RTM_GETROUTE (build_rtmsg (family_raw family) 0 0 0 0 0);
    lift (filter_map_out route_of_reply replies)).
Definition add_source_rule (src : IpAddr) (prefixlen table priority : Z) : M W unit :=
  with_sock nl_new (fun sock =>
    nl_request sock RTM_NEWRULE NLM_F_CREATE (source_rule_payload src prefixlen table priority)).
Definition del_source_rule (src : IpAddr) (prefixlen table priority : Z) : M W unit :=
  with_sock nl_new (fun sock =>
    nl_request sock RTM_DELRULE 0 (source_rule_payload src prefixlen table priority)).
Definition add_to_table (r : Route) (table : Z) : M W unit :=
  with_sock nl_new (fun sock =>
    nl_request sock RTM_NEWROUTE (Z.lor NLM_F_CREATE NLM_F_REPLACE) (table_payload r table)).
End Routes.

(** ** Neighbours *)

Definition RTM_GETNEIGH : Z := 30.
Definition NDA_DST : Z := 1.
Definition NDA_LLADDR : Z := 2.

Inductive NeighborState :=
| Incomplete | Reachable | Stale | Delay | Probe | Failed | Permanent | NsUnknown.
Definition neighbor_state_from_raw (state : Z) : NeighborState :=
  if state =? 1 then Incomplete else if state =? 2 then Reachable else if state =? 4 then Stale
  else if state =? 8 then Delay else if state =? 16 then Probe else if state =? 32 then Failed
  else if state =? 128 then Permanent else NsUnknown.

Record Neighbor := mkNeighbor {
  nb_ifindex : Z; nb_ip : IpAddr; nb_mac : option (list Z); nb_state : NeighborState
}.

(** neighbor.rs's copy. *)
Definition neighbor_bytes_to_ip (family : Z) (b : list Z) : option IpAddr :=
  if (family =? AF_INET) && bool_decide (length b = 4%nat) then Some (V4 (from_be b))
  else if (family =? AF_INET6) && bool_decide (length b = 16%nat) then Some (V6 (from_be b))
  else None.
Definition neighbor_of_reply (family : Z) (ifindex : option Z) (body : list Z)
  : outcome (option Neighbor) :=
  if bool_decide (length body < 12)%nat then Ok None
  else
    ib ← sub body 4 8;
    let idx := i32_of ib in
    if match ifindex with Some want => negb (idx =? want) | None => false end then Ok None
    else
      sb ← sub body 8 10;
      ab ← sub body 12 (length body);
      attrs ← parse_attrs ab;
      let mac := attr attrs NDA_LLADDR ≫= get_first 6 in
      match attr attrs NDA_DST ≫= neighbor_bytes_to_ip family with
      | Some ip => Ok (Some (mkNeighbor idx ip mac (neighbor_state_from_raw (from_le sb))))
      | None => Ok None
      end.

Section Neighbors.
Context {W : Type} `{Sockets W} `{NlEnv}.

Fixpoint neighbor_list_families (families : list Z) (ifindex : option Z) : M W (list Neighbor) :=
  match families with
  | [] => mret []
  | family :: families =>
      here ← with_sock nl_new (fun sock =>
        replies ← nl_dump sock RTM_GETNEIGH [family; 0; 0; 0; 0; 0; 0; 0; 0; 0; 0; 0];
        lift (filter_map_out (neighbor_of_reply family ifindex) replies));
      rest ← neighbor_list_families families ifindex;
      mret (here ++ rest)
  end.
Definition neighbor_list (ifindex : option Z) : M W (list Neighbor) :=
  neighbor_list_families [AF_INET; AF_INET6] ifindex.
End Neighbors.

(** ** Generic netlink *)

Definition GENL_ID_CTRL : Z := 16.
Definition CTRL_CMD_GETFAMILY : Z := 3.
Definition CTRL_ATTR_FAMILY_ID : Z := 1.
Definition CTRL_ATTR_FAMILY_NAME : Z := 2.

Definition build_genlmsghdr (cmd version : Z) : list Z := [cmd; version; 0; 0].
Definition family_not_found (name : string) : NetworkError :=
  Netlink ("generic netlink family '" ++ name ++ "' not found -- is its kernel module loaded?").

(** The loop over the replies: the first one that names an id. *)
Fixpoint find_family_id (name : string) (replies : list (list Z)) : outcome Z :=
  match replies with
  | [] => Err (family_not_found name)
  | body :: replies =>
      if bool_decide (length body < 4)%nat then find_family_id name replies
      else
        ab ← sub body 4 (length body);
        attrs ← parse_attrs ab;
        match attr attrs CTRL_ATTR_FAMILY_ID ≫= get_first 2 with
        | Some b => Ok (from_le b)
        | None => find_family_id name replies
        end
  end.

Section Genetlink.
Context {W : Type} `{Sockets W} `{NlEnv}.

(** The socket is borrowed: it comes back with its next sequence number. *)
Definition resolve_family (sock : NlSocket) (name : string) : M W (Z * NlSocket) :=
  let payload := build_genlmsghdr CTRL_CMD_GETFAMILY 1
                 ++ attr_nul_str [] CTRL_ATTR_FAMILY_NAME name in
  r ← attempt (nl_query sock GENL_ID_CTRL 0 payload);
  match r with
  | inl (replies, sock) => id ← lift (find_family_id name replies); mret (id, sock)
  | inr _ => throw (family_not_found name)
  end.
Definition resolve (name : string) : M W Z :=
  with_sock (with_protocol NETLINK_GENERIC 0) (fun sock =>
    r ← resolve_family sock name; mret r.1).
End Genetlink.

(** ** The multicast monitor *)

Inductive RawEvent :=
| LinkNew (name : string) | LinkDel (name : string) | AddrNew (index : Z) | AddrDel (index : Z).

Definition monitor_event (msg_type : Z) (body : list Z) : outcome (option RawEvent) :=
  if msg_type =? RTM_NEWLINK then l ← parse_link body; Ok (option_map (fun l => LinkNew (li_name l)) l)
  else if msg_type =? RTM_DELLINK then l ← parse_link body; Ok (option_map (fun l => LinkDel (li_name l)) l)
  else if msg_type =? RTM_NEWADDR then a ← parse_addr body; Ok (option_map (fun a => AddrNew (ai_index a)) a)
  else if msg_type =? RTM_DELADDR then a ← parse_addr body; Ok (option_map (fun a => AddrDel (ai_index a)) a)
  else Ok None.

Section Monitors.
Context {W : Type} `{Sockets W}.
Definition monitor_new (groups : Z) : M W NlSocket := with_groups groups.
Definition monitor_recv (sock : NlSocket) : M W (list RawEvent) := recv_multicast sock monitor_event.
End Monitors.

(** ** Reading back what the operations ask for *)

Lemma sub_tail h t n : n = length h -> sub (h ++ t) n (length (h ++ t)) = Ok t.
Proof. intros ->. eapply (sub_mid h t []); rewrite ?app_nil_r, ?length_app; done. Qed.
Lemma index_head h t i x : h !! i = Some x -> index (h ++ t) i = Ok x.
Proof. apply index_prefix. Qed.

Lemma bytes_to_ip_bytes ip : ip_ok ip -> bytes_to_ip (family_raw (family_of_addr ip)) (ip_bytes ip) = Some ip.
Proof.
  destruct ip as [a|a]; cbn; intros H; unfold bytes_to_ip; cbn.
  - unfold octets4. rewrite bool_decide_eq_true_2 by apply length_to_be. cbn.
    by rewrite from_be_to_be.
  - unfold octets6. rewrite bool_decide_eq_true_2 by apply length_to_be.
    by rewrite from_be_to_be.
Qed.
Lemma route_bytes_to_ip_same family b : route_bytes_to_ip family b = bytes_to_ip family b.
Proof. done. Qed.
Lemma length_ip_bytes ip : (length (ip_bytes ip) <= 16)%nat.
Proof. destruct ip; cbn; unfold octets4, octets6; rewrite length_to_be; lia. Qed.

Lemma attr_ok_ip t ip : is_u16 t -> attr_ok (t, ip_bytes ip).
Proof. intros. split; [done|]. cbn [snd]. pose proof (length_ip_bytes ip). lia. Qed.
Lemma attr_ok_u32 t v : is_u16 t -> attr_ok (t, to_le 4 v).
Proof. intros. split; [done|]. cbn [snd]. rewrite length_to_le. lia. Qed.
Lemma is_u16_intro z : 0 <= z < 65536 -> is_u16 z.
Proof. done. Qed.
#[export] Hint Resolve attr_ok_ip attr_ok_u32 is_u16_intro : mitos.

Lemma get_first_all n b : length b = n -> get_first n b = Some b.
Proof. intros <-. unfold get_first. rewrite slice_Some by lia. cbn [drop].
  rewrite Nat.sub_0_r. by rewrite take_ge. Qed.

(** Looks up concrete attribute types in a chain of insertions. *)
Ltac lookup_attrs :=
  repeat first [rewrite lookup_insert_eq | rewrite lookup_insert_ne by done | rewrite lookup_empty].

Lemma u32_attr v : is_u32 v -> from_le <$> (Some (to_le 4 v) ≫= get_first 4) = Some v.
Proof. intros. cbn [mbind option_bind]. rewrite get_first_all by apply length_to_le.
  change (Some (from_le (to_le 4 v)) = Some v). by rewrite from_le_to_le. Qed.
Lemma i32_attr i :
  is_i32 i -> i32_of <$> (Some (to_le 4 (wrap 32 i)) ≫= get_first 4) = Some i.
Proof. intros. cbn [mbind option_bind]. rewrite get_first_all by apply length_to_le.
  change (Some (to_signed 32 (from_le (to_le 4 (wrap 32 i)))) = Some i).
  rewrite from_le_to_le by (apply (wrap_range 32); lia). by rewrite to_signed_wrap32. Qed.

(** *** Addresses *)

Lemma ifaddrmsg_fields f p i attrs :
  is_i32 i ->
  parse_addr (build_ifaddrmsg f p i ++ attrs) =
    (m ← parse_attrs attrs;
     Ok (Some (mkAddrInfo i f p
       (default [] (match attr m IFA_LOCAL with Some b => Some b | None => attr m IFA_ADDRESS end))
       (attr_string <$> attr m IFA_LABEL)))).
Proof.
  intros Hi. unfold parse_addr.
  assert (Hh : length (build_ifaddrmsg f p i) = 8%nat) by done.
  rewrite bool_decide_eq_false_2 by (rewrite length_app, Hh; lia).
  rewrite (index_head _ _ 0 f), (index_head _ _ 1 p) by done. cbn [mbind outcome_bind].
  rewrite (sub_mid [f; p; 0; RT_SCOPE_UNIVERSE] (i32_bytes i) attrs 4 8) by done.
  cbn [mbind outcome_bind]. rewrite (sub_tail (build_ifaddrmsg f p i)) by done.
  cbn [mbind outcome_bind]. unfold i32_of, i32_bytes.
  rewrite from_le_to_le by (apply (wrap_range 32); lia). by rewrite to_signed_wrap32.
Qed.

Lemma address_add_payload_attrs i ip p :
  ip_ok ip -> 0 <= p <= (if is_ipv4 ip then 32 else 128) ->
  exists extra, Forall attr_ok extra /\ Forall (fun a => a.1 = IFA_BROADCAST) extra /\
    address_add_payload i ip p = Ok (build_ifaddrmsg (family_raw (family_of_addr ip)) p i
      ++ enc_attrs ([(IFA_LOCAL, ip_bytes ip); (IFA_ADDRESS, ip_bytes ip)] ++ extra)).
Proof.
  intros Hip Hp. unfold address_add_payload, attr_bytes.
  rewrite (enc_attrs_snoc [] IFA_LOCAL), enc_attrs_snoc. destruct ip as [a|a]; cbn [is_ipv4] in Hp.
  - rewrite broadcast_address_value by done. cbn [mbind outcome_bind].
    rewrite enc_attrs_snoc. eexists [(IFA_BROADCAST, octets4 _)]. split; [|split; [|reflexivity]].
    + apply Forall_singleton. split; [done|]. cbn [snd]. unfold octets4. rewrite length_to_be. lia.
    + by apply Forall_singleton.
  - by exists [].
Qed.

(** What [add] asks the kernel to create, read back as [list] reads replies. *)
Lemma address_add_reads_back i ip p :
  ip_ok ip -> is_i32 i -> 0 <= p <= (if is_ipv4 ip then 32 else 128) ->
  exists payload, address_add_payload i ip p = Ok payload /\
    address_of_reply (family_raw (family_of_addr ip)) (Some i) payload = Ok (Some (mkAddress i ip p None)).
Proof.
  intros Hip Hi Hp. destruct (address_add_payload_attrs i ip p Hip Hp) as (extra & Hx & Hb & Hpay).
  eexists. split; [exact Hpay|]. unfold address_of_reply. rewrite ifaddrmsg_fields by done.
  rewrite parse_attrs_enc by (apply Forall_app_2; [repeat constructor; apply attr_ok_ip; done|done]).
  cbn [mbind outcome_bind ai_index ai_address ai_prefixlen ai_label]. rewrite Z.eqb_refl. cbn [negb].
  assert (Hm : forall t, t <> IFA_BROADCAST ->
    attr (attrs_map ([(IFA_LOCAL, ip_bytes ip); (IFA_ADDRESS, ip_bytes ip)] ++ extra) ∅) t =
    attr (<[IFA_ADDRESS := ip_bytes ip]> (<[IFA_LOCAL := ip_bytes ip]> ∅)) t).
  { intros t Ht. unfold attrs_map. cbn [app fold_left fst snd].
    generalize (<[IFA_ADDRESS := ip_bytes ip]> (<[IFA_LOCAL := ip_bytes ip]> ∅) : gmap Z (list Z)).
    clear Hpay Hx. induction Hb as [|x extra Hxt _ IH]; intros m; cbn [fold_left]; [done|].
    rewrite IH. unfold attr. rewrite lookup_insert_ne; [done|]. rewrite Hxt. done. }
  rewrite !Hm by done. unfold attr. simplify_map_eq.
  by rewrite bytes_to_ip_bytes.
Qed.

(** *** Routes *)

Definition route_ok (r : Route) : Prop :=
  is_i32 (oif_index r)
  /\ (match destination r with Some (ip, p) => ip_ok ip /\ is_u8 p | None => True end)
  /\ (match rt_gateway r with Some gw => ip_ok gw /\ family_of_addr gw = family_of r | None => True end)
  /\ (match metric r with Some m => is_u32 m | None => True end).
#[export] Instance ip_ok_dec ip : Decision (ip_ok ip).
Proof. destruct ip; cbn; apply _. Defined.
#[export] Instance route_ok_dec r : Decision (route_ok r).
Proof. unfold route_ok, is_i32. destruct (destination r) as [[??]|], (rt_gateway r), (metric r); apply _. Defined.

Definition route_attr_list (r : Route) : list (Z * list Z) :=
  (match destination r with Some (dst, _) => [(RTA_DST, ip_bytes dst)] | None => [] end)
  ++ (match rt_gateway r with Some gw => [(RTA_GATEWAY, ip_bytes gw)] | None => [] end)
  ++ [(RTA_OIF, to_le 4 (wrap 32 (oif_index r)))].
Definition metric_attr (r : Route) : list (Z * list Z) :=
  match metric r with Some m => [(RTA_PRIORITY, to_le 4 m)] | None => [] end.

Lemma route_attrs_enc r : route_attrs r = enc_attrs (route_attr_list r).
Proof.
  unfold route_attrs, route_attr_list, attr_u32, attr_bytes.
  destruct (destination r) as [[d ?]|], (rt_gateway r) as [g|];
    rewrite ?(enc_attrs_snoc []), ?enc_attrs_snoc; done.
Qed.
Lemma route_attrs_metric r :
  (match metric r with Some m => attr_u32 (route_attrs r) RTA_PRIORITY m | None => route_attrs r end) =
  enc_attrs (route_attr_list r ++ metric_attr r).
Proof.
  unfold metric_attr, attr_u32. rewrite route_attrs_enc. destruct (metric r);
    rewrite ?enc_attrs_snoc, ?app_nil_r; done.
Qed.
Lemma route_attr_list_ok r : Forall attr_ok (route_attr_list r).
Proof.
  unfold route_attr_list. destruct (destination r) as [[d ?]|], (rt_gateway r) as [g|];
    repeat constructor; (apply attr_ok_ip || apply attr_ok_u32); done.
Qed.
Lemma metric_attr_ok r : Forall attr_ok (metric_attr r).
Proof. unfold metric_attr. destruct (metric r); repeat constructor; done. Qed.

Lemma rtmsg_fields f dl t p s ty attrs :
  parse_route (build_rtmsg f dl t p s ty ++ attrs) =
    (m ← parse_attrs attrs;
     Ok (Some (mkRouteInfo f dl t (attr m RTA_DST) (attr m RTA_GATEWAY)
       (i32_of <$> (attr m RTA_OIF ≫= get_first 4))
       (from_le <$> (attr m RTA_PRIORITY ≫= get_first 4))))).
Proof.
  unfold parse_route. rewrite bool_decide_eq_false_2 by (rewrite length_app; cbn; lia).
  rewrite (index_head _ _ 0 f), (index_head _ _ 1 dl), (index_head _ _ 4 t) by done.
  cbn [mbind outcome_bind]. by rewrite (sub_tail (build_rtmsg f dl t p s ty)) by done.
Qed.

Definition with_protocol_kernel (r : Route) : Route :=
  mkRoute (destination r) (rt_gateway r) (oif_index r) (metric r) PKernel.

Lemma parse_route_payload r :
  route_ok r ->
  parse_route (route_payload r) = Ok (Some (mkRouteInfo (family_raw (family_of r))
    (default 0 (snd <$> destination r)) RT_TABLE_MAIN
    ((fun d => ip_bytes d.1) <$> destination r) (ip_bytes <$> rt_gateway r)
    (Some (oif_index r)) (metric r))).
Proof.
  intros (Ho & _ & _ & Hm). unfold route_payload. rewrite route_attrs_metric, rtmsg_fields.
  rewrite parse_attrs_enc by (apply Forall_app_2; [apply route_attr_list_ok|apply metric_attr_ok]).
  cbn [mbind outcome_bind]. do 2 f_equal. unfold route_attr_list, metric_attr, attrs_map, attr.
  destruct (destination r) as [[d ?]|], (rt_gateway r) as [g|], (metric r) as [m|];
    cbn [app fold_left fst snd fmap option_fmap option_map];
    f_equal; lookup_attrs; rewrite ?i32_attr, ?u32_attr by done; done.
Qed.

Lemma route_reads_back_lemma r :
  route_ok r -> route_of_reply (route_payload r) = Ok (Some (with_protocol_kernel r)).
Proof.
  intros Hr. unfold route_of_reply. rewrite parse_route_payload by done.
  destruct Hr as (_ & Hd & Hg & _). cbn [mbind outcome_bind]. unfold route_of_info.
  cbn [ri_table ri_dst ri_family ri_gateway ri_oif ri_priority ri_dst_len].
  rewrite Z.eqb_refl. cbn [negb]. unfold with_protocol_kernel. do 3 f_equal.
  - destruct (destination r) as [[d p]|] eqn:Ed; [|done]. destruct Hd as [Hd _].
    unfold family_of. rewrite Ed. cbn [fmap option_fmap option_map mbind option_bind fst snd].
    rewrite route_bytes_to_ip_same, bytes_to_ip_bytes by done. done.
  - destruct (rt_gateway r) as [g|]; [|done]. destruct Hg as [Hg <-].
    cbn [fmap option_fmap option_map mbind option_bind]. by apply bytes_to_ip_bytes.
Qed.

Lemma filter_map_out_map {A B C} (f : A -> outcome (option B)) (g : C -> A) (h : C -> B) l :
  (forall c, In c l -> f (g c) = Ok (Some (h c))) -> filter_map_out f (map g l) = Ok (map h l).
Proof.
  induction l as [|c l IH]; intros Hf; [done|]. cbn [map filter_map_out].
  rewrite Hf by (by left). cbn [mbind outcome_bind]. rewrite IH; [done|].
  intros; apply Hf; by right.
Qed.

(** *** Dumps *)

Section Dumps.
Context {W : Type} `{Sockets W} `{NlEnv}.

(** The kernel opens a route socket, takes a dump request, and answers it with
    [bodies] in a multi-part reply of at most [nl_fuel] datagrams. *)
Definition serves_dump (w : W) (msg : Z) (payload : list Z) (bodies : list (list Z)) (w' : W) : Prop :=
  exists fd w1 w2 w3 w4 ds lst d,
    so_socket (SkNetlink NETLINK_ROUTE) w = (inl fd, w1)
    /\ so_bind fd (NlGroups 0) w1 = (inl tt, w2)
    /\ so_send fd (frame msg (Z.lor NLM_F_REQUEST NLM_F_DUMP) 1 payload) DestKernel w2 = (inl tt, w3)
    /\ delivers fd w3 (ds ++ [lst ++ [d]]) w4
    /\ Forall (fun l => l <> [] /\ Forall (is_part 1) l) ds /\ Forall (is_part 1) lst /\ is_done 1 d
    /\ (length ds < nl_fuel)%nat
    /\ bodies = map w_body (concat ds ++ lst)
    /\ w' = so_close fd w4.

Lemma dump_correct {A} (f : list (list Z) -> outcome A) w msg payload bodies w' :
  serves_dump w msg payload bodies w' ->
  with_sock nl_new (fun sock => replies ← nl_dump sock msg payload; lift (f replies)) w = (f bodies, w').
Proof.
  intros (fd & w1 & w2 & w3 & w4 & ds & lst & d & Hs & Hb & Hsend & Hdel & Hds & Hlst & Hd & Hfuel & -> & ->).
  unfold with_sock, nl_new, with_groups, with_protocol. cbn [mbind M_bind].
  unfold mbind, M_bind, io_try_with, io_match, mret, M_ret. rewrite Hs, Hb. unfold finally. cbn [nl_fd].
  unfold nl_dump, nl_send. unfold mbind, M_bind, io_try_with, mret, M_ret. cbn [nl_fd nl_seq].
  rewrite Hsend.
  pose proof (recv_until_done_dump (mkNlSocket fd (wrap 32 (1 + 1))) 1 ds lst d w3 w4 nl_fuel []
    Hdel Hds Hlst Hd Hfuel (Forall_nil_2 _)) as Hr.
  change (map wire_msg []) with (@nil nlmsg) in Hr. rewrite Hr. cbn [app]. unfold lift.
  rewrite (collect_parts 1) by (apply Forall_app_2; [|done]; apply Forall_concat;
    eapply List.Forall_impl; [|exact Hds]; by intros l [_ Hl]).
  done.
Qed.

Lemma route_list_correct w w' fam rs :
  serves_dump w RTM_GETROUTE (build_rtmsg (family_raw fam) 0 0 0 0 0) (map route_payload rs) w' ->
  Forall route_ok rs ->
  route_list fam w = (Ok (map with_protocol_kernel rs), w').
Proof.
  intros Hs Hr. unfold route_list. rewrite (dump_correct _ _ _ _ _ _ Hs).
  rewrite (filter_map_out_map _ _ with_protocol_kernel); [done|].
  intros r Hin. apply route_reads_back_lemma. rewrite List.Forall_forall in Hr. by apply Hr.
Qed.
End Dumps.

(** *** Links *)

(** A name that survives the NUL-terminated, lossily decoded form. *)
Definition plain_name (s : string) : Prop :=
  is_ascii_str s = true /\ contains_char (Ascii.ascii_of_nat 0) s = false
  /\ (Z.of_nat (str_len s) < 2 ^ 15).

Lemma attr_string_nul s :
  is_ascii_str s = true -> contains_char (Ascii.ascii_of_nat 0) s = false ->
  attr_string (str_bytes s ++ [0]) = s.
Proof.
  intros Ha Hn. unfold attr_string, trim_end_nul.
  change (str_bytes s ++ [0]) with (str_bytes s ++ str_bytes (String (ascii_of_nat 0) "")).
  rewrite <- str_bytes_app, from_utf8_lossy_str.
  2:{ unfold is_ascii_str in *. by rewrite str_bytes_app, forallb_app, Ha. }
  rewrite str_bytes_app, rev_app_distr. cbn [str_bytes rev app drop_while].
  replace (0 =? byte_of (ascii_of_nat 0)) with true by done.
  rewrite <- str_bytes_rev.
  assert (Hd : drop_while (Z.eqb 0) (str_bytes (str_rev s)) = str_bytes (str_rev s)).
  { rewrite str_bytes_rev. unfold contains_char in Hn.
    assert (Hall : Forall (fun b => b <> 0) (rev (str_bytes s))).
    { apply Forall_rev. clear Ha. induction s as [|a s IH]; cbn in *; constructor.
      - apply orb_false_iff in Hn as [Hn _]. apply Z.eqb_neq in Hn. intros E.
        apply Hn. by rewrite E.
      - apply IH. by apply orb_false_iff in Hn as [_ Hn]. }
    destruct Hall as [|b l Hb _]; cbn [drop_while]; [done|]. rewrite (proj2 (Z.eqb_neq 0 b)) by lia. done. }
  rewrite Hd, str_bytes_rev, rev_involutive. apply bytes_str_bytes.
Qed.

Lemma ifinfomsg_fields i fl ch attrs :
  is_i32 i -> is_u32 fl ->
  parse_link (build_ifinfomsg i fl ch ++ attrs) =
    (m ← parse_attrs attrs;
     kind ← link_kind m;
     Ok (Some (mkLinkInfo i fl (default "" (attr_string <$> attr m IFLA_IFNAME))
       (default 0 (from_le <$> (attr m IFLA_MTU ≫= get_first 4)))
       (attr m IFLA_ADDRESS ≫= get_first 6) (attr m IFLA_OPERSTATE ≫= head) kind))).
Proof.
  intros Hi Hf. unfold parse_link. assert (Hh : length (build_ifinfomsg i fl ch) = 16%nat) by done.
  rewrite bool_decide_eq_false_2 by (rewrite length_app, Hh; lia).
  rewrite (sub_mid ([0; 0] ++ to_le 2 0) (i32_bytes i) ((to_le 4 fl ++ to_le 4 ch) ++ attrs) 4 8)
    by (unfold build_ifinfomsg; rewrite <- ?app_assoc; done).
  cbn [mbind outcome_bind].
  rewrite (sub_mid ([0; 0] ++ to_le 2 0 ++ i32_bytes i) (to_le 4 fl) (to_le 4 ch ++ attrs) 8 12)
    by (unfold build_ifinfomsg; rewrite <- ?app_assoc; done).
  cbn [mbind outcome_bind]. rewrite (sub_tail (build_ifinfomsg i fl ch)) by done.
  cbn [mbind outcome_bind]. unfold i32_of, i32_bytes.
  rewrite !from_le_to_le by (done || apply (wrap_range 32); lia). by rewrite to_signed_wrap32.
Qed.

(** The link [create_virtual] asks for has the name and the kind it was given. *)
Lemma create_virtual_reads_back_lemma name kind :
  plain_name name -> plain_name kind ->
  interface_of_reply (create_virtual_payload name kind) =
    Ok (Some (mkInterface 0 name 0 0 None None (Some kind))).
Proof.
  intros (Hna & Hn0 & Hnl) (Hka & Hk0 & Hkl). unfold interface_of_reply, create_virtual_payload.
  unfold attr_nested, attr_nul_str. rewrite !(enc_attrs_snoc []), enc_attrs_snoc.
  rewrite ifinfomsg_fields by done.
  assert (Hok : forall t s, is_u16 t -> Z.of_nat (str_len s) < 2 ^ 15 -> attr_ok (t, str_bytes s ++ [0])).
  { intros t s Ht Hs. split; [done|]. cbn [snd]. rewrite length_app, length_str_bytes. cbn [length]. lia. }
  assert (Hin : Forall attr_ok [(IFLA_INFO_KIND, str_bytes kind ++ [0])]).
  { apply Forall_singleton, Hok; done. }
  rewrite parse_attrs_enc.
  2:{ apply Forall_app_2; [apply Forall_singleton, Hok; done|]. apply Forall_singleton. split; [done|].
      cbn [snd]. unfold enc_attrs. cbn [map concat app]. rewrite app_nil_r, length_enc_attr.
      cbn [snd]. pose proof (align_bounds (4 + length (str_bytes kind ++ [0]))) as Hal.
      rewrite length_app, length_str_bytes in *. cbn [length] in *. lia. }
  unfold attrs_map. cbn [app fold_left fst snd mbind outcome_bind]. unfold link_kind, attr.
  lookup_attrs. rewrite parse_attrs_enc by done. cbn [mbind outcome_bind].
  unfold attrs_map. cbn [fold_left fst snd]. unfold attr. lookup_attrs.
  cbn [fmap option_fmap option_map mbind option_bind default outcome_bind].
  by rewrite !attr_string_nul.
Qed.

(** ** Properties *)

(** C38: listing routes from the kernel gives, for a dump of the messages [add]
    would send for [rs], exactly [rs]: destination, gateway, interface and metric
    as they were; only the protocol is reported as [Kernel] whatever it was. *)
Theorem route_list_reads_dump {W} `{Sockets W} `{NlEnv} (w w' : W) fam rs :
  serves_dump w RTM_GETROUTE (build_rtmsg (family_raw fam) 0 0 0 0 0) (map route_payload rs) w' ->
  Forall route_ok rs ->
  route_list fam w = (Ok (map with_protocol_kernel rs), w').
Proof. apply route_list_correct. Qed.
#[local] Existing Instance demo_nl_env.
Definition demo_routes : list Route :=
  [mkRoute None (Some (V4 (ipv4_new 192 168 1 1))) 2 (Some 100) PDhcp;
   mkRoute (Some (V4 (ipv4_new 192 168 1 0), 24)) None 2 None PKernel].
Definition demo_route_part (r : Route) : wire := mkWire RTM_NEWROUTE 2 1 0 (route_payload r).
Definition demo_route_world : sim :=
  sim_start [inl (enc_wires (map demo_route_part demo_routes)); inl (enc_wires [demo_done])].
Lemma route_list_reads_dump_witness :
  (route_list FamV4 demo_route_world).1 = Ok (map with_protocol_kernel demo_routes).
Proof.
  erewrite (route_list_reads_dump demo_route_world _ FamV4 demo_routes); [reflexivity| |by_decision].
  eexists 3, _, _, _, _, [map demo_route_part demo_routes], [], demo_done.
  split; [reflexivity|]. split; [reflexivity|]. split; [reflexivity|]. split.
  { eapply delivers_cons; [reflexivity|by_decision|]. eapply delivers_cons; [reflexivity|by_decision|].
    apply delivers_nil. }
  split; [by_decision|]. split; [by_decision|]. split; [unfold is_done; by_decision|].
  split; [by_decision|]. split; [reflexivity|reflexivity].
Defined.

(** The address message [add] builds reads back, through the reply parser,
    as the same interface index, address and prefix length. *)
Theorem address_add_roundtrip i ip p :
  ip_ok ip -> is_i32 i -> 0 <= p <= (if is_ipv4 ip then 32 else 128) ->
  exists payload, address_add_payload i ip p = Ok payload /\
    address_of_reply (family_raw (family_of_addr ip)) (Some i) payload = Ok (Some (mkAddress i ip p None)).
Proof. apply address_add_reads_back. Qed.
Lemma address_add_roundtrip_witness :
  exists payload, address_add_payload 2 (V4 (ipv4_new 192 168 1 50)) 24 = Ok payload /\
    address_of_reply (family_raw (family_of_addr (V4 0))) (Some 2) payload = Ok (Some (mkAddress 2 (V4 (ipv4_new 192 168 1 50)) 24 None)).
Proof.
  apply (address_add_roundtrip 2 (V4 (ipv4_new 192 168 1 50)) 24);
    [unfold ip_ok; by_decision|unfold is_i32; by_decision|by_decision].
Defined.

(** The message that creates a virtual interface names it and its kind: read
    back as a link it has that name and kind. *)
Theorem create_virtual_roundtrip name kind :
  plain_name name -> plain_name kind ->
  interface_of_reply (create_virtual_payload name kind) =
    Ok (Some (mkInterface 0 name 0 0 None None (Some kind))).
Proof. apply create_virtual_reads_back_lemma. Qed.
Lemma create_virtual_roundtrip_witness :
  interface_of_reply (create_virtual_payload "wg0" "wireguard") =
    Ok (Some (mkInterface 0 "wg0" 0 0 None None (Some "wireguard"%string))).
Proof. apply (create_virtual_roundtrip "wg0" "wireguard"); unfold plain_name; by_decision. Defined.
