(* ===== verification/DhcpClient.v ===== *)
(** * The DHCPv4 client (dhcp/client.rs)

    The DISCOVER/OFFER/REQUEST/ACK exchange over a broadcast socket, renewal
    and release.  The loops run against any [Sockets] and [Clock]; the fuel of
    a loop bounds its iterations, and [LinkLaws] says which fuel is enough. *)

From Stdlib Require Import Ascii String.
From S2P Require Import Prelude RustStr IpAddr Dhcp4 DhcpServer Sys Netlink IpLayer Persistence.

(** [nanos ^ (std::process::id() << 16)] *)
Definition xid_of (nanos pid : Z) : Z := Z.lxor nanos (wrap 32 (Z.shiftl pid 16)).

(** [Err(e) if e.kind() == ErrorKind::WouldBlock] *)
Definition is_would_block (e : io_error) : bool :=
  match io_err_kind e with IoWouldBlock => true | _ => false end.

(** The lease fields an ACK carries. *)
Definition ack_prefixlen (ack : Packet) : Z :=
  default 24 (count_ones32 <$> addr_option ack OPT_SUBNET_MASK).
Definition ack_gateway (ack : Packet) : option Z :=
  b ← get_option ack OPT_ROUTER; b4 ← slice b 0 4; Some (from_be b4).
Definition ack_dns (ack : Packet) : list Z :=
  match get_option ack OPT_DNS with
  | Some b => map from_be (chunks_exact 4 b)
  | None => []
  end.
Definition ack_domain (ack : Packet) : option string :=
  from_utf8_lossy <$> get_option ack OPT_DOMAIN_NAME.
Definition ack_lease_time (ack : Packet) : Z :=
  default 3600 (addr_option ack OPT_LEASE_TIME).
Definition lease_of_ack (ack : Packet) (server now : Z) : Lease :=
  mkLease (yiaddr ack) (ack_prefixlen ack) (ack_gateway ack) (ack_dns ack) (ack_domain ack)
    server (ack_lease_time ack) now.

(** dns/hostname.rs [current]: the buffer up to its first NUL. *)
Definition hostname_of_buffer (buf : list Z) : option string :=
  let end_ := default (length buf) (position (Z.eqb 0) buf) in
  let s := from_utf8_lossy (take end_ buf) in
  if bool_decide (s = "") then None else Some s.

Section Client.
Context {W : Type} `{Sockets W} `{Clock W} `{HostNames W} `{FileSystem W} `{NlEnv}.
Context (base_dir : string) `{Codec Lease}.

Definition hostname_current : M W (option string) :=
  r ← observe (sys_gethostname 256);
  mret (match r with None => None | Some buf => hostname_of_buffer buf end).

Definition hostname_set (name : string) : M W unit :=
  if bool_decide (name = "") || bool_decide (253 < str_len name)%nat
  then throw (Parse "hostname must be 1-253 characters")
  else
    io_try (sys_sethostname name) ;;
    io_try (fs_write "/etc/hostname" (name +:+ String "010" "")).

Definition bound_broadcast_socket (ifname : string) : M W Z :=
  fd ← io_try (so_socket SkUdp4);
  io_ignore (so_setsockopt fd SoBroadcast) ;;
  io_ignore (so_setsockopt fd SoReuseAddr) ;;
  if contains_char "000" ifname then throw (Parse "bad interface name")
  else
    io_ignore (so_setsockopt fd (SoBindToDevice ifname)) ;;
    r ← io_match (so_bind fd (AnyPort4 CLIENT_PORT));
    match r with
    | inl _ => mret fd
    | inr e =>
        effect (so_close fd) ;;
        throw (Dhcp ("bind to udp/68 on " ++ ifname ++ " failed: " ++ io_err_text e))
    end.

(** [Drop for UdpSocket] *)
Definition with_udp {A} (ifname : string) (body : Z -> M W A) : M W A :=
  fd ← bound_broadcast_socket ifname;
  finally (body fd) (so_close fd).

Definition get_mac (ifname : string) : M W (list Z) :=
  iface ← get_by_name ifname;
  lift (ok_or (if_hwaddr iface) (Dhcp (ifname ++ " has no hardware address"))).

Definition random_xid : M W Z :=
  fun w => let '((_, nanos), w') := clk_unix w in (Ok (xid_of nanos (clk_pid w')), w').

Definition BUF_LEN : nat := 1500.

(** DISCOVER until an OFFER with our transaction id arrives. *)
Fixpoint offer_loop (fuel : nat) (fd deadline : Z) (ifname : string) (x : Z) (mac : list Z)
  (hostname : option string) : M W Packet :=
  match fuel with
  | O => lift (Panic "fuel")
  | S fuel =>
      now ← instant_now;
      if deadline <=? now then throw (Timeout ("no DHCPOFFER on " ++ ifname))
      else
        io_try (so_send fd (build_discover x mac hostname) (Dest4 BROADCAST SERVER_PORT)) ;;
        r ← io_match (so_recv fd BUF_LEN);
        match r with
        | inl buf =>
            parsed ← lift (parse buf);
            match parsed with
            | Some pkt =>
                if (xid pkt =? x) && bool_decide (message_type pkt = Some MSG_OFFER) then mret pkt
                else offer_loop fuel fd deadline ifname x mac hostname
            | None => offer_loop fuel fd deadline ifname x mac hostname
            end
        | inr e =>
            if is_would_block e then offer_loop fuel fd deadline ifname x mac hostname
            else throw (Io e)
        end
  end.

(** REQUEST until an ACK or a NAK. *)
Fixpoint request_loop (fuel : nat) (fd deadline : Z) (ifname : string) (x : Z) (mac : list Z)
  (requested server : Z) (hostname : option string) : M W Packet :=
  match fuel with
  | O => lift (Panic "fuel")
  | S fuel =>
      now ← instant_now;
      if deadline <=? now then throw (Timeout ("no DHCPACK on " ++ ifname))
      else
        io_try (so_send fd (build_request x mac requested server hostname)
                  (Dest4 BROADCAST SERVER_PORT)) ;;
        r ← io_match (so_recv fd BUF_LEN);
        match r with
        | inl buf =>
            parsed ← lift (parse buf);
            match parsed with
            | Some pkt =>
                if negb (xid pkt =? x)
                then request_loop fuel fd deadline ifname x mac requested server hostname
                else if bool_decide (message_type pkt = Some MSG_ACK) then mret pkt
                else if bool_decide (message_type pkt = Some MSG_NAK)
                then throw (Dhcp ("server " ++ show_ipv4 server ++ " sent DHCPNAK"))
                else request_loop fuel fd deadline ifname x mac requested server hostname
            | None => request_loop fuel fd deadline ifname x mac requested server hostname
            end
        | inr e =>
            if is_would_block e
            then request_loop fuel fd deadline ifname x mac requested server hostname
            else throw (Io e)
        end
  end.

Definition lease_from_ack (ack : Packet) (server : Z) : M W Lease :=
  now ← now_secs; mret (lease_of_ack ack server now).

(** [acquire] from the first DISCOVER on. *)
Definition exchange (fuel : nat) (fd deadline : Z) (ifname : string) (x : Z) (mac : list Z)
  (hostname : option string) : M W Lease :=
  offer ← offer_loop fuel fd deadline ifname x mac hostname;
  server ← lift (ok_or (addr_option offer OPT_SERVER_ID) (Dhcp "OFFER missing server identifier"));
  ack ← request_loop fuel fd deadline ifname x mac (yiaddr offer) server hostname;
  lease_from_ack ack server.

Definition acquire (fuel : nat) (ifname : string) (timeout : Z) : M W Lease :=
  mac ← get_mac ifname;
  with_udp ifname (fun fd =>
    io_try (so_setsockopt fd (SoRcvTimeout (secs_to_nanos 3))) ;;
    hostname ← hostname_current;
    start ← instant_now;
    x ← random_xid;
    exchange fuel fd (start + timeout) ifname x mac hostname).

(** The receive loop of [renew]. *)
Fixpoint renew_loop (fuel : nat) (fd deadline : Z) (ifname : string) (x : Z) (lease : Lease) : M W Lease :=
  match fuel with
  | O => lift (Panic "fuel")
  | S fuel =>
      now ← instant_now;
      if deadline <=? now then throw (Timeout ("no reply renewing lease on " ++ ifname))
      else
        r ← io_match (so_recv fd BUF_LEN);
        match r with
        | inl buf =>
            parsed ← lift (parse buf);
            match parsed with
            | Some pkt =>
                if (xid pkt =? x) && bool_decide (message_type pkt = Some MSG_ACK)
                then lease_from_ack pkt (server_id lease)
                else renew_loop fuel fd deadline ifname x lease
            | None => renew_loop fuel fd deadline ifname x lease
            end
        | inr e =>
            if is_would_block e then renew_loop fuel fd deadline ifname x lease else throw (Io e)
        end
  end.

Definition renew (fuel : nat) (ifname : string) (lease : Lease) : M W Lease :=
  mac ← get_mac ifname;
  with_udp ifname (fun fd =>
    io_try (so_setsockopt fd (SoRcvTimeout (secs_to_nanos 3))) ;;
    x ← random_xid;
    io_try (so_send fd (build_renew_request x mac (address lease))
              (Dest4 (server_id lease) SERVER_PORT)) ;;
    start ← instant_now;
    renew_loop fuel fd (start + secs_to_nanos 10) ifname x lease).

(** persistence/state.rs *)
Definition load_lease (ifname : string) : M W (option Lease) := read_json (lease_path base_dir ifname).
Definition save_lease (ifname : string) (l : Lease) : M W unit := write_json (lease_path base_dir ifname) l.
Definition clear_lease (ifname : string) : M W unit := db_remove (lease_path base_dir ifname).

Definition release (ifname : string) : M W unit :=
  l ← load_lease ifname;
  match l with
  | None => mret tt
  | Some lease =>
      mac ← get_mac ifname;
      with_udp ifname (fun fd =>
        x ← random_xid;
        io_try (so_send fd (build_release x mac (address lease) (server_id lease))
                  (Dest4 (server_id lease) SERVER_PORT)) ;;
        clear_lease ifname)
  end.
End Client.

(** ** What a server's reply becomes at the client *)

Definition server_mask (cfg : DhcpServerConfig) : Z := 2 ^ 32 - 2 ^ (32 - cfg_prefixlen cfg).

Lemma addr_option_head p c a rest :
  options p = (c, octets4 a) :: rest -> is_u32 a -> addr_option p c = Some a.
Proof.
  intros Ho Ha. unfold addr_option, get_option. rewrite Ho. cbn. rewrite Z.eqb_refl. cbn.
  unfold octets4. rewrite bool_decide_eq_true_2 by apply length_to_be. by rewrite from_be_to_be.
Qed.
Lemma addr_option_be p c a :
  get_option p c = Some (to_be 4 a) -> is_u32 a -> addr_option p c = Some a.
Proof.
  intros Ho Ha. unfold addr_option. rewrite Ho. cbn [mbind option_bind].
  rewrite bool_decide_eq_true_2 by apply length_to_be. by rewrite from_be_to_be.
Qed.
Lemma mask_u32 cfg : config_ok cfg -> is_u32 (server_mask cfg).
Proof.
  intros (_ & _ & _ & Hp & _). unfold server_mask, is_uint.
  assert (0 < 2 ^ (32 - cfg_prefixlen cfg) <= 2 ^ 32).
  { split; [apply Z.pow_pos_nonneg; lia|apply Z.pow_le_mono_r; lia]. }
  lia.
Qed.

Section Reply.
Context (req : Packet) (yi : Z) (cfg : DhcpServerConfig) (ty : Z).
Context (Hcfg : config_ok cfg) (Hty : ty = MSG_OFFER \/ ty = MSG_ACK).
Let reply := reply_packet req yi cfg ty (server_mask cfg).

Lemma reply_type : message_type reply = Some ty.
Proof using. done. Qed.
Lemma reply_addr : yiaddr reply = yi.
Proof using Hty. by destruct Hty as [->| ->]. Qed.
Lemma reply_server : addr_option reply OPT_SERVER_ID = Some (server_ip cfg).
Proof using Hcfg. apply addr_option_be; [done|]. by destruct Hcfg. Qed.
Lemma reply_mask : addr_option reply OPT_SUBNET_MASK = Some (server_mask cfg).
Proof using Hcfg Hty. apply addr_option_be; [|by apply mask_u32]. by destruct Hty as [->| ->]. Qed.
Lemma reply_router : get_option reply OPT_ROUTER = Some (octets4 (server_ip cfg)).
Proof using Hty. by destruct Hty as [->| ->]. Qed.
Lemma reply_lease_time : addr_option reply OPT_LEASE_TIME = Some (cfg_lease_time_secs cfg).
Proof using Hcfg Hty. apply addr_option_be; [by destruct Hty as [->| ->]|]. by destruct Hcfg as (_&_&_&_&?&_). Qed.
Lemma reply_dns :
  get_option reply OPT_DNS =
    match cfg_dns_servers cfg with [] => None | l => Some (concat (map octets4 l)) end.
Proof using Hty. destruct Hty as [->| ->]; unfold get_option, reply, reply_packet, reply_options; cbn;
  by destruct (cfg_dns_servers cfg). Qed.
Lemma reply_domain : get_option reply OPT_DOMAIN_NAME = None.
Proof using Hty. destruct Hty as [->| ->]; unfold get_option, reply, reply_packet, reply_options; cbn;
  by destruct (cfg_dns_servers cfg). Qed.

Lemma dns_chunks l :
  Forall is_u32 l -> map from_be (chunks_exact 4 (concat (map octets4 l))) = l.
Proof using.
  intros Hl. rewrite chunks_exact_concat; [|lia|].
  - rewrite map_map. induction Hl as [|a l Ha _ IH]; [done|]. cbn [map]. rewrite IH.
    by rewrite octets4_ipv4_new.
  - apply List.Forall_forall. intros c Hc. apply in_map_iff in Hc as (a & <- & _). by apply octets4_ok.
Qed.

(** The lease the client records is the server's configuration and the
    address it granted. *)
Lemma lease_of_reply now :
  lease_of_ack reply (server_ip cfg) now =
    mkLease yi (cfg_prefixlen cfg) (Some (server_ip cfg)) (cfg_dns_servers cfg) None
      (server_ip cfg) (cfg_lease_time_secs cfg) now.
Proof using Hcfg Hty.
  unfold lease_of_ack, ack_prefixlen, ack_gateway, ack_dns, ack_domain, ack_lease_time.
  rewrite reply_addr, reply_mask, reply_lease_time, reply_router, reply_dns, reply_domain.
  cbn [fmap option_fmap option_map default]. f_equal.
  - unfold server_mask. apply count_ones_mask. by destruct Hcfg as (_&_&_&?&_).
  - cbn [mbind option_bind]. unfold octets4. rewrite slice_Some by (rewrite length_to_be; lia).
    rewrite Nat.sub_0_r, drop_0, take_ge by (rewrite length_to_be; lia). cbn [mbind option_bind].
    rewrite from_be_to_be; [done|]. by destruct Hcfg.
  - destruct (cfg_dns_servers cfg) as [|d ds] eqn:E; [done|]. rewrite <- E, dns_chunks; [done|].
    by destruct Hcfg as (_&_&_&_&_&?&_).
Qed.
End Reply.

(** ** The server's side of the exchange *)

Lemma reply_length req yi cfg ty mask :
  config_ok cfg -> mac_ok (chaddr req) ->
  (length (serialize (reply_packet req yi cfg ty mask)) <= BUF_LEN)%nat.
Proof.
  intros (_ & _ & _ & _ & _ & _ & Hd) [Hm _]. unfold serialize, octets4. cbn [reply_packet chaddr options].
  autorewrite with lens. rewrite Hm.
  enough (length (concat (map serialize_option (reply_options cfg ty mask))) <= 300)%nat as Hl.
  { unfold BUF_LEN, MAGIC_COOKIE. cbn [length]. lia. }
  unfold reply_options. destruct (concat_octets4_ok (cfg_dns_servers cfg)) as [_ Hc].
  destruct (negb (ty =? MSG_NAK)), (cfg_dns_servers cfg) as [|d ds];
    cbn [app map concat serialize_option fst snd length] in *; unfold octets4 in *;
    repeat first [rewrite length_app in * | rewrite length_to_be in * | progress cbn [length app] in *];
    lia.
Qed.

Lemma discover_handled cfg t x mac h a t' :
  config_ok cfg -> table_ok cfg t -> is_u32 x -> mac_ok mac -> hostname_ok h ->
  allocate t mac cfg = Ok (Some a, t') ->
  handle_packet cfg t (build_discover x mac h) =
    Ok (Some (serialize (reply_packet (discover_packet x mac h) a cfg MSG_OFFER (server_mask cfg))), t').
Proof.
  intros Hcfg Hok Hx Hm Hh Ha. unfold handle_packet, build_discover.
  rewrite parse_serialize_packet by (by apply discover_packet_ok). cbn [mbind outcome_bind].
  change (message_type (discover_packet x mac h)) with (Some MSG_DISCOVER).
  cbn [chaddr discover_packet with_options base_request]. rewrite Z.eqb_refl, Ha.
  cbn [mbind outcome_bind]. destruct (allocate_correct cfg t mac Hcfg Hok) as (r & t1 & Ha' & _ & _ & Hr).
  rewrite Ha in Ha'. injection Ha' as <- <-. destruct Hr as [_ Hin].
  destruct (build_reply_ok (discover_packet x mac h) a cfg MSG_OFFER) as (mask & -> & Hmask & _); try done.
  { by eapply in_pool_u32. }
  by rewrite Hmask.
Qed.

Lemma request_handled cfg t x mac h a :
  config_ok cfg -> table_ok cfg t -> is_u32 x -> mac_ok mac -> hostname_ok h ->
  by_mac t !! mac = Some a ->
  let req := request_packet x mac a (server_ip cfg) h in
  handle_packet cfg t (build_request x mac a (server_ip cfg) h) =
    Ok (Some (serialize (reply_packet req a cfg MSG_ACK (server_mask cfg))), t).
Proof.
  intros Hcfg Hok Hx Hm Hh Ha req. unfold handle_packet, build_request.
  rewrite parse_serialize_packet by (by apply request_packet_ok). cbn [mbind outcome_bind].
  change (message_type (request_packet x mac a (server_ip cfg) h)) with (Some MSG_REQUEST).
  change (MSG_REQUEST =? MSG_DISCOVER) with false. change (MSG_REQUEST =? MSG_REQUEST) with true.
  cbv beta iota.
  assert (Hu : is_u32 a) by (eapply in_pool_u32; [done|by eapply table_in_pool]).
  assert (Hr : requested_address (request_packet x mac a (server_ip cfg) h) = a).
  { unfold requested_address. rewrite (addr_option_be _ _ a); done. }
  rewrite Hr, bool_decide_eq_true_2 by done.
  destruct (build_reply_ok req a cfg MSG_ACK) as (mask & Hb & Hmask & _); try done.
  fold req. rewrite Hb. cbn [mbind outcome_bind]. by rewrite Hmask.
Qed.

(** ** The loops end *)

(** The clock does not go back. *)
Class TimeLaws (W : Type) `{Clock W} `{Sockets W} := {
  time : W -> Z;
  time_instant w : (clk_instant w).1 = time w;
  time_passes w : time w <= time (clk_instant w).2;
  time_send fd b d w : time w <= time (so_send fd b d w).2;
  time_recv fd n w : time w <= time (so_recv fd n w).2
}.

(** A socket with a receive timeout, on a link of finite capacity: up to any
    point of time only so many datagrams come, and a receive that gives up has
    waited for the timeout. *)
Definition RCV_TIMEOUT : Z := secs_to_nanos 3.
Class LinkLaws (W : Type) `{Clock W} `{Sockets W} `{!TimeLaws W} (fd : Z) := {
  (** how many datagrams can still come until then *)
  capacity : W -> Z -> nat;
  capacity_instant w t : (capacity (clk_instant w).2 t <= capacity w t)%nat;
  capacity_send b d w t : (capacity (so_send fd b d w).2 t <= capacity w t)%nat;
  capacity_recv n w t : match so_recv fd n w with
    | (inl _, w') => (capacity w' t <= capacity w t)%nat /\ (time w' <= t -> (capacity w' t < capacity w t)%nat)
    | (inr e, w') => (capacity w' t <= capacity w t)%nat /\ (is_would_block e = true -> time w + RCV_TIMEOUT <= time w')
    end
}.

(** A machine on which no call takes longer than [delay], a receive its timeout
    apart. *)
Class PromptLaws (W : Type) `{Clock W} `{Sockets W} `{!TimeLaws W} (fd : Z) := {
  delay : Z;
  prompt_instant w : time (clk_instant w).2 <= time w + delay;
  prompt_unix w : time (clk_unix w).2 <= time w + delay;
  prompt_send b d w : time (so_send fd b d w).2 <= time w + delay;
  prompt_recv n w : time (so_recv fd n w).2 <= time w + RCV_TIMEOUT + delay
}.

Section Termination.
Context {W : Type} `{Sockets W} `{Clock W} `{!TimeLaws W} (fd : Z) {LL : LinkLaws W fd}.

Lemma lease_from_ack_no_panic p s (w : W) : no_panic (lease_from_ack p s w).1.
Proof. unfold lease_from_ack, now_secs, mbind, M_bind, observe. by destruct (clk_unix w) as [[??]?]. Qed.

(** The receive timeouts that fit before the deadline, and the rounds there can
    be: one for each datagram, one for each timeout. *)
Definition timeouts (deadline t : Z) : Z := (deadline - t + RCV_TIMEOUT - 1) / RCV_TIMEOUT.
Definition rounds (deadline : Z) (w : W) : nat := (capacity (fd := fd) w deadline + Z.to_nat (timeouts deadline (time w)))%nat.
Lemma timeouts_mono deadline t t' : t <= t' -> timeouts deadline t' <= timeouts deadline t.
Proof. intros Ht. apply Z.div_le_mono; [done|lia]. Qed.
Lemma timeouts_before deadline t : t < deadline -> 1 <= timeouts deadline t.
Proof. intros Ht. apply Z.div_le_lower_bound; [done|lia]. Qed.
Lemma timeouts_after deadline t : deadline <= t -> timeouts deadline t < 1.
Proof. intros Ht. apply Z.div_lt_upper_bound; [done|lia]. Qed.
Lemma timeouts_step deadline t t' : t + RCV_TIMEOUT <= t' -> timeouts deadline t' <= timeouts deadline t - 1.
Proof.
  intros Ht. unfold timeouts. replace (deadline - t + RCV_TIMEOUT - 1) with ((deadline - t - 1) + 1 * RCV_TIMEOUT) by lia. rewrite Z.div_add by done.
  transitivity ((deadline - t - 1) / RCV_TIMEOUT); [apply Z.div_le_mono; [done|lia]|lia].
Qed.
(** A receive uses up a round. *)
Lemma recv_round deadline n (w w1 w2 : W) r : time w < deadline -> time w <= time w1 -> (capacity (fd := fd) w1 deadline <= capacity (fd := fd) w deadline)%nat ->
  so_recv fd n w1 = (r, w2) -> (match r with inl _ => True | inr e => is_would_block e = true end) -> (rounds deadline w2 < rounds deadline w)%nat.
Proof using LL.
  intros Hd Ht Hc Er Hr. pose proof (capacity_recv n w1 deadline) as Hl. pose proof (time_recv fd n w1) as Hm. rewrite Er in Hl, Hm. cbn [snd] in Hm.
  pose proof (timeouts_before deadline (time w) Hd) as Hb. unfold rounds. destruct (Z.le_gt_cases deadline (time w2)) as [Hp|Hp].
  - pose proof (timeouts_after _ _ Hp). assert ((capacity (fd := fd) w2 deadline <= capacity (fd := fd) w1 deadline)%nat) by (destruct r; destruct Hl; done). lia.
  - destruct r as [b|e].
    + destruct Hl as [_ Hl]. specialize (Hl ltac:(lia)).
      assert (timeouts deadline (time w2) <= timeouts deadline (time w)) by (apply timeouts_mono; lia). lia.
    + destruct Hl as [Hl Hw]. specialize (Hw Hr).
      assert (timeouts deadline (time w2) <= timeouts deadline (time w) - 1) by (apply timeouts_step; lia). lia.
Qed.
(** One turn of a loop that sends. *)
Lemma sent_round deadline b d n (w w1 w2 : W) r r' : time w < deadline -> so_send fd b d (clk_instant w).2 = (r', w1) ->
  so_recv fd n w1 = (r, w2) -> (match r with inl _ => True | inr e => is_would_block e = true end) -> (rounds deadline w2 < rounds deadline w)%nat.
Proof using LL.
  intros Hd Es Er. pose proof (time_passes w) as Hp. pose proof (capacity_instant w deadline) as Hc. pose proof (time_send fd b d (clk_instant w).2) as Ht.
  pose proof (capacity_send b d (clk_instant w).2 deadline) as Hs. rewrite Es in Ht, Hs. cbn [snd] in Ht, Hs. eapply recv_round; [done| | |done]; lia.
Qed.

Lemma offer_loop_no_panic fuel deadline ifname x mac h w : (rounds deadline w < fuel)%nat -> no_panic (offer_loop fuel fd deadline ifname x mac h w).1.
Proof using LL.
  revert w. induction fuel as [|fuel IH]; intros w Hf; [lia|]. cbn [offer_loop]. unfold mbind, M_bind, instant_now. rewrite observe_run, time_instant.
  destruct (Z.leb_spec deadline (time w)) as [|Hd]; [done|]. unfold io_try.
  destruct (so_send fd _ _ (clk_instant w).2) as [[[]|e] w1] eqn:Es; [|done]. unfold io_match. destruct (so_recv fd BUF_LEN w1) as [r w2] eqn:Er.
  pose proof (sent_round _ _ _ _ _ _ _ _ _ Hd Es Er) as Hr. destruct r as [buf|e].
  - unfold lift. destruct (parse_ok buf) as [[pkt|] ->]; [|apply IH; specialize (Hr I); lia]. destruct (_ && _); [done|apply IH; specialize (Hr I); lia].
  - destruct (is_would_block e) eqn:E; [|done]. apply IH. specialize (Hr eq_refl). lia.
Qed.
Lemma request_loop_no_panic fuel deadline ifname x mac r s h w :
  (rounds deadline w < fuel)%nat -> no_panic (request_loop fuel fd deadline ifname x mac r s h w).1.
Proof using LL.
  revert w. induction fuel as [|fuel IH]; intros w Hf; [lia|]. cbn [request_loop]. unfold mbind, M_bind, instant_now. rewrite observe_run, time_instant.
  destruct (Z.leb_spec deadline (time w)) as [|Hd]; [done|]. unfold io_try.
  destruct (so_send fd _ _ (clk_instant w).2) as [[[]|e] w1] eqn:Es; [|done]. unfold io_match. destruct (so_recv fd BUF_LEN w1) as [rr w2] eqn:Er.
  pose proof (sent_round _ _ _ _ _ _ _ _ _ Hd Es Er) as Hr. destruct rr as [buf|e].
  - assert (IH' : no_panic (request_loop fuel fd deadline ifname x mac r s h w2).1) by (apply IH; specialize (Hr I); lia).
    unfold lift. destruct (parse_ok buf) as [[pkt|] ->]; [|done]. destruct (negb _); [done|]. destruct (bool_decide _); [done|]. by destruct (bool_decide _).
  - destruct (is_would_block e) eqn:E; [|done]. apply IH. specialize (Hr eq_refl). lia.
Qed.
Lemma renew_loop_no_panic fuel deadline ifname x l w : (rounds deadline w < fuel)%nat -> no_panic (renew_loop fuel fd deadline ifname x l w).1.
Proof using LL.
  revert w. induction fuel as [|fuel IH]; intros w Hf; [lia|]. cbn [renew_loop]. unfold mbind, M_bind, instant_now. rewrite observe_run, time_instant.
  destruct (Z.leb_spec deadline (time w)) as [|Hd]; [done|]. unfold io_match. destruct (so_recv fd BUF_LEN (clk_instant w).2) as [r w2] eqn:Er.
  pose proof (recv_round _ _ _ _ _ _ Hd (time_passes w) (capacity_instant w deadline) Er) as Hr. destruct r as [buf|e].
  - unfold lift. destruct (parse_ok buf) as [[pkt|] ->]; [|apply IH; specialize (Hr I); lia].
    destruct (_ && _); [apply lease_from_ack_no_panic|apply IH; specialize (Hr I); lia].
  - destruct (is_would_block e) eqn:E; [|done]. apply IH. specialize (Hr eq_refl). lia.
Qed.

(** What the loop returns when it returns a packet. *)
Lemma offer_loop_Ok fuel deadline ifname x mac h w p w' :
  offer_loop fuel fd deadline ifname x mac h w = (Ok p, w') ->
  xid p = x /\ message_type p = Some MSG_OFFER /\ (rounds deadline w' <= rounds deadline w)%nat.
Proof using LL.
  revert w. induction fuel as [|fuel IH]; intros w; [done|]. cbn [offer_loop]. unfold mbind, M_bind, instant_now. rewrite observe_run, time_instant.
  destruct (Z.leb_spec deadline (time w)) as [|Hd]; [done|]. unfold io_try.
  destruct (so_send fd _ _ (clk_instant w).2) as [[[]|e] w1] eqn:Es; [|done]. unfold io_match. destruct (so_recv fd BUF_LEN w1) as [r w2] eqn:Er.
  pose proof (sent_round _ _ _ _ _ _ _ _ _ Hd Es Er) as Hr. destruct r as [buf|e].
  - specialize (Hr I). unfold lift. destruct (parse_ok buf) as [[pkt|] ->].
    + destruct ((xid pkt =? x) && _) eqn:E.
      * intros [= <- <-]. apply andb_true_iff in E as [E1 E2]. apply bool_decide_eq_true_1 in E2. split; [lia|]. split; [done|lia].
      * intros HI. apply IH in HI as (?&?&?). split_and!; [done..|lia].
    + intros HI. apply IH in HI as (?&?&?). split_and!; [done..|lia].
  - destruct (is_would_block e) eqn:E; [|done]. specialize (Hr eq_refl). intros HI. apply IH in HI as (?&?&?). split_and!; [done..|lia].
Qed.
Lemma exchange_no_panic fuel deadline ifname x mac h w : (rounds deadline w < fuel)%nat -> no_panic (exchange fuel fd deadline ifname x mac h w).1.
Proof using LL.
  intros Hf. unfold exchange, mbind, M_bind. pose proof (offer_loop_no_panic fuel deadline ifname x mac h w Hf) as Ho.
  destruct (offer_loop fuel fd deadline ifname x mac h w) as [[p|e|s] w1] eqn:E; [|done|by destruct (Ho s)].
  apply offer_loop_Ok in E as (_ & _ & Ht). unfold lift. destruct (addr_option p OPT_SERVER_ID) as [sid|]; cbn [ok_or]; [|done].
  pose proof (request_loop_no_panic fuel deadline ifname x mac (yiaddr p) sid h w1) as Hr.
  destruct (request_loop _ _ _ _ _ _ _ _ _ w1) as [[a|e|s] w2]; [apply lease_from_ack_no_panic|done|by destruct (Hr ltac:(lia) s)].
Qed.
End Termination.

(** ** When the loops end *)

Section Punctual.
Context {W : Type} `{Sockets W} `{Clock W} `{!TimeLaws W} (fd : Z) {PL : PromptLaws W fd}.
(** The latest a loop is left: the clock is read again after the last receive. *)
Definition latest (deadline : Z) (w : W) : Z :=
  Z.max (time w) (deadline + RCV_TIMEOUT + 3 * delay (fd := fd)) + delay (fd := fd).

Lemma delay_nonneg (w : W) : 0 <= delay (fd := fd).
Proof using PL. pose proof (time_passes w). pose proof (prompt_instant w). lia. Qed.
Lemma lease_from_ack_time p s (w : W) : time (lease_from_ack p s w).2 <= time w + delay (fd := fd).
Proof using PL.
  pose proof (prompt_unix w) as Hu. unfold lease_from_ack, now_secs, mbind, M_bind, observe.
  by destruct (clk_unix w) as [[??]?].
Qed.
(** A turn that is begun before the deadline is over in time. *)
Lemma sent_time deadline b d n (w w1 w2 : W) r r' : time w < deadline -> so_send fd b d (clk_instant w).2 = (r', w1) ->
  so_recv fd n w1 = (r, w2) -> time w1 <= deadline + 2 * delay (fd := fd) /\ time w2 <= deadline + RCV_TIMEOUT + 3 * delay (fd := fd).
Proof using PL.
  intros Hd Es Er. pose proof (prompt_instant w). pose proof (prompt_send b d (clk_instant w).2) as Hs. rewrite Es in Hs.
  pose proof (prompt_recv n w1) as Hr. rewrite Er in Hr. cbn [snd] in *. lia.
Qed.
Lemma asked_time deadline n (w w2 : W) r : time w < deadline ->
  so_recv fd n (clk_instant w).2 = (r, w2) -> time w2 <= deadline + RCV_TIMEOUT + 2 * delay (fd := fd).
Proof using PL.
  intros Hd Er. pose proof (prompt_instant w). pose proof (prompt_recv n (clk_instant w).2) as Hr. rewrite Er in Hr. cbn [snd] in *. lia.
Qed.
Lemma offer_loop_time fuel deadline ifname x mac h w :
  time (offer_loop fuel fd deadline ifname x mac h w).2 <= latest deadline w.
Proof using PL.
  pose proof (delay_nonneg w) as Hn. revert w. induction fuel as [|fuel IH]; intros w; [cbn; unfold latest; lia|].
  cbn [offer_loop]. unfold mbind, M_bind, instant_now. rewrite observe_run, time_instant.
  destruct (Z.leb_spec deadline (time w)) as [|Hd]; [pose proof (prompt_instant w); cbn; unfold latest; lia|]. unfold io_try.
  destruct (so_send fd _ _ (clk_instant w).2) as [r' w1] eqn:Es. destruct (so_recv fd BUF_LEN w1) as [r w2] eqn:Er.
  destruct (sent_time _ _ _ _ _ _ _ _ _ Hd Es Er) as [Ht1 Ht2]. specialize (IH w2). unfold latest in *.
  destruct r' as [[]|e]; [|cbn [snd]; unfold RCV_TIMEOUT, secs_to_nanos; lia]. unfold io_match. rewrite Er. destruct r as [buf|e].
  - unfold lift. destruct (parse_ok buf) as [[pkt|] ->]; [|lia]. destruct (_ && _); [cbn [mret M_ret snd]|]; lia.
  - destruct (is_would_block e); [|cbn [throw snd]]; lia.
Qed.
Lemma request_loop_time fuel deadline ifname x mac a s h w :
  time (request_loop fuel fd deadline ifname x mac a s h w).2 <= latest deadline w.
Proof using PL.
  pose proof (delay_nonneg w) as Hn. revert w. induction fuel as [|fuel IH]; intros w; [cbn; unfold latest; lia|].
  cbn [request_loop]. unfold mbind, M_bind, instant_now. rewrite observe_run, time_instant.
  destruct (Z.leb_spec deadline (time w)) as [|Hd]; [pose proof (prompt_instant w); cbn; unfold latest; lia|]. unfold io_try.
  destruct (so_send fd _ _ (clk_instant w).2) as [r' w1] eqn:Es. destruct (so_recv fd BUF_LEN w1) as [r w2] eqn:Er.
  destruct (sent_time _ _ _ _ _ _ _ _ _ Hd Es Er) as [Ht1 Ht2]. specialize (IH w2). unfold latest in *.
  destruct r' as [[]|e]; [|cbn [snd]; unfold RCV_TIMEOUT, secs_to_nanos; lia]. unfold io_match. rewrite Er. destruct r as [buf|e].
  - unfold lift. destruct (parse_ok buf) as [[pkt|] ->]; [|lia]. destruct (negb _); [lia|].
    destruct (bool_decide _); [cbn [mret M_ret snd]; lia|]. destruct (bool_decide _); [cbn [throw snd]|]; lia.
  - destruct (is_would_block e); [|cbn [throw snd]]; lia.
Qed.
Lemma renew_loop_time fuel deadline ifname x l w :
  time (renew_loop fuel fd deadline ifname x l w).2 <= latest deadline w.
Proof using PL.
  pose proof (delay_nonneg w) as Hn. revert w. induction fuel as [|fuel IH]; intros w; [cbn; unfold latest; lia|].
  cbn [renew_loop]. unfold mbind, M_bind, instant_now. rewrite observe_run, time_instant.
  destruct (Z.leb_spec deadline (time w)) as [|Hd]; [pose proof (prompt_instant w); cbn; unfold latest; lia|].
  unfold io_match. destruct (so_recv fd BUF_LEN (clk_instant w).2) as [r w2] eqn:Er.
  pose proof (asked_time _ _ _ _ _ Hd Er) as Ht2. specialize (IH w2). unfold latest in *. destruct r as [buf|e].
  - unfold lift. destruct (parse_ok buf) as [[pkt|] ->]; [|lia].
    destruct (_ && _); [pose proof (lease_from_ack_time pkt (server_id l) w2)|]; lia.
  - destruct (is_would_block e); [|cbn [throw snd]]; lia.
Qed.
Lemma exchange_time fuel deadline ifname x mac h w :
  time (exchange fuel fd deadline ifname x mac h w).2 <= latest deadline w + 2 * delay (fd := fd).
Proof using PL.
  pose proof (delay_nonneg w) as Hn. unfold exchange, mbind, M_bind. pose proof (offer_loop_time fuel deadline ifname x mac h w) as Ho.
  destruct (offer_loop fuel fd deadline ifname x mac h w) as [[p|e|s] w1] eqn:E; cbn [snd] in *; [|lia..].
  unfold lift. destruct (addr_option p OPT_SERVER_ID) as [sid|]; cbn [ok_or]; [|cbn [snd]; lia].
  pose proof (request_loop_time fuel deadline ifname x mac (yiaddr p) sid h w1) as Hr.
  destruct (request_loop _ _ _ _ _ _ _ _ _ w1) as [[a|e|s] w2]; cbn [snd] in *;
    [pose proof (lease_from_ack_time a sid w2)|..]; unfold latest in *; lia.
Qed.
End Punctual.

(** ** The client against the server

    A broadcast link whose far end is [DhcpServer]: what is sent to port 67 is
    handled by [handle_packet] and the reply is queued, what is received is the
    head of the queue.  Any call takes at most [sl_delay]. *)
Class ServerLink (W : Type) `{Sockets W} `{Clock W} (cfg : DhcpServerConfig) (fd : Z) := {
  sl_table : W -> LeaseTable;
  sl_inbox : W -> list (list Z);
  sl_time : W -> Z;
  sl_delay : Z;
  sl_delay_nonneg : 0 <= sl_delay;
  sl_instant w : exists w', clk_instant w = (sl_time w, w') /\ sl_table w' = sl_table w
    /\ sl_inbox w' = sl_inbox w /\ sl_time w' <= sl_time w + sl_delay;
  sl_unix w : sl_table (clk_unix w).2 = sl_table w;
  sl_send b w r t : handle_packet cfg (sl_table w) b = Ok (r, t) ->
    exists w', so_send fd b (Dest4 BROADCAST SERVER_PORT) w = (inl tt, w') /\ sl_table w' = t
    /\ sl_inbox w' = sl_inbox w ++ (match r with Some r => [r] | None => [] end)
    /\ sl_time w' <= sl_time w + sl_delay;
  sl_recv b rest w : sl_inbox w = b :: rest -> (length b <= BUF_LEN)%nat ->
    exists w', so_recv fd BUF_LEN w = (inl b, w') /\ sl_table w' = sl_table w /\ sl_inbox w' = rest
    /\ sl_time w' <= sl_time w + sl_delay
}.

Section WithServer.
Context {W : Type} `{Sockets W} `{Clock W} (cfg : DhcpServerConfig) (fd : Z) `{!ServerLink W cfg fd}.
Context (Hcfg : config_ok cfg).

Lemma offer_from_server fuel deadline ifname x mac h w a t :
  table_ok cfg (sl_table w) -> is_u32 x -> mac_ok mac -> hostname_ok h ->
  sl_inbox w = [] -> allocate (sl_table w) mac cfg = Ok (Some a, t) -> sl_time w < deadline ->
  exists w', offer_loop (S fuel) fd deadline ifname x mac h w =
    (Ok (reply_packet (discover_packet x mac h) a cfg MSG_OFFER (server_mask cfg)), w')
    /\ sl_table w' = t /\ sl_inbox w' = [] /\ sl_time w' <= sl_time w + 3 * sl_delay.
Proof using Hcfg.
  intros Hok Hx Hm Hh Hin Ha Hd. cbn [offer_loop]. unfold mbind, M_bind, instant_now, observe.
  destruct (sl_instant w) as (w1 & -> & Ht1 & Hi1 & Hd1).
  rewrite (proj2 (Z.leb_gt deadline (sl_time w))) by done. unfold io_try.
  pose proof (discover_handled cfg (sl_table w) x mac h a t Hcfg Hok Hx Hm Hh Ha) as Hh1.
  rewrite <- Ht1 in Hh1. destruct (sl_send _ _ _ _ Hh1) as (w2 & -> & Ht2 & Hi2 & Hd2).
  rewrite Hi1, Hin in Hi2. cbn [app] in Hi2. unfold io_match.
  destruct (sl_recv _ _ _ Hi2) as (w3 & -> & Ht3 & Hi3 & Hd3); [by apply reply_length|].
  unfold lift. rewrite parse_serialize_packet.
  2:{ destruct (allocate_correct cfg (sl_table w) mac Hcfg Hok) as (r & t1 & Ha' & _ & _ & Hr).
      rewrite Ha in Ha'. injection Ha' as <- <-. apply reply_packet_ok; try done.
      eapply in_pool_u32; [done|apply Hr]. }
  cbn [xid reply_packet discover_packet with_options base_request]. rewrite Z.eqb_refl. cbn [andb].
  rewrite bool_decide_eq_true_2 by done. exists w3. split; [done|]. split_and!; [congruence|done|lia].
Qed.

Lemma ack_from_server fuel deadline ifname x mac h w a :
  table_ok cfg (sl_table w) -> is_u32 x -> mac_ok mac -> hostname_ok h ->
  sl_inbox w = [] -> by_mac (sl_table w) !! mac = Some a -> sl_time w < deadline ->
  exists w', request_loop (S fuel) fd deadline ifname x mac a (server_ip cfg) h w =
    (Ok (reply_packet (request_packet x mac a (server_ip cfg) h) a cfg MSG_ACK (server_mask cfg)), w')
    /\ sl_table w' = sl_table w /\ sl_inbox w' = [].
Proof using Hcfg.
  intros Hok Hx Hm Hh Hin Ha Hd. cbn [request_loop]. unfold mbind, M_bind, instant_now, observe.
  destruct (sl_instant w) as (w1 & -> & Ht1 & Hi1 & Hd1).
  rewrite (proj2 (Z.leb_gt deadline (sl_time w))) by done. unfold io_try.
  pose proof (request_handled cfg (sl_table w) x mac h a Hcfg Hok Hx Hm Hh Ha) as Hh1.
  cbn zeta in Hh1. rewrite <- Ht1 in Hh1. destruct (sl_send _ _ _ _ Hh1) as (w2 & -> & Ht2 & Hi2 & Hd2).
  rewrite Hi1, Hin in Hi2. cbn [app] in Hi2. unfold io_match.
  destruct (sl_recv _ _ _ Hi2) as (w3 & -> & Ht3 & Hi3 & Hd3); [by apply reply_length|].
  unfold lift. rewrite parse_serialize_packet.
  2:{ apply reply_packet_ok; try done. eapply in_pool_u32; [done|by eapply table_in_pool]. }
  cbn [xid reply_packet request_packet with_options base_request]. rewrite Z.eqb_refl. cbn [negb].
  rewrite bool_decide_eq_true_2 by done. exists w3. split; [done|]. split; [congruence|done].
Qed.

(** The whole exchange: the client ends with a lease on the address the server
    holds for it. *)
Lemma exchange_with_server fuel deadline ifname x mac h w a t :
  table_ok cfg (sl_table w) -> is_u32 x -> mac_ok mac -> hostname_ok h ->
  sl_inbox w = [] -> allocate (sl_table w) mac cfg = Ok (Some a, t) ->
  sl_time w + 3 * sl_delay < deadline ->
  exists w' now, exchange (S fuel) fd deadline ifname x mac h w =
    (Ok (mkLease a (cfg_prefixlen cfg) (Some (server_ip cfg)) (cfg_dns_servers cfg) None
           (server_ip cfg) (cfg_lease_time_secs cfg) now), w')
    /\ by_mac (sl_table w') !! mac = Some a /\ in_pool cfg a.
Proof using Hcfg.
  intros Hok Hx Hm Hh Hin Ha Hd. pose proof sl_delay_nonneg as Hdn.
  destruct (offer_from_server fuel deadline ifname x mac h w a t) as (w1 & Ho & Ht1 & Hi1 & Hd1);
    try done; [lia|].
  destruct (allocate_correct cfg (sl_table w) mac Hcfg Hok) as (r & t1 & Ha' & Hok1 & _ & Hr).
  rewrite Ha in Ha'. injection Ha' as <- <-. destruct Hr as [Hl Hpool]. rewrite <- Ht1 in Hl, Hok1.
  destruct (ack_from_server fuel deadline ifname x mac h w1 a) as (w2 & Hr & Ht2 & _); try done; [lia|].
  unfold exchange, mbind, M_bind. rewrite Ho. unfold lift.
  rewrite reply_server by done. cbn [ok_or]. rewrite reply_addr by (by left). rewrite Hr.
  unfold lease_from_ack, now_secs, mbind, M_bind, observe. pose proof (sl_unix w2) as Hu.
  destruct (clk_unix w2) as [[s n] w3]. exists w3, s.
  split; [unfold mret, M_ret; rewrite lease_of_reply by (done || by right); done|].
  split; [|done]. cbn [snd] in Hu. by rewrite Hu, Ht2.
Qed.
End WithServer.

(** ** Properties *)

(** C11: the client's side and the server's side of DHCPv4 agree.  On a link that
    delivers each message in time to the hotspot's server and back, the
    DISCOVER/OFFER/REQUEST/ACK exchange ends with a lease on the pool address the
    server then holds for this hardware address, with the server's prefix
    length, router, name servers and lease time. *)
Theorem client_server_exchange {W} `{Sockets W} `{Clock W} cfg fd `{!ServerLink W cfg fd}
    fuel deadline ifname x mac h (w : W) a t :
  config_ok cfg -> table_ok cfg (sl_table w) -> is_u32 x -> mac_ok mac -> hostname_ok h ->
  sl_inbox w = [] -> allocate (sl_table w) mac cfg = Ok (Some a, t) ->
  sl_time w + 3 * sl_delay < deadline ->
  exists w' now, exchange (S fuel) fd deadline ifname x mac h w =
    (Ok (mkLease a (cfg_prefixlen cfg) (Some (server_ip cfg)) (cfg_dns_servers cfg) None
           (server_ip cfg) (cfg_lease_time_secs cfg) now), w')
    /\ by_mac (sl_table w') !! mac = Some a /\ in_pool cfg a.
Proof. intros Hc. by apply exchange_with_server. Qed.

(** C23: the client does not hang.  On a link of finite capacity, with a clock that
    does not go back and receives that time out after three seconds as asked,
    the exchange and the renewal end with a lease or an error, whatever is
    received: after at most one round for each datagram the link can carry until
    the deadline, one for each receive timeout that fits before it, and one
    more.  If no call takes longer than [delay] (a receive its timeout besides),
    that is at most one receive timeout and six such calls after the deadline. *)
Theorem dhcp_client_terminates {W} `{Sockets W} `{Clock W} `{!TimeLaws W} fd `{!LinkLaws W fd} `{!PromptLaws W fd}
    fuel deadline ifname x mac h lease (w : W) :
  (rounds fd deadline w < fuel)%nat -> time w <= deadline ->
  no_panic (exchange fuel fd deadline ifname x mac h w).1
  /\ time (exchange fuel fd deadline ifname x mac h w).2 <= deadline + RCV_TIMEOUT + 6 * delay (fd := fd)
  /\ no_panic (renew_loop fuel fd deadline ifname x lease w).1
  /\ time (renew_loop fuel fd deadline ifname x lease w).2 <= deadline + RCV_TIMEOUT + 4 * delay (fd := fd).
Proof.
  intros Hf Ht. pose proof (exchange_time fd fuel deadline ifname x mac h w) as He.
  pose proof (renew_loop_time fd fuel deadline ifname x lease w) as Hr. pose proof (delay_nonneg fd w).
  assert (0 <= RCV_TIMEOUT) by done. unfold latest in *.
  split_and!; [by apply (exchange_no_panic fd)|lia|by apply (renew_loop_no_panic fd)|lia].
Qed.

(** A link with the hotspot's server at its other end. *)
Record lan := mkLan { lan_table : LeaseTable; lan_inbox : list (list Z); lan_time : Z }.
Definition lan_tick (w : lan) : lan := mkLan (lan_table w) (lan_inbox w) (lan_time w + 1).
Definition lan_clock : Clock lan := {|
  clk_instant w := (lan_time w, lan_tick w);
  clk_unix w := ((lan_time w / 1000000000, lan_time w mod 1000000000), lan_tick w);
  clk_pid _ := 1;
  clk_sleep d w := mkLan (lan_table w) (lan_inbox w) (lan_time w + d)
|}.
Definition lan_refused : io_error := IoError IoOther "refused".
Definition lan_sockets (cfg : DhcpServerConfig) : Sockets lan := {|
  so_socket _ w := (inl 3, w);
  so_setsockopt _ _ w := (inl tt, w);
  so_bind _ _ w := (inl tt, w);
  so_connect _ _ w := (inl tt, w);
  so_close _ w := w;
  so_send _ b _ w := match handle_packet cfg (lan_table w) b with
    | Ok (r, t) => (inl tt, mkLan t (lan_inbox w ++ match r with Some r => [r] | None => [] end) (lan_time w))
    | _ => (inr lan_refused, w) end;
  so_recv _ n w := match lan_inbox w with
    | b :: rest => (inl (take n b), mkLan (lan_table w) rest (lan_time w + 1))
    | [] => (inr (IoError IoWouldBlock ""), mkLan (lan_table w) [] (lan_time w + RCV_TIMEOUT)) end
|}.
#[local] Existing Instances lan_clock.
Definition lan_link : @ServerLink lan (lan_sockets demo_cfg) lan_clock demo_cfg 3.
Proof.
  refine (@Build_ServerLink lan (lan_sockets demo_cfg) lan_clock demo_cfg 3 lan_table lan_inbox lan_time 1 _ _ _ _ _); cbn.
  - lia.
  - intros w. eexists. split; [done|]. cbn. split_and!; [done|done|lia].
  - done.
  - intros b w r t Hh. rewrite Hh. eexists. split; [done|]. cbn. split_and!; [done|done|lia].
  - intros b rest w Hi Hl. rewrite Hi. eexists. rewrite take_ge by done. split; [done|]. cbn. split_and!; [done|done|lia].
Defined.
Definition demo_lan : lan := mkLan (initial_table demo_cfg) [] 0.
Lemma client_server_exchange_witness :
  exists w' now, @exchange lan (lan_sockets demo_cfg) lan_clock 1 3 10 "wlan0" 7 demo_mac None demo_lan =
    (Ok (mkLease (ipv4_new 10 42 0 10) 24 (Some (ipv4_new 10 42 0 1)) [ipv4_new 10 42 0 1] None
           (ipv4_new 10 42 0 1) 3600 now), w').
Proof.
  destruct (@client_server_exchange lan (lan_sockets demo_cfg) lan_clock demo_cfg 3 lan_link 0 10 "wlan0" 7
    demo_mac None demo_lan (ipv4_new 10 42 0 10)
    (mkLeaseTable {[demo_mac := ipv4_new 10 42 0 10]} (ipv4_new 10 42 0 11)))
    as (w' & now & He & _).
  - exact demo_cfg_ok.
  - exact (initial_table_ok _ demo_cfg_ok).
  - by_decision.
  - exact demo_mac_ok.
  - exact I.
  - reflexivity.
  - vm_compute. reflexivity.
  - by_decision.
  - exists w', now. exact He.
Defined.

Definition lan_time_laws : @TimeLaws lan lan_clock (lan_sockets demo_cfg).
Proof.
  refine (@Build_TimeLaws lan lan_clock (lan_sockets demo_cfg) lan_time _ _ _ _); cbn.
  - done.
  - intros w. lia.
  - intros fd b d w. destruct (handle_packet demo_cfg (lan_table w) b) as [[r t]|e|s]; cbn; lia.
  - intros fd n w. destruct (lan_inbox w); cbn; unfold RCV_TIMEOUT, secs_to_nanos; lia.
Defined.
(** A datagram takes a nanosecond. *)
Definition lan_link_laws : @LinkLaws lan lan_clock (lan_sockets demo_cfg) lan_time_laws 3.
Proof.
  refine (@Build_LinkLaws lan lan_clock (lan_sockets demo_cfg) lan_time_laws 3 (fun w t => Z.to_nat (t - lan_time w + 1)) _ _ _); cbn.
  - intros w t. lia.
  - intros b d w t. destruct (handle_packet demo_cfg (lan_table w) b) as [[r tb]|e|s]; cbn; lia.
  - intros n w t. destruct (lan_inbox w); cbn; unfold RCV_TIMEOUT, secs_to_nanos; lia.
Defined.
Definition lan_prompt : @PromptLaws lan lan_clock (lan_sockets demo_cfg) lan_time_laws 3.
Proof.
  refine (@Build_PromptLaws lan lan_clock (lan_sockets demo_cfg) lan_time_laws 3 1 _ _ _ _); cbn.
  - done.
  - done.
  - intros b d w. destruct (handle_packet demo_cfg (lan_table w) b) as [[r tb]|e|s]; cbn; lia.
  - intros n w. destruct (lan_inbox w); cbn; unfold RCV_TIMEOUT, secs_to_nanos; lia.
Defined.
Lemma dhcp_client_terminates_witness :
  let r := @exchange lan (lan_sockets demo_cfg) lan_clock 103 3 100 "wlan0" 7 demo_mac None demo_lan in
  no_panic r.1 /\ lan_time r.2 <= 3000000106.
Proof.
  generalize (@dhcp_client_terminates lan (lan_sockets demo_cfg) lan_clock lan_time_laws 3 lan_link_laws lan_prompt 103 100 "wlan0" 7 demo_mac None
    (mkLease 0 0 None [] None 0 0 0) demo_lan ltac:(vm_compute; lia) ltac:(vm_compute; congruence)).
  generalize (@exchange lan (lan_sockets demo_cfg) lan_clock 103 3 100 "wlan0" 7 demo_mac None demo_lan).
  intros r (Hp & Ht & _). split; [exact Hp|exact Ht].
Defined.
