(* ===== verification/Dhcp6.v ===== *)
(** * The DHCPv6 client (dhcp/dhcp6.rs)

    The option codec, the stateless Information-Request, and the stateful
    IA_NA exchange with renewal, rebinding and release.  Times are nanoseconds
    for [Instant]s and seconds for [SystemTime]s. *)

From Stdlib Require Import Ascii String.
From S2P Require Import Prelude RustStr IpAddr Dhcp4 Sys World Netlink IpLayer Persistence DhcpClient.

Module V6.

Definition CLIENT_PORT : Z := 546.
Definition SERVER_PORT : Z := 547.
Definition ALL_DHCP_RELAY_AGENTS_AND_SERVERS : string := "ff02::1:2".
Definition MSG_SOLICIT : Z := 1.
Definition MSG_ADVERTISE : Z := 2.
Definition MSG_REQUEST : Z := 3.
Definition MSG_RENEW : Z := 5.
Definition MSG_REBIND : Z := 6.
Definition MSG_REPLY : Z := 7.
Definition MSG_RELEASE : Z := 8.
Definition MSG_INFORMATION_REQUEST : Z := 11.
Definition OPT_CLIENTID : Z := 1.
Definition OPT_SERVERID : Z := 2.
Definition OPT_IA_NA : Z := 3.
Definition OPT_IA_ADDR : Z := 5.
Definition OPT_ORO : Z := 6.
Definition OPT_ELAPSED_TIME : Z := 8.
Definition OPT_STATUS_CODE : Z := 13.
Definition OPT_RAPID_COMMIT : Z := 14.
Definition OPT_DNS_SERVERS : Z := 23.
Definition OPT_DOMAIN_LIST : Z := 24.

Definition duid_ll (mac : list Z) : list Z := [0; 3; 0; 1] ++ mac.

(** ** Options *)

Definition push_option (buf : list Z) (code : Z) (data : list Z) : list Z :=
  buf ++ to_be 2 code ++ to_be 2 (wrap 16 (Z.of_nat (length data))) ++ data.

Fixpoint parse_options_loop (fuel : nat) (buf : list Z) (out : list (Z * list Z))
  : outcome (list (Z * list Z)) :=
  match fuel with
  | O => Panic "fuel"
  | S fuel =>
      if bool_decide (4 <= length buf)%nat then
        cb ← sub buf 0 2;
        lb ← sub buf 2 4;
        let code := from_be cb in
        let len := Z.to_nat (from_be lb) in
        if bool_decide (length buf < 4 + len)%nat then Ok out
        else
          data ← sub buf 4 (4 + len);
          rest ← or_panic (slice_from buf (4 + len)) "range start index out of range for slice";
          parse_options_loop fuel rest (out ++ [(code, data)])
      else Ok out
  end.
Definition parse_options (buf : list Z) : outcome (list (Z * list Z)) :=
  parse_options_loop (S (length buf)) buf [].

(** [(ms / 10).min(u16::MAX)] for the milliseconds since [start]. *)
Definition elapsed_cs_of (nanos : Z) : Z := Z.min (nanos / 1000000 / 10) 65535.

Definition xid3_of (nanos pid : Z) : list Z :=
  let mixed := Z.lxor nanos (wrap 32 (Z.shiftl pid 8)) in
  [wrap 8 (Z.shiftr mixed 16); wrap 8 (Z.shiftr mixed 8); wrap 8 mixed].

(** ** Domain names *)

(** The inner [while] over the labels of one name: the cursor after it. *)
Fixpoint labels_loop (fuel : nat) (data : list Z) (i : nat) (labels : list string)
  : outcome (nat * list string) :=
  match fuel with
  | O => Panic "fuel"
  | S fuel =>
      if bool_decide (i < length data)%nat then
        b ← index data i;
        if b =? 0 then Ok (i, labels)
        else
          let len := Z.to_nat b in
          let i := S i in
          if bool_decide (length data < i + len)%nat then Ok (i, labels)
          else
            l ← sub data i (i + len);
            labels_loop fuel data (i + len) (labels ++ [from_utf8_lossy l])
      else Ok (i, labels)
  end.
Fixpoint domains_loop (fuel : nat) (data : list Z) (i : nat) (out : list string) : outcome (list string) :=
  match fuel with
  | O => Panic "fuel"
  | S fuel =>
      if bool_decide (i < length data)%nat then
        '(i, labels) ← labels_loop (S (length data)) data i [];
        let out := match labels with [] => out | _ => out ++ [join "." labels] end in
        domains_loop fuel data (S i) out
      else Ok out
  end.
Definition parse_domains (data : list Z) : outcome (list string) :=
  domains_loop (S (length data)) data 0 [].

Fixpoint parse_dns_and_domain_loop (options : list (Z * list Z)) (dns : list Z) (domains : list string)
  : outcome (list Z * list string) :=
  match options with
  | [] => Ok (dns, domains)
  | (code, data) :: options =>
      if code =? OPT_DNS_SERVERS then
        parse_dns_and_domain_loop options (dns ++ map from_be (chunks_exact 16 data)) domains
      else if code =? OPT_DOMAIN_LIST then
        ds ← parse_domains data;
        parse_dns_and_domain_loop options dns (domains ++ ds)
      else parse_dns_and_domain_loop options dns domains
  end.
Definition parse_dns_and_domain (options : list (Z * list Z)) : outcome (list Z * list string) :=
  parse_dns_and_domain_loop options [] [].

(** ** Leases *)

Record StatelessInfo := mkStatelessInfo { si_dns_servers : list Z; si_domain_search : list string }.

Record Lease6 := mkLease6 {
  l6_address : Z;
  l6_prefixlen : Z;
  l6_iaid : Z;
  l6_server_id : list Z;
  l6_dns_servers : list Z;
  l6_domain_search : list string;
  preferred_lifetime_secs : Z;
  valid_lifetime_secs : Z;
  t1_secs : Z;
  t2_secs : Z;
  l6_obtained_at_unix : Z
}.
Definition l6_obtained_at (l : Lease6) : outcome Z := time_add UNIX_EPOCH (l6_obtained_at_unix l).
Definition l6_renewal_time (l : Lease6) : outcome Z :=
  t ← l6_obtained_at l; time_add t (if 0 <? t1_secs l then t1_secs l else valid_lifetime_secs l / 2).
Definition l6_rebind_time (l : Lease6) : outcome Z :=
  t ← l6_obtained_at l; time_add t (if 0 <? t2_secs l then t2_secs l else valid_lifetime_secs l * 7 / 8).
Definition l6_expires_at (l : Lease6) : outcome Z := t ← l6_obtained_at l; time_add t (valid_lifetime_secs l).
Definition l6_is_expired (now : Z) (l : Lease6) : outcome bool := t ← l6_expires_at l; Ok (t <=? now).

(** ** IA_NA *)

Record IaNa := mkIaNa {
  ia_iaid : Z; ia_t1 : Z; ia_t2 : Z;
  ia_address : option Z;
  ia_preferred : Z; ia_valid : Z;
  ia_status : option (Z * string)
}.

(** One suboption of an IA_NA. *)
Definition ia_suboption (ia : IaNa) (o : Z * list Z) : outcome IaNa :=
  let '(code, sub_) := o in
  if (code =? OPT_IA_ADDR) && bool_decide (24 <= length sub_)%nat then
    a ← sub sub_ 0 16;
    p ← sub sub_ 16 20;
    v ← sub sub_ 20 24;
    Ok (mkIaNa (ia_iaid ia) (ia_t1 ia) (ia_t2 ia) (Some (from_be a)) (from_be p) (from_be v) (ia_status ia))
  else if (code =? OPT_STATUS_CODE) && bool_decide (2 <= length sub_)%nat then
    c ← sub sub_ 0 2;
    m ← sub sub_ 2 (length sub_);
    Ok (mkIaNa (ia_iaid ia) (ia_t1 ia) (ia_t2 ia) (ia_address ia) (ia_preferred ia) (ia_valid ia)
          (Some (from_be c, from_utf8_lossy m)))
  else Ok ia.
Fixpoint ia_suboptions (opts : list (Z * list Z)) (ia : IaNa) : outcome IaNa :=
  match opts with
  | [] => Ok ia
  | o :: opts => ia ← ia_suboption ia o; ia_suboptions opts ia
  end.
Definition parse_ia_na (data : list Z) : outcome (option IaNa) :=
  if bool_decide (length data < 12)%nat then Ok None
  else
    i ← sub data 0 4;
    t1 ← sub data 4 8;
    t2 ← sub data 8 12;
    rest ← sub data 12 (length data);
    opts ← parse_options rest;
    ia ← ia_suboptions opts (mkIaNa (from_be i) (from_be t1) (from_be t2) None 0 0 None);
    Ok (Some ia).

(** ** Messages *)

Definition oro : list Z := to_be 2 OPT_DNS_SERVERS ++ to_be 2 OPT_DOMAIN_LIST.

Definition build_information_request (xid mac : list Z) : list Z :=
  let buf := [MSG_INFORMATION_REQUEST] ++ xid in
  let buf := push_option buf OPT_CLIENTID (duid_ll mac) in
  push_option buf OPT_ORO oro.

Definition build_solicit (xid mac : list Z) (iaid elapsed : Z) : list Z :=
  let buf := [MSG_SOLICIT] ++ xid in
  let buf := push_option buf OPT_CLIENTID (duid_ll mac) in
  let buf := push_option buf OPT_ELAPSED_TIME (to_be 2 elapsed) in
  let buf := push_option buf OPT_RAPID_COMMIT [] in
  let buf := push_option buf OPT_ORO oro in
  push_option buf OPT_IA_NA (to_be 4 iaid ++ to_be 4 0 ++ to_be 4 0).

Definition build_ia_request (msg_type : Z) (xid mac : list Z) (server_id : option (list Z))
    (iaid addr preferred valid elapsed : Z) : list Z :=
  let buf := [msg_type] ++ xid in
  let buf := push_option buf OPT_CLIENTID (duid_ll mac) in
  let buf := match server_id with Some sid => push_option buf OPT_SERVERID sid | None => buf end in
  let buf := push_option buf OPT_ELAPSED_TIME (to_be 2 elapsed) in
  let buf := push_option buf OPT_ORO oro in
  let ia_addr := octets6 addr ++ to_be 4 preferred ++ to_be 4 valid in
  let ia_na := push_option (to_be 4 iaid ++ to_be 4 0 ++ to_be 4 0) OPT_IA_ADDR ia_addr in
  push_option buf OPT_IA_NA ia_na.

(** [options.iter().find(|(c, _)| *c == code).map(|(_, v)| v.clone())] *)
Definition find_option (options : list (Z * list Z)) (code : Z) : option (list Z) :=
  snd <$> List.find (fun o => o.1 =? code) options.
(** [.find(OPT_IA_NA).and_then(|(_, v)| parse_ia_na(v))] *)
Definition find_ia_na (options : list (Z * list Z)) : outcome (option IaNa) :=
  match find_option options OPT_IA_NA with
  | Some v => parse_ia_na v
  | None => Ok None
  end.

Definition require_success (ia : IaNa) : outcome unit :=
  match ia_status ia with
  | Some (code, msg) =>
      if negb (code =? 0)
      then Err (Dhcp ("DHCPv6 server declined (status " +:+ dec code +:+ "): " +:+ msg))
      else Ok tt
  | None => Ok tt
  end.

(** [recv_matching] on the datagram it received. *)
Definition match_message (want_xid buf : list Z) : outcome (Z * list (Z * list Z)) :=
  if bool_decide (length buf < 4)%nat then Err (Dhcp "DHCPv6 response too short")
  else
    x ← sub buf 1 4;
    if negb (bool_decide (x = want_xid)) then Err (Dhcp "DHCPv6 response transaction id mismatch")
    else
      t ← index buf 0;
      rest ← sub buf 4 (length buf);
      opts ← parse_options rest;
      Ok (t, opts).

Section Client.
Context {W : Type} `{Sockets W} `{Clock W} `{FileSystem W} `{NlEnv}.
Context (base_dir : string) `{Codec Lease6}.

Definition elapsed_cs (start : Z) : M W Z :=
  now ← instant_now; mret (elapsed_cs_of (now - start)).
Definition random_xid3 : M W (list Z) :=
  fun w => let '((_, nanos), w') := clk_unix w in (Ok (xid3_of nanos (clk_pid w')), w').

Definition multicast_dest (scope_id : Z) : outcome dest_addr :=
  addr ← ok_or (parse_ipv6 ALL_DHCP_RELAY_AGENTS_AND_SERVERS) (Dhcp "invalid multicast address");
  Ok (Dest6 addr SERVER_PORT scope_id).

(** [bind_client_socket], and the socket's [Drop]. *)
Definition bind_failed (e : io_error) : NetworkError :=
  Dhcp ("bind udp/" +:+ dec CLIENT_PORT +:+ " failed: " +:+ io_err_text e).
Definition with_client_socket {A} (timeout : Z) (body : Z -> M W A) : M W A :=
  fd ← io_try_with bind_failed (so_socket SkUdp6);
  finally (
    io_try_with bind_failed (so_bind fd (AnyPort6 CLIENT_PORT)) ;;
    io_try (so_setsockopt fd (SoRcvTimeout timeout)) ;;
    body fd) (so_close fd).

Definition BUF_LEN : nat := 1500.

Definition recv_matching (fd : Z) (want_xid : list Z) : M W (Z * list (Z * list Z)) :=
  buf ← io_try (so_recv fd BUF_LEN);
  lift (match_message want_xid buf).

Definition stateless_of_reply (xid buf : list Z) : outcome StatelessInfo :=
  let bad := Err (Dhcp "did not receive a matching DHCPv6 REPLY") in
  if bool_decide (length buf < 4)%nat then bad
  else
    t ← index buf 0;
    if negb (t =? MSG_REPLY) then bad
    else
      x ← sub buf 1 4;
      if negb (bool_decide (x = xid)) then bad
      else
        rest ← sub buf 4 (length buf);
        opts ← parse_options rest;
        '(dns, domains) ← parse_dns_and_domain opts;
        Ok (mkStatelessInfo dns domains).

Definition request_stateless_info (ifname : string) (mac : list Z) (timeout : Z) : M W StatelessInfo :=
  iface ← get_by_name ifname;
  let scope_id := wrap 32 (if_index iface) in
  with_client_socket timeout (fun fd =>
    xid ← random_xid3;
    dest ← lift (multicast_dest scope_id);
    io_try (so_send fd (build_information_request xid mac) dest) ;;
    buf ← io_try (so_recv fd BUF_LEN);
    lift (stateless_of_reply xid buf)).

Definition lease_from_reply (ia : IaNa) (server_id dns : list Z) (domains : list string) : M W Lease6 :=
  lift (require_success ia) ;;
  address ← lift (ok_or (ia_address ia) (Dhcp "DHCPv6 REPLY carried no address"));
  now ← now_secs;
  mret (mkLease6 address 128 (ia_iaid ia) server_id dns domains (ia_preferred ia) (ia_valid ia)
          (ia_t1 ia) (ia_t2 ia) now).

(** A reply to Request, Renew or Rebind. *)
Definition lease_of_options (old_server_id : list Z) (options : list (Z * list Z)) : M W Lease6 :=
  let server_id := default old_server_id (find_option options OPT_SERVERID) in
  ia ← lift (find_ia_na options);
  ia ← lift (ok_or ia (Dhcp "DHCPv6 REPLY carried no IA_NA"));
  '(dns, domains) ← lift (parse_dns_and_domain options);
  lease_from_reply ia server_id dns domains.

Definition unexpected (t : Z) (what : string) : NetworkError :=
  Dhcp ("unexpected DHCPv6 message type " +:+ dec t +:+ " in response to " +:+ what).

(** After the first response: the server, and what it offered. *)
Definition solicit_options (options : list (Z * list Z)) : outcome (list Z * IaNa) :=
  server_id ← ok_or (find_option options OPT_SERVERID) (Dhcp "DHCPv6 response carried no Server ID");
  ia ← find_ia_na options;
  ia ← ok_or ia (Dhcp "DHCPv6 response carried no IA_NA");
  Ok (server_id, ia).

(** From the Solicit on. *)
Definition stateful_exchange (fd : Z) (mac : list Z) (iaid : Z) (dest : dest_addr) : M W Lease6 :=
  start ← instant_now;
  solicit_xid ← random_xid3;
  cs ← elapsed_cs start;
  io_try (so_send fd (build_solicit solicit_xid mac iaid cs) dest) ;;
  '(msg_type, options) ← recv_matching fd solicit_xid;
  '(server_id, ia) ← lift (solicit_options options);
  if msg_type =? MSG_REPLY then
    '(dns, domains) ← lift (parse_dns_and_domain options);
    lease_from_reply ia server_id dns domains
  else if negb (msg_type =? MSG_ADVERTISE) then throw (unexpected msg_type "Solicit")
  else
    lift (require_success ia) ;;
    advertised ← lift (ok_or (ia_address ia) (Dhcp "DHCPv6 ADVERTISE carried no address"));
    request_xid ← random_xid3;
    cs ← elapsed_cs start;
    io_try (so_send fd (build_ia_request MSG_REQUEST request_xid mac (Some server_id) iaid advertised
                          (ia_preferred ia) (ia_valid ia) cs) dest) ;;
    '(msg_type, options) ← recv_matching fd request_xid;
    if negb (msg_type =? MSG_REPLY) then throw (unexpected msg_type "Request")
    else lease_of_options server_id options.

Definition request_stateful_lease (ifname : string) (mac : list Z) (timeout : Z) : M W Lease6 :=
  iface ← get_by_name ifname;
  let iaid := wrap 32 (if_index iface) in
  with_client_socket timeout (fun fd =>
    dest ← lift (multicast_dest (wrap 32 (if_index iface)));
    stateful_exchange fd mac iaid dest).

Definition renew_or_rebind (msg_type : Z) (ifname : string) (mac : list Z) (lease : Lease6)
    (timeout : Z) (include_server_id : bool) : M W Lease6 :=
  iface ← get_by_name ifname;
  with_client_socket timeout (fun fd =>
    dest ← lift (multicast_dest (wrap 32 (if_index iface)));
    start ← instant_now;
    xid ← random_xid3;
    let server_id := if include_server_id then Some (l6_server_id lease) else None in
    cs ← elapsed_cs start;
    io_try (so_send fd (build_ia_request msg_type xid mac server_id (l6_iaid lease) (l6_address lease)
              (preferred_lifetime_secs lease) (valid_lifetime_secs lease) cs) dest) ;;
    '(got_type, options) ← recv_matching fd xid;
    if negb (got_type =? MSG_REPLY) then throw (unexpected got_type "Renew/Rebind")
    else lease_of_options (l6_server_id lease) options).
Definition renew (ifname : string) (mac : list Z) (lease : Lease6) (timeout : Z) : M W Lease6 :=
  renew_or_rebind MSG_RENEW ifname mac lease timeout true.
Definition rebind (ifname : string) (mac : list Z) (lease : Lease6) (timeout : Z) : M W Lease6 :=
  renew_or_rebind MSG_REBIND ifname mac lease timeout false.

Definition release (ifname : string) (mac : list Z) (lease : Lease6) (timeout : Z) : M W unit :=
  iface ← get_by_name ifname;
  with_client_socket timeout (fun fd =>
    dest ← lift (multicast_dest (wrap 32 (if_index iface)));
    xid ← random_xid3;
    io_try (so_send fd (build_ia_request MSG_RELEASE xid mac (Some (l6_server_id lease)) (l6_iaid lease)
              (l6_address lease) (preferred_lifetime_secs lease) (valid_lifetime_secs lease) 0) dest) ;;
    ignore (recv_matching fd xid)).

(** persistence/state.rs *)
Definition load_lease6 (ifname : string) : M W (option Lease6) := read_json (lease6_path base_dir ifname).
Definition save_lease6 (ifname : string) (l : Lease6) : M W unit := write_json (lease6_path base_dir ifname) l.
Definition clear_lease6 (ifname : string) : M W unit := db_remove (lease6_path base_dir ifname).

Definition release_persisted (ifname : string) : M W unit :=
  l ← load_lease6 ifname;
  match l with
  | None => mret tt
  | Some lease =>
      mac ← get_mac ifname;
      ignore (release ifname mac lease (secs_to_nanos 2)) ;;
      clear_lease6 ifname
  end.
End Client.

(** ** Option chains *)

Definition option6_ok (o : Z * list Z) : Prop := is_u16 o.1 /\ Z.of_nat (length o.2) < 2 ^ 16.
#[export] Instance option6_ok_dec o : Decision (option6_ok o).
Proof. unfold option6_ok. apply _. Defined.
Definition enc_option (o : Z * list Z) : list Z := push_option [] o.1 o.2.
Definition enc_options (l : list (Z * list Z)) : list Z := concat (map enc_option l).

Lemma push_option_enc buf c d : push_option buf c d = buf ++ enc_option (c, d).
Proof. done. Qed.
Lemma enc_options_app l1 l2 : enc_options (l1 ++ l2) = enc_options l1 ++ enc_options l2.
Proof. unfold enc_options. by rewrite map_app, concat_app. Qed.
Lemma enc_options_snoc h l c d :
  push_option (h ++ enc_options l) c d = h ++ enc_options (l ++ [(c, d)]).
Proof. rewrite enc_options_app, push_option_enc, <- app_assoc. unfold enc_options at 3. cbn [map concat].
  by rewrite app_nil_r. Qed.
Lemma enc_options_first h c d : push_option h c d = h ++ enc_options [(c, d)].
Proof. rewrite push_option_enc. unfold enc_options. cbn [map concat]. by rewrite app_nil_r. Qed.
Lemma length_enc_option o : length (enc_option o) = (4 + length o.2)%nat.
Proof. unfold enc_option, push_option. cbn [app]. autorewrite with lens. lia. Qed.

Lemma parse_options_step fuel o rest out :
  option6_ok o ->
  parse_options_loop (S fuel) (enc_option o ++ rest) out = parse_options_loop fuel rest (out ++ [o]).
Proof.
  intros [Hc Hl]. destruct o as [c d]; cbn [fst snd] in *.
  assert (Henc : enc_option (c, d) = to_be 2 c ++ to_be 2 (Z.of_nat (length d)) ++ d).
  { unfold enc_option, push_option. cbn [app fst snd]. by rewrite wrap_small by (split; lia). }
  cbn [parse_options_loop]. rewrite bool_decide_eq_true_2 by (rewrite length_app, length_enc_option; lia).
  rewrite (sub_mid [] (to_be 2 c) ((to_be 2 (Z.of_nat (length d)) ++ d) ++ rest) 0 2)
    by (rewrite ?Henc, ?length_to_be, <- ?app_assoc; done).
  rewrite (sub_mid (to_be 2 c) (to_be 2 (Z.of_nat (length d))) (d ++ rest) 2 4)
    by (rewrite ?Henc, ?length_to_be, <- ?app_assoc; done).
  cbn [mbind outcome_bind]. rewrite !from_be_to_be by (unfold is_uint in *; cbn; lia). rewrite Nat2Z.id.
  rewrite bool_decide_eq_false_2 by (rewrite length_app, length_enc_option; cbn [snd]; lia).
  rewrite (sub_mid (to_be 2 c ++ to_be 2 (Z.of_nat (length d))) d rest 4 (4 + length d))
    by (rewrite ?Henc, ?length_app, ?length_to_be, <- ?app_assoc; done).
  cbn [mbind outcome_bind].
  rewrite slice_from_app by (by rewrite length_enc_option). done.
Qed.
Lemma parse_options_enc_loop l fuel out :
  Forall option6_ok l -> (length (enc_options l) < fuel)%nat ->
  parse_options_loop fuel (enc_options l) out = Ok (out ++ l).
Proof.
  revert fuel out. induction l as [|o l IH]; intros fuel out Hok Hf.
  - destruct fuel; [cbn in Hf; lia|]. cbn. by rewrite app_nil_r.
  - apply Forall_cons_1 in Hok as [Ho Hok]. destruct fuel as [|fuel]; [lia|].
    change (enc_options (o :: l)) with (enc_option o ++ enc_options l) in *.
    rewrite length_app, length_enc_option in Hf.
    rewrite parse_options_step, IH by (done || lia). by rewrite <- app_assoc.
Qed.
Lemma parse_options_enc l : Forall option6_ok l -> parse_options (enc_options l) = Ok l.
Proof. intros. unfold parse_options. rewrite parse_options_enc_loop; [done|done|lia]. Qed.

Lemma parse_options6_loop_ok fuel buf out :
  (length buf < fuel)%nat -> is_ok (parse_options_loop fuel buf out).
Proof.
  revert buf out. induction fuel as [|fuel IH]; intros buf out Hf; [lia|].
  cbn [parse_options_loop]. case_bool_decide as H4; [|by eexists].
  destruct (sub_ok buf 0 2) as [cb ->]; [lia|]. destruct (sub_ok buf 2 4) as [lb ->]; [lia|].
  cbn [mbind outcome_bind]. set (n := Z.to_nat (from_be lb)).
  destruct (decide (length buf < 4 + n)%nat); [rewrite bool_decide_eq_true_2 by done; by eexists|].
  rewrite bool_decide_eq_false_2 by done.
  destruct (sub_ok buf 4 (4 + n)) as [d ->]; [lia|]. cbn [mbind outcome_bind].
  rewrite slice_from_Some by lia. cbn [or_panic mbind outcome_bind]. apply IH.
  rewrite length_drop. lia.
Qed.
Lemma parse_options_ok buf : is_ok (parse_options buf).
Proof. apply parse_options6_loop_ok. lia. Qed.

(** ** Totality of the decoders *)

Lemma labels_loop_ok fuel data i labels :
  (length data - i < fuel)%nat ->
  exists i' ls, labels_loop fuel data i labels = Ok (i', ls) /\ (i <= i')%nat.
Proof.
  revert i labels. induction fuel as [|fuel IH]; intros i labels Hf; [lia|]. cbn [labels_loop].
  case_bool_decide as Hi; [|eauto]. destruct (index_ok data i Hi) as [b ->]. cbn [mbind outcome_bind].
  destruct (b =? 0); [eauto|]. case_bool_decide; [eexists _, _; split; [done|lia]|].
  destruct (sub_ok data (S i) (S i + Z.to_nat b)) as [l ->]; [lia|]. cbn [mbind outcome_bind].
  destruct (IH (S i + Z.to_nat b)%nat (labels ++ [from_utf8_lossy l])) as (i' & ls & -> & Hle); [lia|].
  eexists _, _. split; [done|lia].
Qed.
Lemma domains_loop_ok fuel data i out :
  (length data - i < fuel)%nat -> is_ok (domains_loop fuel data i out).
Proof.
  revert i out. induction fuel as [|fuel IH]; intros i out Hf; [lia|]. cbn [domains_loop].
  case_bool_decide as Hi; [|by eexists].
  destruct (labels_loop_ok (S (length data)) data i []) as (i' & ls & -> & Hle); [lia|].
  cbn [mbind outcome_bind]. apply IH. lia.
Qed.
Lemma parse_dns_and_domain_ok opts : is_ok (parse_dns_and_domain opts).
Proof.
  unfold parse_dns_and_domain. generalize (@nil Z) as dns, (@nil string) as ds.
  induction opts as [|[c d] opts IH]; intros dns ds; cbn [parse_dns_and_domain_loop]; [by eexists|].
  destruct (c =? OPT_DNS_SERVERS); [done|]. destruct (c =? OPT_DOMAIN_LIST); [|done].
  unfold parse_domains. destruct (domains_loop_ok (S (length d)) d 0 []) as [r ->]; [lia|].
  cbn [mbind outcome_bind]. apply IH.
Qed.
Lemma ia_suboptions_ok opts ia : is_ok (ia_suboptions opts ia).
Proof.
  revert ia. induction opts as [|[c d] opts IH]; intros ia; cbn [ia_suboptions]; [by eexists|].
  unfold ia_suboption. destruct (c =? OPT_IA_ADDR); cbn [andb].
  - case_bool_decide as Hl.
    + destruct (sub_ok d 0 16) as [? ->]; [lia|]. destruct (sub_ok d 16 20) as [? ->]; [lia|].
      destruct (sub_ok d 20 24) as [? ->]; [lia|]. cbn [mbind outcome_bind]. apply IH.
    + destruct (c =? OPT_STATUS_CODE); cbn [andb]; [|apply IH]. case_bool_decide; [|apply IH].
      destruct (sub_ok d 0 2) as [? ->]; [lia|]. destruct (sub_ok d 2 (length d)) as [? ->]; [lia|].
      cbn [mbind outcome_bind]. apply IH.
  - destruct (c =? OPT_STATUS_CODE); cbn [andb]; [|apply IH]. case_bool_decide; [|apply IH].
    destruct (sub_ok d 0 2) as [? ->]; [lia|]. destruct (sub_ok d 2 (length d)) as [? ->]; [lia|].
    cbn [mbind outcome_bind]. apply IH.
Qed.
Lemma parse_ia_na_ok data : is_ok (parse_ia_na data).
Proof.
  unfold parse_ia_na. case_bool_decide; [by eexists|].
  destruct (sub_ok data 0 4) as [i ->]; [lia|]. destruct (sub_ok data 4 8) as [t1 ->]; [lia|].
  destruct (sub_ok data 8 12) as [t2 ->]; [lia|]. destruct (sub_ok data 12 (length data)) as [r ->]; [lia|].
  cbn [mbind outcome_bind]. destruct (parse_options_ok r) as [o ->]. cbn [mbind outcome_bind].
  destruct (ia_suboptions_ok o (mkIaNa (from_be i) (from_be t1) (from_be t2) None 0 0 None)) as [ia ->].
  by eexists.
Qed.

(** ** What the messages say *)

(** The IA_NA payload a peer reads. *)
Definition ia_na_data (iaid t1 t2 : Z) (subs : list (Z * list Z)) : list Z :=
  (to_be 4 iaid ++ to_be 4 t1 ++ to_be 4 t2) ++ enc_options subs.
Definition ia_addr_data (addr preferred valid : Z) : list Z :=
  octets6 addr ++ to_be 4 preferred ++ to_be 4 valid.

Lemma parse_ia_na_data iaid t1 t2 subs :
  is_u32 iaid -> is_u32 t1 -> is_u32 t2 -> Forall option6_ok subs ->
  parse_ia_na (ia_na_data iaid t1 t2 subs) =
    (ia ← ia_suboptions subs (mkIaNa iaid t1 t2 None 0 0 None); Ok (Some ia)).
Proof.
  intros Hi H1 H2 Hs. unfold parse_ia_na.
  assert (Hh : length (to_be 4 iaid ++ to_be 4 t1 ++ to_be 4 t2) = 12%nat) by (by autorewrite with lens).
  rewrite bool_decide_eq_false_2 by (unfold ia_na_data; rewrite length_app, Hh; lia).
  rewrite (sub_mid [] (to_be 4 iaid) ((to_be 4 t1 ++ to_be 4 t2) ++ enc_options subs) 0 4)
    by (unfold ia_na_data; rewrite ?length_to_be, <- ?app_assoc; done).
  rewrite (sub_mid (to_be 4 iaid) (to_be 4 t1) (to_be 4 t2 ++ enc_options subs) 4 8)
    by (unfold ia_na_data; rewrite ?length_to_be, <- ?app_assoc; done).
  rewrite (sub_mid (to_be 4 iaid ++ to_be 4 t1) (to_be 4 t2) (enc_options subs) 8 12)
    by (unfold ia_na_data; rewrite ?length_app, ?length_to_be, <- ?app_assoc; done).
  cbn [mbind outcome_bind]. unfold ia_na_data at 1 2. rewrite (sub_tail _ _ 12) by done.
  cbn [mbind outcome_bind]. rewrite parse_options_enc by done. cbn [mbind outcome_bind].
  by rewrite !from_be_to_be.
Qed.

Lemma ia_suboption_addr ia a p v :
  is_uint 128 a -> is_u32 p -> is_u32 v ->
  ia_suboption ia (OPT_IA_ADDR, ia_addr_data a p v) =
    Ok (mkIaNa (ia_iaid ia) (ia_t1 ia) (ia_t2 ia) (Some a) p v (ia_status ia)).
Proof.
  intros Ha Hp Hv. unfold ia_suboption, ia_addr_data, octets6. rewrite Z.eqb_refl.
  rewrite bool_decide_eq_true_2 by (autorewrite with lens; lia). cbn [andb].
  rewrite (sub_mid [] (to_be 16 a) (to_be 4 p ++ to_be 4 v) 0 16) by (rewrite ?length_to_be; done).
  rewrite (sub_mid (to_be 16 a) (to_be 4 p) (to_be 4 v) 16 20) by (rewrite ?length_to_be; done).
  rewrite (sub_mid (to_be 16 a ++ to_be 4 p) (to_be 4 v) [] 20 24)
    by (rewrite ?app_nil_r, ?length_app, ?length_to_be, <- ?app_assoc; done).
  cbn [mbind outcome_bind]. by rewrite !from_be_to_be.
Qed.
Lemma ia_suboption_status ia c msg :
  is_u16 c ->
  ia_suboption ia (OPT_STATUS_CODE, to_be 2 c ++ str_bytes msg) =
    Ok (mkIaNa (ia_iaid ia) (ia_t1 ia) (ia_t2 ia) (ia_address ia) (ia_preferred ia) (ia_valid ia)
          (Some (c, from_utf8_lossy (str_bytes msg)))).
Proof.
  intros Hc. unfold ia_suboption. replace (OPT_STATUS_CODE =? OPT_IA_ADDR) with false by done.
  rewrite Z.eqb_refl. cbn [andb]. rewrite bool_decide_eq_true_2 by (autorewrite with lens; lia).
  rewrite (sub_mid [] (to_be 2 c) (str_bytes msg) 0 2) by (rewrite ?length_to_be; done).
  cbn [mbind outcome_bind]. rewrite (sub_tail (to_be 2 c)) by (by rewrite length_to_be).
  cbn [mbind outcome_bind]. by rewrite from_be_to_be.
Qed.

(** The options of the four-message exchange's Request, and of Renew, Rebind
    and Release. *)
Definition ia_request_options (mac : list Z) (server_id : option (list Z))
    (iaid addr preferred valid elapsed : Z) : list (Z * list Z) :=
  [(OPT_CLIENTID, duid_ll mac)]
  ++ (match server_id with Some sid => [(OPT_SERVERID, sid)] | None => [] end)
  ++ [(OPT_ELAPSED_TIME, to_be 2 elapsed); (OPT_ORO, oro);
      (OPT_IA_NA, ia_na_data iaid 0 0 [(OPT_IA_ADDR, ia_addr_data addr preferred valid)])].

Lemma build_ia_request_options ty x mac sid iaid a p v cs :
  build_ia_request ty x mac sid iaid a p v cs =
    ([ty] ++ x) ++ enc_options (ia_request_options mac sid iaid a p v cs).
Proof.
  unfold build_ia_request, ia_request_options, ia_na_data, ia_addr_data.
  rewrite (enc_options_first (to_be 4 iaid ++ to_be 4 0 ++ to_be 4 0)).
  rewrite (enc_options_first ([ty] ++ x) OPT_CLIENTID).
  destruct sid as [sid|]; by rewrite !enc_options_snoc.
Qed.

Lemma match_message_enc ty x opts :
  length x = 3%nat -> Forall option6_ok opts ->
  match_message x (([ty] ++ x) ++ enc_options opts) = Ok (ty, opts).
Proof.
  intros Hx Ho. unfold match_message.
  rewrite bool_decide_eq_false_2 by (rewrite !length_app; cbn [length]; lia).
  rewrite (sub_mid [ty] x (enc_options opts) 1 4) by (rewrite <- ?app_assoc; cbn [length]; done || lia).
  cbn [mbind outcome_bind]. rewrite bool_decide_eq_true_2 by done. cbn [negb].
  rewrite (index_head ([ty] ++ x) _ 0 ty) by done. cbn [mbind outcome_bind].
  rewrite (sub_tail ([ty] ++ x)) by (rewrite length_app, Hx; done). cbn [mbind outcome_bind].
  by rewrite parse_options_enc.
Qed.

Lemma length_enc_options_single c d : length (enc_options [(c, d)]) = (4 + length d)%nat.
Proof. unfold enc_options. cbn [map concat]. by rewrite app_nil_r, length_enc_option. Qed.
Lemma length_ia_addr_data a p v : length (ia_addr_data a p v) = 24%nat.
Proof. unfold ia_addr_data, octets6. by autorewrite with lens. Qed.

Lemma ia_request_options_ok mac sid iaid a p v cs :
  mac_ok mac -> (match sid with Some s => Z.of_nat (length s) < 2 ^ 16 | None => True end) ->
  Forall option6_ok (ia_request_options mac sid iaid a p v cs).
Proof.
  intros [Hm _] Hs. unfold ia_request_options, option6_ok.
  repeat apply Forall_app_2; [|destruct sid|]; repeat constructor; cbn [fst snd]; try done.
  unfold duid_ll. rewrite length_app, Hm. done.
Qed.

(** What the server reads in a Request, Renew, Rebind or Release. *)
Lemma ia_request_reads_back ty x mac sid iaid a p v cs :
  length x = 3%nat -> mac_ok mac ->
  (match sid with Some s => Z.of_nat (length s) < 2 ^ 16 | None => True end) ->
  is_u32 iaid -> is_uint 128 a -> is_u32 p -> is_u32 v ->
  exists opts, match_message x (build_ia_request ty x mac sid iaid a p v cs) = Ok (ty, opts)
    /\ find_option opts OPT_CLIENTID = Some (duid_ll mac)
    /\ find_option opts OPT_SERVERID = sid
    /\ find_ia_na opts = Ok (Some (mkIaNa iaid 0 0 (Some a) p v None)).
Proof.
  intros Hx Hm Hs Hi Ha Hp Hv. exists (ia_request_options mac sid iaid a p v cs).
  rewrite build_ia_request_options, match_message_enc by (done || by apply ia_request_options_ok).
  split; [done|]. split; [done|]. split; [by destruct sid|].
  assert (Hf : find_option (ia_request_options mac sid iaid a p v cs) OPT_IA_NA =
    Some (ia_na_data iaid 0 0 [(OPT_IA_ADDR, ia_addr_data a p v)])) by (by destruct sid).
  unfold find_ia_na. rewrite Hf, parse_ia_na_data; try done.
  - cbn [ia_suboptions]. by rewrite ia_suboption_addr.
  - apply Forall_singleton. split; [done|]. cbn [snd]. rewrite length_ia_addr_data. done.
Qed.

(** ** The stateful exchange over any network *)

Definition ia_granted (ia : IaNa) (a : Z) : Prop :=
  ia_address ia = Some a /\ match ia_status ia with Some (c, _) => c = 0 | None => True end.

(** What is on the wire (RFC 8415, 21.1): a code and a length of two bytes each,
    then the data; bytes that hold no whole option end the list. *)
Inductive options_at : list Z -> list (Z * list Z) -> Prop :=
| oa_end buf : (forall c1 c2 l1 l2 rest, buf = c1 :: c2 :: l1 :: l2 :: rest -> (length rest < Z.to_nat (from_be [l1; l2]))%nat) -> options_at buf []
| oa_option c1 c2 l1 l2 data rest opts : Z.to_nat (from_be [l1; l2]) = length data -> options_at rest opts ->
    options_at (c1 :: c2 :: l1 :: l2 :: data ++ rest) ((from_be [c1; c2], data) :: opts).
(** A message of a type with a transaction id of three bytes, and its options. *)
Definition message (ty : Z) (x b : list Z) (opts : list (Z * list Z)) : Prop :=
  length x = 3%nat /\ exists rest, b = ty :: x ++ rest /\ options_at rest opts.
(** The data of the first option with a code, and of the last one that is long
    enough. *)
Definition first_option (code : Z) (opts : list (Z * list Z)) (data : list Z) : Prop :=
  exists l1 l2, opts = l1 ++ (code, data) :: l2 /\ forall o, In o l1 -> o.1 <> code.
Definition last_option (code : Z) (min : nat) (opts : list (Z * list Z)) : option (list Z) :=
  foldl (fun acc o => if (o.1 =? code) && bool_decide (min <= length o.2)%nat then Some o.2 else acc) None opts.
(** An identity association (21.4) with its address (21.6) and status (21.13). *)
Definition ia_on_wire (data : list Z) (ia : IaNa) : Prop :=
  exists i t1 t2 rest subs, data = i ++ t1 ++ t2 ++ rest /\ length i = 4%nat /\ length t1 = 4%nat /\ length t2 = 4%nat /\ options_at rest subs
    /\ ia_iaid ia = from_be i /\ ia_t1 ia = from_be t1 /\ ia_t2 ia = from_be t2
    /\ match last_option OPT_IA_ADDR 24 subs with
       | Some d => ia_address ia = Some (from_be (take 16 d)) /\ ia_preferred ia = from_be (take 4 (drop 16 d)) /\ ia_valid ia = from_be (take 4 (drop 20 d))
       | None => ia_address ia = None
       end
    /\ fst <$> ia_status ia = (fun d => from_be (take 2 d)) <$> last_option OPT_STATUS_CODE 2 subs.
Definition offers (opts : list (Z * list Z)) (ia : IaNa) (a : Z) : Prop :=
  (exists data, first_option OPT_IA_NA opts data /\ ia_on_wire data ia) /\ ia_granted ia a.

(** The conversations that end in a lease: a Reply to the Solicit, or an
    Advertise, a Request for what it offered from the server that offered it,
    and a Reply to that Request. *)
Inductive stateful_trace (fd : Z) (mac : list Z) (iaid : Z) (dest : dest_addr)
  : list sock_event -> Lease6 -> Prop :=
| rapid_commit x cs b opts sid ia a dns domains now :
    message MSG_REPLY x b opts -> first_option OPT_SERVERID opts sid -> offers opts ia a ->
    parse_dns_and_domain opts = Ok (dns, domains) ->
    stateful_trace fd mac iaid dest
      [EvSend fd (build_solicit x mac iaid cs) dest; EvRecv fd b]
      (mkLease6 a 128 (ia_iaid ia) sid dns domains (ia_preferred ia) (ia_valid ia) (ia_t1 ia) (ia_t2 ia) now)
| four_messages x cs b opts sid ia a x' cs' b' opts' sid' ia' a' dns domains now :
    message MSG_ADVERTISE x b opts -> first_option OPT_SERVERID opts sid -> offers opts ia a ->
    message MSG_REPLY x' b' opts' -> offers opts' ia' a' ->
    first_option OPT_SERVERID opts' sid' \/ ((forall o, In o opts' -> o.1 <> OPT_SERVERID) /\ sid' = sid) ->
    parse_dns_and_domain opts' = Ok (dns, domains) ->
    stateful_trace fd mac iaid dest
      [EvSend fd (build_solicit x mac iaid cs) dest; EvRecv fd b;
       EvSend fd (build_ia_request MSG_REQUEST x' mac (Some sid) iaid a (ia_preferred ia) (ia_valid ia) cs') dest;
       EvRecv fd b']
      (mkLease6 a' 128 (ia_iaid ia') sid' dns domains
         (ia_preferred ia') (ia_valid ia') (ia_t1 ia') (ia_t2 ia') now).

Lemma sub_is buf a b r : sub buf a b = Ok r -> (a <= b <= length buf)%nat /\ r = take (b - a) (drop a buf).
Proof. unfold sub, slice. case_bool_decide; [|done]. by intros [= <-]. Qed.
Lemma options_loop_at fuel buf out opts : parse_options_loop fuel buf out = Ok opts -> exists new, opts = out ++ new /\ options_at buf new.
Proof.
  revert buf out. induction fuel as [|fuel IH]; intros buf out; [done|]. cbn [parse_options_loop].
  case_bool_decide as Hl; [|intros [= <-]; exists []; rewrite app_nil_r; split; [done|]; apply oa_end; intros ????? ->; cbn in Hl; lia].
  destruct buf as [|c1 [|c2 [|l1 [|l2 buf]]]]; try (cbn in Hl; lia).
  intros (cb & [_ ->]%sub_is & (lb & [_ ->]%sub_is & Hr)%outcome_bind_Ok)%outcome_bind_Ok. revert Hr. cbn [take drop Nat.sub]. change (take 0 buf) with (@nil Z).
  set (len := Z.to_nat (from_be [l1; l2])). case_bool_decide as Hlen.
  - intros [= <-]. exists []. rewrite app_nil_r. split; [done|]. apply oa_end. intros ????? E. injection E as <- <- <- <- <-. cbn [length] in Hlen. fold len.
    lia.
  - intros (data & [Hd ->]%sub_is & (rest & Hs & Ho)%outcome_bind_Ok)%outcome_bind_Ok. cbn [length] in Hlen.
    rewrite slice_from_Some in Hs by (cbn [length]; lia). injection Hs as <-. destruct (IH _ _ Ho) as (new & -> & Hn).
    replace (4 + len - 4)%nat with len in * by lia. cbn [drop Nat.add] in *. eexists. split; [by rewrite <- app_assoc|].
    rewrite <- (take_drop len buf) at 1. apply oa_option; [|done].
    rewrite length_take. fold len.
    change (drop 0 buf) with buf. lia.
Qed.
Lemma options_wire buf opts : parse_options buf = Ok opts -> options_at buf opts.
Proof. by intros (new & -> & Hn)%options_loop_at. Qed.
Lemma match_message_wire x b ty opts : length x = 3%nat -> match_message x b = Ok (ty, opts) -> message ty x b opts.
Proof.
  intros Hx. unfold match_message. case_bool_decide as Hl; [done|]. intros (y & [_ ->]%sub_is & Hr)%outcome_bind_Ok. revert Hr.
  case_bool_decide as Hy; cbn [negb]; [|done]. destruct b as [|t b]; [cbn in Hl; lia|].
  intros (t' & Ht & (rest & [_ ->]%sub_is & (opts' & Ho & [= <- <-])%outcome_bind_Ok)%outcome_bind_Ok)%outcome_bind_Ok.
  cbn in Ht. injection Ht as <-. split; [done|]. cbn [drop Nat.sub] in Hy. exists (drop 3 b). split; [|].
  - rewrite <- Hy. by rewrite take_drop.
  - apply options_wire in Ho. cbn [drop] in Ho. rewrite take_ge in Ho; [done|]. cbn [length]. rewrite length_drop. lia.
Qed.
Lemma find_option_first opts code data : find_option opts code = Some data -> first_option code opts data.
Proof.
  unfold find_option. induction opts as [|[c d] opts IH]; [done|]. cbn [List.find fst]. destruct (Z.eqb_spec c code) as [->|Hc].
  - intros [= <-]. by exists [], opts.
  - intros (l1 & l2 & -> & Hl)%IH. exists ((c, d) :: l1), l2. split; [done|]. intros o [<-|Ho]; [done|by apply Hl].
Qed.
Lemma find_option_none opts code : find_option opts code = None -> forall o, In o opts -> o.1 <> code.
Proof.
  unfold find_option. induction opts as [|[c d] opts IH]; [by intros _ o []|]. cbn [List.find fst]. destruct (Z.eqb_spec c code); [done|].
  intros Hf o [<-|Ho]; [done|by apply IH].
Qed.
Lemma ia_suboptions_wire subs ia ia' : ia_suboptions subs ia = Ok ia' ->
  forall a0 s0,
  (match a0 with
   | Some d => ia_address ia = Some (from_be (take 16 d)) /\ ia_preferred ia = from_be (take 4 (drop 16 d)) /\ ia_valid ia = from_be (take 4 (drop 20 d))
   | None => ia_address ia = None end) ->
  fst <$> ia_status ia = (fun d => from_be (take 2 d)) <$> s0 ->
  ia_iaid ia' = ia_iaid ia /\ ia_t1 ia' = ia_t1 ia /\ ia_t2 ia' = ia_t2 ia
  /\ (match foldl (fun acc o => if (o.1 =? OPT_IA_ADDR) && bool_decide (24 <= length o.2)%nat then Some o.2 else acc) a0 subs with
      | Some d => ia_address ia' = Some (from_be (take 16 d)) /\ ia_preferred ia' = from_be (take 4 (drop 16 d)) /\ ia_valid ia' = from_be (take 4 (drop 20 d))
      | None => ia_address ia' = None end)
  /\ fst <$> ia_status ia' = (fun d => from_be (take 2 d)) <$>
       foldl (fun acc o => if (o.1 =? OPT_STATUS_CODE) && bool_decide (2 <= length o.2)%nat then Some o.2 else acc) s0 subs.
Proof.
  revert ia. induction subs as [|[c d] subs IH]; intros ia; cbn [ia_suboptions foldl]; [by intros [= <-]|].
  intros (ia1 & H1 & Hr)%outcome_bind_Ok a0 s0 Ha Hs. unfold ia_suboption in H1. cbn [fst snd]. destruct ((c =? OPT_IA_ADDR) && _) eqn:Ea.
  - apply andb_true_iff in Ea as [->%Z.eqb_eq _]. revert H1.
    intros (x & [_ ->]%sub_is & (p & [_ ->]%sub_is & (v & [_ ->]%sub_is & [= <-])%outcome_bind_Ok)%outcome_bind_Ok)%outcome_bind_Ok.
    by apply (IH _ Hr (Some d) s0).
  - destruct ((c =? OPT_STATUS_CODE) && _) eqn:Es.
    + revert H1. intros (x & [_ ->]%sub_is & (m & [_ ->]%sub_is & [= <-])%outcome_bind_Ok)%outcome_bind_Ok. by apply (IH _ Hr a0 (Some d)).
    + injection H1 as <-. by apply (IH _ Hr a0 s0).
Qed.
Lemma find_ia_na_wire opts ia : find_ia_na opts = Ok (Some ia) -> exists data, first_option OPT_IA_NA opts data /\ ia_on_wire data ia.
Proof.
  unfold find_ia_na. destruct (find_option opts OPT_IA_NA) as [data|] eqn:Ef; [|done]. intros Hp. exists data. split; [by apply find_option_first|].
  revert Hp. unfold parse_ia_na. case_bool_decide as Hl; [done|].
  intros (i & [_ ->]%sub_is & (t1 & [_ ->]%sub_is & (t2 & [_ ->]%sub_is & Hr)%outcome_bind_Ok)%outcome_bind_Ok)%outcome_bind_Ok. revert Hr.
  intros (rest & [_ ->]%sub_is & (subs & Hs%options_wire & (ia' & Hi & [= <-])%outcome_bind_Ok)%outcome_bind_Ok)%outcome_bind_Ok.
  destruct (ia_suboptions_wire _ _ _ Hi None None eq_refl eq_refl) as (E1 & E2 & E3 & E4 & E5).
  exists (take 4 data), (take 4 (drop 4 data)), (take 4 (drop 8 data)), (drop 12 data), subs. cbn [Nat.sub drop] in *.
  rewrite take_ge in Hs by (rewrite length_drop; lia). split_and!; [|rewrite ?length_take, ?length_drop; lia..|done|done|done|done|done|done].
  by rewrite <- (take_drop 4 data) at 1; rewrite <- (take_drop 4 (drop 4 data)) at 1; rewrite <- (take_drop 4 (drop 4 (drop 4 data))) at 1; rewrite !drop_drop.
Qed.

Lemma require_success_Ok ia : require_success ia = Ok tt ->
  match ia_status ia with Some (c, _) => c = 0 | None => True end.
Proof. unfold require_success. destruct (ia_status ia) as [[c m]|]; [|done].
  destruct (Z.eqb_spec c 0); done. Qed.

Section Trace.
Context {W : Type} `{Sockets W} `{Clock W}.
Implicit Types w : traced W.

Lemma instant_trace w t w' : instant_now w = (Ok t, w') -> w'.2 = w.2.
Proof. unfold instant_now, observe. pose proof (traced_instant w) as Ht.
  destruct (clk_instant w) as [t1 w1]. by intros [= <- <-]. Qed.
Lemma now_secs_trace w t w' : now_secs w = (Ok t, w') -> w'.2 = w.2.
Proof. unfold now_secs, observe. pose proof (traced_unix w) as Ht.
  destruct (clk_unix w) as [[s n] w1]. by intros [= <- <-]. Qed.
Lemma random_xid3_trace w x w' : random_xid3 w = (Ok x, w') -> w'.2 = w.2 /\ length x = 3%nat.
Proof. unfold random_xid3. pose proof (traced_unix w) as Ht.
  destruct (clk_unix w) as [[s n] w1]. by intros [= <- <-]. Qed.
Lemma elapsed_cs_trace start w x w' : elapsed_cs start w = (Ok x, w') -> w'.2 = w.2.
Proof. unfold elapsed_cs. rewrite M_bind_Ok. intros (t & w1 & Hi & [-> ->]%mret_Ok).
  by eapply instant_trace. Qed.
Lemma recv_matching_trace fd x w t opts w' :
  recv_matching fd x w = (Ok (t, opts), w') ->
  exists b, w'.2 = w.2 ++ [EvRecv fd b] /\ match_message x b = Ok (t, opts).
Proof.
  unfold recv_matching. rewrite M_bind_Ok. intros (b & w1 & Hr%io_try_Ok%traced_recv & [Hm ->]%lift_Ok).
  eauto.
Qed.
Lemma lease_from_reply_trace ia sid dns domains w l w' :
  lease_from_reply ia sid dns domains w = (Ok l, w') ->
  w'.2 = w.2 /\ exists a now, ia_granted ia a
    /\ l = mkLease6 a 128 (ia_iaid ia) sid dns domains (ia_preferred ia) (ia_valid ia) (ia_t1 ia) (ia_t2 ia) now.
Proof.
  unfold lease_from_reply. rewrite M_bind_Ok. intros ([] & w1 & [Hs ->]%lift_Ok & Hr). revert Hr.
  rewrite M_bind_Ok. intros (a & w2 & [Ha ->]%lift_Ok & Hr). revert Hr.
  rewrite M_bind_Ok. intros (now & w3 & Hn%now_secs_trace & [-> ->]%mret_Ok).
  split; [done|]. exists a, now. split; [|done]. split; [|by apply require_success_Ok].
  destruct (ia_address ia); cbn in Ha; by simplify_eq.
Qed.

Lemma find_ia_na_ok_or opts e ia w w1 w2 (r : option IaNa) :
  lift (find_ia_na opts) w = (Ok r, w1) -> lift (ok_or r e) w1 = (Ok ia, w2) ->
  find_ia_na opts = Ok (Some ia) /\ w2 = w.
Proof.
  intros [Hf ->]%lift_Ok [Ho ->]%lift_Ok. destruct r as [ia'|]; cbn in Ho; [|done]. by simplify_eq.
Qed.
Lemma lease_of_options_trace sid opts w l w' :
  lease_of_options sid opts w = (Ok l, w') ->
  w'.2 = w.2 /\ exists ia a dns domains now, find_ia_na opts = Ok (Some ia) /\ ia_granted ia a
    /\ parse_dns_and_domain opts = Ok (dns, domains)
    /\ l = mkLease6 a 128 (ia_iaid ia) (default sid (find_option opts OPT_SERVERID)) dns domains
             (ia_preferred ia) (ia_valid ia) (ia_t1 ia) (ia_t2 ia) now.
Proof.
  unfold lease_of_options. rewrite M_bind_Ok. intros (r & w1 & Hf & Hr). revert Hr.
  rewrite M_bind_Ok. intros (ia & w2 & Ho & Hr). destruct (find_ia_na_ok_or _ _ _ _ _ _ _ Hf Ho) as [Hia ->].
  revert Hr. rewrite M_bind_Ok. intros ([dns domains] & w3 & [Hd ->]%lift_Ok & Hr).
  apply lease_from_reply_trace in Hr as (Ht & a & now & Hg & ->). split; [done|].
  exists ia, a, dns, domains, now. done.
Qed.

(** Whatever the network delivers, a lease comes out of one of the two
    conversations, and nothing else was sent. *)
Lemma stateful_exchange_trace fd mac iaid dest w l w' :
  stateful_exchange fd mac iaid dest w = (Ok l, w') ->
  exists tr, w'.2 = w.2 ++ tr /\ stateful_trace fd mac iaid dest tr l.
Proof.
  unfold stateful_exchange. rewrite M_bind_Ok. intros (start & w1 & H1%instant_trace & Hr). revert Hr.
  rewrite M_bind_Ok. intros (x & w2 & [H2 Hx]%random_xid3_trace & Hr). revert Hr.
  rewrite M_bind_Ok. intros (cs & w3 & H3%elapsed_cs_trace & Hr). revert Hr.
  rewrite M_bind_Ok. intros ([] & w4 & H4%io_try_Ok%traced_send & Hr). revert Hr.
  rewrite M_bind_Ok. intros ([t opts] & w5 & (b & H5 & Hm)%recv_matching_trace & Hr). revert Hr.
  rewrite M_bind_Ok. intros ([sid ia] & w6 & [Hso ->]%lift_Ok & Hr).
  assert (Hw5 : w5.2 = w.2 ++ [EvSend fd (build_solicit x mac iaid cs) dest; EvRecv fd b]).
  { rewrite H5, H4, H3, H2, H1, <- app_assoc. done. }
  clear H1 H2 H3 H4 H5. unfold solicit_options in Hso.
  destruct (find_option opts OPT_SERVERID) as [sid'|] eqn:Hsid; cbn [ok_or mbind outcome_bind] in Hso; [|done].
  destruct (find_ia_na opts) as [[ia'|]|e|s] eqn:Hia; cbn [ok_or mbind outcome_bind] in Hso; try done.
  injection Hso as <- <-. destruct (Z.eqb_spec t MSG_REPLY) as [->|_].
  - revert Hr. rewrite M_bind_Ok. intros ([dns domains] & w7 & [Hd ->]%lift_Ok & Hr).
    apply lease_from_reply_trace in Hr as (Ht & a & now & Hg & ->). eexists. split; [by rewrite Ht|].
    eapply rapid_commit; [by apply match_message_wire|by apply find_option_first| |done]. split; [by apply find_ia_na_wire|done].
  - destruct (Z.eqb_spec t MSG_ADVERTISE) as [->|_]; cbn [negb] in Hr; [|by apply throw_Ok in Hr].
    revert Hr. rewrite M_bind_Ok. intros ([] & w7 & [Hs ->]%lift_Ok & Hr). revert Hr.
    rewrite M_bind_Ok. intros (a & w8 & [Ha ->]%lift_Ok & Hr). revert Hr.
    rewrite M_bind_Ok. intros (x' & w9 & [H9 Hx']%random_xid3_trace & Hr). revert Hr.
    rewrite M_bind_Ok. intros (cs' & w10 & H10%elapsed_cs_trace & Hr). revert Hr.
    rewrite M_bind_Ok. intros ([] & w11 & H11%io_try_Ok%traced_send & Hr). revert Hr.
    rewrite M_bind_Ok. intros ([t' opts'] & w12 & (b' & H12 & Hm')%recv_matching_trace & Hr).
    destruct (Z.eqb_spec t' MSG_REPLY) as [->|_]; cbn [negb] in Hr; [|by apply throw_Ok in Hr].
    apply lease_of_options_trace in Hr as (Ht & ia2 & a' & dns & domains & now & Hia2 & Hg & Hd & ->).
    eexists. split; [rewrite Ht, H12, H11, H10, H9, Hw5, <- !app_assoc; done|].
    eapply (four_messages _ _ _ _ x cs b opts sid' ia' a x' cs' b' opts' _ ia2 a'); try done; [by apply match_message_wire|by apply find_option_first| |by apply match_message_wire| |].
    + split; [by apply find_ia_na_wire|]. split; [|by apply require_success_Ok]. destruct (ia_address ia'); cbn in Ha; by simplify_eq.
    + split; [by apply find_ia_na_wire|done].
    + destruct (find_option opts' OPT_SERVERID) as [sid2|] eqn:E2; [left; by apply find_option_first|right]. split; [by apply find_option_none|done].
Qed.
End Trace.

(** ** Domain search lists *)

Definition label_ok (l : string) : Prop := is_ascii_str l = true /\ (0 < str_len l < 256)%nat.
#[export] Instance label_ok_dec l : Decision (label_ok l).
Proof. unfold label_ok. apply _. Defined.
Definition enc_label (l : string) : list Z := Z.of_nat (str_len l) :: str_bytes l.
Definition enc_name (ls : list string) : list Z := concat (map enc_label ls) ++ [0].

Lemma labels_loop_enc ls fuel pre post labels :
  Forall label_ok ls -> (length ls < fuel)%nat ->
  labels_loop fuel (pre ++ concat (map enc_label ls) ++ 0 :: post) (length pre) labels =
    Ok ((length pre + length (concat (map enc_label ls)))%nat, labels ++ ls).
Proof.
  revert fuel pre labels. induction ls as [|l ls IH]; intros fuel pre labels Hok Hf;
    (destruct fuel as [|fuel]; [cbn in Hf; lia|]); cbn [labels_loop map concat].
  - rewrite bool_decide_eq_true_2 by (rewrite !length_app; cbn [length]; lia).
    cbn [app]. rewrite index_app. cbn [mbind outcome_bind length]. rewrite Z.eqb_refl, app_nil_r.
    by rewrite Nat.add_0_r.
  - apply Forall_cons_1 in Hok as [[Ha Hl] Hok].
    set (tail := concat (map enc_label ls) ++ 0 :: post).
    assert (Hd : pre ++ (enc_label l ++ concat (map enc_label ls)) ++ 0 :: post =
      pre ++ Z.of_nat (str_len l) :: str_bytes l ++ tail) by (by rewrite <- app_assoc).
    rewrite Hd. rewrite bool_decide_eq_true_2 by (rewrite !length_app; cbn [length]; lia).
    rewrite index_app. cbn [mbind outcome_bind].
    rewrite (proj2 (Z.eqb_neq (Z.of_nat (str_len l)) 0)) by lia. rewrite Nat2Z.id.
    rewrite bool_decide_eq_false_2
      by (rewrite !length_app; cbn [length]; rewrite !length_app, length_str_bytes; lia).
    rewrite (sub_mid (pre ++ [Z.of_nat (str_len l)]) (str_bytes l) tail)
      by (rewrite ?length_app, ?length_str_bytes, <- ?app_assoc; cbn [length]; done || lia).
    cbn [mbind outcome_bind]. rewrite from_utf8_lossy_str by done.
    replace (pre ++ Z.of_nat (str_len l) :: str_bytes l ++ tail)
      with ((pre ++ enc_label l) ++ concat (map enc_label ls) ++ 0 :: post)
      by (unfold enc_label at 1; rewrite <- app_assoc; done).
    assert (Hlen : length (enc_label l) = S (str_len l)) by (cbn; by rewrite length_str_bytes).
    replace (S (length pre) + str_len l)%nat with (length (pre ++ enc_label l))
      by (rewrite length_app; lia).
    rewrite IH by (done || cbn in Hf; lia). rewrite !length_app, <- app_assoc. do 2 f_equal. lia.
Qed.

Lemma length_labels ls : (length ls <= length (concat (map enc_label ls)))%nat.
Proof. induction ls as [|l ls IH]; cbn [map concat length]; [lia|]. rewrite length_app. cbn. lia. Qed.

Lemma domains_loop_enc names fuel pre out :
  Forall (fun ls => ls <> [] /\ Forall label_ok ls) names ->
  (length (concat (map enc_name names)) < fuel)%nat ->
  domains_loop fuel (pre ++ concat (map enc_name names)) (length pre) out =
    Ok (out ++ map (join ".") names).
Proof.
  revert fuel pre out. induction names as [|ls names IH]; intros fuel pre out Hok Hf;
    (destruct fuel as [|fuel]; [lia|]); cbn [domains_loop map concat].
  - rewrite bool_decide_eq_false_2 by (rewrite !length_app; cbn [length]; lia). by rewrite app_nil_r.
  - apply Forall_cons_1 in Hok as [[Hne Hls] Hok].
    set (rest := concat (map enc_name names)).
    replace (pre ++ enc_name ls ++ rest)
      with (pre ++ concat (map enc_label ls) ++ 0 :: rest)
      by (unfold enc_name; by rewrite <- app_assoc).
    pose proof (length_labels ls) as Hll.
    rewrite bool_decide_eq_true_2 by (rewrite !length_app; cbn [length]; lia).
    rewrite labels_loop_enc by (done || (rewrite !length_app; cbn [length]; lia)).
    cbn [mbind outcome_bind app].
    replace (match ls with [] => out | _ :: _ => out ++ [join "." ls] end) with (out ++ [join "." ls])
      by (by destruct ls).
    replace (pre ++ concat (map enc_label ls) ++ 0 :: rest) with ((pre ++ enc_name ls) ++ rest)
      by (unfold enc_name at 1; by rewrite <- !app_assoc).
    replace (S (length pre + length (concat (map enc_label ls)))) with (length (pre ++ enc_name ls))
      by (unfold enc_name; rewrite !length_app; cbn [length]; lia).
    rewrite IH; [by rewrite <- app_assoc|done|].
    cbn [map concat] in Hf. unfold enc_name at 1 in Hf. rewrite !length_app in Hf. cbn [length] in Hf.
    unfold rest. lia.
Qed.
Lemma parse_domains_enc names :
  Forall (fun ls => ls <> [] /\ Forall label_ok ls) names ->
  parse_domains (concat (map enc_name names)) = Ok (map (join ".") names).
Proof. intros H. apply (domains_loop_enc names _ [] []); [done|lia]. Qed.

(** ** Timers *)

(** Three points of time in order, none of them past the clock's range. *)
Definition in_order (start : Z) (renew rebind expire : outcome Z) : Prop :=
  exists r b e, renew = Ok r /\ rebind = Ok b /\ expire = Ok e /\ start <= r <= b /\ b <= e.
Lemma added_in_order start a b c : 0 <= a <= b -> b <= c -> start + c < 2 ^ 63 ->
  in_order start (t ← time_add UNIX_EPOCH start; time_add t a) (t ← time_add UNIX_EPOCH start; time_add t b) (t ← time_add UNIX_EPOCH start; time_add t c).
Proof.
  intros Hab Hbc Hc. exists (start + a), (start + b), (start + c). unfold UNIX_EPOCH. rewrite (time_add_Ok 0) by lia.
  change (0 + start) with start. unfold mbind, outcome_bind. rewrite !time_add_Ok by lia. split_and!; try done; lia.
Qed.

(** ** Properties *)

(** C21: the stateful exchange follows RFC 8415.  Whenever it yields a lease, the
    messages on the socket were: a Solicit answered by a Reply to it that grants
    the address (rapid commit), or a Solicit answered by an Advertise, then a
    Request to that server for the advertised address answered by a Reply that
    grants the leased address.  On the wire, each answer is of that type and has
    the transaction id of the message it answers in the three bytes after it,
    its association carries the address and no status but success, and the lease
    has the address, lifetimes, timers and server of that Reply. *)
Theorem stateful_lease_backed {W} `{Sockets W} `{Clock W} fd mac iaid dest (w w' : traced W) l :
  stateful_exchange fd mac iaid dest w = (Ok l, w') ->
  exists tr, w'.2 = w.2 ++ tr /\ stateful_trace fd mac iaid dest tr l.
Proof. apply stateful_exchange_trace. Qed.

Definition demo_xid3 : list Z := match random_xid3 (sim_start []) with (Ok x, _) => x | _ => [] end.
Definition demo_address6 : Z := 2 ^ 125 + 5.
Definition demo_options6 : list (Z * list Z) :=
  [(OPT_SERVERID, [0; 3; 0; 1]);
   (OPT_IA_NA, ia_na_data 2 0 0 [(OPT_IA_ADDR, ia_addr_data demo_address6 3600 7200)])].
Definition demo_reply6 : list Z := ([MSG_REPLY] ++ demo_xid3) ++ enc_options demo_options6.
Definition demo_lease6 : Lease6 := mkLease6 demo_address6 128 2 [0; 3; 0; 1] [] [] 3600 7200 0 0 3.
Lemma stateful_lease_backed_witness :
  exists w', stateful_exchange 3 demo_mac 2 DestKernel (sim_start [inl demo_reply6], []) = (Ok demo_lease6, w') /\
  exists tr, w'.2 = [] ++ tr /\ stateful_trace 3 demo_mac 2 DestKernel tr demo_lease6.
Proof.
  eexists. assert (E : stateful_exchange 3 demo_mac 2 DestKernel (sim_start [inl demo_reply6], []) =
    (Ok demo_lease6, (stateful_exchange 3 demo_mac 2 DestKernel (sim_start [inl demo_reply6], [])).2))
    by (vm_compute; reflexivity).
  split; [exact E|]. exact (stateful_lease_backed 3 demo_mac 2 DestKernel _ _ _ E).
Defined.

(** A server reads in the client's Request, Renew or Rebind what the client
    means: the same transaction, the client's DUID, the addressed server (or
    none, for Rebind) and the wanted address with its lifetimes. *)
Theorem ia_request_roundtrip ty x mac sid iaid a p v cs :
  length x = 3%nat -> mac_ok mac ->
  (match sid with Some s => Z.of_nat (length s) < 2 ^ 16 | None => True end) ->
  is_u32 iaid -> is_uint 128 a -> is_u32 p -> is_u32 v ->
  exists opts, match_message x (build_ia_request ty x mac sid iaid a p v cs) = Ok (ty, opts)
    /\ find_option opts OPT_CLIENTID = Some (duid_ll mac)
    /\ find_option opts OPT_SERVERID = sid
    /\ find_ia_na opts = Ok (Some (mkIaNa iaid 0 0 (Some a) p v None)).
Proof. apply ia_request_reads_back. Qed.
Lemma ia_request_roundtrip_witness :
  exists opts, match_message [1; 2; 3] (build_ia_request MSG_RENEW [1; 2; 3] demo_mac (Some [0; 3; 0; 1]) 2 demo_address6 60 120 0)
    = Ok (MSG_RENEW, opts) /\ find_option opts OPT_SERVERID = Some [0; 3; 0; 1].
Proof.
  destruct (ia_request_roundtrip MSG_RENEW [1; 2; 3] demo_mac (Some [0; 3; 0; 1]) 2 demo_address6 60 120 0)
    as (opts & H1 & _ & H2 & _); [reflexivity|exact demo_mac_ok|by_decision..|].
  exists opts. split; [exact H1|exact H2].
Defined.

(** No datagram makes the DHCPv6 parsers panic: options, IA_NA blocks and
    DNS search lists are all total on any bytes. *)
Theorem dhcp6_parsers_total buf opts :
  is_ok (parse_options buf) /\ is_ok (parse_ia_na buf) /\ is_ok (parse_dns_and_domain opts).
Proof. split_and!; [apply parse_options_ok|apply parse_ia_na_ok|apply parse_dns_and_domain_ok]. Qed.

(** DHCPv6 options and search domains survive the wire: a list of options is
    read back in order, and a list of names in DNS label form is read back as
    the dotted names. *)
Theorem dhcp6_codec_roundtrip (opts : list (Z * list Z)) (names : list (list string)) :
  Forall option6_ok opts -> Forall (fun ls => ls <> [] /\ Forall label_ok ls) names ->
  parse_options (fold_left (fun buf o => push_option buf o.1 o.2) opts []) = Ok opts
  /\ parse_domains (concat (map enc_name names)) = Ok (map (join ".") names).
Proof.
  intros Ho Hn. split; [|by apply parse_domains_enc]. rewrite <- (parse_options_enc opts) by done. f_equal.
  clear Ho Hn. change (@nil Z) with ([] ++ enc_options []). rewrite <- (app_nil_l opts) at 2.
  generalize (@nil (Z * list Z)) as pre.
  induction opts as [|[c d] opts IH]; intros pre; cbn [fold_left]; [by rewrite app_nil_r|].
  cbn [fst snd]. rewrite enc_options_snoc, IH. by rewrite <- app_assoc.
Qed.
Lemma dhcp6_codec_roundtrip_witness :
  parse_options (fold_left (fun buf o => push_option buf o.1 o.2) demo_options6 []) = Ok demo_options6
  /\ parse_domains (concat (map enc_name [["corp"; "example"]; ["lan"]])) = Ok ["corp.example"; "lan"]%string.
Proof. apply (dhcp6_codec_roundtrip demo_options6 [["corp"; "example"]; ["lan"]]); by_decision. Defined.

(** Lease timers are ordered.  For DHCPv4: obtained, renewal, rebinding,
    expiry.  For DHCPv6 the same, with the defaults of half and seven eighths of
    the valid lifetime where the server suggests nothing, provided the server's
    own suggestions are ordered.  This is so for leases that expire within the
    clock's range. *)
Theorem lease_timers_ordered (l4 : Lease) (l : Lease6) :
  0 <= lease_time_secs l4 -> obtained_at_unix l4 + lease_time_secs l4 < 2 ^ 63 ->
  0 <= valid_lifetime_secs l -> l6_obtained_at_unix l + valid_lifetime_secs l < 2 ^ 63 ->
  (0 < t1_secs l -> t1_secs l <= (if 0 <? t2_secs l then t2_secs l else valid_lifetime_secs l * 7 / 8)) ->
  (0 < t2_secs l -> t2_secs l <= valid_lifetime_secs l) ->
  (t1_secs l <= 0 -> 0 < t2_secs l -> valid_lifetime_secs l / 2 <= t2_secs l) ->
  in_order (obtained_at_unix l4) (renewal_time l4) (rebind_time l4) (expires_at l4)
  /\ in_order (l6_obtained_at_unix l) (l6_renewal_time l) (l6_rebind_time l) (l6_expires_at l).
Proof.
  intros H4 E4 Hv E6 H1 H2 H3. assert (Hhalf : forall n, 0 <= n -> 0 <= n / 2 <= n * 7 / 8 /\ n * 7 / 8 <= n).
  { intros n Hn. pose proof (Z.div_pos n 2 Hn ltac:(lia)). split; [split; [done|]|apply Z.div_le_upper_bound; lia].
    apply Z.div_le_lower_bound; [lia|]. pose proof (Z.mul_div_le n 2). lia. }
  pose proof (Hhalf _ H4) as [Ha Hb]. pose proof (Hhalf _ Hv) as [Hc Hd]. split; apply added_in_order; try done.
  - destruct (Z.ltb_spec 0 (t1_secs l)), (Z.ltb_spec 0 (t2_secs l)); lia.
  - destruct (Z.ltb_spec 0 (t2_secs l)); lia.
Qed.
Lemma lease_timers_ordered_witness :
  in_order (l6_obtained_at_unix demo_lease6) (l6_renewal_time demo_lease6) (l6_rebind_time demo_lease6) (l6_expires_at demo_lease6).
Proof.
  apply (lease_timers_ordered (mkLease 0 0 None [] None 0 3600 0) demo_lease6); by_decision.
Defined.
End V6.
