(* ===== verification/Security.v ===== *)
(** * Security (security/validation.rs, permissions.rs, policy.rs, secrets.rs)

    The checks on everything that reaches a text configuration or a helper
    process, the decision who may do what, and the file backend for secrets. *)

From Stdlib Require Import Ascii String.
From S2P Require Import Prelude RustStr IpAddr Sys Persistence World.

(** ** Validation *)

Definition validate_interface_name (name : string) : outcome unit :=
  if bool_decide (name = "") || bool_decide (15 < str_len name)%nat
  then Err (Parse ("interface name '" +:+ name +:+ "' must be 1-15 characters"))
  else if contains_char "/" name || existsb is_whitespace (chars name)
          || bool_decide (name = ".") || bool_decide (name = "..")
  then Err (Parse ("interface name '" +:+ name +:+ "' contains invalid characters"))
  else Ok tt.

Definition QUOTE : ascii := "034".
Definition NEWLINE : ascii := "010".
Definition NUL : ascii := "000".
Definition BACKSLASH : ascii := "092".

Definition validate_ssid (ssid : string) : outcome unit :=
  if bool_decide (ssid = "") || bool_decide (32 < str_len ssid)%nat
  then Err (Parse "SSID must be 1-32 bytes")
  else if contains_char NUL ssid || contains_char NEWLINE ssid || contains_char QUOTE ssid
  then Err (Parse "SSID contains invalid characters")
  else Ok tt.

Definition validate_wpa_passphrase (pass : string) : outcome unit :=
  if bool_decide (str_len pass < 8)%nat || bool_decide (63 < str_len pass)%nat
  then Err (Parse "WPA passphrase must be 8-63 characters")
  else if negb (is_ascii_str pass) then Err (Parse "WPA passphrase must be ASCII")
  else Ok tt.

Definition identifier_char (c : Z) : bool :=
  is_ascii_alphanumeric c || (c =? 45) || (c =? 95) || (c =? 46).
Definition validate_identifier (id : string) : outcome unit :=
  if bool_decide (id = "") || bool_decide (64 < str_len id)%nat
  then Err (Parse ("identifier '" +:+ id +:+ "' must be 1-64 characters"))
  else if negb (forallb identifier_char (chars id))
  then Err (Parse ("identifier '" +:+ id +:+ "' may only contain letters, digits, '-', '_', '.'"))
  else Ok tt.

Definition validate_mac_address (mac : string) : outcome unit :=
  let bad := Err (Parse ("'" +:+ mac +:+ "' is not a valid MAC address")) in
  let octets := split ":" mac in
  if negb (bool_decide (length octets = 6%nat)) then bad
  else if forallb (fun o => bool_decide (str_len o = 2%nat) && forallb is_ascii_hexdigit (chars o)) octets
  then Ok tt else bad.

Definition validate_quoted_value (field value : string) : outcome unit :=
  if contains_char QUOTE value || contains_char BACKSLASH value || contains_char NUL value
     || contains_char NEWLINE value
  then Err (Wifi (field +:+ " may not contain a quote, backslash, or control character"))
  else Ok tt.

Definition validate_cert_path (field path : string) : outcome unit :=
  if negb (starts_with "/" path) then Err (Config (field +:+ " must be an absolute path"))
  else validate_quoted_value field path.

Definition KNOWN_EAP_METHODS : list string :=
  ["TLS"; "PEAP"; "TTLS"; "FAST"; "LEAP"; "PWD"; "PSK"; "PAX"; "SAKE"; "GPSK"; "IKEV2"; "TNC";
   "GTC"; "MD5"; "OTP"; "SIM"; "AKA"; "AKA'"; "WSC"; "TEAP"].
Definition validate_eap_method (method : string) : outcome unit :=
  if negb (existsb (String.eqb (to_ascii_uppercase method)) KNOWN_EAP_METHODS)
  then Err (Wifi ("'" +:+ method +:+ "' is not a recognized EAP method"))
  else Ok tt.

(** ** Who is asking *)

Record PeerIdentity := mkPeer { uid : Z; gid : Z; pid : Z }.
Definition is_root (p : PeerIdentity) : bool := uid p =? 0.

(** libc's account database: [getgrnam], [getpwuid], [getgrgid]. *)
Class Accounts := {
  getgrnam : string -> option Z;
  getpwuid : Z -> option string;
  getgrgid_members : Z -> option (list string)
}.

Section Identity.
Context `{Accounts}.

Definition group_gid (name : string) : option Z :=
  if contains_char NUL name then None else getgrnam name.
Definition uid_in_supplementary_group (u g : Z) : bool :=
  match getpwuid u with
  | None => false
  | Some username =>
      match getgrgid_members g with
      | None => false
      | Some members => existsb (String.eqb username) members
      end
  end.
Definition in_group (p : PeerIdentity) (group_name : string) : bool :=
  if is_root p then true
  else match group_gid group_name with
       | Some g => (g =? gid p) || uid_in_supplementary_group (uid p) g
       | None => false
       end.
End Identity.

Inductive Capability :=
| ViewState | ManageConnections | ManageWifi | ManageVpn | ManageFirewall | ManageHotspot
| ManageBluetooth | ManageProxy | Admin.
#[export] Instance Capability_eq_dec : EqDecision Capability.
Proof. solve_decision. Defined.
Definition capability_debug (c : Capability) : string :=
  match c with
  | ViewState => "ViewState" | ManageConnections => "ManageConnections" | ManageWifi => "ManageWifi"
  | ManageVpn => "ManageVpn" | ManageFirewall => "ManageFirewall" | ManageHotspot => "ManageHotspot"
  | ManageBluetooth => "ManageBluetooth" | ManageProxy => "ManageProxy" | Admin => "Admin"
  end.

Definition PRIVILEGED_GROUP : string := "netdev".
Definition check `{Accounts} (identity : PeerIdentity) (capability : Capability) : outcome unit :=
  let allowed := match capability with
                 | ViewState => true
                 | Admin => is_root identity
                 | _ => is_root identity || in_group identity PRIVILEGED_GROUP
                 end in
  if allowed then Ok tt
  else Err (PermissionDenied ("uid " +:+ dec (uid identity) +:+ " lacks " +:+ capability_debug capability)).

(** ** Secrets *)

(** The [SecretsBackend] trait. *)
Class SecretsBackend (B W : Type) := {
  secret_get : B -> string -> string -> M W (option string);
  secret_set : B -> string -> string -> string -> M W unit;
  secret_delete_all : B -> string -> M W unit
}.

Record FileSecretsBackend := mkFileSecrets { secrets_dir : string }.
Definition file_secrets_new (data_dir : string) : FileSecretsBackend :=
  mkFileSecrets (path_join data_dir "secrets").

Definition secret_path (b : FileSecretsBackend) (owner key : string) : outcome string :=
  validate_identifier owner ;;
  validate_identifier key ;;
  Ok (path_join (secrets_dir b) (owner +:+ "." +:+ key)).

Section Secrets.
Context {W : Type} `{FileSystem W}.

Definition file_get (b : FileSecretsBackend) (owner key : string) : M W (option string) :=
  path ← lift (secret_path b owner key);
  r ← io_match (fs_read path);
  match r with
  | inl s => mret (Some s)
  | inr e => if is_not_found e then mret None else throw (Io e)
  end.

Definition file_set (b : FileSecretsBackend) (owner key value : string) : M W unit :=
  path ← lift (secret_path b owner key);
  io_try (fs_create_dir_all (secrets_dir b)) ;;
  io_ignore (fs_chmod (secrets_dir b) 448) ;;
  let tmp := with_extension path "tmp" in
  io_try (fs_write tmp "") ;;
  io_try (fs_chmod tmp 384) ;;
  io_try (fs_write tmp value) ;;
  io_try (fs_rename tmp path).

(** [let _ = std::fs::remove_file(entry.path())] for the matching entries. *)
Fixpoint remove_matching (dir prefix : string) (entries : list string) : M W unit :=
  match entries with
  | [] => mret tt
  | f :: entries =>
      (if starts_with prefix f then io_ignore (fs_remove (path_join dir f)) else mret tt) ;;
      remove_matching dir prefix entries
  end.
Definition file_delete_all (b : FileSecretsBackend) (owner : string) : M W unit :=
  lift (validate_identifier owner) ;;
  r ← io_match (fs_read_dir (secrets_dir b));
  match r with
  | inl entries => remove_matching (secrets_dir b) (owner +:+ ".") entries
  | inr e => if is_not_found e then mret tt else throw (Io e)
  end.

#[export] Instance file_secrets : SecretsBackend FileSecretsBackend W :=
  {| secret_get := file_get; secret_set := file_set; secret_delete_all := file_delete_all |}.
End Secrets.

Inductive NullSecretsBackend := NullSecrets.
#[export] Instance null_secrets {W} : SecretsBackend NullSecretsBackend W :=
  {| secret_get _ _ _ := mret None;
     secret_set _ owner _ _ := throw (Other ("no secrets backend configured; cannot store a secret for '"
                                              +:+ owner +:+ "'"));
     secret_delete_all _ _ := mret tt |}.

(** ** What the checks guarantee *)

Lemma identifier_char_ascii c : identifier_char c = true -> c < 128.
Proof.
  unfold identifier_char, is_ascii_alphanumeric, is_ascii_alpha, is_upper, is_lower, is_digit. lia.
Qed.
Lemma validate_identifier_Ok id :
  validate_identifier id = Ok tt <->
  id <> "" /\ (str_len id <= 64)%nat /\ forallb identifier_char (str_bytes id) = true.
Proof.
  unfold validate_identifier. split.
  - repeat case_bool_decide; cbn [orb]; try done. destruct (forallb _ (chars id)) eqn:E; [|done].
    cbn [negb]. intros _. apply chars_forallb in E as [_ E]; [|apply identifier_char_ascii].
    split_and!; [done|lia|done].
  - intros (Hne & Hl & Hb). rewrite bool_decide_eq_false_2, bool_decide_eq_false_2 by (done || lia).
    cbn [orb]. assert (chars id = str_bytes id) as ->; [|by rewrite Hb].
    apply lossy_ascii, List.Forall_forall. intros c Hc. rewrite forallb_forall in Hb.
    specialize (Hb c Hc). pose proof (str_bytes_ok id) as Hu. unfold bytes_ok in Hu.
    rewrite List.Forall_forall in Hu. specialize (Hu c Hc). unfold is_uint in Hu.
    apply identifier_char_ascii in Hb. lia.
Qed.
(** An identifier holds none of the characters with a meaning in a path or in
    a generated configuration. *)
Lemma identifier_no_char id c :
  validate_identifier id = Ok tt -> identifier_char (byte_of c) = false -> contains_char c id = false.
Proof.
  intros (_ & _ & Hb)%validate_identifier_Ok Hc. unfold contains_char.
  apply not_true_iff_false. rewrite existsb_exists. intros (b & Hin & He). apply Z.eqb_eq in He. subst b.
  rewrite forallb_forall in Hb. specialize (Hb _ Hin). congruence.
Qed.

Lemma validate_interface_name_Ok name :
  validate_interface_name name = Ok tt ->
  name <> "" /\ (str_len name <= 15)%nat /\ contains_char "/" name = false
  /\ existsb is_whitespace (chars name) = false /\ name <> "." /\ name <> "..".
Proof.
  unfold validate_interface_name. repeat case_bool_decide; cbn [orb]; rewrite ?orb_true_r, ?orb_false_r; try done.
  destruct (contains_char "/" name) eqn:E1; [done|]. destruct (existsb _ _) eqn:E2; [done|].
  intros _. split_and!; (done || lia).
Qed.

Lemma secret_path_Ok b owner key p :
  secret_path b owner key = Ok p <->
  validate_identifier owner = Ok tt /\ validate_identifier key = Ok tt
  /\ p = path_join (secrets_dir b) (owner +:+ "." +:+ key).
Proof.
  unfold secret_path. rewrite !outcome_bind_Ok. split.
  - intros ([] & Ho & ([] & Hk & [= <-])%outcome_bind_Ok). done.
  - intros (Ho & Hk & ->). exists tt. split; [done|]. rewrite outcome_bind_Ok. by exists tt.
Qed.

(** No owner or key leads out of the secrets directory. *)
Lemma secret_path_confined b owner key p :
  secrets_dir b <> "" -> ends_with "/" (secrets_dir b) = false ->
  secret_path b owner key = Ok p ->
  p = secrets_dir b +:+ "/" +:+ (owner +:+ "." +:+ key)
  /\ contains_char "/" (owner +:+ "." +:+ key) = false
  /\ owner +:+ "." +:+ key <> "." /\ owner +:+ "." +:+ key <> "..".
Proof.
  intros Hd1 Hd2 (Ho & Hk & ->)%secret_path_Ok.
  pose proof (identifier_no_char owner "/" Ho eq_refl) as Ho1.
  pose proof (identifier_no_char key "/" Hk eq_refl) as Hk1.
  apply validate_identifier_Ok in Ho as (Hon & _ & _). apply validate_identifier_Ok in Hk as (Hkn & _ & _).
  assert (Hf : contains_char "/" (owner +:+ "." +:+ key) = false).
  { rewrite !contains_char_app, Ho1, Hk1. done. }
  assert (Hlen : (3 <= str_len (owner +:+ "." +:+ key))%nat).
  { rewrite !str_len_app. destruct owner; [done|]. destruct key; [done|]. cbn. lia. }
  unfold path_join. rewrite bool_decide_eq_false_2, Hd2 by done. cbn [orb].
  destruct (starts_with "/" (owner +:+ "." +:+ key)) eqn:Es.
  { apply starts_with_spec in Es as [r Hr]. rewrite Hr, contains_char_app in Hf. done. }
  split_and!; [done|done| |]; intros E; rewrite E in Hlen; cbn in Hlen; lia.
Qed.

Section SecretStore.
Context {W : Type} `{FileSystemLaws W} (b : FileSecretsBackend).

Lemma io_ignore_run {A} (c : io W A) w : io_ignore c w = (Ok tt, (c w).2).
Proof. done. Qed.

(** A secret that was stored is the secret read; a failed [set] leaves the old
    one; only the secret's own file and its temp file change. *)
Lemma file_set_replaces owner key value path w :
  secret_path b owner key = Ok path ->
  let tmp := with_extension path "tmp" in
  let r := file_set b owner key value w in
  (forall p, p <> path -> p <> tmp -> files r.2 !! p = files w !! p)
  /\ (r.1 = Ok tt -> files r.2 !! path = Some value)
  /\ (r.1 <> Ok tt -> tmp <> path -> files r.2 !! path = files w !! path).
Proof.
  intros Hp tmp. unfold file_set, mbind, M_bind, lift, io_try, io_ignore. rewrite Hp. fold tmp.
  pose proof (law_create_dir (secrets_dir b) w) as H1.
  destruct (fs_create_dir_all (secrets_dir b) w) as [[[]|e] w1]; cbn [fst snd] in *; [|by rewrite H1].
  pose proof (law_chmod (secrets_dir b) 448 w1) as H2.
  set (w2 := (fs_chmod (secrets_dir b) 448 w1).2) in *.
  pose proof (law_write tmp "" w2) as H3.
  destruct (fs_write tmp "" w2) as [[[]|e] w3]; cbn [fst snd].
  2:{ assert (Hl : forall p, p <> tmp -> files w3 !! p = files w !! p).
      { intros p Hpt. rewrite <- (lookup_delete_ne _ tmp p), H3, lookup_delete_ne, H2, H1 by done. done. }
      split_and!; intros; [by apply Hl|done|apply Hl; done]. }
  pose proof (law_chmod tmp 384 w3) as H4.
  assert (Hl3 : forall p, p <> tmp -> files w3 !! p = files w !! p).
  { intros p Hpt. rewrite H3, lookup_insert_ne, H2, H1 by done. done. }
  destruct (fs_chmod tmp 384 w3) as [[[]|e] w4]; cbn [fst snd] in *.
  2:{ rewrite H4. split_and!; intros; [by apply Hl3|done|apply Hl3; done]. }
  pose proof (write_then_rename_gen path tmp value w4) as H5.
  unfold mbind, M_bind, io_try in H5.
  assert (Hl4 : forall p, p <> tmp -> files w4 !! p = files w !! p) by (intros; rewrite H4; by apply Hl3).
  destruct (fs_write tmp value w4) as [[[]|e] w5]; [destruct (fs_rename tmp path w5) as [[[]|e] w6]|];
    cbn [fst snd] in *; destruct H5 as (Ha & Hb & Hc);
    (split_and!; intros; [rewrite Ha by done; by apply Hl4| |rewrite Hc by done; apply Hl4; done]); auto.
Qed.

Lemma file_get_run owner key path w :
  secret_path b owner key = Ok path ->
  match file_get b owner key w with
  | (Ok r, _) => r = files w !! path
  | (Err (Io _), _) => True
  | _ => False
  end.
Proof.
  intros Hp. unfold file_get, mbind, M_bind, lift, io_match. rewrite Hp.
  pose proof (law_read path w) as Hr. destruct (fs_read path w) as [[s|e] w1]; [by destruct Hr as [-> _]|].
  destruct Hr as [Hn _]. destruct (is_not_found e); [by rewrite Hn|done].
Qed.

Lemma remove_matching_keeps prefix entries w p :
  (forall f, In f entries -> starts_with prefix f = true -> p <> path_join (secrets_dir b) f) ->
  files (remove_matching (secrets_dir b) prefix entries w).2 !! p = files w !! p.
Proof.
  revert w. induction entries as [|f entries IH]; intros w Hk; [done|].
  cbn [remove_matching]. unfold mbind, M_bind. destruct (starts_with prefix f) eqn:E.
  - rewrite io_ignore_run. rewrite IH by (intros; apply Hk; [by right|done]).
    pose proof (law_remove (path_join (secrets_dir b) f) w) as Hr.
    destruct (fs_remove (path_join (secrets_dir b) f) w) as [[[]|e] w1]; cbn [snd].
    + rewrite Hr, lookup_delete_ne; [done|]. intros Heq. by apply (Hk f (or_introl eq_refl) E).
    + by destruct Hr as [_ ->].
  - unfold mret, M_ret. apply IH. intros; apply Hk; [by right|done].
Qed.
End SecretStore.

(** ** Properties *)

(** A secret's file stays in the secrets directory: whatever the owner and
    the key, a path is formed only from identifiers, and it is the directory
    followed by one plain file name without a slash that is not [.] or [..]. *)
Theorem secrets_confined b owner key p :
  secrets_dir b <> "" -> ends_with "/" (secrets_dir b) = false ->
  secret_path b owner key = Ok p ->
  p = secrets_dir b +:+ "/" +:+ (owner +:+ "." +:+ key)
  /\ contains_char "/" (owner +:+ "." +:+ key) = false
  /\ owner +:+ "." +:+ key <> "." /\ owner +:+ "." +:+ key <> "..".
Proof. apply secret_path_confined. Qed.
Definition demo_secrets : FileSecretsBackend := file_secrets_new "/var/lib/mitos".
Lemma secrets_confined_witness : contains_char "/" ("home" +:+ "." +:+ "psk") = false.
Proof.
  apply (secrets_confined demo_secrets "home" "psk" "/var/lib/mitos/secrets/home.psk"); [by_decision|reflexivity|].
  vm_compute. reflexivity.
Defined.

(** A stored secret is read back: after [set] succeeds, [get] of the same
    owner and key gives the value (or an I/O error of the read), every other file
    but the temporary one is as before, and a [set] that fails leaves the old
    secret in place unless the key is the temporary file's own. *)
Theorem secret_set_get {W} `{FileSystemLaws W} b owner key value path (w : W) :
  secret_path b owner key = Ok path ->
  let tmp := with_extension path "tmp" in
  let '(r, w') := file_set b owner key value w in
  (forall p, p <> path -> p <> tmp -> files w' !! p = files w !! p)
  /\ (r = Ok tt -> match file_get b owner key w' with
                   | (Ok x, _) => x = Some value
                   | (Err (Io _), _) => True
                   | _ => False
                   end)
  /\ (r <> Ok tt -> tmp <> path -> files w' !! path = files w !! path).
Proof.
  intros Hp tmp. pose proof (file_set_replaces b owner key value path w Hp) as (H1 & H2 & H3). fold tmp in H1, H3.
  destruct (file_set b owner key value w) as [r w']. cbn [fst snd] in *. split_and!; [done| |done].
  intros Hr. specialize (H2 Hr). pose proof (file_get_run b owner key path w' Hp) as Hg.
  destruct (file_get b owner key w') as [[x|[]|s] w2]; try done. by rewrite Hg.
Qed.
Lemma secret_set_get_witness :
  (file_get demo_secrets "home" "psk" (file_set demo_secrets "home" "psk" "hunter22" (sim_start [])).2).1
    = Ok (Some "hunter22"%string).
Proof.
  pose proof (secret_set_get demo_secrets "home" "psk" "hunter22" "/var/lib/mitos/secrets/home.psk" (sim_start [])
                eq_refl) as H.
  destruct (file_set demo_secrets "home" "psk" "hunter22" (sim_start [])) as [r w'] eqn:E. cbn [snd].
  assert (Hr : r = Ok tt) by (vm_compute in E; by injection E). destruct H as (_ & H & _). specialize (H Hr).
  destruct (file_get demo_secrets "home" "psk" w') as [[x|e|s] w2] eqn:E2; cbn [fst].
  - exact (f_equal Ok H).
  - exfalso. vm_compute in E. injection E as _ Ew. subst w'. vm_compute in E2. discriminate.
  - exfalso. exact H.
Defined.
