(* ===== verification/Firewall.v ===== *)
(** * The firewall (firewall/rules.rs, zones.rs, firewall.rs, nftables.rs)

    [Firewall] owns the zones, the rules and the sharing pairs, renders them to
    an nftables ruleset and loads it after every change.  The methods run on
    the firewall's state beside the world: a failed load keeps the change. *)

From Stdlib Require Import Ascii String.
From S2P Require Import Prelude RustStr IpAddr Sys Persistence World Security.

(** ** Rules and zones *)

Inductive Direction := Inbound | Outbound.
Inductive Action := Accept | Drop | Reject.
Inductive Protocol := Tcp | Udp | Icmp.
#[export] Instance Direction_eq_dec : EqDecision Direction.
Proof. solve_decision. Defined.

Definition nft_name (p : Protocol) : string :=
  match p with Tcp => "tcp" | Udp => "udp" | Icmp => "icmp" end.

Record PortSpec := mkPortSpec { port_start : Z; port_end : option Z }.
Definition port_single (port : Z) : PortSpec := mkPortSpec port None.
Definition nft_expr (p : PortSpec) : string :=
  match port_end p with
  | Some e => dec (port_start p) +:+ "-" +:+ dec e
  | None => dec (port_start p)
  end.

Record Rule := mkRule {
  rule_id : string;
  rule_zone : string;
  direction : Direction;
  action : Action;
  rule_protocol : option Protocol;
  port : option PortSpec;
  source : option string
}.
Definition allow_inbound_port (id zone : string) (p : Protocol) (prt : Z) : Rule :=
  mkRule id zone Inbound Accept (Some p) (Some (port_single prt)) None.

Inductive DefaultPolicy := PolicyAccept | PolicyDrop.
Record Zone := mkZone { zone_name : string; default_policy : DefaultPolicy; interfaces : list string }.
Definition builtin_zones : list Zone :=
  [mkZone "public" PolicyDrop []; mkZone "home" PolicyDrop [];
   mkZone "trusted" PolicyAccept []; mkZone "block" PolicyDrop []].
Definition DEFAULT_ZONE : string := "public".

(** ** Rendering *)

Definition nl : string := String NEWLINE "".
Definition quoted (s : string) : string := String QUOTE (s +:+ String QUOTE "").
Definition TABLE_NAME : string := "mitos_network".

Definition nft_action (a : Action) : string :=
  match a with Accept => "accept" | Drop => "drop" | Reject => "reject" end.

Definition render_rule (r : Rule) : string :=
  (match rule_protocol r with
   | Some proto =>
       nft_name proto +:+ (match port r with Some p => " dport " +:+ nft_expr p +:+ " " | None => " " end)
   | None => ""
   end)
  +:+ (match source r with Some src => "ip saddr " +:+ src +:+ " " | None => "" end)
  +:+ nft_action (action r).

(** [String::push_str] over a list of pieces. *)
Definition concat_str (l : list string) : string := fold_right String.append "" l.

Definition iface_set (z : Zone) : string := join ", " (map quoted (interfaces z)).
Definition zone_rules (rules : list Rule) (z : Zone) : list Rule :=
  List.filter (fun r => String.eqb (rule_zone r) (zone_name z) && bool_decide (direction r = Inbound)) rules.
Definition render_zone (rules : list Rule) (z : Zone) : string :=
  match interfaces z with
  | [] => ""
  | _ =>
      (match default_policy z with
       | PolicyAccept => "        iifname { " +:+ iface_set z +:+ " } accept" +:+ nl
       | PolicyDrop => "" end)
      +:+ concat_str (map (fun r => "        iifname { " +:+ iface_set z +:+ " } " +:+ render_rule r +:+ nl)
                        (zone_rules rules z))
  end.

Definition render (zones : list Zone) (rules : list Rule) (masquerade : list string)
    (forward : list (string * string)) : string :=
  concat_str (
    ["# Generated by mitos-network. Do not edit by hand --" +:+ nl;
     "# changes here are overwritten on the next firewall reload." +:+ nl;
     "table inet " +:+ TABLE_NAME +:+ " {" +:+ nl;
     "    chain input {" +:+ nl;
     "        type filter hook input priority 0; policy drop;" +:+ nl;
     "        ct state established,related accept" +:+ nl;
     "        ct state invalid drop" +:+ nl;
     "        iifname " +:+ quoted "lo" +:+ " accept" +:+ nl]
    ++ map (render_zone rules) zones
    ++ ["    }" +:+ nl +:+ nl;
        "    chain forward {" +:+ nl;
        "        type filter hook forward priority 0; policy drop;" +:+ nl;
        "        ct state established,related accept" +:+ nl]
    ++ map (fun p => "        iifname " +:+ quoted p.1 +:+ " oifname " +:+ quoted p.2 +:+ " accept" +:+ nl) forward
    ++ ["    }" +:+ nl +:+ nl;
        "    chain output {" +:+ nl;
        "        type filter hook output priority 0; policy accept;" +:+ nl]
    ++ map (fun r => "        " +:+ render_rule r +:+ nl)
         (List.filter (fun r => bool_decide (direction r = Outbound)) rules)
    ++ ["    }" +:+ nl]
    ++ (match masquerade with
        | [] => []
        | _ =>
            [nl +:+ "    chain postrouting {" +:+ nl;
             "        type nat hook postrouting priority 100;" +:+ nl]
            ++ map (fun i => "        oifname " +:+ quoted i +:+ " masquerade" +:+ nl) masquerade
            ++ ["    }" +:+ nl]
        end)
    ++ ["}" +:+ nl]).

Section Nft.
Context {W : Type} `{Processes W}.

Definition nft_apply (ruleset : string) : M W unit :=
  io_ignore (run_command "nft" ["delete"; "table"; "inet"; TABLE_NAME]) ;;
  r ← observe (run_fed "nft" ["-f"; "-"] ruleset);
  match r with
  | FedError e => throw (Firewall ("failed to run nft: " +:+ io_err_text e))
  | FedNoThread => lift (Panic SPAWN)
  | FedOutput output =>
      if negb (out_success output)
      then throw (Firewall ("nft -f exited with " +:+ out_status output +:+ ": "
                            +:+ trim (from_utf8_lossy (out_stderr output))))
      else mret tt
  end.
End Nft.

(** ** The firewall *)

Record FirewallState := mkFirewall {
  zones : list Zone;
  rules : list Rule;
  masquerade_interfaces : list string;
  forward_pairs : list (string * string)
}.
Definition firewall_new : FirewallState := mkFirewall builtin_zones [] [] [].
Definition render_state (f : FirewallState) : string :=
  render (zones f) (rules f) (masquerade_interfaces f) (forward_pairs f).

(** The changes the methods make before they apply. *)
Definition assign_in_zones (interface zone : string) (zs : list Zone) : list Zone :=
  let zs := map (fun z => mkZone (zone_name z) (default_policy z)
                            (retain (fun i => negb (String.eqb i interface)) (interfaces z))) zs in
  match position (fun z => String.eqb (zone_name z) zone) zs with
  | Some i => alter (fun z => mkZone (zone_name z) (default_policy z) (interfaces z ++ [interface])) i zs
  | None => zs
  end.
Definition with_zones (f : FirewallState) (zs : list Zone) : FirewallState :=
  mkFirewall zs (rules f) (masquerade_interfaces f) (forward_pairs f).
Definition with_rules (f : FirewallState) (rs : list Rule) : FirewallState :=
  mkFirewall (zones f) rs (masquerade_interfaces f) (forward_pairs f).
Definition share (f : FirewallState) (lan wan : string) : FirewallState :=
  let masq := if existsb (String.eqb wan) (masquerade_interfaces f) then masquerade_interfaces f
              else masquerade_interfaces f ++ [wan] in
  let fwd := if existsb (fun p => bool_decide (p = (lan, wan))) (forward_pairs f) then forward_pairs f
             else forward_pairs f ++ [(lan, wan)] in
  mkFirewall (zones f) (rules f) masq fwd.
Definition unshare (f : FirewallState) (lan wan : string) : FirewallState :=
  let fwd := retain (fun p => negb (String.eqb p.1 lan && String.eqb p.2 wan)) (forward_pairs f) in
  let masq := if existsb (fun p => String.eqb p.2 wan) fwd then masquerade_interfaces f
              else retain (fun i => negb (String.eqb i wan)) (masquerade_interfaces f) in
  mkFirewall (zones f) (rules f) masq fwd.
Definition has_zone (f : FirewallState) (name : string) : bool :=
  existsb (fun z => String.eqb (zone_name z) name) (zones f).
Definition is_assigned (f : FirewallState) (interface : string) : bool :=
  existsb (fun z => existsb (String.eqb interface) (interfaces z)) (zones f).

Section Methods.
Context {W : Type} `{Processes W}.
Abbreviation FM := (M (FirewallState * W)).

Definition fw_get : FM FirewallState := fun s => (Ok s.1, s).
Definition fw_put (f : FirewallState) : FM unit := fun s => (Ok tt, (f, s.2)).
Definition fw_world {A} (c : M W A) : FM A := fun s => let '(r, w) := c s.2 in (r, (s.1, w)).

Definition fw_apply : FM unit := f ← fw_get; fw_world (nft_apply (render_state f)).

Definition assign_zone (interface zone : string) : FM unit :=
  lift (validate_interface_name interface) ;;
  f ← fw_get;
  if negb (has_zone f zone) then throw (Firewall ("unknown zone '" +:+ zone +:+ "'"))
  else fw_put (with_zones f (assign_in_zones interface zone (zones f))) ;; fw_apply.

Definition ensure_default_zone (interface : string) : FM unit :=
  f ← fw_get;
  if is_assigned f interface then mret tt else assign_zone interface DEFAULT_ZONE.

Definition source_ok (src : option string) : outcome unit :=
  match src with
  | None => Ok tt
  | Some s =>
      match parse_cidr s with
      | Ok _ => Ok tt
      | Err _ => Err (Firewall ("'" +:+ s +:+ "' is not a valid source address/CIDR"))
      | Panic w => Panic w
      end
  end.
Definition add_rule (r : Rule) : FM unit :=
  lift (validate_identifier (rule_id r)) ;;
  f ← fw_get;
  if negb (has_zone f (rule_zone r)) then throw (Firewall ("unknown zone '" +:+ rule_zone r +:+ "'"))
  else
    lift (source_ok (source r)) ;;
    fw_put (with_rules f (retain (fun x => negb (String.eqb (rule_id x) (rule_id r))) (rules f) ++ [r])) ;;
    fw_apply.

Definition remove_rule (id : string) : FM unit :=
  f ← fw_get;
  fw_put (with_rules f (retain (fun x => negb (String.eqb (rule_id x) id)) (rules f))) ;;
  fw_apply.

Definition enable_sharing (lan wan : string) : FM unit :=
  lift (validate_interface_name lan) ;;
  lift (validate_interface_name wan) ;;
  f ← fw_get;
  fw_put (share f lan wan) ;;
  fw_apply.

Definition disable_sharing (lan wan : string) : FM unit :=
  f ← fw_get;
  fw_put (unshare f lan wan) ;;
  fw_apply.

(** ** Runs of the firewall *)

Inductive fw_op :=
| OpAssign (interface zone : string)
| OpEnsure (interface : string)
| OpAddRule (r : Rule)
| OpRemoveRule (id : string)
| OpEnableSharing (lan wan : string)
| OpDisableSharing (lan wan : string).
Definition run_op (o : fw_op) : FM unit :=
  match o with
  | OpAssign i z => assign_zone i z
  | OpEnsure i => ensure_default_zone i
  | OpAddRule r => add_rule r
  | OpRemoveRule id => remove_rule id
  | OpEnableSharing l w => enable_sharing l w
  | OpDisableSharing l w => disable_sharing l w
  end.
(** Each request is answered whatever the one before it ended in. *)
Fixpoint run_ops (ops : list fw_op) (s : FirewallState * W) : FirewallState * W :=
  match ops with
  | [] => s
  | o :: ops => run_ops ops (run_op o s).2
  end.
End Methods.

(** ** The invariant *)

Definition rule_ok (names : list string) (r : Rule) : Prop :=
  validate_identifier (rule_id r) = Ok tt /\ In (rule_zone r) names /\ source_ok (source r) = Ok tt.

Record fw_ok (f : FirewallState) : Prop := {
  (** the four built-in zones, for ever *)
  fw_names : map zone_name (zones f) = map zone_name builtin_zones;
  (** an interface is in at most one zone, and once *)
  fw_nodup : List.NoDup (concat (map interfaces (zones f)));
  fw_ifaces : forall i, In i (concat (map interfaces (zones f))) -> validate_interface_name i = Ok tt;
  fw_ids : List.NoDup (map rule_id (rules f));
  fw_rules : forall r, In r (rules f) -> rule_ok (map zone_name (zones f)) r;
  fw_pairs : List.NoDup (forward_pairs f);
  (** what is masqueraded is what some pair forwards to *)
  fw_masq : forall i, In i (masquerade_interfaces f) <-> exists lan, In (lan, i) (forward_pairs f)
}.

Lemma firewall_new_ok : fw_ok firewall_new.
Proof. split; cbn; try done; try constructor; try done. by intros [??]. Qed.

Lemma existsb_eqb_In (x : string) l : existsb (String.eqb x) l = true <-> In x l.
Proof.
  rewrite existsb_exists. split; [intros (y & Hy & ->%String.eqb_eq); done|].
  intros H. exists x. by rewrite String.eqb_refl.
Qed.
Lemma has_zone_In f z : has_zone f z = true <-> In z (map zone_name (zones f)).
Proof.
  unfold has_zone. rewrite existsb_exists, in_map_iff.
  split; intros (x & H1 & H2); exists x; [apply String.eqb_eq in H2|rewrite String.eqb_eq]; done.
Qed.

Definition strip_iface (interface : string) (z : Zone) : Zone :=
  mkZone (zone_name z) (default_policy z) (retain (fun i => negb (String.eqb i interface)) (interfaces z)).
Definition push_iface (interface : string) (z : Zone) : Zone :=
  mkZone (zone_name z) (default_policy z) (interfaces z ++ [interface]).

Lemma strip_concat i zs :
  concat (map interfaces (map (strip_iface i) zs)) =
  retain (fun x => negb (String.eqb x i)) (concat (map interfaces zs)).
Proof.
  induction zs as [|z zs IH]; cbn; [done|]. rewrite IH. unfold retain. by rewrite List.filter_app.
Qed.
Lemma alter_push_concat i n zs :
  (n < length zs)%nat ->
  Permutation (concat (map interfaces (alter (push_iface i) n zs))) (i :: concat (map interfaces zs)).
Proof.
  revert n. induction zs as [|z zs IH]; intros [|n] Hn; cbn in *; try lia.
  - rewrite <- app_assoc. cbn. by rewrite <- Permutation_middle.
  - change (alter (push_iface i) (S n) (z :: zs)) with (z :: alter (push_iface i) n zs). cbn.
    rewrite IH by lia. by rewrite Permutation_middle.
Qed.
Lemma alter_names i n zs : map zone_name (alter (push_iface i) n zs) = map zone_name zs.
Proof.
  revert n. induction zs as [|z zs IH]; intros [|n]; cbn; try done.
  change (alter (push_iface i) (S n) (z :: zs)) with (z :: alter (push_iface i) n zs). cbn. by rewrite IH.
Qed.
Lemma position_Some {A} (p : A -> bool) l n :
  position p l = Some n -> exists x, l !! n = Some x /\ p x = true.
Proof.
  revert n. induction l as [|a l IH]; intros n; cbn; [done|].
  destruct (p a) eqn:E; [intros [= <-]; eauto|].
  destruct (position p l) as [m|]; cbn; [|done]. intros [= <-]. by apply IH.
Qed.
Lemma position_In {A} (p : A -> bool) l : existsb p l = true -> is_Some (position p l).
Proof.
  induction l as [|a l IH]; cbn; [done|]. destruct (p a); [by eexists|]. cbn. intros [n ->]%IH. by eexists.
Qed.
Lemma strip_names i zs : map zone_name (map (strip_iface i) zs) = map zone_name zs.
Proof. by rewrite map_map. Qed.

(** [assign_in_zones] names the position it changes. *)
Lemma assign_in_zones_spec i zone zs :
  In zone (map zone_name zs) ->
  exists n z, map (strip_iface i) zs !! n = Some z /\ zone_name z = zone
    /\ assign_in_zones i zone zs = alter (push_iface i) n (map (strip_iface i) zs).
Proof.
  intros Hin. unfold assign_in_zones. fold (strip_iface i).
  change (map (fun z => mkZone (zone_name z) (default_policy z)
    (retain (fun x => negb (String.eqb x i)) (interfaces z))) zs) with (map (strip_iface i) zs).
  destruct (position_In (fun z => String.eqb (zone_name z) zone) (map (strip_iface i) zs)) as [n Hn].
  { rewrite existsb_exists. rewrite <- (strip_names i) in Hin. apply in_map_iff in Hin as (z & Hz & Hin).
    exists z. split; [done|]. by rewrite Hz, String.eqb_refl. }
  rewrite Hn. apply position_Some in Hn as (z & Hz & He). apply String.eqb_eq in He.
  exists n, z. done.
Qed.

Lemma assign_in_zones_perm i zone zs :
  In zone (map zone_name zs) ->
  Permutation (concat (map interfaces (assign_in_zones i zone zs)))
    (i :: retain (fun x => negb (String.eqb x i)) (concat (map interfaces zs))).
Proof.
  intros Hin. destruct (assign_in_zones_spec i zone zs Hin) as (n & z & Hz & _ & ->).
  rewrite alter_push_concat by (by eapply lookup_lt_Some). by rewrite strip_concat.
Qed.

Lemma fw_ok_assign f i zone :
  fw_ok f -> validate_interface_name i = Ok tt -> In zone (map zone_name (zones f)) ->
  fw_ok (with_zones f (assign_in_zones i zone (zones f))).
Proof.
  intros [H1 H2 H3 H4 H5 H6 H7] Hi Hz. pose proof (assign_in_zones_perm i zone (zones f) Hz) as Hp.
  assert (Hn : map zone_name (assign_in_zones i zone (zones f)) = map zone_name (zones f)).
  { destruct (assign_in_zones_spec i zone (zones f) Hz) as (n & z & _ & _ & ->).
    by rewrite alter_names, strip_names. }
  split; cbn [with_zones zones rules forward_pairs masquerade_interfaces]; try done.
  - by rewrite Hn.
  - eapply Permutation_NoDup; [by symmetry|]. constructor; [|by apply List.NoDup_filter].
    rewrite retain_In, String.eqb_refl. by intros [_ ?].
  - intros j Hj. rewrite Hp in Hj. destruct Hj as [<-|[Hj _]%retain_In]; auto.
  - by rewrite Hn.
Qed.

Lemma NoDup_snoc {A} (l : list A) x : List.NoDup l -> ~ In x l -> List.NoDup (l ++ [x]).
Proof.
  intros Hl Hx. eapply Permutation_NoDup; [apply Permutation_cons_append|]. by constructor.
Qed.

Lemma fw_ok_add_rule f r :
  fw_ok f -> rule_ok (map zone_name (zones f)) r ->
  fw_ok (with_rules f (retain (fun x => negb (String.eqb (rule_id x) (rule_id r))) (rules f) ++ [r])).
Proof.
  intros [H1 H2 H3 H4 H5 H6 H7] Hr. split; cbn [with_rules zones rules forward_pairs masquerade_interfaces];
    try done.
  - rewrite map_app. cbn [map]. apply NoDup_snoc; [by apply retain_map_NoDup|].
    rewrite in_map_iff. intros (x & Hx & [_ Hf]%retain_In). by rewrite Hx, String.eqb_refl in Hf.
  - intros x [[Hx _]%retain_In|[<-|[]]]%in_app_iff; auto.
Qed.
Lemma fw_ok_remove_rule f id :
  fw_ok f -> fw_ok (with_rules f (retain (fun x => negb (String.eqb (rule_id x) id)) (rules f))).
Proof.
  intros [H1 H2 H3 H4 H5 H6 H7]. split; cbn [with_rules zones rules forward_pairs masquerade_interfaces];
    try done; [by apply retain_map_NoDup|]. intros x [Hx _]%retain_In. auto.
Qed.
Lemma existsb_pair_In (p : string * string) l : existsb (fun q => bool_decide (q = p)) l = true <-> In p l.
Proof.
  rewrite existsb_exists. split; [intros (q & Hq & ->%bool_decide_eq_true_1); done|].
  intros H. exists p. by rewrite bool_decide_eq_true_2.
Qed.
Lemma fw_ok_share f lan wan : fw_ok f -> fw_ok (share f lan wan).
Proof.
  intros [H1 H2 H3 H4 H5 H6 H7]. unfold share.
  pose proof (existsb_pair_In (lan, wan) (forward_pairs f)) as Hp.
  pose proof (existsb_eqb_In wan (masquerade_interfaces f)) as Hm.
  split; cbn [zones rules forward_pairs masquerade_interfaces]; try done.
  - destruct (existsb _ (forward_pairs f)); [done|]. apply NoDup_snoc; [done|]. intros Hin. by apply Hp in Hin.
  - intros i. assert (Hpw : existsb (fun q => bool_decide (q = (lan, wan))) (forward_pairs f) = true ->
      exists l, In (l, wan) (forward_pairs f)) by (intros Hx; exists lan; by apply Hp).
    destruct (existsb (String.eqb wan) _), (existsb _ (forward_pairs f));
      rewrite ?in_app_iff, H7; cbn [In].
    + done.
    + split; [intros (l & Hl); exists l; apply in_app_iff; by left|].
      intros (l & [Hl|[[= _ <-]|[]]]%in_app_iff); [by exists l|]. by apply H7, Hm.
    + split; [intros [?|[<-|[]]]; auto|by left].
    + split.
      * intros [(l & Hl)|[<-|[]]]; [exists l|exists lan]; apply in_app_iff; cbn; tauto.
      * intros (l & [Hl|[[= _ <-]|[]]]%in_app_iff); [left; by exists l|tauto].
Qed.
Lemma fw_ok_unshare f lan wan : fw_ok f -> fw_ok (unshare f lan wan).
Proof.
  intros [H1 H2 H3 H4 H5 H6 H7]. unfold unshare.
  set (keep := fun p : string * string => negb (String.eqb p.1 lan && String.eqb p.2 wan)).
  assert (Hkeep : forall l i, i <> wan -> In (l, i) (retain keep (forward_pairs f)) <-> In (l, i) (forward_pairs f)).
  { intros l i Hi. rewrite retain_In. unfold keep. cbn. rewrite (proj2 (String.eqb_neq i wan) Hi), andb_false_r.
    cbn. tauto. }
  split; cbn [zones rules forward_pairs masquerade_interfaces]; try done.
  - by apply List.NoDup_filter.
  - intros i. destruct (existsb (fun p => String.eqb p.2 wan) (retain keep (forward_pairs f))) eqn:E.
    + rewrite H7. destruct (decide (i = wan)) as [->|Hne].
      * split; [|intros (l & [Hl _]%retain_In); by exists l]. intros _.
        apply existsb_exists in E as ([l w] & Hl & Hw%String.eqb_eq). cbn in Hw. subst w. by exists l.
      * by setoid_rewrite (fun l => Hkeep l i Hne).
    + rewrite retain_In, H7. destruct (decide (i = wan)) as [->|Hne].
      * rewrite String.eqb_refl. split; [by intros [_ ?]|]. intros (l & Hl). exfalso.
        apply not_true_iff_false in E. apply E. apply existsb_exists. exists (l, wan).
        by rewrite String.eqb_refl.
      * rewrite (proj2 (String.eqb_neq i wan) Hne). setoid_rewrite (fun l => Hkeep l i Hne). cbn. tauto.
Qed.

(** ** Every method keeps the invariant, whatever nft answers *)

Section Preserve.
Context {W : Type} `{Processes W}.
Implicit Types s : FirewallState * W.

Lemma fw_apply_state s : (fw_apply s).2.1 = s.1.
Proof. unfold fw_apply, mbind, M_bind, fw_get, fw_world. by destruct (nft_apply (render_state s.1) s.2). Qed.
Lemma fw_put_apply f s : ((fw_put f ;; fw_apply) s).2.1 = f.
Proof. unfold mbind, M_bind, fw_put. by rewrite fw_apply_state. Qed.

Lemma assign_zone_ok i z s : fw_ok s.1 -> fw_ok (assign_zone i z s).2.1.
Proof.
  intros Hok. unfold assign_zone. unfold mbind at 1, M_bind at 1, lift at 1.
  destruct (validate_interface_name i) as [[]|e|p] eqn:Hi; [|done..].
  unfold mbind at 1, M_bind at 1, fw_get at 1.
  destruct (has_zone s.1 z) eqn:Hz; cbn [negb]; [|done].
  rewrite fw_put_apply. apply fw_ok_assign; [done..|by apply has_zone_In].
Qed.
Lemma ensure_default_zone_ok i s : fw_ok s.1 -> fw_ok (ensure_default_zone i s).2.1.
Proof.
  intros Hok. unfold ensure_default_zone. unfold mbind at 1, M_bind at 1, fw_get at 1.
  destruct (is_assigned s.1 i); [done|]. by apply assign_zone_ok.
Qed.
Lemma add_rule_ok r s : fw_ok s.1 -> fw_ok (add_rule r s).2.1.
Proof.
  intros Hok. unfold add_rule. unfold mbind at 1, M_bind at 1, lift at 1.
  destruct (validate_identifier (rule_id r)) as [[]|e|p] eqn:Hi; [|done..].
  unfold mbind at 1, M_bind at 1, fw_get at 1.
  destruct (has_zone s.1 (rule_zone r)) eqn:Hz; cbn [negb]; [|done].
  unfold mbind at 1, M_bind at 1, lift at 1.
  destruct (source_ok (source r)) as [[]|e|p] eqn:Hs; [|done..].
  rewrite fw_put_apply. apply fw_ok_add_rule; [done|]. split_and!; [done|by apply has_zone_In|done].
Qed.
Lemma remove_rule_ok id s : fw_ok s.1 -> fw_ok (remove_rule id s).2.1.
Proof.
  intros Hok. unfold remove_rule. unfold mbind at 1, M_bind at 1, fw_get at 1.
  rewrite fw_put_apply. by apply fw_ok_remove_rule.
Qed.
Lemma enable_sharing_ok l w s : fw_ok s.1 -> fw_ok (enable_sharing l w s).2.1.
Proof.
  intros Hok. unfold enable_sharing. unfold mbind at 1, M_bind at 1, lift at 1.
  destruct (validate_interface_name l) as [[]|e|p]; [|done..].
  unfold mbind at 1, M_bind at 1, lift at 1. destruct (validate_interface_name w) as [[]|e|p]; [|done..].
  unfold mbind at 1, M_bind at 1, fw_get at 1. rewrite fw_put_apply. by apply fw_ok_share.
Qed.
Lemma disable_sharing_ok l w s : fw_ok s.1 -> fw_ok (disable_sharing l w s).2.1.
Proof.
  intros Hok. unfold disable_sharing. unfold mbind at 1, M_bind at 1, fw_get at 1.
  rewrite fw_put_apply. by apply fw_ok_unshare.
Qed.
#[local] Hint Resolve assign_zone_ok ensure_default_zone_ok add_rule_ok remove_rule_ok
  enable_sharing_ok disable_sharing_ok : mitos.
Lemma run_op_ok o s : fw_ok s.1 -> fw_ok (run_op o s).2.1.
Proof. destruct o; cbn [run_op]; auto with mitos. Qed.
Lemma run_ops_ok ops s : fw_ok s.1 -> fw_ok (run_ops ops s).1.
Proof. revert s. induction ops as [|o ops IH]; intros s Hs; cbn [run_ops]; [done|]. by apply IH, run_op_ok. Qed.
End Preserve.

(** ** Rule text *)

(** The characters a rendered rule is made of. *)
Definition rule_text_char (b : Z) : bool :=
  is_ascii_alphanumeric b || (b =? 32) || (b =? 43) || (b =? 45) || (b =? 46) || (b =? 47) || (b =? 58).
Abbreviation plain_text s := (forallb rule_text_char (str_bytes s) = true).

Lemma plain_app s t : plain_text s -> plain_text t -> plain_text (s +:+ t).
Proof. intros Hs Ht. by rewrite str_bytes_app, forallb_app, Hs, Ht. Qed.
Lemma ip_char_plain b : ip_char b || (b =? 43) || (b =? 47) = true -> rule_text_char b = true.
Proof.
  unfold ip_char, is_ascii_hexdigit, rule_text_char, is_ascii_alphanumeric, is_ascii_alpha, is_digit,
    is_upper, is_lower. lia.
Qed.
Lemma source_plain src : source_ok (Some src) = Ok tt -> plain_text src.
Proof.
  unfold source_ok. destruct (parse_cidr src) as [r|e|p] eqn:E; [|done..]. intros _.
  apply parse_cidr_chars in E. apply forallb_forall. intros b Hb. rewrite forallb_forall in E.
  by apply ip_char_plain, E.
Qed.
Lemma dec_plain n : 0 <= n -> plain_text (dec n).
Proof.
  intros Hn. apply forallb_forall. intros b Hb. apply dec_digits in Hb; [|done].
  unfold rule_text_char, is_ascii_alphanumeric. by rewrite Hb, orb_true_r.
Qed.
Definition port_ok (p : option PortSpec) : Prop :=
  match p with
  | Some p => is_u16 (port_start p) /\ match port_end p with Some e => is_u16 e | None => True end
  | None => True
  end.
Lemma nft_expr_plain p : port_ok (Some p) -> plain_text (nft_expr p).
Proof.
  intros [Hs He]. unfold nft_expr, is_uint in *. destruct (port_end p) as [e|].
  - apply plain_app; [apply dec_plain; lia|]. apply plain_app; [done|apply dec_plain; lia].
  - apply dec_plain. lia.
Qed.
Lemma render_rule_plain names r : rule_ok names r -> port_ok (port r) -> plain_text (render_rule r).
Proof.
  intros (_ & _ & Hs) Hp. unfold render_rule. apply plain_app; [|apply plain_app].
  - destruct (rule_protocol r) as [pr|]; [|done]. apply plain_app; [by destruct pr|].
    destruct (port r) as [p|]; [|done]. do 2 (apply plain_app; [done || by apply nft_expr_plain|]). done.
  - destruct (source r) as [src|]; [|done]. apply plain_app; [done|]. apply plain_app; [|done].
    by apply source_plain.
  - by destruct (action r).
Qed.

(** ** What the kernel ends up with *)

(** What nft's answer says of the table.  A run that reports success has done
    what it was asked, one that reports a failure has changed nothing, since it
    works in one transaction; of a run whose status cannot be had nothing is
    known but that it did one or the other. *)
Definition deleted (r : Output + io_error) (before after : option string) : Prop :=
  match r with
  | inl o => after = if out_success o then None else before
  | inr _ => after = None \/ after = before
  end.
(** Loading into a table that is there adds to it. *)
Definition loaded (t : string) (r : fed) (before after : option string) : Prop :=
  match r with
  | FedOutput o => if out_success o then is_Some after /\ (before = None -> after = Some t) else after = before
  | FedError _ => after = before \/ (is_Some after /\ (before = None -> after = Some t))
  | FedNoThread => after = before
  end.
Class NftLaws (W : Type) `{Processes W} := {
  nft_table : W -> option string;
  law_nft_delete w : let '(r, w') := run_command "nft" ["delete"; "table"; "inet"; TABLE_NAME] w in deleted r (nft_table w) (nft_table w');
  law_nft_load t w : let '(r, w') := run_fed "nft" ["-f"; "-"] t w in loaded t r (nft_table w) (nft_table w')
}.

Section Kernel.
Context {W : Type} `{NftLaws W}.

(** The two runs of [apply]. *)
Definition delete_run (w : W) : (Output + io_error) * W := run_command "nft" ["delete"; "table"; "inet"; TABLE_NAME] w.
Definition load_run (t : string) (w : W) : fed * W := run_fed "nft" ["-f"; "-"] t (delete_run w).2.
Definition reports_success (r : Output + io_error) : bool := match r with inl o => out_success o | inr _ => false end.
Lemma nft_apply_runs t (w : W) :
  (nft_apply t w).2 = (load_run t w).2
  /\ match (load_run t w).1 with
     | FedOutput o => if out_success o then (nft_apply t w).1 = Ok tt else exists e, (nft_apply t w).1 = Err e
     | FedError _ => exists e, (nft_apply t w).1 = Err e
     | FedNoThread => (nft_apply t w).1 = Panic SPAWN
     end.
Proof.
  unfold nft_apply, load_run, delete_run, mbind, M_bind, io_ignore. set (w1 := (run_command _ _ w).2). rewrite observe_run.
  destruct (run_fed _ _ _ w1) as [[e| |o] w2]; cbn; [split; [done|by eexists]|done|]. destruct (out_success o); cbn; [done|]. split; [done|by eexists].
Qed.
Lemma fw_apply_runs (s : FirewallState * W) :
  (fw_apply s).2.2 = (nft_apply (render_state s.1) s.2).2 /\ (fw_apply s).1 = (nft_apply (render_state s.1) s.2).1.
Proof. unfold fw_apply, fw_get, fw_world, mbind, M_bind. by destruct (nft_apply (render_state s.1) s.2) as [r w]. Qed.
End Kernel.

(** ** Properties *)

(** C15: the firewall's configuration stays well formed under any sequence of
    requests, those that fail or whose [nft] run fails included: the zones are
    the built-in ones, an interface is in at most one zone, rule ids are unique,
    every rule names an existing zone and has a CIDR source, and exactly the
    interfaces that some sharing pair forwards to are masqueraded. *)
Theorem firewall_invariant {W} `{Processes W} (ops : list fw_op) (w : W) :
  fw_ok (run_ops ops (firewall_new, w)).1.
Proof. apply run_ops_ok. apply firewall_new_ok. Qed.

(** C32: no accepted rule can inject text into the ruleset: after any sequence of
    requests, what a rule renders to is letters, digits, spaces and [+-./:], with
    no quote, semicolon, brace or newline. *)
Theorem firewall_rule_text {W} `{Processes W} (ops : list fw_op) (w : W) r :
  In r (rules (run_ops ops (firewall_new, w)).1) -> port_ok (port r) ->
  forallb rule_text_char (str_bytes (render_rule r)) = true.
Proof.
  intros Hr Hp. pose proof (run_ops_ok ops (firewall_new, w) firewall_new_ok) as Hok.
  by eapply render_rule_plain; [eapply fw_rules|].
Qed.
Definition demo_rule : Rule := mkRule "ssh" "home" Inbound Accept (Some Tcp) (Some (port_single 22)) (Some "10.0.0.0/8").
Lemma firewall_rule_text_witness :
  forallb rule_text_char (str_bytes (render_rule demo_rule)) = true.
Proof.
  apply (firewall_rule_text [OpAddRule demo_rule] (sim_start [])).
  - vm_compute. left. reflexivity.
  - vm_compute. split; [split; [discriminate|reflexivity]|exact I].
Defined.

(** C35: what [apply] makes of the kernel's table, by what its two runs of nft
    report.  It is [Ok] just when the load reports success; then the table is the
    rendered configuration, provided that the run before it deleted the old
    table or there was none.  Where the load is refused, [apply] is an error and
    there is no table at all if the old one was deleted, and the old one
    otherwise: the deletion is a run of its own, so the replacement is not
    atomic.  Where the thread that feeds nft cannot be made, it panics after the
    deletion. *)
Theorem firewall_apply_table {W} `{NftLaws W} (f : FirewallState) (w : W) :
  let '(r, (_, w')) := fw_apply (f, w) in
  let removed := reports_success (delete_run w).1 in
  match (load_run (render_state f) w).1 with
  | FedOutput o =>
      if out_success o then r = Ok tt /\ (removed = true \/ nft_table w = None -> nft_table w' = Some (render_state f))
      else (exists e, r = Err e) /\ (removed = true -> nft_table w' = None)
           /\ (forall o', (delete_run w).1 = inl o' -> removed = false -> nft_table w' = nft_table w)
  | FedError _ => exists e, r = Err e
  | FedNoThread => r = Panic SPAWN /\ (removed = true -> nft_table w' = None)
  end.
Proof.
  destruct (fw_apply_runs (f, w)) as [Ew Er]. destruct (nft_apply_runs (render_state f) w) as [En Hr]. destruct (fw_apply (f, w)) as [r [f' w']]. cbn [fst snd] in Ew, Er.
  rewrite <- Er in Hr. rewrite En in Ew. clear En Er. pose proof (law_nft_delete w) as Hd. pose proof (law_nft_load (render_state f) (delete_run w).2) as Hl.
  unfold load_run, delete_run in *. destruct (run_command _ _ w) as [d w1]. cbn [fst snd] in *. destruct (run_fed _ _ _ w1) as [l w2]. cbn [fst snd] in *. subst w'.
  assert (Hn : reports_success d = true -> nft_table w1 = None) by (destruct d as [o|]; [cbn in *; by destruct (out_success o)|done]).
  destruct l as [e| |o]; cbn in *; [done|by rewrite Hl|]. destruct (out_success o).
  - destruct Hl as [_ Hl]. split; [done|]. intros [Hrem|Hnone]; [by apply Hl, Hn|]. apply Hl. destruct d as [o'|]; cbn in Hd; [by destruct (out_success o'); rewrite Hd|].
    destruct Hd as [->| ->]; done.
  - rewrite Hl. split; [done|]. split; [done|]. intros o' -> Hf. cbn in Hf, Hd. by rewrite Hf in Hd.
Qed.

(** A kernel whose [nft] loads every script but those it is told to refuse. *)
Record nft_world := mkNftWorld { nft_loaded : option string; nft_refuses : bool }.
Definition nft_ok (b : bool) : Output := mkOutput b "exit status: 1" [] [].
Definition nft_processes : Processes nft_world := {|
  run_command prog args w := (inl (nft_ok true), mkNftWorld None (nft_refuses w));
  run_fed prog args t w := if nft_refuses w then (FedOutput (nft_ok false), w)
                           else (FedOutput (nft_ok true), mkNftWorld (Some (default "" (nft_loaded w) +:+ t)) (nft_refuses w))
|}.
Definition nft_laws : @NftLaws nft_world nft_processes.
Proof.
  refine (@Build_NftLaws nft_world nft_processes nft_loaded _ _); cbn; [done|].
  intros t w. destruct (nft_refuses w) eqn:E; cbn; [done|]. split; [done|]. by intros ->.
Defined.
Lemma firewall_apply_table_witness :
  nft_loaded (@fw_apply nft_world nft_processes (firewall_new, mkNftWorld (Some "old"%string) true)).2.2 = None.
Proof.
  pose proof (@firewall_apply_table nft_world nft_processes nft_laws firewall_new (mkNftWorld (Some "old"%string) true)) as Ht.
  destruct (fw_apply _) as [r [f' w']] eqn:E. destruct Ht as (_ & Hn & _). exact (Hn eq_refl).
Defined.

(** A port without a protocol is dropped: a rule meant for one port accepts
    every port. *)
Lemma port_without_protocol :
  render_rule (mkRule "ssh" "public" Inbound Accept None (Some (port_single 22)) None) = "accept"%string.
Proof. reflexivity. Qed.
(** A quote in an interface name reaches the ruleset. *)
Lemma interface_quote_accepted : validate_interface_name (String QUOTE "}#") = Ok tt.
Proof. vm_compute. reflexivity. Qed.
