(* ===== verification/Device.v ===== *)
(** * Devices (device/device.rs, discovery.rs, manager.rs, mac.rs, link.rs,
    capabilities.rs, statistics.rs)

    What the daemon knows of an interface, how it is classified, the registry
    that keeps the daemon's own state across rescans, and MAC addresses as
    text. *)

From Stdlib Require Import Ascii String.
From S2P Require Import Prelude RustStr IpAddr Dhcp4 Sys Netlink IpLayer Persistence.

(** ** Data *)

Inductive DeviceType :=
| DtEthernet | DtWiFi | DtLoopback | DtBridge | DtBond | DtVlan | DtTunnel | DtVpn | DtBluetooth
| DtVirtual | DtUnknown.
#[export] Instance DeviceType_eq_dec : EqDecision DeviceType.
Proof. solve_decision. Defined.
Definition device_type_name (t : DeviceType) : string :=
  match t with
  | DtEthernet => "ethernet" | DtWiFi => "wifi" | DtLoopback => "loopback" | DtBridge => "bridge"
  | DtBond => "bond" | DtVlan => "vlan" | DtTunnel => "tunnel" | DtVpn => "vpn"
  | DtBluetooth => "bluetooth" | DtVirtual => "virtual" | DtUnknown => "unknown"
  end.

Inductive DeviceState :=
| Unmanaged | Unavailable | Disconnected | Connecting | IpConfiguring | Activated | Deactivating | DsFailed.
#[export] Instance DeviceState_eq_dec : EqDecision DeviceState.
Proof. solve_decision. Defined.
Definition is_connected (s : DeviceState) : bool := bool_decide (s = Activated).

Record NetworkDevice := mkDevice {
  dev_name : string;
  dev_index : Z;
  dev_type : DeviceType;
  dev_state : DeviceState;
  mac_address : option string;
  dev_mtu : Z;
  ipv4_addresses : list string;
  ipv6_addresses : list string;
  carrier : bool;
  driver : option string;
  active_connection : option string
}.
Definition is_wireless (d : NetworkDevice) : bool := bool_decide (dev_type d = DtWiFi).
Definition with_state (d : NetworkDevice) (s : DeviceState) : NetworkDevice :=
  mkDevice (dev_name d) (dev_index d) (dev_type d) s (mac_address d) (dev_mtu d) (ipv4_addresses d)
    (ipv6_addresses d) (carrier d) (driver d) (active_connection d).
Definition with_active (d : NetworkDevice) (a : option string) : NetworkDevice :=
  mkDevice (dev_name d) (dev_index d) (dev_type d) (dev_state d) (mac_address d) (dev_mtu d)
    (ipv4_addresses d) (ipv6_addresses d) (carrier d) (driver d) a.

(** ** MAC addresses *)

Definition mac_format (mac : list Z) : string := join ":" (map hex2 mac).

Fixpoint mac_octets (bad : NetworkError) (parts : list string) : outcome (list Z) :=
  match parts with
  | [] => Ok []
  | p :: parts =>
      b ← ok_or (parse_uint_radix 8 16 p) bad;
      rest ← mac_octets bad parts;
      Ok (b :: rest)
  end.
Definition mac_parse (s : string) : outcome (list Z) :=
  let bad := Parse ("'" +:+ s +:+ "' is not a MAC address") in
  let parts := split_by (fun c => Ascii.eqb c ":" || Ascii.eqb c "-") s in
  if negb (bool_decide (length parts = 6%nat)) then Err bad
  else mac_octets bad parts.

(** ** Capabilities *)

Record DeviceCapabilities := mkCapabilities {
  can_scan : bool; can_hotspot : bool; supports_carrier_detect : bool; is_virtual : bool
}.
Definition detect (t : DeviceType) : DeviceCapabilities :=
  match t with
  | DtWiFi => mkCapabilities true true true false
  | DtEthernet => mkCapabilities false false true false
  | DtBridge | DtBond | DtVlan | DtTunnel | DtVpn | DtVirtual => mkCapabilities false false false true
  | DtBluetooth => mkCapabilities true false false false
  | DtLoopback | DtUnknown => mkCapabilities false false false false
  end.

(** ** Counters *)

Record DeviceStatistics := mkStatistics {
  rx_bytes : Z; tx_bytes : Z; rx_packets : Z; tx_packets : Z;
  rx_errors : Z; tx_errors : Z; rx_dropped : Z; tx_dropped : Z
}.
Definition saturating_sub (a b : Z) : Z := Z.max 0 (a - b).
Definition delta (prev cur : DeviceStatistics) : DeviceStatistics :=
  mkStatistics
    (saturating_sub (rx_bytes cur) (rx_bytes prev)) (saturating_sub (tx_bytes cur) (tx_bytes prev))
    (saturating_sub (rx_packets cur) (rx_packets prev)) (saturating_sub (tx_packets cur) (tx_packets prev))
    (saturating_sub (rx_errors cur) (rx_errors prev)) (saturating_sub (tx_errors cur) (tx_errors prev))
    (saturating_sub (rx_dropped cur) (rx_dropped prev)) (saturating_sub (tx_dropped cur) (tx_dropped prev)).

(** [{:?}] of a [Duration] of whole seconds *)
Definition seconds_debug (nanos : Z) : string := dec (nanos / 1000000000) +:+ "s".

Definition sys_path (name leaf : string) : string := path_join (path_join "/sys/class/net" name) leaf.
(** [Path::file_name]: the last component, unless it is [..]. *)
Definition last_component (p : string) : option string :=
  match rev (List.filter (fun c => negb (bool_decide (c = "" \/ c = "."))) (split "/" p)) with
  | c :: _ => if bool_decide (c = "..") then None else Some c
  | [] => None
  end.

(** The kinds [classify] tells apart. *)
Definition classify_kind (kind : string) : DeviceType :=
  if String.eqb kind "bridge" then DtBridge
  else if String.eqb kind "bond" then DtBond
  else if String.eqb kind "vlan" then DtVlan
  else if existsb (String.eqb kind) ["wireguard"; "gre"; "gretap"; "ipip"; "sit"; "vxlan"]
  then (if String.eqb kind "wireguard" then DtVpn else DtTunnel)
  else if existsb (String.eqb kind) ["tun"; "tap"] then DtTunnel
  else DtVirtual.

Section Discovery.
Context {W : Type} `{FileSystem W} `{Sockets W} `{Clock W} `{NlEnv}.

Definition classify (iface : Interface) : M W DeviceType :=
  if is_loopback iface then mret DtLoopback
  else match if_kind iface with
  | Some kind => mret (classify_kind kind)
  | None =>
      w1 ← observe (fs_exists (sys_path (if_name iface) "wireless"));
      w2 ← (if (w1 : bool) then mret true else observe (fs_exists (sys_path (if_name iface) "phy80211")));
      if (w2 : bool) then mret DtWiFi
      else if starts_with "bnep" (if_name iface) then mret DtBluetooth
      else
        d ← observe (fs_exists (sys_path (if_name iface) "device"));
        mret (if (d : bool) then DtEthernet else DtUnknown)
  end.

Definition driver_of (name : string) : M W (option string) :=
  r ← io_match (fs_read_link (sys_path name "device/driver"));
  mret (match r with inl link => last_component link | inr _ => None end).

Definition format_mac (mac : list Z) : string := join ":" (map hex2 mac).
Definition address_text (a : Address) : string := show_ip (ad_ip a) +:+ "/" +:+ dec (ad_prefixlen a).

Definition device_of (addrs : list Address) (iface : Interface) : M W NetworkDevice :=
  device_type ← classify iface;
  let of_family f := map address_text
    (List.filter (fun a => (ad_index a =? if_index iface) && f (ad_ip a)) addrs) in
  let state := if is_up iface
               then (if has_carrier iface then Disconnected else Unavailable) else Unavailable in
  drv ← driver_of (if_name iface);
  mret (mkDevice (if_name iface) (wrap 32 (if_index iface)) device_type state
          (option_map format_mac (if_hwaddr iface)) (if_mtu iface) (of_family is_ipv4) (of_family is_ipv6)
          (has_carrier iface) drv None).
Fixpoint devices_of (addrs : list Address) (ifaces : list Interface) : M W (list NetworkDevice) :=
  match ifaces with
  | [] => mret []
  | i :: ifaces => d ← device_of addrs i; ds ← devices_of addrs ifaces; mret (d :: ds)
  end.
Definition scan : M W (list NetworkDevice) :=
  ifaces ← interface_list;
  r ← attempt (address_list None);
  devices_of (match r with inl addrs => addrs | inr _ => [] end) ifaces.

(** ** Links (device/link.rs) *)

Definition bring_up (index : Z) : M W unit := set_up index.
Definition bring_down (index : Z) : M W unit := set_down index.
Fixpoint carrier_loop (fuel : nat) (index start timeout : Z) : M W unit :=
  match fuel with
  | O => lift (Panic "fuel")
  | S fuel =>
      iface ← get_by_index index;
      if has_carrier iface then mret tt
      else
        now ← instant_now;
        if timeout <=? now - start
        then throw (Timeout ("no carrier on interface index " +:+ dec_signed index +:+ " after "
                             +:+ seconds_debug timeout))
        else effect (clk_sleep 200000000) ;; carrier_loop fuel index start timeout
  end.
Definition wait_for_carrier (fuel : nat) (index timeout : Z) : M W unit :=
  start ← instant_now; carrier_loop fuel index start timeout.
Definition mac_set (index : Z) (mac : list Z) : M W unit := set_hwaddr index mac.

Definition read_counter (name counter : string) : M W Z :=
  let path := path_join (path_join (path_join "/sys/class/net" name) "statistics") counter in
  r ← io_match (fs_read path);
  mret (match r with inl s => default 0 (parse_uint 64 (trim s)) | inr _ => 0 end).
Definition statistics_read (name : string) : M W DeviceStatistics :=
  a ← read_counter name "rx_bytes";
  b ← read_counter name "tx_bytes";
  c ← read_counter name "rx_packets";
  d ← read_counter name "tx_packets";
  e ← read_counter name "rx_errors";
  f ← read_counter name "tx_errors";
  g ← read_counter name "rx_dropped";
  h ← read_counter name "tx_dropped";
  mret (mkStatistics a b c d e f g h).
End Discovery.

(** ** The registry *)

Definition registry := gmap string NetworkDevice.

(** [refresh]'s merge of a scan into the registry. *)
Definition merge_device (old : registry) (unmanaged : list string) (d : NetworkDevice) : NetworkDevice :=
  if existsb (fun u => String.eqb u (dev_name d)) unmanaged then with_state d Unmanaged
  else match old !! dev_name d with
       | Some e => with_active (with_state d (dev_state e)) (active_connection e)
       | None => d
       end.
Definition merge_step (old : registry) (unmanaged : list string) (next : registry) (d : NetworkDevice)
  : registry := let d := merge_device old unmanaged d in <[dev_name d := d]> next.
Definition merge_scan (old : registry) (unmanaged : list string) (scanned : list NetworkDevice) : registry :=
  fold_left (merge_step old unmanaged) scanned ∅.

Section Registry.
Context {W : Type} `{FileSystem W} `{Sockets W} `{NlEnv}.
(** On an error the registry is left as it was. *)
Definition refresh (old : registry) (unmanaged : list string) : M W registry :=
  scanned ← scan; mret (merge_scan old unmanaged scanned).
End Registry.
Definition registry_get (r : registry) (name : string) : option NetworkDevice := r !! name.
Definition set_device_state (r : registry) (name : string) (s : DeviceState) : registry :=
  alter (fun d => with_state d s) name r.
Definition registry_remove (r : registry) (name : string) : registry := delete name r.

(** ** Hotplug *)

Inductive HotplugEvent :=
| LinkAdded (name : string) | LinkRemoved (name : string) | LinkChanged (name : string)
| AddressChanged (name : string).
Definition hotplug_of (ev : RawEvent) : HotplugEvent :=
  match ev with
  | LinkNew name => LinkAdded name
  | LinkDel name => LinkRemoved name
  | AddrNew index | AddrDel index => AddressChanged (dec_signed index)
  end.

(** ** The registry keeps what the kernel does not know *)

Lemma merge_device_name old un d : dev_name (merge_device old un d) = dev_name d.
Proof. unfold merge_device. destruct (existsb _ un); [done|]. by destruct (old !! dev_name d). Qed.

Lemma merge_scan_lookup_acc old un scanned (acc : registry) n :
  List.NoDup (map dev_name scanned) ->
  fold_left (merge_step old un) scanned acc !! n =
    match List.find (fun d => String.eqb (dev_name d) n) scanned with
    | Some d => Some (merge_device old un d)
    | None => acc !! n
    end.
Proof.
  revert acc. induction scanned as [|d l IH]; intros acc Hnd; cbn [fold_left List.find]; [done|].
  cbn [map] in Hnd. inversion Hnd as [|? ? Hnin Hnd']; subst. rewrite IH by done.
  unfold merge_step. cbv zeta. destruct (String.eqb_spec (dev_name d) n) as [<-|Hne].
  - destruct (List.find (fun x => String.eqb (dev_name x) (dev_name d)) l) as [x|] eqn:E.
    + apply List.find_some in E as [Hin He]. apply String.eqb_eq in He. exfalso. apply Hnin.
      rewrite <- He. by apply in_map.
    + rewrite merge_device_name. apply lookup_insert_eq.
  - destruct (List.find _ l); [done|]. rewrite merge_device_name. by apply lookup_insert_ne.
Qed.
Lemma merge_scan_lookup old un scanned n :
  List.NoDup (map dev_name scanned) ->
  merge_scan old un scanned !! n =
    merge_device old un <$> List.find (fun d => String.eqb (dev_name d) n) scanned.
Proof.
  intros Hnd. unfold merge_scan. rewrite merge_scan_lookup_acc by done.
  by destruct (List.find _ scanned).
Qed.

(** ** MAC text *)

Definition octet_hex_ok (b : Z) : bool :=
  bool_decide (parse_uint_radix 8 16 (hex2 b) = Some b)
  && free_of (fun c => Ascii.eqb c ":" || Ascii.eqb c "-") (hex2 b).
Lemma octet_hex b : is_u8 b -> octet_hex_ok b = true.
Proof.
  intros Hb. assert (H : forallb octet_hex_ok (seqZ 0 256) = true) by (by vm_compute).
  rewrite forallb_forall in H. apply H. apply list_elem_of_In, elem_of_seqZ. unfold is_uint in Hb. lia.
Qed.
Lemma mac_ok_list m : mac_ok m ->
  exists a b c d e f, m = [a; b; c; d; e; f] /\ is_u8 a /\ is_u8 b /\ is_u8 c /\ is_u8 d /\ is_u8 e /\ is_u8 f.
Proof.
  intros [Hl Hb]. do 6 (destruct m as [|? m]; [done|]). destruct m; [|done].
  do 6 (apply Forall_cons_1 in Hb as [? Hb]). do 6 eexists. done.
Qed.
Lemma mac_parse_format_lemma m : mac_ok m -> mac_parse (mac_format m) = Ok m.
Proof.
  intros Hm. destruct (mac_ok_list m Hm) as (a & b & c & d & e & f & -> & Ha & Hb & Hc & Hd & He & Hf).
  apply octet_hex in Ha, Hb, Hc, Hd, He, Hf. unfold octet_hex_ok in *.
  repeat match goal with H : _ && _ = true |- _ => apply andb_true_iff in H as [?%bool_decide_eq_true_1 ?] end.
  unfold mac_parse, mac_format. cbn [map].
  assert (E : join ":" [hex2 a; hex2 b; hex2 c; hex2 d; hex2 e; hex2 f] =
    (hex2 a ++ String ":" (hex2 b ++ String ":" (hex2 c ++ String ":" (hex2 d ++ String ":" (hex2 e ++ String ":" (hex2 f))))))%string).
  { cbn [join fold_left]. rewrite !str_app_assoc. done. }
  rewrite E, !split_by_app, split_by_free by done. cbn [length mac_octets].
  rewrite bool_decide_eq_true_2 by done. cbn [negb].
  by repeat match goal with H : parse_uint_radix 8 16 _ = _ |- _ => rewrite H; clear H end.
Qed.

(** ** Properties *)

(** A rescan keeps what only the daemon knows.  After [refresh] merges a scan
    of distinct interfaces, a device is registered exactly when the scan shows
    it; a device on the unmanaged list is [Unmanaged]; a device already known
    keeps its state and active connection while the kernel's facts are the new
    ones; a new device is as scanned. *)
Theorem refresh_merges old unmanaged scanned n :
  List.NoDup (map dev_name scanned) ->
  match merge_scan old unmanaged scanned !! n with
  | None => forall d, In d scanned -> dev_name d <> n
  | Some d' => exists d, In d scanned /\ dev_name d = n /\ dev_name d' = n
      /\ (carrier d', mac_address d', dev_mtu d', ipv4_addresses d', ipv6_addresses d')
         = (carrier d, mac_address d, dev_mtu d, ipv4_addresses d, ipv6_addresses d)
      /\ (In n unmanaged -> dev_state d' = Unmanaged)
      /\ (~ In n unmanaged ->
           match old !! n with
           | Some e => dev_state d' = dev_state e /\ active_connection d' = active_connection e
           | None => d' = d
           end)
  end.
Proof.
  intros Hnd. rewrite merge_scan_lookup by done.
  destruct (List.find _ scanned) as [d|] eqn:E; cbn.
  - apply List.find_some in E as [Hin <-%String.eqb_eq]. exists d. rewrite merge_device_name.
    split; [done|]. split; [done|]. split; [done|].
    assert (Hu : existsb (fun u => String.eqb u (dev_name d)) unmanaged = true <-> In (dev_name d) unmanaged).
    { rewrite existsb_exists. split; [by intros (u & Hu & ->%String.eqb_eq)|].
      intros H. exists (dev_name d). by rewrite String.eqb_refl. }
    unfold merge_device. destruct (existsb _ unmanaged) eqn:E; cbn.
    + split_and!; [done|done|]. intros Hn. exfalso. by apply Hn, Hu.
    + split; [by destruct (old !! dev_name d)|]. split; [intros Hn; by apply Hu in Hn|].
      intros _. by destruct (old !! dev_name d).
  - intros d Hd <-. pose proof (List.find_none _ _ E d Hd) as H. cbv beta in H. by rewrite String.eqb_refl in H.
Qed.
Definition demo_device (name : string) (s : DeviceState) : NetworkDevice :=
  mkDevice name 2 DtEthernet s None 1500 [] [] true None None.
Lemma refresh_merges_witness :
  match merge_scan {["eth0"%string := demo_device "eth0" Activated]} ["docker0"%string]
          [demo_device "eth0" Disconnected; demo_device "docker0" Disconnected] !! "eth0"%string with
  | None => False
  | Some d => dev_state d = Activated
  end.
Proof.
  pose proof (refresh_merges {["eth0"%string := demo_device "eth0" Activated]} ["docker0"%string]
    [demo_device "eth0" Disconnected; demo_device "docker0" Disconnected] "eth0") as H.
  destruct (merge_scan _ _ _ !! "eth0"%string) as [d'|].
  - destruct H as (d & _ & _ & _ & _ & _ & H).
    + constructor; [intros [H|[]]; discriminate|]. constructor; [intros []|constructor].
    + apply H. intros [He|[]]. discriminate.
  - apply (H ltac:(constructor; [intros [He|[]]; discriminate|]; constructor; [intros []|constructor])
            (demo_device "eth0" Disconnected)); [left; reflexivity|reflexivity].
Defined.

(** A hardware address printed and parsed again is the same six bytes. *)
Theorem mac_text_roundtrip m : mac_ok m -> mac_parse (mac_format m) = Ok m.
Proof. apply mac_parse_format_lemma. Qed.
Lemma mac_text_roundtrip_witness : mac_parse (mac_format demo_mac) = Ok demo_mac.
Proof. apply (mac_text_roundtrip demo_mac). exact demo_mac_ok. Defined.
