(* ===== verification/Routing.v ===== *)
(** * Routing policy (routing/metrics.rs, default_route.rs, policy.rs, router.rs)

    Which default route a connection installs and with which metric, the
    per-connection tables, and the view of the active default gateway. *)

From Stdlib Require Import Ascii String.
From S2P Require Import Prelude RustStr IpAddr Dhcp4 Sys Netlink IpLayer Device.

(** ** Metrics *)

Definition base_metric (t : DeviceType) : Z :=
  match t with
  | DtVpn => 50
  | DtEthernet => 100
  | DtBridge | DtBond => 150
  | DtWiFi => 600
  | DtBluetooth => 700
  | DtVlan | DtTunnel => 400
  | DtVirtual | DtLoopback | DtUnknown => 900
  end.
Definition clamp (z lo hi : Z) : Z := Z.max lo (Z.min hi z).
Definition effective_metric (t : DeviceType) (autoconnect_priority : Z) : Z :=
  let adjusted := base_metric t - clamp autoconnect_priority (-40) 40 in
  clamp adjusted 1 65535.

Lemma clamp_range z lo hi : lo <= hi -> lo <= clamp z lo hi <= hi.
Proof. unfold clamp. lia. Qed.
(** The priority moves the metric by at most 40, in steps of one, downwards. *)
Lemma effective_metric_range t p : base_metric t - 40 <= effective_metric t p <= base_metric t + 40.
Proof. unfold effective_metric. pose proof (clamp_range p (-40) 40). unfold clamp in *. destruct t; cbn; lia. Qed.
Lemma effective_metric_mono t p q : p <= q -> effective_metric t q <= effective_metric t p.
Proof. unfold effective_metric, clamp. destruct t; cbn; lia. Qed.

(** ** Default routes *)

Definition is_default_on (oif : Z) (r : Route) : bool :=
  match destination r with None => oif_index r =? oif | Some _ => false end.

Section DefaultRoute.
Context {W : Type} `{Sockets W} `{NlEnv}.

Definition default_route_apply (oif : Z) (gw : IpAddr) (m : Z) (p : RouteProtocol) : M W unit :=
  existing ← route_list (family_of_addr gw);
  for_each existing (fun r => if is_default_on oif r then ignore (route_del r) else mret tt) ;;
  set_default oif gw m p.
Definition default_route_remove (oif : Z) (family : Family) : M W unit :=
  existing ← route_list family;
  for_each existing (fun r => if is_default_on oif r then route_del r else mret tt).

(** ** Policy tables *)

Definition TABLE_RANGE_START : Z := 100.
Definition table_for (connection_index : Z) : Z := Z.min 255 (TABLE_RANGE_START + connection_index).

Definition host_prefixlen (src : IpAddr) : Z := if is_ipv4 src then 32 else 128.
Definition policy_install (src : IpAddr) (table priority : Z) (routes : list Route) : M W unit :=
  for_each routes (fun r => add_to_table r table) ;;
  add_source_rule src (host_prefixlen src) table priority.
Definition policy_remove (src : IpAddr) (table priority : Z) (routes : list Route) : M W unit :=
  ignore (del_source_rule src (host_prefixlen src) table priority) ;;
  for_each routes (fun r => ignore (route_del r)).

(** ** The active gateway *)

(** [min_by_key]: the first of the smallest. *)
Fixpoint min_by_key {A} (key : A -> Z) (l : list A) : option A :=
  match l with
  | [] => None
  | x :: l => match min_by_key key l with
              | Some y => if key y <? key x then Some y else Some x
              | None => Some x
              end
  end.
Definition metric_key (r : Route) : Z := default (2 ^ 32 - 1) (metric r).
Definition gateway_routes (routes : list Route) : list Route :=
  List.filter (fun r => match destination r, rt_gateway r with None, Some _ => true | _, _ => false end) routes.
Definition choose_gateway (routes : list Route) : option (IpAddr * Z) :=
  match min_by_key metric_key (gateway_routes routes) with
  | Some r => match rt_gateway r with Some g => Some (g, oif_index r) | None => None end
  | None => None
  end.
Definition router_current (family : Family) : M W (list Route) := route_list family.
Definition active_default_gateway (family : Family) : M W (option (IpAddr * Z)) :=
  routes ← router_current family; mret (choose_gateway routes).
End DefaultRoute.

(** ** Lemmas *)

Lemma min_by_key_spec {A} (key : A -> Z) l :
  match min_by_key key l with
  | Some x => In x l /\ forall y, In y l -> key x <= key y
  | None => l = []
  end.
Proof.
  induction l as [|x l IH]; cbn; [done|]. destruct (min_by_key key l) as [y|].
  - destruct IH as [Hin Hmin]. destruct (Z.ltb_spec (key y) (key x)).
    + split; [by right|]. intros z [<-|Hz]; [lia|auto].
    + split; [by left|]. intros z [<-|Hz]; [lia|]. specialize (Hmin z Hz). lia.
  - subst l. split; [by left|]. intros z [<-|[]]. lia.
Qed.
Lemma gateway_routes_In r routes :
  In r (gateway_routes routes) <-> In r routes /\ destination r = None /\ is_Some (rt_gateway r).
Proof.
  unfold gateway_routes. rewrite List.filter_In. destruct (destination r), (rt_gateway r);
    split; intros H; split_hyps; split_and!; try done; try (by eexists).
  all: match goal with H : is_Some None |- _ => by destruct H end.
Qed.

(** The table and the protocol a route message carries. *)
Definition msg_table (payload : list Z) : option Z := payload !! 4%nat.
Definition msg_protocol (payload : list Z) : option Z := payload !! 5%nat.
Lemma route_payload_table r : msg_table (route_payload r) = Some RT_TABLE_MAIN.
Proof. done. Qed.
Lemma table_payload_table r t : msg_table (table_payload r t) = Some t.
Proof. done. Qed.
Lemma route_payload_protocol r : msg_protocol (route_payload r) = Some (protocol_raw (protocol r)).
Proof. done. Qed.

(** ** What the policy code asks for *)

Section PolicySends.
Context {W : Type} `{Sockets W} `{NlEnv}.

Definition is_request (t f : Z) (payload b : list Z) : Prop :=
  exists sq, b = frame t (Z.lor f (Z.lor NLM_F_REQUEST NLM_F_ACK)) sq payload.

Lemma route_del_sends r : sends (W := W) (is_request RTM_DELROUTE 0 (route_payload r)) (route_del r).
Proof.
  unfold route_del, route_build. apply sends_with_sock. intros s. apply sends_nl_request. intros sq. by exists sq.
Qed.
Lemma add_to_table_sends r t :
  sends (W := W) (is_request RTM_NEWROUTE (Z.lor NLM_F_CREATE NLM_F_REPLACE) (table_payload r t)) (add_to_table r t).
Proof. unfold add_to_table. apply sends_with_sock. intros s. apply sends_nl_request. intros sq. by exists sq. Qed.
Lemma add_source_rule_sends src p t pr :
  sends (W := W) (is_request RTM_NEWRULE NLM_F_CREATE (source_rule_payload src p t pr)) (add_source_rule src p t pr).
Proof. unfold add_source_rule. apply sends_with_sock. intros s. apply sends_nl_request. intros sq. by exists sq. Qed.
Lemma del_source_rule_sends src p t pr :
  sends (W := W) (is_request RTM_DELRULE 0 (source_rule_payload src p t pr)) (del_source_rule src p t pr).
Proof. unfold del_source_rule. apply sends_with_sock. intros s. apply sends_nl_request. intros sq. by exists sq. Qed.

(** [install] adds routes to the table it was given... *)
Lemma policy_install_sends src table prio routes :
  sends (W := W) (fun b => is_request RTM_NEWRULE NLM_F_CREATE (source_rule_payload src (host_prefixlen src) table prio) b
    \/ exists r, In r routes
        /\ is_request RTM_NEWROUTE (Z.lor NLM_F_CREATE NLM_F_REPLACE) (table_payload r table) b)
    (policy_install src table prio routes).
Proof.
  unfold policy_install. apply sends_bind.
  - apply sends_for_each. intros r Hr. eapply sends_mono; [|apply add_to_table_sends]. eauto.
  - intros _. eapply sends_mono; [|apply add_source_rule_sends]. eauto.
Qed.
(** ... and [remove] deletes them from the main table. *)
Lemma policy_remove_sends src table prio routes :
  sends (W := W) (fun b => is_request RTM_DELRULE 0 (source_rule_payload src (host_prefixlen src) table prio) b
    \/ exists r, In r routes /\ is_request RTM_DELROUTE 0 (route_payload r) b)
    (policy_remove src table prio routes).
Proof.
  unfold policy_remove. apply sends_bind.
  - apply sends_ignore. eapply sends_mono; [|apply del_source_rule_sends]. eauto.
  - intros _. apply sends_for_each. intros r Hr. apply sends_ignore.
    eapply sends_mono; [|apply route_del_sends]. eauto.
Qed.
End PolicySends.

(** ** Properties *)

(** The active gateway is the best default route's: among the default routes
    that have a gateway it is one of least metric (a route without a metric
    counts as the greatest), and there is none exactly when no such route
    exists. *)
Theorem gateway_is_best routes :
  match choose_gateway routes with
  | Some (g, oif) => exists r, In r routes /\ destination r = None /\ rt_gateway r = Some g /\ oif_index r = oif
      /\ forall q, In q routes -> destination q = None -> is_Some (rt_gateway q) -> metric_key r <= metric_key q
  | None => forall q, In q routes -> destination q = None -> rt_gateway q = None
  end.
Proof.
  unfold choose_gateway. pose proof (min_by_key_spec metric_key (gateway_routes routes)) as H.
  destruct (min_by_key _ _) as [r|].
  - destruct H as [(Hr & Hd & [g Hg])%gateway_routes_In Hmin]. rewrite Hg. exists r. split_and!; try done.
    intros q Hq Hqd Hqg. apply Hmin. by apply gateway_routes_In.
  - intros q Hq Hd. destruct (rt_gateway q) as [g|] eqn:E; [|done]. exfalso.
    assert (Hin : In q (gateway_routes routes)) by (apply gateway_routes_In; eauto). by rewrite H in Hin.
Qed.

(** What policy routing asks of the kernel.  [install] sends only the source
    rule and additions of the given routes to the given table; [remove] sends
    only the rule's deletion and deletions of the routes from the main table, so
    the routes [install] put in the other table are not the ones it deletes. *)
Theorem policy_routing_tables {W} `{Sockets W} `{NlEnv} src table prio routes :
  sends (W := W) (fun b => is_request RTM_NEWRULE NLM_F_CREATE (source_rule_payload src (host_prefixlen src) table prio) b
    \/ exists r p, In r routes /\ msg_table p = Some table
        /\ is_request RTM_NEWROUTE (Z.lor NLM_F_CREATE NLM_F_REPLACE) p b)
    (policy_install src table prio routes)
  /\ sends (W := W) (fun b => is_request RTM_DELRULE 0 (source_rule_payload src (host_prefixlen src) table prio) b
    \/ exists r p, In r routes /\ msg_table p = Some RT_TABLE_MAIN /\ is_request RTM_DELROUTE 0 p b)
    (policy_remove src table prio routes).
Proof.
  split.
  - eapply sends_mono; [|apply policy_install_sends]. intros b [Hb|(r & Hr & Hb)]; [by left|].
    right. exists r, (table_payload r table). split_and!; [done|apply table_payload_table|done].
  - eapply sends_mono; [|apply policy_remove_sends]. intros b [Hb|(r & Hr & Hb)]; [by left|].
    right. exists r, (route_payload r). split_and!; [done|apply route_payload_table|done].
Qed.
