(* ===== verification/Connection.v ===== *)
(** * Wi-Fi data, connection profiles, autoconnect and the overall state
    (wifi/security.rs, wifi/network.rs, connection/profile.rs,
    connection/autoconnect.rs, manager/state.rs)

    What a scan shows, what a profile stores, which profile is chosen for a
    device, and the state the daemon reports. *)

From Stdlib Require Import Ascii String.
From S2P Require Import Prelude RustStr Device.

(** ** Security types *)

Inductive SecurityType :=
| SecOpen | Wep | WpaPsk | Wpa2Psk | Wpa3Sae | WpaEnterprise | Wpa3Enterprise.
#[export] Instance SecurityType_eq_dec : EqDecision SecurityType.
Proof. solve_decision. Defined.

Definition key_mgmt (t : SecurityType) : string :=
  match t with
  | SecOpen | Wep => "NONE"
  | WpaPsk | Wpa2Psk => "WPA-PSK"
  | Wpa3Sae => "SAE"
  | WpaEnterprise => "WPA-EAP"
  | Wpa3Enterprise => "WPA-EAP-SUITE-B-192"
  end.
Definition needs_passphrase (t : SecurityType) : bool := negb (bool_decide (t = SecOpen)).
Definition is_enterprise (t : SecurityType) : bool :=
  bool_decide (t = WpaEnterprise \/ t = Wpa3Enterprise).
Definition from_flags (flags : string) : SecurityType :=
  let has needle := contains_str needle flags in
  if has "SAE" then (if has "EAP" then Wpa3Enterprise else Wpa3Sae)
  else if has "EAP" then WpaEnterprise
  else if has "WPA2" || has "RSN" then Wpa2Psk
  else if has "WPA" then WpaPsk
  else if has "WEP" then Wep
  else SecOpen.

(** ** Scan results *)

Record WifiNetwork := mkWifiNetwork {
  ssid : string; bssid : string; frequency_mhz : Z; signal_dbm : Z; wn_security : SecurityType
}.
Definition clamp (lo hi z : Z) : Z := Z.max lo (Z.min hi z).
Definition signal_percent (n : WifiNetwork) : Z :=
  let clamped := clamp (-100) (-50) (signal_dbm n) in
  Z.min (wrap 8 ((clamped + 100) * 2)) 100.

Definition TAB : ascii := "009".
Definition parse_scan_line (line : string) : option WifiNetwork :=
  match split TAB line with
  | bssid :: freq :: signal :: flags :: rest =>
      frequency ← parse_uint 32 freq;
      dbm ← parse_int 32 signal;
      let ssid := default "" (head rest) in
      if String.eqb ssid "" then None
      else Some (mkWifiNetwork ssid bssid frequency dbm (from_flags flags))
  | _ => None
  end.
Definition parse_scan_results (raw : string) : list WifiNetwork :=
  omap parse_scan_line (drop 1 (lines raw)).

(** ** Profiles *)

Inductive AddressMethod := AmAuto | AmManual | AmDisabled | AmLinkLocal.
Inductive Ipv6Method := Slaac | SlaacWithStatelessDhcp | Dhcp6Stateful.
Inductive VpnKind := WireGuard | OpenVpn.

Record WifiSettings := mkWifiSettings {
  ws_ssid : string;
  ws_security : SecurityType;
  hidden : bool;
  has_secret : bool;
  eap_identity : option string;
  eap_ca_cert_path : option string;
  eap_client_cert_path : option string;
  eap_private_key_path : option string;
  has_eap_secret : bool;
  eap_method : option string;
  eap_phase2 : option string
}.
Record VpnSettings := mkVpnSettings { vpn_kind : VpnKind; vpn_config : string }.
Record ConnectionProfile := mkProfile {
  profile_id : string;
  profile_name : string;
  device_type : DeviceType;
  interface_name : option string;
  method : AddressMethod;
  ipv6_method : Ipv6Method;
  addresses : list string;
  profile_gateway : option string;
  profile_dns : list string;
  autoconnect : bool;
  autoconnect_priority : Z;
  metered : bool;
  wifi : option WifiSettings;
  vpn : option VpnSettings
}.
Definition new_wifi (id ssid : string) (security : SecurityType) : ConnectionProfile :=
  mkProfile id ssid DtWiFi None AmAuto Slaac [] None [] true 0 false
    (Some (mkWifiSettings ssid security false (negb (bool_decide (security = SecOpen)))
             None None None None false None None))
    None.

(** ** Autoconnect *)

Definition profile_matches (p : ConnectionProfile) (d : NetworkDevice) : bool :=
  if negb (bool_decide (device_type p = dev_type d)) then false
  else match interface_name p with
       | Some name => String.eqb name (dev_name d)
       | None => true
       end.
Definition pinned (d : NetworkDevice) (p : ConnectionProfile) : bool :=
  bool_decide (interface_name p = Some (dev_name d)).
(** [pinned_b.cmp(&pinned_a).then(b.priority.cmp(&a.priority))] is not [Greater] *)
Definition autoconnect_le (d : NetworkDevice) (a b : ConnectionProfile) : bool :=
  match pinned d a, pinned d b with
  | true, false => true
  | false, true => false
  | _, _ => autoconnect_priority b <=? autoconnect_priority a
  end.
Definition select (d : NetworkDevice) (candidates : list ConnectionProfile) : option ConnectionProfile :=
  head (sort_by (autoconnect_le d)
    (List.filter (fun p => autoconnect p && profile_matches p d) candidates)).

Definition ssid_visible (visible : list string) (p : ConnectionProfile) : bool :=
  match wifi p with Some w => existsb (String.eqb (ws_ssid w)) visible | None => false end.
Definition select_wifi (d : NetworkDevice) (candidates : list ConnectionProfile) (visible : list string)
  : option ConnectionProfile :=
  if negb (bool_decide (dev_type d = DtWiFi)) then None
  else head (sort_by (fun a b => autoconnect_priority b <=? autoconnect_priority a)
         (List.filter (fun p => autoconnect p && ssid_visible visible p) candidates)).

(** ** The overall state *)

Inductive ConnectivityState := CsUnknown | CsNone | CsPortal | CsLimited | CsFull.
#[export] Instance ConnectivityState_eq_dec : EqDecision ConnectivityState.
Proof. solve_decision. Defined.
Inductive NetworkState :=
| NsUnknown | NsUnavailable | NsDisconnected | NsConnecting | NsConnectedLocal | NsConnected | NsLimited
| NsPortal | NsDisconnecting.
#[export] Instance NetworkState_eq_dec : EqDecision NetworkState.
Proof. solve_decision. Defined.

Definition overall_state (devices : list NetworkDevice) (connectivity : ConnectivityState) : NetworkState :=
  let any (f : DeviceState -> bool) := existsb (fun d => f (dev_state d)) devices in
  if any (fun s => bool_decide (s = Connecting \/ s = IpConfiguring)) then NsConnecting
  else if any (fun s => bool_decide (s = Deactivating)) then NsDisconnecting
  else if any (fun s => bool_decide (s = Activated)) then
    match connectivity with
    | CsFull => NsConnected
    | CsLimited => NsLimited
    | CsPortal => NsPortal
    | CsNone | CsUnknown => NsConnectedLocal
    end
  else if negb (any (fun s => negb (bool_decide (s = Unmanaged)))) then NsUnavailable
  else if negb (any (fun s => negb (bool_decide (s = Unavailable)) && negb (bool_decide (s = Unmanaged))))
       then NsUnavailable
       else NsDisconnected.

Lemma autoconnect_le_total d x y : autoconnect_le d x y = true \/ autoconnect_le d y x = true.
Proof. unfold autoconnect_le. destruct (pinned d x), (pinned d y); auto; lia. Qed.
Lemma autoconnect_le_trans d x y z :
  autoconnect_le d x y = true -> autoconnect_le d y z = true -> autoconnect_le d x z = true.
Proof. unfold autoconnect_le. destruct (pinned d x), (pinned d y), (pinned d z); try done; lia. Qed.

(** The head of a stable sort of the eligible candidates: the best one, and of
    equal ones the first in the candidates' order. *)
Definition first_best (le : ConnectionProfile -> ConnectionProfile -> bool)
    (eligible : ConnectionProfile -> bool) (candidates : list ConnectionProfile)
    (p : ConnectionProfile) : Prop :=
  eligible p = true /\ (forall q, In q candidates -> eligible q = true -> le p q = true)
  /\ exists l1 l2, candidates = l1 ++ p :: l2 /\ forall q, In q l1 -> eligible q = true -> le q p = false.

Lemma filter_split {A} (f : A -> bool) l l1 p l2 :
  List.filter f l = l1 ++ p :: l2 ->
  f p = true /\ exists m1 m2, l = m1 ++ p :: m2 /\ List.filter f m1 = l1.
Proof.
  revert l1. induction l as [|x l IH]; intros l1; cbn; [by destruct l1|].
  destruct (f x) eqn:E.
  - destruct l1 as [|y l1]; cbn; intros [= -> H].
    + split; [done|]. by exists [], l.
    + destruct (IH _ H) as (Hp & m1 & m2 & -> & Hm). split; [done|].
      exists (y :: m1), m2. cbn. by rewrite E, Hm.
  - intros H. destruct (IH _ H) as (Hp & m1 & m2 & -> & Hm). split; [done|].
    exists (x :: m1), m2. cbn. by rewrite E.
Qed.

Lemma head_sort_filter le eligible candidates :
  (forall x y, le x y = true \/ le y x = true) ->
  (forall x y z, le x y = true -> le y z = true -> le x z = true) ->
  match head (sort_by le (List.filter eligible candidates)) with
  | Some p => first_best le eligible candidates p
  | None => forall q, In q candidates -> eligible q = false
  end.
Proof.
  intros Ht Htr. pose proof (sort_by_head le Ht Htr (List.filter eligible candidates)) as H.
  destruct (head _) as [p|].
  - destruct H as (l1 & l2 & Hl & H1 & H2).
    destruct (filter_split _ _ _ _ _ Hl) as (Hp & m1 & m2 & -> & Hm).
    split; [done|]. split.
    + intros q Hq He. apply H2. by apply filter_In.
    + exists m1, m2. split; [done|]. intros q Hq He. apply H1. rewrite <- Hm. by apply filter_In.
  - intros q Hq. destruct (eligible q) eqn:E; [|done]. exfalso.
    assert (Hin : In q (List.filter eligible candidates)) by (by apply filter_In).
    by rewrite H in Hin.
Qed.

(** What a choice promises, in terms of the profiles' fields: the chosen one
    suits, no other that suits is better, and those before it in the caller's
    order are worse. *)
Definition chosen (suits : ConnectionProfile -> Prop) (better : ConnectionProfile -> ConnectionProfile -> Prop)
    (candidates : list ConnectionProfile) (choice : option ConnectionProfile) : Prop :=
  match choice with
  | Some p => suits p /\ (forall q, In q candidates -> suits q -> ~ better q p)
      /\ exists l1 l2, candidates = l1 ++ p :: l2 /\ forall q, In q l1 -> suits q -> better p q
  | None => forall q, In q candidates -> ~ suits q
  end.
Definition suits_device (d : NetworkDevice) (p : ConnectionProfile) : Prop :=
  autoconnect p = true /\ device_type p = dev_type d /\ (interface_name p = None \/ interface_name p = Some (dev_name d)).
(** Pinned to the device before unpinned, then by priority. *)
Definition better_for (d : NetworkDevice) (p q : ConnectionProfile) : Prop :=
  (interface_name p = Some (dev_name d) /\ interface_name q = None)
  \/ (interface_name p = interface_name q /\ autoconnect_priority q < autoconnect_priority p).
Definition in_view (visible : list string) (p : ConnectionProfile) : Prop :=
  autoconnect p = true /\ exists s, wifi p = Some s /\ In (ws_ssid s) visible.
Definition higher_priority (p q : ConnectionProfile) : Prop := autoconnect_priority q < autoconnect_priority p.

Lemma sorted_chosen le eligible (suits : ConnectionProfile -> Prop) better candidates :
  (forall x y, le x y = true \/ le y x = true) -> (forall x y z, le x y = true -> le y z = true -> le x z = true) ->
  (forall p, eligible p = true <-> suits p) -> (forall p q, suits p -> suits q -> le p q = false <-> better q p) ->
  chosen suits better candidates (head (sort_by le (List.filter eligible candidates))).
Proof.
  intros Ht Htr Hs Hb. pose proof (head_sort_filter le eligible candidates Ht Htr) as Hf. destruct (head _) as [p|]; cbn.
  - destruct Hf as (Hp & Hall & l1 & l2 & E & H1). apply Hs in Hp. split_and!; [done| |].
    + intros q Hq Hsq Hbq. apply (Hb p q) in Hbq; [|done..]. rewrite (Hall q Hq) in Hbq; [done|by apply Hs].
    + exists l1, l2. split; [done|]. intros q Hq Hsq. apply (Hb q p); [done..|]. apply H1; [done|by apply Hs].
  - intros q Hq Hsq%Hs. by rewrite (Hf q Hq) in Hsq.
Qed.
Lemma suits_device_spec d p : autoconnect p && profile_matches p d = true <-> suits_device d p.
Proof.
  unfold suits_device, profile_matches. rewrite andb_true_iff. case_bool_decide as Ht; cbn [negb].
  - destruct (interface_name p) as [name|]; [rewrite String.eqb_eq|]; intuition congruence.
  - intuition congruence.
Qed.
Lemma better_for_spec d p q : suits_device d p -> suits_device d q -> autoconnect_le d p q = false <-> better_for d q p.
Proof.
  intros (_ & _ & Hp) (_ & _ & Hq). unfold autoconnect_le, better_for, pinned.
  destruct Hp as [-> | ->], Hq as [-> | ->]; repeat (case_bool_decide; try done); rewrite ?Z.leb_gt; intuition (try congruence; lia).
Qed.
Lemma in_view_spec visible p : autoconnect p && ssid_visible visible p = true <-> in_view visible p.
Proof.
  unfold in_view, ssid_visible. rewrite andb_true_iff. destruct (wifi p) as [s|]; [|split; [by intros []|by intros (_ & s & ? & _)]]. rewrite existsb_exists. split.
  - intros (Ha & x & Hx & <-%String.eqb_eq). eauto.
  - intros (Ha & s' & [= <-] & Hs). split; [done|]. exists (ws_ssid s). by rewrite String.eqb_refl.
Qed.

(** ** Properties *)

(** C39: autoconnect picks the right profile.  The choice for a device is an
    autoconnect profile of its type that names it or no interface; none that
    suits is better, where one pinned to the device is better than one that is
    not and otherwise the higher priority is; and of equal ones it is the first
    in the caller's (most recently used) order.  For Wi-Fi it is an autoconnect
    profile whose network is in view, with no higher priority in view and the
    first of its priority, whatever interface it names.  There is none only when
    no candidate suits. *)
Theorem autoconnect_best d candidates visible :
  chosen (suits_device d) (better_for d) candidates (select d candidates)
  /\ match dev_type d with
     | DtWiFi => chosen (in_view visible) higher_priority candidates (select_wifi d candidates visible)
     | _ => select_wifi d candidates visible = None
     end.
Proof.
  split.
  - apply sorted_chosen; [apply autoconnect_le_total|apply autoconnect_le_trans|apply suits_device_spec|apply better_for_spec].
  - unfold select_wifi. destruct (dev_type d) eqn:E; try done. rewrite bool_decide_eq_true_2 by done. cbn [negb].
    apply sorted_chosen; [intros; lia|intros; lia|apply in_view_spec|]. intros p q _ _. unfold higher_priority. lia.
Qed.
(** The choice for Wi-Fi takes a profile that is pinned to another interface. *)
Example wifi_choice_ignores_pin :
  let p := mkProfile "cafe" "cafe" DtWiFi (Some "wlan1"%string) AmAuto Slaac [] None [] true 0 false
             (Some (mkWifiSettings "cafe" SecOpen false false None None None None false None None)) None in
  let d := mkDevice "wlan0" 3 DtWiFi Disconnected None 1500 [] [] true None None in
  select_wifi d [p] ["cafe"%string] = Some p /\ select d [p] = None.
Proof. split; reflexivity. Qed.

(** The reported state follows the devices: something is being brought up
    exactly when the state is Connecting, and any of the connected states means
    that a device is activated and none is in transition. *)
Theorem overall_state_sound devices c :
  (overall_state devices c = NsConnecting <->
     exists d, In d devices /\ (dev_state d = Connecting \/ dev_state d = IpConfiguring))
  /\ (overall_state devices c = NsDisconnecting ->
     exists d, In d devices /\ dev_state d = Deactivating)
  /\ (In (overall_state devices c) [NsConnected; NsConnectedLocal; NsLimited; NsPortal] <->
     (exists d, In d devices /\ dev_state d = Activated)
     /\ forall d, In d devices -> ~ In (dev_state d) [Connecting; IpConfiguring; Deactivating])
  /\ (overall_state devices c = NsConnected -> c = CsFull).
Proof.
  assert (Hany : forall P : DeviceState -> Prop, forall dec : forall s, Decision (P s),
    if existsb (fun d => bool_decide (P (dev_state d))) devices
    then exists d, In d devices /\ P (dev_state d) else forall d, In d devices -> ~ P (dev_state d)).
  { intros P dec. destruct (existsb _ devices) eqn:E.
    - apply existsb_exists in E as (d & Hd & Hp). exists d. split; [done|]. by apply bool_decide_eq_true_1 in Hp.
    - intros d Hd Hp. rewrite <- not_true_iff_false in E. apply E, existsb_exists. exists d. split; [done|].
      by apply bool_decide_eq_true_2. }
  pose proof (Hany (fun s => s = Connecting \/ s = IpConfiguring) _) as H1.
  pose proof (Hany (fun s => s = Deactivating) _) as H2.
  pose proof (Hany (fun s => s = Activated) _) as H3. clear Hany.
  unfold overall_state. cbv zeta.
  destruct (existsb (fun d => bool_decide (dev_state d = Connecting \/ dev_state d = IpConfiguring)) devices).
  { split_and!; [done| |split|]; try done.
    - cbn. intuition discriminate.
    - intros [_ Hn]. destruct H1 as (d & Hd & Hs). exfalso. apply (Hn d Hd). cbn. intuition. }
  assert (Hno : forall s, s <> NsConnecting -> s = NsConnecting <->
     exists d, In d devices /\ (dev_state d = Connecting \/ dev_state d = IpConfiguring)).
  { intros s Hs. split; [done|]. intros (d & Hd & Hc). exfalso. by apply (H1 d Hd). }
  destruct (existsb (fun d => bool_decide (dev_state d = Deactivating)) devices).
  { split_and!; [by apply Hno| |split|]; try done.
    - cbn. intuition discriminate.
    - intros [_ Hn]. destruct H2 as (d & Hd & Hs). exfalso. apply (Hn d Hd). cbn. intuition. }
  destruct (existsb (fun d => bool_decide (dev_state d = Activated)) devices).
  { split_and!; [destruct c; by apply Hno|by destruct c|split|by destruct c].
    - intros _. split; [done|]. intros d Hd. specialize (H1 d Hd). specialize (H2 d Hd). cbn. intuition.
    - intros _. destruct c; cbn; auto. }
  set (s := if negb _ then _ else _). assert (Hs : s = NsUnavailable \/ s = NsDisconnected).
  { unfold s. repeat case_match; auto. }
  split_and!; [apply Hno; by destruct Hs as [->| ->]|by destruct Hs as [->| ->]|split|by destruct Hs as [->| ->]].
  - destruct Hs as [->| ->]; cbn; intuition discriminate.
  - intros [(d & Hd & Ha) _]. exfalso. by apply (H3 d Hd).
Qed.
