(* ===== verification/Ipc.v ===== *)
(** * The control socket (ipc/messages.rs, protocol.rs, server.rs, client.rs)

    Length-prefixed JSON frames over a byte stream, the capability each request
    needs, the per-connection request loop with its throttle, the connection
    cap, and the blocking client.  [serde_json] is a parameter ([Serde]); so are
    the byte stream ([ByteStream]) and the manager thread behind its channel
    ([ManagerChannel]). *)

From Stdlib Require Import Ascii String.
From S2P Require Import Prelude RustStr Sys Security Firewall Device Connection.

(** ** Messages *)

Inductive ProxyMode := PmNone | PmManual | PmAuto.
Record ProxyConfig := mkProxyConfig {
  mode : ProxyMode;
  http : option string;
  https : option string;
  ftp : option string;
  socks : option string;
  no_proxy : list string;
  pac_url : option string
}.
Definition proxy_config_default : ProxyConfig := mkProxyConfig PmNone None None None None [] None.

Inductive Request :=
| GetState
| ListDevices
| GetDevice (name : string)
| ListConnections
| GetConnection (id : string)
| AddConnection (profile : ConnectionProfile)
| DeleteConnection (id : string)
| ActivateConnection (id : string)
| DeactivateConnection (id : string)
| ScanWifi (device : string)
| ListWifiNetworks (device : string)
| ConnectWifi (device ssid : string) (security : SecurityType) (passphrase : option string)
| ForgetWifi (device ssid : string)
| StartHotspot (device ssid : string) (passphrase uplink : option string)
| StopHotspot (device : string)
| SetFirewallZone (interface zone : string)
| AddFirewallRule (rule : Rule)
| RemoveFirewallRule (id : string)
| GetConnectivity
| Diagnose
| Reload
| ListBluetoothDevices
| BluetoothPower (on : bool)
| BluetoothScan (on : bool)
| PairBluetooth (mac : string)
| TrustBluetooth (mac : string)
| ConnectBluetooth (mac : string)
| DisconnectBluetooth (mac : string)
| RemoveBluetooth (mac : string)
| SetProxyConfig (config : ProxyConfig)
| GetProxyConfig
| ResolveProxy (url : string).

Record RouteSummary := mkRouteSummary {
  rs_destination : string; rs_gateway : option string; rs_interface_index : Z; rs_metric : option Z
}.
Record DnsSummary := mkDnsSummary { ds_nameservers : list string; ds_search : list string }.
Record NeighborSummary := mkNeighborSummary {
  ns_ip : string; ns_mac : option string; ns_interface_index : Z; reachable : bool
}.
Record DiagnosticReport := mkDiagnosticReport {
  dr_devices : list NetworkDevice;
  routes_v4 : list RouteSummary;
  routes_v6 : list RouteSummary;
  dr_dns : DnsSummary;
  neighbors : list NeighborSummary;
  dr_connectivity : ConnectivityState
}.
Record BluetoothDevice := mkBluetooth {
  bt_mac : string; bt_name : string; paired : bool; bt_connected : bool
}.

Inductive Response :=
| ResOk
| ResState (s : NetworkState)
| ResDevices (l : list NetworkDevice)
| ResDevice (d : NetworkDevice)
| ResConnections (l : list ConnectionProfile)
| ResConnection (p : ConnectionProfile)
| ResWifiNetworks (l : list WifiNetwork)
| ResConnectivity (c : ConnectivityState)
| ResDiagnostics (r : DiagnosticReport)
| ResBluetoothDevices (l : list BluetoothDevice)
| ResProxyConfig (c : option ProxyConfig)
| ResProxyResolution (s : string)
| ResError (s : string).
Inductive Event :=
| EvStateChanged (s : NetworkState)
| EvDeviceAdded (d : NetworkDevice)
| EvDeviceRemoved (name : string)
| EvDeviceStateChanged (device : string) (state : DeviceState)
| EvConnectionActivated (id : string)
| EvConnectionDeactivated (id : string)
| EvConnectivityChanged (c : ConnectivityState).
Inductive ServerMessage :=
| SmResponse (r : Response)
| SmEvent (e : Event).

Definition required_capability (req : Request) : Capability :=
  match req with
  | GetState | ListDevices | GetDevice _ | ListConnections | GetConnection _ | ListWifiNetworks _
  | GetConnectivity | ListBluetoothDevices | GetProxyConfig | ResolveProxy _ | Diagnose => ViewState
  | AddConnection _ | DeleteConnection _ | ActivateConnection _ | DeactivateConnection _ => ManageConnections
  | ScanWifi _ | ConnectWifi _ _ _ _ | ForgetWifi _ _ => ManageWifi
  | StartHotspot _ _ _ _ | StopHotspot _ => ManageHotspot
  | SetFirewallZone _ _ | AddFirewallRule _ | RemoveFirewallRule _ => ManageFirewall
  | BluetoothPower _ | BluetoothScan _ | PairBluetooth _ | TrustBluetooth _ | ConnectBluetooth _
  | DisconnectBluetooth _ | RemoveBluetooth _ => ManageBluetooth
  | SetProxyConfig _ => ManageProxy
  | Reload => Admin
  end.

(** ** Framing *)

(** [serde_json::to_vec] and [from_slice]; an error is its text. *)
Class Serde (A : Type) := {
  to_vec : A -> list Z + string;
  from_slice : list Z -> A + string
}.
(** [From<serde_json::Error> for NetworkError] *)
Definition serde_try {A} (r : A + string) : outcome A :=
  match r with inl a => Ok a | inr e => Err (Parse e) end.
(** A blocking byte stream with its two directions. *)
Class ByteStream (W : Type) := {
  st_read_exact : nat -> io W (list Z);
  st_write_all : list Z -> io W unit;
  st_flush : io W unit
}.

Definition MAX_MESSAGE_LEN : Z := 1024 * 1024.

Section Framing.
Context {W : Type} `{ByteStream W}.

Definition write_message {A} `{Serde A} (value : A) : M W unit :=
  bytes ← lift (serde_try (to_vec value));
  let len := Z.of_nat (length bytes) in
  if MAX_MESSAGE_LEN <? len then throw (Other "outgoing IPC message too large")
  else
    io_try (st_write_all (to_le 4 (wrap 32 len))) ;;
    io_try (st_write_all bytes) ;;
    io_try st_flush.

Definition read_message {A} `{Serde A} : M W A :=
  len_buf ← io_try (st_read_exact 4);
  let len := from_le len_buf in
  if MAX_MESSAGE_LEN <? len
  then throw (Other ("incoming IPC message too large (" +:+ dec len +:+ " bytes)"))
  else
    buf ← io_try (st_read_exact (Z.to_nat len));
    lift (serde_try (from_slice buf)).

(** The client: [request] drops the events that come before its response,
    [next_event] the responses before an event.  The fuel bounds the messages
    read. *)
Fixpoint await_response (fuel : nat) `{Serde ServerMessage} : M W Response :=
  match fuel with
  | O => lift (Panic "fuel")
  | S fuel =>
      m ← read_message;
      match m with SmResponse r => mret r | SmEvent _ => await_response fuel end
  end.
Definition client_request (fuel : nat) `{Serde Request} `{Serde ServerMessage} (req : Request) : M W Response :=
  write_message req ;; await_response fuel.
Fixpoint next_event (fuel : nat) `{Serde ServerMessage} : M W Event :=
  match fuel with
  | O => lift (Panic "fuel")
  | S fuel =>
      m ← read_message;
      match m with SmEvent e => mret e | SmResponse _ => next_event fuel end
  end.
End Framing.

(** ** The request loop *)

(** What a command sent down the manager's channel comes to. *)
Inductive reply :=
| MgrGone                    (** [send] fails: the manager thread is gone *)
| MgrNoReply                 (** the response channel is dropped *)
| MgrReply (r : Response).
Class ManagerChannel (W : Type) := {
  mgr_request : Request -> PeerIdentity -> W -> reply * W
}.

Definition MAX_REQUESTS_PER_SEC : Z := 50.
Record window := mkWindow { window_start : Z; window_count : Z }.

Section RequestLoop.
Context {W : Type} `{ByteStream W} `{Clock W} `{ManagerChannel W} `{Accounts}
        `{Serde Request} `{Serde ServerMessage}.

(** The fixed-window throttle; [window_count] is a [u32]. *)
Definition throttle (win : window) : M W window :=
  now ← instant_now;
  win ← (if secs_to_nanos 1 <=? now - window_start win
         then t ← instant_now; mret (mkWindow t 0)
         else mret win);
  let count := window_count win + 1 in
  if 2 ^ 32 <=? count then lift (Panic "attempt to add with overflow")
  else
    (if MAX_REQUESTS_PER_SEC <? count then effect (clk_sleep 50000000) else mret tt) ;;
    mret (mkWindow (window_start win) count).

Definition answer (identity : PeerIdentity) (req : Request) : M W Response :=
  match check identity (required_capability req) with
  | Ok _ =>
      r ← observe (mgr_request req identity);
      match r with
      | MgrGone => throw (Other "manager thread is gone")
      | MgrNoReply => mret (ResError "manager did not reply")
      | MgrReply r => mret r
      end
  | Err e => mret (ResError (error_to_string e))
  | Panic why => lift (Panic why)
  end.

Definition request_step (identity : PeerIdentity) (win : window) : M W window :=
  req ← read_message;
  win ← throttle win;
  response ← answer identity req;
  write_message (SmResponse response) ;;
  mret win.

(** [n] turns of the loop, which ends only by an error: [Ok] is the state of a
    loop still running. *)
Fixpoint request_turns (n : nat) (identity : PeerIdentity) (win : window) : M W window :=
  match n with
  | O => mret win
  | S n => win ← request_step identity win; request_turns n identity win
  end.
Definition request_loop (n : nat) (identity : PeerIdentity) : M W window :=
  t ← instant_now; request_turns n identity (mkWindow t 0).
End RequestLoop.

(** ** A byte stream

    One end of a connected socket: the bytes that arrive, and the bytes sent. *)
Record duplex := mkDuplex { incoming : list Z; outgoing : list Z }.
Definition unexpected_eof : io_error := IoError IoOther "failed to fill whole buffer".
#[export] Instance duplex_stream : ByteStream duplex := {
  st_read_exact n d :=
    if (n <=? length (incoming d))%nat
    then (inl (take n (incoming d)), mkDuplex (drop n (incoming d)) (outgoing d))
    else (inr unexpected_eof, mkDuplex [] (outgoing d));
  st_write_all b d := (inl tt, mkDuplex (incoming d) (outgoing d ++ b));
  st_flush d := (inl tt, d)
}.

(** [serde] gives back the value it wrote. *)
Class SerdeLaws (A : Type) `{Serde A} := {
  serde_roundtrip (v : A) b : to_vec v = inl b -> from_slice b = inl v
}.
Definition frame (b : list Z) : list Z := to_le 4 (Z.of_nat (length b)) ++ b.
Definition sendable {A} `{Serde A} (v : A) (b : list Z) : Prop :=
  to_vec v = inl b /\ Z.of_nat (length b) <= MAX_MESSAGE_LEN.

Lemma read_exact_app (b r : list Z) o :
  st_read_exact (length b) (mkDuplex (b ++ r) o) = (inl b, mkDuplex r o).
Proof.
  cbn. rewrite length_app. destruct (Nat.leb_spec (length b) (length b + length r)); [|lia].
  by rewrite take_app_length, drop_app_length.
Qed.

Lemma message_len_wrap (b : list Z) :
  Z.of_nat (length b) <= MAX_MESSAGE_LEN -> is_u32 (Z.of_nat (length b)).
Proof. unfold MAX_MESSAGE_LEN, is_uint. lia. Qed.

Lemma write_message_frame {A} `{Serde A} (v : A) b d :
  sendable v b -> write_message v d = (Ok tt, mkDuplex (incoming d) (outgoing d ++ frame b)).
Proof.
  intros [Hv Hl]. unfold write_message, lift, mbind, M_bind, io_try. rewrite Hv. cbn -[to_le].
  destruct (Z.ltb_spec MAX_MESSAGE_LEN (Z.of_nat (length b))); [lia|].
  rewrite wrap_small by (by apply message_len_wrap). cbn -[to_le]. unfold frame. by rewrite app_assoc.
Qed.

Lemma read_message_frame_gen {A} `{Serde A} b r o :
  Z.of_nat (length b) <= MAX_MESSAGE_LEN ->
  read_message (mkDuplex (frame b ++ r) o) = (serde_try (from_slice b : A + string), mkDuplex r o).
Proof.
  intros Hl. unfold read_message, lift, mbind, M_bind, io_try, frame. rewrite <- app_assoc.
  pose proof (read_exact_app (to_le 4 (Z.of_nat (length b))) (b ++ r) o) as E.
  rewrite length_to_le in E. rewrite E.
  assert (Hu := message_len_wrap b Hl). unfold is_uint in Hu.
  rewrite from_le_to_le by (cbn; lia).
  destruct (Z.ltb_spec MAX_MESSAGE_LEN (Z.of_nat (length b))); [lia|].
  rewrite Nat2Z.id, read_exact_app. done.
Qed.
Lemma read_message_frame {A} `{Serde A} `{!SerdeLaws A} (v : A) b r o :
  sendable v b -> read_message (mkDuplex (frame b ++ r) o) = (Ok v, mkDuplex r o).
Proof.
  intros [Hv Hl]. rewrite read_message_frame_gen by done. by rewrite (serde_roundtrip v b).
Qed.

(** Writing, then reading, any number of messages. *)
Fixpoint read_messages {W A} `{ByteStream W} `{Serde A} (n : nat) : M W (list A) :=
  match n with
  | O => mret []
  | S n => v ← read_message; vs ← read_messages n; mret (v :: vs)
  end.
Fixpoint frames {A} `{Serde A} (vs : list A) (bs : list (list Z)) : Prop :=
  match vs, bs with
  | [], [] => True
  | v :: vs, b :: bs => sendable v b /\ frames vs bs
  | _, _ => False
  end.
Lemma write_messages_frames {A} `{Serde A} (vs : list A) bs d :
  frames vs bs ->
  for_each vs write_message d = (Ok tt, mkDuplex (incoming d) (outgoing d ++ concat (map frame bs))).
Proof.
  revert bs d. induction vs as [|v vs IH]; intros [|b bs] d Hf; try done; cbn.
  - rewrite app_nil_r. by destruct d.
  - destruct Hf as [Hv Hf]. unfold mbind, M_bind. rewrite (write_message_frame v b) by done.
    rewrite (IH bs) by done. cbn. by rewrite app_assoc.
Qed.
Lemma read_messages_frames {A} `{Serde A} `{!SerdeLaws A} (vs : list A) bs r o :
  frames vs bs ->
  read_messages (length vs) (mkDuplex (concat (map frame bs) ++ r) o) = (Ok vs, mkDuplex r o).
Proof.
  revert bs. induction vs as [|v vs IH]; intros [|b bs] Hf; try done; cbn [length read_messages].
  destruct Hf as [Hv Hf]. unfold mbind, M_bind. cbn [map concat]. rewrite <- app_assoc.
  rewrite (read_message_frame v b) by done. by rewrite IH.
Qed.

(** The events before a response are dropped. *)
Lemma await_response_events {fuel : nat} `{Serde ServerMessage} `{!SerdeLaws ServerMessage}
    (es : list Event) bs res b r o :
  frames (map SmEvent es) bs -> sendable (SmResponse res) b -> (length es < fuel)%nat ->
  await_response fuel (mkDuplex (concat (map frame bs) ++ frame b ++ r) o) = (Ok res, mkDuplex r o).
Proof.
  revert fuel bs. induction es as [|e es IH]; intros [|fuel] [|b0 bs] Hf Hb Hl; try (cbn in *; lia || done);
    cbn [await_response]; unfold mbind, M_bind; cbn [map concat app].
  - by rewrite (read_message_frame (SmResponse res) b).
  - destruct Hf as [H0 Hf]. rewrite <- app_assoc. rewrite (read_message_frame (SmEvent e) b0) by done.
    apply IH; [done|done|cbn in Hl; lia].
Qed.

(** What one read takes off the stream. *)
Lemma read_message_takes {A} `{Serde A} d (r : outcome A) d' :
  read_message d = (r, d') ->
  outgoing d' = outgoing d /\
  exists k, Z.of_nat k <= 4 + MAX_MESSAGE_LEN /\ incoming d' = drop k (incoming d).
Proof.
  unfold read_message, lift, mbind, M_bind, io_try. cbn [st_read_exact duplex_stream].
  destruct (Nat.leb_spec 4 (length (incoming d))) as [H4|H4].
  2:{ intros [= <- <-]. split; [done|]. exists (length (incoming d)). cbn [incoming].
      rewrite drop_all. unfold MAX_MESSAGE_LEN. split; [lia|done]. }
  cbn [incoming outgoing].
  destruct (Z.ltb_spec MAX_MESSAGE_LEN (from_le (take 4 (incoming d)))).
  { intros [= <- <-]. split; [done|]. exists 4%nat. split; [unfold MAX_MESSAGE_LEN; lia|done]. }
  set (n := Z.to_nat _). cbn [incoming outgoing]. destruct (Nat.leb_spec n (length (drop 4 (incoming d)))) as [Hn|Hn].
  - intros [= <- <-]. split; [done|]. exists (4 + n)%nat. cbn [incoming].
    rewrite drop_drop. split; [unfold MAX_MESSAGE_LEN in *; lia|done].
  - intros [= <- <-]. split; [done|]. exists (length (incoming d)). cbn [incoming].
    rewrite drop_all. rewrite length_drop in Hn. unfold MAX_MESSAGE_LEN in *. split; [lia|done].
Qed.

(** ** What a computation keeps *)

Definition keeps {W A} (P : W -> Prop) (c : M W A) : Prop := forall w, P w -> P (c w).2.
Lemma preserves_bind {W A B} (P : W -> Prop) (c : M W A) (k : A -> M W B) :
  keeps P c -> (forall a, keeps P (k a)) -> keeps P (c ≫= k).
Proof.
  intros Hc Hk w Hw. unfold mbind, M_bind. specialize (Hc w Hw).
  destruct (c w) as [[a|e|s] w']; [by apply Hk|done|done].
Qed.
Lemma preserves_lift {W A} (P : W -> Prop) (o : outcome A) : keeps P (lift o : M W A).
Proof. by intros w Hw. Qed.
Lemma preserves_mret {W A} (P : W -> Prop) (a : A) : keeps P (mret a : M W A).
Proof. by intros w Hw. Qed.
Lemma preserves_throw {W A} (P : W -> Prop) e : keeps P (throw e : M W A).
Proof. by intros w Hw. Qed.
Lemma preserves_io {W A} (P : W -> Prop) (c : io W A) : (forall w, P w -> P (c w).2) -> keeps P (io_try c).
Proof. intros Hc w Hw. specialize (Hc w Hw). unfold io_try. by destruct (c w) as [[?|?] ?]. Qed.
Lemma preserves_observe {W A} (P : W -> Prop) (f : W -> A * W) : (forall w, P w -> P (f w).2) -> keeps P (observe f).
Proof. intros Hf w Hw. specialize (Hf w Hw). unfold observe. by destruct (f w). Qed.
Lemma preserves_effect {W} (P : W -> Prop) (f : W -> W) : (forall w, P w -> P (f w)) -> keeps P (effect f).
Proof. intros Hf w Hw. by apply Hf. Qed.
#[export] Hint Resolve preserves_bind preserves_lift preserves_mret preserves_throw preserves_io preserves_observe preserves_effect : mitos.

(** ** The log of the manager's channel *)

Definition logged (W : Type) : Type := (W * list (Request * PeerIdentity))%type.
Definition unlogged {W A} (c : io W A) : io (logged W) A := fun w =>
  let '(r, w') := c w.1 in (r, (w', w.2)).
#[export] Instance logged_stream {W} `{ByteStream W} : ByteStream (logged W) := {
  st_read_exact n := unlogged (st_read_exact n);
  st_write_all b := unlogged (st_write_all b);
  st_flush := unlogged st_flush
}.
#[export] Instance logged_clock {W} `{Clock W} : Clock (logged W) := {
  clk_instant w := let '(t, w') := clk_instant w.1 in (t, (w', w.2));
  clk_unix w := let '(t, w') := clk_unix w.1 in (t, (w', w.2));
  clk_pid w := clk_pid w.1;
  clk_sleep d w := (clk_sleep d w.1, w.2)
}.
#[export] Instance logged_manager {W} `{ManagerChannel W} : ManagerChannel (logged W) := {
  mgr_request req id w := let '(r, w') := mgr_request req id w.1 in (r, (w', w.2 ++ [(req, id)]))
}.

Definition authorized `{Accounts} (identity : PeerIdentity) (entry : Request * PeerIdentity) : Prop :=
  entry.2 = identity /\ check identity (required_capability entry.1) = Ok tt.

(** A property of the world that the stream and the clock keep, and the manager
    too where the peer is authorized: a whole connection keeps it. *)
Record respects {W} `{ByteStream W} `{Clock W} `{ManagerChannel W} `{Accounts} (P : W -> Prop) (identity : PeerIdentity) : Prop := {
  rs_read n w : P w -> P (st_read_exact n w).2;
  rs_write b w : P w -> P (st_write_all b w).2;
  rs_flush w : P w -> P (st_flush w).2;
  rs_instant w : P w -> P (clk_instant w).2;
  rs_sleep d w : P w -> P (clk_sleep d w);
  rs_manager req w : check identity (required_capability req) = Ok tt -> P w -> P (mgr_request req identity w).2
}.

Section Mediation.
Context {W : Type} `{ByteStream W} `{Clock W} `{ManagerChannel W} `{Accounts}
        `{Serde Request} `{Serde ServerMessage}.
Context (P : W -> Prop) (identity : PeerIdentity) (HP : respects P identity).

Lemma read_exact_keeps k : keeps P (io_try (st_read_exact k)).
Proof using HP. apply preserves_io. intros w. by apply (rs_read P identity HP). Qed.
Lemma write_all_keeps b : keeps P (io_try (st_write_all b)).
Proof using HP. apply preserves_io. intros w. by apply (rs_write P identity HP). Qed.
Lemma flush_keeps : keeps P (io_try st_flush).
Proof using HP. apply preserves_io. intros w. by apply (rs_flush P identity HP). Qed.
Hint Resolve read_exact_keeps write_all_keeps flush_keeps : mitos.
Lemma read_message_keeps {A} `{Serde A} : keeps P (read_message : M W A).
Proof using HP.
  unfold read_message. apply preserves_bind; [eauto with mitos|]. intros b. cbv beta zeta.
  case_match; eauto with mitos.
Qed.
Lemma write_message_keeps {A} `{Serde A} (v : A) : keeps P (write_message v : M W unit).
Proof using HP.
  unfold write_message. apply preserves_bind; [eauto with mitos|]. intros b. cbv beta zeta.
  case_match; [eauto with mitos|]. repeat (apply preserves_bind; intros; [eauto with mitos|]). eauto with mitos.
Qed.
Lemma instant_keeps : keeps P (instant_now : M W Z).
Proof using HP. apply preserves_observe. intros w. by apply (rs_instant P identity HP). Qed.
Lemma throttle_keeps win : keeps P (throttle win : M W window).
Proof using HP.
  unfold throttle. apply preserves_bind; [apply instant_keeps|]. intros now.
  apply preserves_bind; [case_match; [apply preserves_bind; [apply instant_keeps|]|]; eauto with mitos|].
  intros win'. cbv beta zeta. case_match; [eauto with mitos|].
  apply preserves_bind; [case_match; [apply preserves_effect; apply (rs_sleep P identity HP)|eauto with mitos]|]. eauto with mitos.
Qed.
Lemma answer_keeps req : keeps P (answer identity req : M W Response).
Proof using HP.
  unfold answer. destruct (check _ _) as [[]|e|s] eqn:E; [|eauto with mitos..].
  apply preserves_bind; [|intros []; eauto with mitos]. apply preserves_observe. intros w. by apply (rs_manager P identity HP).
Qed.
Lemma request_turns_keeps n win : keeps P (request_turns n identity win : M W window).
Proof using HP.
  revert win. induction n as [|n IH]; intros win; cbn [request_turns]; [eauto with mitos|].
  apply preserves_bind; [|done]. unfold request_step.
  apply preserves_bind; [apply read_message_keeps|]. intros req.
  apply preserves_bind; [apply throttle_keeps|]. intros win'.
  apply preserves_bind; [apply answer_keeps|]. intros r.
  apply preserves_bind; [apply write_message_keeps|]. eauto with mitos.
Qed.
Lemma request_loop_keeps n : keeps P (request_loop n identity : M W window).
Proof using HP. apply preserves_bind; [apply instant_keeps|]. intros t. apply request_turns_keeps. Qed.
End Mediation.

(** What the log gains in a connection. *)
Definition extends {W} `{Accounts} (old : list (Request * PeerIdentity)) (identity : PeerIdentity) (w : logged W) : Prop :=
  exists new, w.2 = old ++ new /\ Forall (authorized identity) new.
Lemma extends_respects {W} `{ByteStream W} `{Clock W} `{ManagerChannel W} `{Accounts} old identity :
  respects (W := logged W) (extends old identity) identity.
Proof.
  assert (Hu : forall A (c : io W A) w, extends old identity w -> extends old identity (unlogged c w).2)
    by (intros A c w; unfold unlogged, extends; by destruct (c w.1)).
  split; intros; [by apply Hu..| |done|].
  - cbn. by destruct (clk_instant w.1).
  - destruct H4 as (new & Hw & Hn). cbn. destruct (mgr_request req identity w.1) as [r w'].
    exists (new ++ [(req, identity)]). cbn. rewrite Hw, app_assoc. split; [done|].
    apply Forall_app. split; [done|]. by repeat constructor.
Qed.

(** ** The throttle *)

(** Time never goes back, and a sleep lasts at least as long as asked. *)
Class ConnTimeLaws (W : Type) `{ByteStream W} `{Clock W} `{ManagerChannel W} := {
  conn_time : W -> Z;
  conn_instant w : (clk_instant w).1 = conn_time w;
  conn_instant_mono w : conn_time w <= conn_time (clk_instant w).2;
  conn_sleep d w : conn_time w + d <= conn_time (clk_sleep d w);
  conn_read n w : conn_time w <= conn_time (st_read_exact n w).2;
  conn_write b w : conn_time w <= conn_time (st_write_all b w).2;
  conn_flush w : conn_time w <= conn_time (st_flush w).2;
  conn_mgr req id w : conn_time w <= conn_time (mgr_request req id w).2
}.
(** The moments at which requests are passed to the manager. *)
Definition stamped (W : Type) : Type := (W * list Z)%type.
Definition unstamped {W A} (c : io W A) : io (stamped W) A := fun w => let '(r, w') := c w.1 in (r, (w', w.2)).
#[export] Instance stamped_stream {W} `{ByteStream W} : ByteStream (stamped W) := {
  st_read_exact n := unstamped (st_read_exact n);
  st_write_all b := unstamped (st_write_all b);
  st_flush := unstamped st_flush
}.
#[export] Instance stamped_clock {W} `{Clock W} : Clock (stamped W) := {
  clk_instant w := let '(t, w') := clk_instant w.1 in (t, (w', w.2));
  clk_unix w := let '(t, w') := clk_unix w.1 in (t, (w', w.2));
  clk_pid w := clk_pid w.1;
  clk_sleep d w := (clk_sleep d w.1, w.2)
}.
#[export] Instance stamped_manager {W} `{ConnTimeLaws W} : ManagerChannel (stamped W) := {
  mgr_request req id w := let '(r, w') := mgr_request req id w.1 in (r, (w', w.2 ++ [conn_time w.1]))
}.

(** The one second from [t] on. *)
Definition in_second (t x : Z) : Prop := t <= x < t + secs_to_nanos 1.
#[export] Instance in_second_dec t x : Decision (in_second t x).
Proof. unfold in_second. apply _. Defined.
Definition within_second (t : Z) (l : list Z) : Z := Z.of_nat (length (filter (in_second t) l)).
Lemma within_second_snoc t l x : within_second t (l ++ [x]) = within_second t l + if decide (in_second t x) then 1 else 0.
Proof.
  unfold within_second. rewrite list.filter_app, length_app, Nat2Z.inj_add. f_equal. rewrite list.filter_cons, list.filter_nil. by case_decide.
Qed.

(** What a window may have passed without a delay by the second from [t] on,
    the windows before it included: a window that starts in that second has one
    before it, and the next starts after it. *)
Definition prompt (t : Z) (win : window) : Z :=
  if window_start win <? t then Z.min (window_count win) 50
  else if window_start win <? t + secs_to_nanos 1 then 50 + Z.min (window_count win) 50 else 100.
(** [u] requests of that second without a delay, and [d] delayed ones, the last
    of them at [y]; [slack] more are about to be passed. *)
Record tally (t now : Z) (win : window) (slack : bool) (u d y : Z) : Prop := {
  tl_count : 0 <= window_count win <= 70 /\ window_start win <= now /\ window_start win + (window_count win - 50) * 50000000 <= now;
  tl_none : now < t -> u = 0 /\ d = 0;
  tl_u : 0 <= u <= prompt t win;
  tl_d : 0 <= d /\ (d = 0 \/ t + (d - 1) * 50000000 <= y < t + secs_to_nanos 1 /\ y <= now);
  tl_slack : slack = true ->
    if 50 <? window_count win then d = 0 \/ y + 50000000 <= now else u + 1 <= prompt t win \/ t + secs_to_nanos 1 <= now
}.
Ltac tally_cases :=
  unfold prompt, secs_to_nanos in *; cbn [window_start window_count] in *;
  repeat match goal with
  | |- context [?a <? ?b] => destruct (Z.ltb_spec a b)
  | H : context [?a <? ?b] |- _ => destruct (Z.ltb_spec a b)
  end; try lia.
Lemma tally_later t now now' win u d y : tally t now win false u d y -> now <= now' -> tally t now' win false u d y.
Proof. intros [Hc Hn Hu Hd _] Ht. split; [lia|lia|done|lia|done]. Qed.
Lemma tally_due t now win u d y : tally t now win true u d y -> tally t now win false u d y.
Proof. by intros []. Qed.
(** A turn in the same window, with its delay. *)
Lemma tally_turn t now now' win u d y :
  tally t now win false u d y -> now - window_start win < secs_to_nanos 1 -> now + (if 50 <? window_count win + 1 then 50000000 else 0) <= now' ->
  tally t now' (mkWindow (window_start win) (window_count win + 1)) true u d y.
Proof. intros [Hc Hn Hu Hd _] Hw Ht. split; tally_cases. Qed.
(** A turn that starts a window. *)
Lemma tally_reset t now start now' win u d y :
  tally t now win false u d y -> secs_to_nanos 1 <= now - window_start win -> now <= start -> start <= now' ->
  tally t now' (mkWindow start 1) true u d y.
Proof. intros [Hc Hn Hu Hd _] Hw Hs Ht. split; tally_cases. Qed.
(** A request is passed. *)
Lemma tally_pass t now win u d y :
  tally t now win true u d y -> exists u' d' y', tally t now win false u' d' y' /\ u' + d' = u + d + if decide (in_second t now) then 1 else 0.
Proof.
  intros [Hc Hn Hu Hd Hs]. specialize (Hs eq_refl). case_decide as Hi; [|exists u, d, y; split; [by split|lia]]. unfold in_second in Hi.
  destruct (Z.ltb_spec 50 (window_count win)).
  - exists u, (d + 1), now. split; [split; [done|lia|done|lia|done]|lia].
  - exists (u + 1), d, y. split; [split; [done|lia|lia|done|done]|lia].
Qed.
Lemma tally_bound t now win u d y slack : tally t now win slack u d y -> u + d <= 120.
Proof. intros [Hc Hn Hu Hd _]. assert (d <= 20) by (unfold secs_to_nanos in *; lia). tally_cases. Qed.

Section Throttle.
Context {W : Type} `{ByteStream W} `{Clock W} `{ManagerChannel W} `{Accounts}
        `{Serde Request} `{Serde ServerMessage} {CL : ConnTimeLaws W}.
Implicit Types w : stamped W.

(** What a connection has passed since it had [old]. *)
Definition paced (t : Z) (old : list Z) (slack : bool) (win : window) w : Prop :=
  exists new u d y, w.2 = old ++ new /\ within_second t new = u + d /\ tally t (conn_time w.1) win slack u d y.
(** Time passes, and nothing is passed to the manager. *)
Definition later w w' : Prop := conn_time w.1 <= conn_time w'.1 /\ w'.2 = w.2.
Lemma paced_later t old win w w' : paced t old false win w -> later w w' -> paced t old false win w'.
Proof. intros (new & u & d & y & Hl & Hc & Ht) [Hn Hw]. exists new, u, d, y. rewrite Hw. split_and!; [done|done|by eapply tally_later]. Qed.

Lemma throttle_paced t old win w : paced t old false win w ->
  exists win' w', throttle win w = (Ok win', w') /\ paced t old true win' w'.
Proof using CL.
  intros (new & u & d & y & Hl & Hc & Ht). pose proof (tl_count _ _ _ _ _ _ _ Ht) as Hwin.
  unfold throttle, mbind, M_bind, instant_now. rewrite observe_run. cbn [clk_instant stamped_clock].
  pose proof (conn_instant w.1) as E1. pose proof (conn_instant_mono w.1) as M1. destruct (clk_instant w.1) as [t1 w1]. cbn [fst snd] in *. subst t1.
  destruct (Z.leb_spec (secs_to_nanos 1) (conn_time w.1 - window_start win)) as [Hr|Hr].
  - rewrite observe_run. cbn [clk_instant stamped_clock fst snd]. pose proof (conn_instant w1) as E2. pose proof (conn_instant_mono w1) as M2.
    destruct (clk_instant w1) as [t2 w2]. cbn [fst snd] in *. subst t2. cbn. do 2 eexists. split; [done|]. exists new, u, d, y. split_and!; [done|done|].
    eapply tally_reset; [exact Ht|exact Hr|exact M1|exact M2].
  - cbn [mret M_ret]. unfold mret, M_ret, MAX_REQUESTS_PER_SEC. destruct (Z.leb_spec (2 ^ 32) (window_count win + 1)); [lia|].
    pose proof (fun now' => tally_turn t _ now' win u d y Ht Hr) as Hturn. destruct (50 <? window_count win + 1).
    + unfold effect. cbn [clk_sleep stamped_clock fst snd]. pose proof (conn_sleep 50000000 w1). do 2 eexists. split; [done|].
      exists new, u, d, y. split_and!; [done|done|]. apply Hturn. cbn. lia.
    + do 2 eexists. split; [done|]. exists new, u, d, y. split_and!; [done|done|]. apply Hturn. cbn. lia.
Qed.

(** The rest of a turn does not panic. *)
Definition passes {A} (c : M (stamped W) A) : Prop := forall w, later w (c w).2 /\ no_panic (c w).1.
Lemma later_trans w1 w2 w3 : later w1 w2 -> later w2 w3 -> later w1 w3.
Proof. intros [] []. split; [lia|congruence]. Qed.
Lemma passes_bind {A B} (c : M (stamped W) A) (k : A -> M (stamped W) B) :
  passes c -> (forall a, passes (k a)) -> passes (c ≫= k).
Proof.
  intros Hc Hk w. unfold mbind, M_bind. specialize (Hc w) as [Ht Hp].
  destruct (c w) as [[a|e|s] w']; cbn in *; [|by split|by destruct (Hp s)].
  destruct (Hk a w'). split; [by eapply later_trans|done].
Qed.
Lemma passes_io {A} (c : io W A) : (forall x, conn_time x <= conn_time (c x).2) -> passes (io_try (unstamped c)).
Proof. intros Hc w. specialize (Hc w.1). unfold io_try, unstamped. by destruct (c w.1) as [[?|?] ?]. Qed.
Lemma passes_lift {A} (o : outcome A) : no_panic o -> passes (lift o).
Proof. intros Ho w. split; [by split; [cbn; lia|]|done]. Qed.
Lemma passes_throw {A} e : passes (throw e : M (stamped W) A).
Proof. intros w. split; [by split; [cbn; lia|]|done]. Qed.
Lemma read_passes n : passes (io_try (st_read_exact (W := stamped W) n)).
Proof using CL. apply passes_io, conn_read. Qed.
Lemma write_passes b : passes (io_try (st_write_all (W := stamped W) b)).
Proof using CL. apply passes_io, conn_write. Qed.
Lemma flush_passes : passes (io_try (st_flush (W := stamped W))).
Proof using CL. apply passes_io, conn_flush. Qed.
Lemma serde_try_ok {A} (r : A + string) : no_panic (serde_try r).
Proof. by destruct r. Qed.
Hint Resolve read_passes write_passes flush_passes passes_lift passes_throw serde_try_ok : mitos.

Lemma read_message_passes {A} `{Serde A} : passes (read_message : M (stamped W) A).
Proof using CL. unfold read_message. apply passes_bind; [eauto with mitos|]. intros b. cbv beta zeta.
  case_match; [eauto with mitos|]. apply passes_bind; eauto with mitos. Qed.
Lemma write_message_passes {A} `{Serde A} (v : A) : passes (write_message v : M (stamped W) unit).
Proof using CL. unfold write_message. apply passes_bind; [eauto with mitos|]. intros b. cbv beta zeta.
  case_match; [eauto with mitos|]. repeat (apply passes_bind; intros; [eauto with mitos|]). eauto with mitos. Qed.
Lemma check_no_panic id c : no_panic (check id c).
Proof. unfold check. by case_match. Qed.
Lemma answer_paced t old win id req w : paced t old true win w ->
  paced t old false win (answer id req w).2 /\ no_panic (answer id req w).1.
Proof using CL.
  intros (new & u & d & y & Hl & Hc & Ht). unfold answer. pose proof (check_no_panic id (required_capability req)) as Hp.
  destruct (check _ _) as [[]|e|why]; [|by split; [exists new, u, d, y; split_and!; [..|apply tally_due]|]|by destruct (Hp why)].
  unfold mbind, M_bind. rewrite observe_run. cbn [mgr_request stamped_manager]. pose proof (conn_mgr req id w.1) as Hm.
  destruct (mgr_request req id w.1) as [r w1]. cbn [fst snd] in *. split; [|by destruct r].
  assert (Hw : paced t old false win (w1, w.2 ++ [conn_time w.1])); [|by destruct r].
  destruct (tally_pass _ _ _ _ _ _ Ht) as (u' & d' & y' & Ht' & E). exists (new ++ [conn_time w.1]), u', d', y'. split_and!.
  - cbn. by rewrite Hl, app_assoc.
  - rewrite within_second_snoc, Hc, E. lia.
  - by eapply tally_later.
Qed.

(** In every case a turn leaves the connection within its share. *)
Definition shared {A} (t : Z) (old : list Z) (r : outcome A * stamped W) : Prop := no_panic r.1 /\ exists win slack, paced t old slack win r.2.
Lemma request_turns_shared t old n id win w : paced t old false win w -> shared t old (request_turns n id win w).
Proof using CL.
  revert win w. induction n as [|n IH]; intros win w Hw; cbn [request_turns]; [split; [done|by exists win, false]|].
  unfold mbind at 1, M_bind at 1, request_step. unfold mbind at 1, M_bind at 1.
  destruct (read_message_passes (A := Request) w) as [T1 P1]. pose proof (paced_later _ _ _ _ _ Hw T1) as Hw1.
  destruct (read_message w) as [[req|e|s] w1]; cbn [fst snd] in *; [|by split; [|exists win, false]|by destruct (P1 s)].
  unfold mbind at 1, M_bind at 1. destruct (throttle_paced t old win w1 Hw1) as (win' & w2 & -> & Hw2).
  unfold mbind at 1, M_bind at 1. destruct (answer_paced t old win' id req w2 Hw2) as [Hw3 P3].
  destruct (answer id req w2) as [[r|e|s] w3]; cbn [fst snd] in *; [|by split; [|exists win', false]|by destruct (P3 s)].
  unfold mbind at 1, M_bind at 1. destruct (write_message_passes (SmResponse r) w3) as [T4 P4]. pose proof (paced_later _ _ _ _ _ Hw3 T4) as Hw4.
  destruct (write_message (SmResponse r) w3) as [[[]|e|s] w4]; cbn [fst snd] in *; [|by split; [|exists win', false]|by destruct (P4 s)].
  by apply IH.
Qed.
Lemma request_loop_shared t n id w : shared t w.2 (request_loop n id w).
Proof using CL.
  unfold request_loop, mbind, M_bind, instant_now. rewrite observe_run. cbn [clk_instant stamped_clock].
  pose proof (conn_instant w.1) as E. pose proof (conn_instant_mono w.1) as Hm. destruct (clk_instant w.1) as [t0 w1]. cbn [fst snd] in *. subst t0.
  apply request_turns_shared. exists [], 0, 0, 0. split_and!; [by rewrite app_nil_r|done|]. cbn [fst]. split; tally_cases.
Qed.
End Throttle.

(** ** The connection cap

    The accept loop of [serve] and the handler threads interleave: a handler may
    end, and its [ConnectionSlot] give the slot back, at any point between the
    loop's claim of a slot and its decision.  [active] is the [AtomicUsize]. *)
Definition MAX_CONNECTIONS : Z := 128.
Inductive accept_phase :=
| Accepting                  (** in [listener.incoming()] *)
| Claimed (prior : Z).       (** after [fetch_add], before the decision *)
Record accept_state := mkAccept { active : Z; handlers : nat; phase : accept_phase }.
Definition fetch_add (n : Z) : Z := wrap 64 (n + 1).
Definition fetch_sub (n : Z) : Z := wrap 64 (n - 1).

Inductive accept_step : accept_state -> accept_state -> Prop :=
| accept_failed a h :
    accept_step (mkAccept a h Accepting) (mkAccept a h Accepting)
| accept_claim a h :
    accept_step (mkAccept a h Accepting) (mkAccept (fetch_add a) h (Claimed a))
| accept_refuse a h prior :
    MAX_CONNECTIONS <= prior ->
    accept_step (mkAccept a h (Claimed prior)) (mkAccept (fetch_sub a) h Accepting)
| accept_spawn a h prior :
    prior < MAX_CONNECTIONS ->
    accept_step (mkAccept a h (Claimed prior)) (mkAccept a (S h) Accepting)
| accept_spawn_failed a h prior :
    prior < MAX_CONNECTIONS ->
    accept_step (mkAccept a h (Claimed prior)) (mkAccept (fetch_sub a) h Accepting)
| handler_ends a h p :
    accept_step (mkAccept a (S h) p) (mkAccept (fetch_sub a) h p).
Definition accept_start : accept_state := mkAccept 0 0 Accepting.
Definition accept_reachable : accept_state -> Prop := rtc accept_step accept_start.

(** The counter is the handlers that live, and the claim under decision. *)
Definition accept_ok (s : accept_state) : Prop :=
  Z.of_nat (handlers s) <= MAX_CONNECTIONS /\
  match phase s with
  | Accepting => active s = Z.of_nat (handlers s)
  | Claimed prior =>
      active s = Z.of_nat (handlers s) + 1 /\ Z.of_nat (handlers s) <= prior <= MAX_CONNECTIONS
  end.
Lemma accept_step_ok s s' : accept_step s s' -> accept_ok s -> accept_ok s'.
Proof.
  unfold accept_ok, MAX_CONNECTIONS. intros Hs.
  destruct Hs as [a h|a h|a h p Hp|a h p Hp|a h p Hp|a h [|p]]; cbn [handlers phase active];
    unfold fetch_add, fetch_sub, MAX_CONNECTIONS in *; intros; try lia;
    try rewrite !wrap_small by (unfold is_uint; lia); lia.
Qed.
Lemma accept_reachable_ok s : accept_reachable s -> accept_ok s.
Proof.
  intros Hr. unfold accept_reachable in Hr.
  assert (H0 : accept_ok accept_start) by (by unfold accept_ok, MAX_CONNECTIONS; cbn).
  revert H0. induction Hr as [|x y z Hs _ IH]; [done|]. intros Hx. apply IH. by eapply accept_step_ok.
Qed.

(** ** Properties *)

(** C13: no request reaches the manager unauthorized.  However many requests a
    connection sends, and whatever the stream, the clock and the manager do,
    every command the connection's loop passes to the manager carries the
    identity of the connection's peer, and that peer holds the capability the
    request needs. *)
Theorem request_loop_mediates {W} `{ByteStream W} `{Clock W} `{ManagerChannel W} `{Accounts}
    `{Serde Request} `{Serde ServerMessage} n identity (w : logged W) :
  exists new, (request_loop n identity w).2.2 = w.2 ++ new /\ Forall (authorized identity) new.
Proof. apply (request_loop_keeps (extends w.2 identity) identity (extends_respects w.2 identity)). exists []. by rewrite app_nil_r. Qed.

(** C24: the throttle bounds a connection's share of the manager.  With a clock
    that never goes back and sleeps that last as long as asked, and whatever else
    the peer and the manager do, the loop never panics, so that its request
    counter does not overflow, and in no second does it pass more than 120
    requests to the manager: the 50 that each of two windows lets through at once
    and the 20 whose delays of 50 ms fill the second. *)
Theorem request_loop_throttled {W} `{ByteStream W} `{Clock W} `{ManagerChannel W} `{Accounts}
    `{Serde Request} `{Serde ServerMessage} `{!ConnTimeLaws W} n identity (w : stamped W) :
  no_panic (request_loop n identity w).1
  /\ exists new, (request_loop n identity w).2.2 = w.2 ++ new /\ forall t, within_second t new <= 120.
Proof.
  split; [apply (request_loop_shared 0)|]. destruct (request_loop_shared 0 n identity w) as (_ & _ & _ & new & _ & _ & _ & Hn & _).
  exists new. split; [done|]. intros t. destruct (request_loop_shared t n identity w) as (_ & win & slack & new' & u & d & y & Hn' & Hc & Ht).
  rewrite Hn in Hn'. apply app_inv_head in Hn' as ->. rewrite Hc. by eapply tally_bound.
Qed.

(** The connection cap holds in every interleaving of the accept loop with
    ending handlers: at most 128 handlers live at once, the counter is exact
    whenever the loop waits in accept, so a connection is refused only when 128
    handlers live at the moment of the claim, and no slot leaks. *)
Theorem connection_cap s :
  accept_reachable s ->
  Z.of_nat (handlers s) <= MAX_CONNECTIONS
  /\ match phase s with
     | Accepting => active s = Z.of_nat (handlers s)
     | Claimed prior => active s = Z.of_nat (handlers s) + 1 /\ Z.of_nat (handlers s) <= prior <= MAX_CONNECTIONS
     end.
Proof. apply accept_reachable_ok. Qed.
Lemma connection_cap_witness : Z.of_nat (handlers (mkAccept 1 1 Accepting)) <= MAX_CONNECTIONS.
Proof.
  apply (connection_cap (mkAccept 1 1 Accepting)).
  eapply rtc_l; [apply accept_claim|]. eapply rtc_l; [apply (accept_spawn _ _ 0); reflexivity|]. apply rtc_refl.
Defined.

(** Messages survive the framing.  Any sequence of messages that fit, written
    one after another, is read back in order from the bytes that were written,
    with whatever follows them left on the stream; and a client that sends a
    request and finds events before the response skips exactly those events. *)
Theorem framing_roundtrip {A} `{Serde A} `{!SerdeLaws A} (vs : list A) bs rest out :
  frames vs bs ->
  exists written, for_each vs write_message (mkDuplex [] []) = (Ok tt, mkDuplex [] written)
    /\ read_messages (length vs) (mkDuplex (written ++ rest) out) = (Ok vs, mkDuplex rest out).
Proof.
  intros Hf. exists (concat (map frame bs)). rewrite (write_messages_frames vs bs) by done.
  split; [done|]. by apply read_messages_frames.
Qed.
Definition bool_serde : Serde bool := {|
  to_vec (b : bool) := inl (str_bytes (if b then "true" else "false"));
  from_slice l := if bool_decide (l = str_bytes "true") then inl true
                  else if bool_decide (l = str_bytes "false") then inl false else inr "expected a boolean"%string
|}.
Definition bool_serde_laws : @SerdeLaws bool bool_serde.
Proof. constructor. by intros [] b [= <-]. Defined.
#[local] Existing Instances bool_serde bool_serde_laws.
Lemma framing_roundtrip_witness :
  exists written, for_each [true; false] write_message (mkDuplex [] []) = (Ok tt, mkDuplex [] written)
    /\ read_messages 2 (mkDuplex (written ++ [7]) []) = (Ok [true; false], mkDuplex [7] []).
Proof.
  apply (framing_roundtrip [true; false] [str_bytes "true"; str_bytes "false"] [7] []).
  split; [split; [reflexivity|by_decision]|]. split; [split; [reflexivity|by_decision]|exact I].
Defined.

(** A response is found behind any number of events: after sending a request,
    the client returns the first response on the stream, having dropped exactly
    the events before it. *)
Theorem client_gets_response `{Serde Request} `{Serde ServerMessage} `{!SerdeLaws ServerMessage}
    fuel req rb (es : list Event) bs res b rest :
  sendable req rb -> frames (map SmEvent es) bs -> sendable (SmResponse res) b -> (length es < fuel)%nat ->
  client_request fuel req (mkDuplex (concat (map frame bs) ++ frame b ++ rest) [])
    = (Ok res, mkDuplex rest (frame rb)).
Proof.
  intros Hr Hf Hb Hl. unfold client_request, mbind, M_bind. rewrite (write_message_frame req rb) by done.
  by apply (await_response_events es bs).
Qed.


(** Messages enough for a concrete exchange. *)
Definition demo_request_serde : Serde Request := {|
  to_vec r := match r with GetState => inl [71] | Reload => inl [82] | _ => inr "unsupported"%string end;
  from_slice l := if bool_decide (l = [71]) then inl GetState
                  else if bool_decide (l = [82]) then inl Reload else inr "unsupported"%string
|}.
Definition demo_message_serde : Serde ServerMessage := {|
  to_vec m := match m with
    | SmEvent (EvDeviceRemoved n) => inl (101 :: str_bytes n)
    | SmResponse (ResProxyResolution s) => inl (114 :: str_bytes s)
    | SmResponse (ResError s) => inl (120 :: str_bytes s)
    | _ => inr "unsupported"%string end;
  from_slice l := match l with
    | 101 :: n => inl (SmEvent (EvDeviceRemoved (bytes_str n)))
    | 114 :: n => inl (SmResponse (ResProxyResolution (bytes_str n)))
    | 120 :: n => inl (SmResponse (ResError (bytes_str n)))
    | _ => inr "unsupported"%string end
|}.
Definition demo_message_laws : @SerdeLaws ServerMessage demo_message_serde.
Proof. constructor. intros [[]|[]] b Hb; cbn in Hb; try discriminate; injection Hb as <-; cbn; by rewrite bytes_str_bytes. Defined.
#[local] Existing Instances demo_request_serde demo_message_serde demo_message_laws.
Lemma client_gets_response_witness :
  client_request 2 GetState
    (mkDuplex (frame (101 :: str_bytes "eth0") ++ frame (114 :: str_bytes "DIRECT") ++ [9]) [])
    = (Ok (ResProxyResolution "DIRECT"), mkDuplex [9] (frame [71])).
Proof.
  apply (client_gets_response 2 GetState [71] [EvDeviceRemoved "eth0"] [101 :: str_bytes "eth0"]
           (ResProxyResolution "DIRECT") (114 :: str_bytes "DIRECT") [9]).
  - split; [reflexivity|by_decision].
  - split; [split; [reflexivity|by_decision]|exact I].
  - split; [reflexivity|by_decision].
  - by_decision.
Defined.

(** A connection with its own clock, a manager that answers everything and a
    host without accounts. *)
Record conn := mkConn { c_stream : duplex; c_time : Z }.
Definition over_stream {A} (c : io duplex A) : io conn A := fun w =>
  let '(r, d) := c (c_stream w) in (r, mkConn d (c_time w)).
Definition conn_stream : ByteStream conn := {|
  st_read_exact n := over_stream (st_read_exact n);
  st_write_all b := over_stream (st_write_all b);
  st_flush := over_stream st_flush
|}.
Definition conn_clock : Clock conn := {|
  clk_instant w := (c_time w, mkConn (c_stream w) (c_time w + 1));
  clk_unix w := ((c_time w / 1000000000, c_time w mod 1000000000), w);
  clk_pid _ := 1;
  clk_sleep d w := mkConn (c_stream w) (c_time w + d)
|}.
Definition conn_manager : ManagerChannel conn := {| mgr_request _ _ w := (MgrReply (ResProxyResolution "DIRECT"), w) |}.
Definition no_accounts : Accounts := {| getgrnam _ := None; getpwuid _ := None; getgrgid_members _ := None |}.
#[local] Existing Instances conn_stream conn_clock conn_manager no_accounts.
Definition conn_laws : ConnTimeLaws conn.
Proof.
  assert (Hs : forall A (c : io duplex A) w, c_time (over_stream c w).2 = c_time w).
  { intros A c w. unfold over_stream. by destruct (c (c_stream w)). }
  refine {| conn_time := c_time |}; intros; cbn [clk_instant clk_sleep mgr_request st_read_exact st_write_all st_flush
    conn_clock conn_stream conn_manager fst snd c_time]; rewrite ?Hs; lia || done.
Defined.
#[local] Existing Instance conn_laws.
Definition demo_conn : conn := mkConn (mkDuplex (frame [71] ++ frame [82]) []) 0.
(** A client that asks without a pause, with a fast manager: the requests of the
    budget are passed at once, and the next one 50 ms later. *)
Definition flood : conn := mkConn (mkDuplex (concat (repeat (frame [71]) 55)) []) 0.
Lemma request_loop_throttled_witness :
  no_panic (request_loop 55 (mkPeer 1000 1000 1) (flood, [])).1
  /\ (exists new, (request_loop 55 (mkPeer 1000 1000 1) (flood, [])).2.2 = [] ++ new /\ forall t, within_second t new <= 120)
  /\ within_second 0 (request_loop 55 (mkPeer 1000 1000 1) (flood, [])).2.2 = 55
  /\ within_second 0 (take 50 (request_loop 55 (mkPeer 1000 1000 1) (flood, [])).2.2) = 50
  /\ (request_loop 55 (mkPeer 1000 1000 1) (flood, [])).2.2 !! 49%nat = Some 51
  /\ (request_loop 55 (mkPeer 1000 1000 1) (flood, [])).2.2 !! 50%nat = Some 50000052.
Proof.
  destruct (request_loop_throttled 55 (mkPeer 1000 1000 1) (flood, [])) as [Hp Hs]. split; [exact Hp|]. split; [exact Hs|].
  vm_compute. repeat split.
Defined.
(** The root-only reload of an ordinary user is answered with an error and not
    passed on; the state query is. *)
Lemma request_loop_mediates_witness :
  exists new, (request_loop 2 (mkPeer 1000 1000 1) (demo_conn, [])).2.2 = [] ++ new
    /\ Forall (authorized (mkPeer 1000 1000 1)) new /\ new = [(GetState, mkPeer 1000 1000 1)].
Proof.
  destruct (request_loop_mediates 2 (mkPeer 1000 1000 1) (demo_conn, [])) as (new & Hn & Ha).
  exists new. split; [exact Hn|]. split; [exact Ha|].
  assert (E : (request_loop 2 (mkPeer 1000 1000 1) (demo_conn, [])).2.2 = [(GetState, mkPeer 1000 1000 1)])
    by (vm_compute; reflexivity).
  exact (eq_trans (eq_sym Hn) E).
Defined.

(** A peer cannot make the daemon read or allocate without bound: one
    [read_message] takes at most the four-byte length and one mebibyte off the
    stream, whatever the length it announces, and writes nothing. *)
Theorem read_message_bounded {A} `{Serde A} d :
  exists k, Z.of_nat k <= 4 + MAX_MESSAGE_LEN
    /\ incoming (read_message (A := A) d).2 = drop k (incoming d)
    /\ outgoing (read_message (A := A) d).2 = outgoing d.
Proof.
  destruct (read_message (A := A) d) as [r d'] eqn:E.
  destruct (read_message_takes d r d' E) as (Ho & k & Hk & Hi). by exists k.
Qed.
