(* ===== verification/F64.v ===== *)
(** * Double-precision numbers

    Rust's [f64] as the [spec_float] of the Standard Library at 53 bits of
    precision: correctly rounded [FromStr], [Display] (the shortest decimal that
    reads back), comparison, addition and the saturating cast to [u32]. *)

From Stdlib Require Import Ascii String SpecFloat.
From S2P Require Import Prelude RustStr.

Definition f64 : Type := spec_float.
Definition PREC : Z := 53.
Definition EMAX : Z := 1024.
#[export] Instance f64_eq_dec : EqDecision f64.
Proof. unfold f64. solve_decision. Defined.

Definition f64_nan : f64 := S754_nan.
Definition f64_add (a b : f64) : f64 := SFadd PREC EMAX a b.
(** The comparisons are false on NaN. *)
Definition f64_eqb (a b : f64) : bool := SFeqb a b.
Definition f64_ltb (a b : f64) : bool := SFltb a b.
Definition f64_leb (a b : f64) : bool := SFleb a b.
(** [n as f64] *)
Definition f64_of_Z (n : Z) : f64 := binary_normalize PREC EMAX n 0 false.
Definition f64_is_zero (a : f64) : bool := match a with S754_zero _ => true | _ => false end.

(** ** Reading *)

(** [num / den] rounded to nearest, ties to even. *)
Definition round_ratio (neg : bool) (num den : Z) : f64 :=
  if num =? 0 then S754_zero neg
  else let '(m, e, l) := SFdiv_core_binary PREC EMAX num 0 den 0 in binary_round_aux PREC EMAX neg m e l.

(** [m * 10^e], [digits] the number of digits of [m] without leading zeros:
    outside the range of the type the result is decided by the magnitude. *)
Definition round_decimal (neg : bool) (m e : Z) : f64 :=
  let digits := Z.of_nat (str_len (dec m)) in
  if m =? 0 then S754_zero neg
  else if 310 <=? digits + e then S754_infinity neg
  else if digits + e <=? -324 then S754_zero neg
  else if 0 <=? e then round_ratio neg (m * 10 ^ e) 1
  else round_ratio neg m (10 ^ (- e)).

Fixpoint span (f : Z -> bool) (l : list Z) : list Z * list Z :=
  match l with
  | x :: r => if f x then let '(a, b) := span f r in (x :: a, b) else ([], l)
  | [] => ([], [])
  end.
Definition digits_of (l : list Z) : Z := default 0 (digits_value 10 0 l).

(** The exponent part: nothing, or [e] with an optional sign and digits. *)
Definition parse_exponent (l : list Z) : option Z :=
  match l with
  | [] => Some 0
  | c :: r =>
      if (c =? 101) || (c =? 69) then
        let '(neg, r) := match r with 45 :: r => (true, r) | 43 :: r => (false, r) | _ => (false, r) end in
        match r with
        | [] => None
        | _ => if forallb is_digit r then Some (if (neg : bool) then - digits_of r else digits_of r) else None
        end
      else None
  end.
Definition parse_number (neg : bool) (l : list Z) : option f64 :=
  let '(int, r) := span is_digit l in
  let '(frac, r) := match r with 46 :: r => span is_digit r | _ => ([], r) end in
  if bool_decide (int ++ frac = []) then None
  else
    e ← parse_exponent r;
    Some (round_decimal neg (digits_of (int ++ frac)) (e - Z.of_nat (length frac))).
(** [s.parse::<f64>().ok()] *)
Definition parse_f64 (s : string) : option f64 :=
  let l := str_bytes s in
  let '(neg, l) := match l with 45 :: r => (true, r) | 43 :: r => (false, r) | _ => (false, l) end in
  let word := to_ascii_lowercase (bytes_str l) in
  if String.eqb word "nan" then Some S754_nan
  else if String.eqb word "inf" || String.eqb word "infinity" then Some (S754_infinity neg)
  else parse_number neg l.

(** ** Printing *)

(** [n.fract() == 0.0] *)
Definition f64_integral (a : f64) : bool :=
  match a with
  | S754_zero _ => true
  | S754_finite _ m e => (0 <=? e) || (Zpos m mod 2 ^ (- e) =? 0)
  | _ => false
  end.
Definition sign_text (neg : bool) : string := if neg then "-" else "".
(** [format!("{n:.0}")] of an integral number *)
Definition show_integral (a : f64) : string :=
  match a with
  | S754_zero s => sign_text s +:+ "0"
  | S754_finite s m e =>
      sign_text s +:+ dec (if 0 <=? e then Zpos m * 2 ^ e else Zpos m / 2 ^ (- e))
  | _ => ""
  end.

Definition pad_zeros (n : nat) (s : string) : string := of_chars (replicate (n - str_len s) 48) +:+ s.
Definition show_decimal (neg : bool) (n : Z) (places : nat) : string :=
  let q := 10 ^ Z.of_nat places in
  sign_text neg +:+ dec (n / q) +:+ "." +:+ pad_zeros places (dec (n mod q)).
(** The fewest decimal places with a number that reads back, the nearer of the
    two neighbours if both do. *)
Fixpoint shortest (fuel places : nat) (neg : bool) (m e : Z) (a : f64) : string :=
  match fuel with
  | O => ""
  | S fuel =>
      let num := m * 10 ^ Z.of_nat places in
      let den := 2 ^ (- e) in
      let lo := num / den in
      let reads n := bool_decide (round_ratio neg n (10 ^ Z.of_nat places) = a) in
      let nearer_hi := den <? 2 * (num mod den) in
      if reads lo && (negb (reads (lo + 1)) || negb nearer_hi) then show_decimal neg lo places
      else if reads (lo + 1) then show_decimal neg (lo + 1) places
      else shortest fuel (S places) neg m e a
  end.
(** [n.to_string()] of a number that is not integral *)
Definition show_fraction (a : f64) : string :=
  match a with
  | S754_nan => "NaN"
  | S754_infinity s => sign_text s +:+ "inf"
  | S754_finite s m e => shortest 1100 1 s (Zpos m) e a
  | S754_zero _ => ""
  end.

(** ** Casts *)

(** [n as u32]: truncated, saturating, NaN to 0 *)
Definition f64_to_u32 (a : f64) : Z :=
  match a with
  | S754_zero _ | S754_nan => 0
  | S754_infinity s => if s then 0 else 2 ^ 32 - 1
  | S754_finite true _ _ => 0
  | S754_finite false m e =>
      Z.min (2 ^ 32 - 1) (if 0 <=? e then Zpos m * 2 ^ e else Zpos m / 2 ^ (- e))
  end.
