(* ===== verification/Pac.v ===== *)
(** * The PAC interpreter (proxy/pac.rs)

    Tokenizer, recursive-descent parser and interpreter for the subset of
    JavaScript proxy auto-config scripts use, with the built-in helpers.  The
    parser's mutual recursion takes fuel, one per call, and [parse] gives it
    [FUEL_FACTOR] for each token; that this is always enough is proved.  The
    interpreter's fuel is the call depth, which the source bounds.  Name
    resolution and the clock are the outside world's. *)

From Stdlib Require Import Ascii String.
From S2P Require Import Prelude RustStr IpAddr Sys F64.

#[local] Set Warnings "-register-all".

Definition MAX_CALL_DEPTH : nat := 64.
Definition MAX_PAC_SIZE : Z := 1024 * 1024.

(** ** Fetching *)

Definition CRLF : string := String "013" (String "010" "").

Definition parse_http_url (url : string) : outcome (string * Z * string) :=
  rest ← ok_or (strip_prefix "http://" url)
    (Other "only http:// PAC URLs are supported (no TLS client available)");
  let '(authority, path) := match split_once "/" rest with
                            | Some (a, p) => (a, "/" +:+ p)
                            | None => (rest, "/") end in
  '(host, port) ← (match split_once ":" authority with
     | Some (h, p) => n ← ok_or (parse_uint 16 p) (Other ("invalid port in PAC URL: '" +:+ p +:+ "'")); Ok (h, n)
     | None => Ok (authority, 80) end);
  if String.eqb host "" then Err (Other "PAC URL has no host") else Ok (host, port, path).

(** [&s[..n]] panics inside a character; [s.get(n..)] is [None] there. *)
Definition char_boundary (l : list Z) (n : nat) : bool :=
  match l !! n with Some b => negb (is_cont b) | None => bool_decide (n = length l) end.
Fixpoint dechunk_loop (fuel : nat) (rest : string) (out : string) : outcome string :=
  match fuel with
  | O => Panic "fuel"
  | S fuel =>
      match split_once_str CRLF rest with
      | None => Ok out
      | Some (size_line, tail) =>
          let size_line := trim (default size_line (head (split ";" size_line))) in
          match parse_uint_radix 64 16 size_line with
          | None => Ok out
          | Some size =>
              let size := Z.to_nat size in
              if bool_decide (size = 0%nat) then Ok out
              else if bool_decide (str_len tail < size)%nat then Ok out
              else
                let l := str_bytes tail in
                if negb (char_boundary l size) then Panic "byte index is not a char boundary"
                else
                  let out := out +:+ bytes_str (take size l) in
                  let rest := default "" (strip_prefix CRLF (bytes_str (drop size l))) in
                  dechunk_loop fuel rest out
          end
      end
  end.
(** Each round takes a line break off [rest]. *)
Definition dechunk (body : string) : outcome string := dechunk_loop (S (str_len body)) body "".

(** What [fetch] makes of the bytes a server sent. *)
Definition http_body (raw : list Z) : outcome string :=
  '(headers, body) ← ok_or (split_once_str (CRLF +:+ CRLF) (from_utf8_lossy raw))
    (Other "malformed HTTP response fetching PAC");
  let status_line := default "" (head (lines headers)) in
  if negb (bool_decide (split " " status_line !! 1%nat = Some "200"%string))
  then Err (Other ("PAC server returned: " +:+ status_line))
  else
    body ← (if contains_str "transfer-encoding: chunked" (to_ascii_lowercase headers) then dechunk body else Ok body);
    if bool_decide (MAX_PAC_SIZE < Z.of_nat (str_len body)) then Err (Other "PAC file exceeds size limit") else Ok body.
Definition pac_request (host path : string) : string :=
  "GET " +:+ path +:+ " HTTP/1.1" +:+ CRLF +:+ "Host: " +:+ host +:+ CRLF +:+ "User-Agent: mitos-network" +:+ CRLF
  +:+ "Accept: application/x-ns-proxy-autoconfig, */*" +:+ CRLF +:+ "Connection: close" +:+ CRLF +:+ CRLF.
Definition text_error (what : string) (e : io_error) : NetworkError := Other (what +:+ ": " +:+ io_err_text e).
Definition pac_fetch {W} `{TcpStreams W} (url : string) : M W string := fun w =>
  match parse_http_url url with
  | Err e => (Err e, w)
  | Panic why => (Panic why, w)
  | Ok (host, port, path) =>
      match tcp_connect host port w with
      | (inr e, w) => (Err (text_error ("connecting to PAC server " +:+ host +:+ ":" +:+ dec port) e), w)
      | (inl fd, w) =>
          finally (
            io_try (tcp_read_timeout fd (secs_to_nanos 10)) ;;
            io_try (tcp_write_timeout fd (secs_to_nanos 10)) ;;
            io_try_with (text_error "sending PAC request") (tcp_write_all fd (str_bytes (pac_request host path))) ;;
            raw ← io_try_with (text_error "reading PAC response") (tcp_read_to_end fd (MAX_PAC_SIZE + 8192));
            lift (http_body raw)) (tcp_close fd) w
      end
  end.

(** ** Values *)

Inductive Value := VStr (s : string) | VNum (n : f64) | VBool (b : bool) | VNull.
Definition truthy (v : Value) : bool :=
  match v with
  | VStr s => negb (String.eqb s "")
  | VNum n => negb (f64_is_zero n)
  | VBool b => b
  | VNull => false
  end.
Definition as_string (v : Value) : string :=
  match v with
  | VStr s => s
  | VNum n => if f64_integral n then show_integral n else show_fraction n
  | VBool b => if b then "true" else "false"
  | VNull => "null"
  end.
Definition as_num (v : Value) : f64 :=
  match v with
  | VNum n => n
  | VStr s => default f64_nan (parse_f64 (trim s))
  | VBool b => f64_of_Z (if b then 1 else 0)
  | VNull => f64_of_Z 0
  end.
Definition values_eq (a b : Value) : bool :=
  match a, b with
  | VNum x, VNum y => f64_eqb x y
  | VBool x, VBool y => Bool.eqb x y
  | VNull, VNull => true
  | _, _ => String.eqb (as_string a) (as_string b)
  end.

(** ** Tokens *)

Inductive Tok :=
| TIdent (s : string) | TStr (s : string) | TNum (n : f64)
| LParen | RParen | LBrace | RBrace | Semi | Comma | TAssign | EqEq | TNotEq | TNot | AndAnd | OrOr | Plus
| TLt | TGt | TLe | TGe | Eof.
#[export] Instance Tok_eq_dec : EqDecision Tok.
Proof. solve_decision. Defined.

(** Unicode's tables beyond ASCII, and the derived [Debug] text of a token,
    which only error messages show. *)
Class PacText := {
  uni_alphabetic : Z -> bool;
  uni_numeric : Z -> bool;
  tok_debug : Tok -> string
}.

Section Front.
Context `{PacText}.

Definition char_alphabetic (c : Z) : bool := if c <? 128 then is_ascii_alpha c else uni_alphabetic c.
Definition char_alphanumeric (c : Z) : bool :=
  if c <? 128 then is_ascii_alphanumeric c else uni_alphabetic c || uni_numeric c.
Definition ident_start (c : Z) : bool := char_alphabetic c || (c =? 95) || (c =? 36).
Definition ident_char (c : Z) : bool := char_alphanumeric c || (c =? 95) || (c =? 36).

(** After [/*]: up to the closing marker, or to the end. *)
Fixpoint skip_block (l : list Z) : list Z :=
  match l with
  | a :: r => match r with
              | b :: r' => if (a =? 42) && (b =? 47) then r' else skip_block r
              | [] => []
              end
  | [] => []
  end.
Definition unescape (c : Z) : Z := if c =? 110 then 10 else if c =? 116 then 9 else c.
(** A string literal's characters and what follows the closing quote. *)
Fixpoint read_quoted (quote : Z) (l s : list Z) : option (list Z * list Z) :=
  match l with
  | [] => None
  | c :: r =>
      if c =? quote then Some (s, r)
      else match r with
           | d :: r' => if c =? 92 then read_quoted quote r' (s ++ [unescape d]) else read_quoted quote r (s ++ [c])
           | [] => None
           end
  end.
Definition next_is (c : Z) (r : list Z) : bool := match r with d :: _ => d =? c | [] => false end.

Fixpoint tokenize_loop (fuel : nat) (l : list Z) (toks : list Tok) : outcome (list Tok) :=
  match fuel with
  | O => Panic "fuel"
  | S fuel =>
      match l with
      | [] => Ok (toks ++ [Eof])
      | c :: r =>
          let tok t n := tokenize_loop fuel (drop n l) (toks ++ [t]) in
          if is_whitespace c then tokenize_loop fuel r toks
          else if (c =? 47) && next_is 47 r then tokenize_loop fuel (drop_while (fun x => negb (x =? 10)) l) toks
          else if (c =? 47) && next_is 42 r then tokenize_loop fuel (skip_block (drop 2 l)) toks
          else if c =? 40 then tok LParen 1%nat
          else if c =? 41 then tok RParen 1%nat
          else if c =? 123 then tok LBrace 1%nat
          else if c =? 125 then tok RBrace 1%nat
          else if c =? 59 then tok Semi 1%nat
          else if c =? 44 then tok Comma 1%nat
          else if c =? 43 then tok Plus 1%nat
          else if (c =? 33) && next_is 61 r then tok TNotEq 2%nat
          else if c =? 33 then tok TNot 1%nat
          else if (c =? 61) && next_is 61 r then tok EqEq 2%nat
          else if c =? 61 then tok TAssign 1%nat
          else if (c =? 38) && next_is 38 r then tok AndAnd 2%nat
          else if (c =? 124) && next_is 124 r then tok OrOr 2%nat
          else if (c =? 60) && next_is 61 r then tok TLe 2%nat
          else if c =? 60 then tok TLt 1%nat
          else if (c =? 62) && next_is 61 r then tok TGe 2%nat
          else if c =? 62 then tok TGt 1%nat
          else if (c =? 34) || (c =? 39) then
            match read_quoted c r [] with
            | Some (s, r') => tokenize_loop fuel r' (toks ++ [TStr (of_chars s)])
            | None => Err (Parse "unterminated string in PAC script")
            end
          else if is_digit c then
            let '(text, r') := span (fun x => is_digit x || (x =? 46)) l in
            n ← ok_or (parse_f64 (of_chars text)) (Parse ("bad number literal '" +:+ of_chars text +:+ "'"));
            tokenize_loop fuel r' (toks ++ [TNum n])
          else if ident_start c then
            let '(text, r') := span ident_char l in
            tokenize_loop fuel r' (toks ++ [TIdent (of_chars text)])
          else Err (Parse ("unexpected character '" +:+ of_chars [c] +:+ "' in PAC script"))
      end
  end.
Definition tokenize (src : string) : outcome (list Tok) :=
  let cs := chars src in tokenize_loop (S (length cs)) cs [].
End Front.

(** ** Syntax *)

Inductive Expr :=
| EStr (s : string) | ENum (n : f64) | EBool (b : bool) | EIdent (s : string)
| ECall (name : string) (args : list Expr)
| EAdd (l r : Expr) | EEq (l r : Expr) | ENotEq (l r : Expr) | EAnd (l r : Expr) | EOr (l r : Expr)
| ELt (l r : Expr) | EGt (l r : Expr) | ELe (l r : Expr) | EGe (l r : Expr) | ENot (e : Expr).
Inductive Stmt :=
| VarDecl (name : string) (init : option Expr)
| Assign (name : string) (e : Expr)
| ExprStmt (e : Expr)
| If (cond : Expr) (then_b else_b : list Stmt)
| Return (e : option Expr).
Record FunctionDecl := mkFunction { params : list string; body : list Stmt }.
Record Program := mkProgram { functions : gmap string FunctionDecl; globals : list Stmt }.

(** ** The parser

    The state is the tokens from [pos] on; the last one, [Eof], is never left. *)

Section Parser.
Context `{PacText}.

Definition peek (ts : list Tok) : Tok := default Eof (head ts).
Definition advance (ts : list Tok) : Tok * list Tok :=
  match ts with
  | t :: (_ :: _) as r => (t, tail ts)
  | _ => (peek ts, ts)
  end.
Definition peek_is (t : Tok) (ts : list Tok) : bool := bool_decide (peek ts = t).
Definition expect (want : Tok) (ts : list Tok) : outcome (list Tok) :=
  if peek_is want ts then Ok (advance ts).2
  else Err (Parse ("expected " +:+ tok_debug want +:+ ", found " +:+ tok_debug (peek ts) +:+ " in PAC script")).
Definition expect_ident (ts : list Tok) : outcome (string * list Tok) :=
  match advance ts with
  | (TIdent s, ts) => Ok (s, ts)
  | (other, _) => Err (Parse ("expected identifier, found " +:+ tok_debug other +:+ " in PAC script"))
  end.
Definition skip_semi (ts : list Tok) : list Tok := if peek_is Semi ts then (advance ts).2 else ts.
Definition keyword (kw : string) (ts : list Tok) : bool := peek_is (TIdent kw) ts.

Definition no_fuel {A} : outcome A := Panic "fuel".

Fixpoint parse_expr (fuel : nat) (ts : list Tok) : outcome (Expr * list Tok) :=
  match fuel with O => no_fuel | S fuel => parse_or fuel ts end
with parse_or (fuel : nat) (ts : list Tok) : outcome (Expr * list Tok) :=
  match fuel with O => no_fuel | S fuel => '(lhs, ts) ← parse_and fuel ts; or_loop fuel lhs ts end
with or_loop (fuel : nat) (lhs : Expr) (ts : list Tok) : outcome (Expr * list Tok) :=
  match fuel with
  | O => no_fuel
  | S fuel =>
      if peek_is OrOr ts
      then '(rhs, ts) ← parse_and fuel (advance ts).2; or_loop fuel (EOr lhs rhs) ts
      else Ok (lhs, ts)
  end
with parse_and (fuel : nat) (ts : list Tok) : outcome (Expr * list Tok) :=
  match fuel with O => no_fuel | S fuel => '(lhs, ts) ← parse_equality fuel ts; and_loop fuel lhs ts end
with and_loop (fuel : nat) (lhs : Expr) (ts : list Tok) : outcome (Expr * list Tok) :=
  match fuel with
  | O => no_fuel
  | S fuel =>
      if peek_is AndAnd ts
      then '(rhs, ts) ← parse_equality fuel (advance ts).2; and_loop fuel (EAnd lhs rhs) ts
      else Ok (lhs, ts)
  end
with parse_equality (fuel : nat) (ts : list Tok) : outcome (Expr * list Tok) :=
  match fuel with O => no_fuel | S fuel => '(lhs, ts) ← parse_relational fuel ts; equality_loop fuel lhs ts end
with equality_loop (fuel : nat) (lhs : Expr) (ts : list Tok) : outcome (Expr * list Tok) :=
  match fuel with
  | O => no_fuel
  | S fuel =>
      match peek ts with
      | EqEq => '(rhs, ts) ← parse_relational fuel (advance ts).2; equality_loop fuel (EEq lhs rhs) ts
      | TNotEq => '(rhs, ts) ← parse_relational fuel (advance ts).2; equality_loop fuel (ENotEq lhs rhs) ts
      | _ => Ok (lhs, ts)
      end
  end
with parse_relational (fuel : nat) (ts : list Tok) : outcome (Expr * list Tok) :=
  match fuel with O => no_fuel | S fuel => '(lhs, ts) ← parse_additive fuel ts; relational_loop fuel lhs ts end
with relational_loop (fuel : nat) (lhs : Expr) (ts : list Tok) : outcome (Expr * list Tok) :=
  match fuel with
  | O => no_fuel
  | S fuel =>
      match peek ts with
      | TLt => '(rhs, ts) ← parse_additive fuel (advance ts).2; relational_loop fuel (ELt lhs rhs) ts
      | TGt => '(rhs, ts) ← parse_additive fuel (advance ts).2; relational_loop fuel (EGt lhs rhs) ts
      | TLe => '(rhs, ts) ← parse_additive fuel (advance ts).2; relational_loop fuel (ELe lhs rhs) ts
      | TGe => '(rhs, ts) ← parse_additive fuel (advance ts).2; relational_loop fuel (EGe lhs rhs) ts
      | _ => Ok (lhs, ts)
      end
  end
with parse_additive (fuel : nat) (ts : list Tok) : outcome (Expr * list Tok) :=
  match fuel with O => no_fuel | S fuel => '(lhs, ts) ← parse_unary fuel ts; additive_loop fuel lhs ts end
with additive_loop (fuel : nat) (lhs : Expr) (ts : list Tok) : outcome (Expr * list Tok) :=
  match fuel with
  | O => no_fuel
  | S fuel =>
      if peek_is Plus ts
      then '(rhs, ts) ← parse_unary fuel (advance ts).2; additive_loop fuel (EAdd lhs rhs) ts
      else Ok (lhs, ts)
  end
with parse_unary (fuel : nat) (ts : list Tok) : outcome (Expr * list Tok) :=
  match fuel with
  | O => no_fuel
  | S fuel =>
      if peek_is TNot ts then '(e, ts) ← parse_unary fuel (advance ts).2; Ok (ENot e, ts)
      else parse_primary fuel ts
  end
with parse_primary (fuel : nat) (ts : list Tok) : outcome (Expr * list Tok) :=
  match fuel with
  | O => no_fuel
  | S fuel =>
      let '(t, ts) := advance ts in
      match t with
      | TStr s => Ok (EStr s, ts)
      | TNum n => Ok (ENum n, ts)
      | LParen => '(e, ts) ← parse_expr fuel ts; ts ← expect RParen ts; Ok (e, ts)
      | TIdent name =>
          if String.eqb name "true" then Ok (EBool true, ts)
          else if String.eqb name "false" then Ok (EBool false, ts)
          else if peek_is LParen ts then
            let ts := (advance ts).2 in
            '(args, ts) ← (if peek_is RParen ts then Ok ([], ts) else parse_args fuel [] ts);
            ts ← expect RParen ts;
            Ok (ECall name args, ts)
          else Ok (EIdent name, ts)
      | other => Err (Parse ("unexpected token " +:+ tok_debug other +:+ " in PAC expression"))
      end
  end
(** The argument loop of a call. *)
with parse_args (fuel : nat) (args : list Expr) (ts : list Tok) : outcome (list Expr * list Tok) :=
  match fuel with
  | O => no_fuel
  | S fuel =>
      '(e, ts) ← parse_expr fuel ts;
      if peek_is Comma ts then parse_args fuel (args ++ [e]) (advance ts).2
      else Ok (args ++ [e], ts)
  end.

Fixpoint parse_block (fuel : nat) (ts : list Tok) : outcome (list Stmt * list Tok) :=
  match fuel with
  | O => no_fuel
  | S fuel => ts ← expect LBrace ts; block_loop fuel [] ts
  end
with block_loop (fuel : nat) (stmts : list Stmt) (ts : list Tok) : outcome (list Stmt * list Tok) :=
  match fuel with
  | O => no_fuel
  | S fuel =>
      if peek_is RBrace ts then ts ← expect RBrace ts; Ok (stmts, ts)
      else if peek_is Eof ts then Err (Parse "unexpected end of PAC script (unclosed block)")
      else '(s, ts) ← parse_stmt fuel ts; block_loop fuel (stmts ++ [s]) ts
  end
with parse_stmt (fuel : nat) (ts : list Tok) : outcome (Stmt * list Tok) :=
  match fuel with
  | O => no_fuel
  | S fuel =>
      if keyword "var" ts then
        '(name, ts) ← expect_ident (advance ts).2;
        '(init, ts) ← (if peek_is TAssign ts
                       then '(e, ts) ← parse_expr fuel (advance ts).2; Ok (Some e, ts)
                       else Ok (None, ts));
        Ok (VarDecl name init, skip_semi ts)
      else if keyword "return" ts then
        let ts := (advance ts).2 in
        '(value, ts) ← (if peek_is Semi ts || peek_is RBrace ts then Ok (None, ts)
                        else '(e, ts) ← parse_expr fuel ts; Ok (Some e, ts));
        Ok (Return value, skip_semi ts)
      else if keyword "if" ts then
        ts ← expect LParen (advance ts).2;
        '(cond, ts) ← parse_expr fuel ts;
        ts ← expect RParen ts;
        '(then_branch, ts) ← parse_block fuel ts;
        '(else_branch, ts) ← (if keyword "else" ts then
                                let ts := (advance ts).2 in
                                if keyword "if" ts then '(s, ts) ← parse_stmt fuel ts; Ok ([s], ts)
                                else parse_block fuel ts
                              else Ok ([], ts));
        Ok (If cond then_branch else_branch, ts)
      else match peek ts with
      | TIdent name =>
          if bool_decide (ts !! 1%nat = Some TAssign) then
            '(value, ts) ← parse_expr fuel (advance (advance ts).2).2;
            Ok (Assign name value, skip_semi ts)
          else '(e, ts) ← parse_expr fuel ts; Ok (ExprStmt e, skip_semi ts)
      | other => Err (Parse ("unexpected token " +:+ tok_debug other +:+ " in PAC script"))
      end
  end.

Fixpoint param_loop (fuel : nat) (ps : list string) (ts : list Tok) : outcome (list string * list Tok) :=
  match fuel with
  | O => no_fuel
  | S fuel =>
      '(p, ts) ← expect_ident ts;
      if peek_is Comma ts then param_loop fuel (ps ++ [p]) (advance ts).2 else Ok (ps ++ [p], ts)
  end.
Definition parse_function (fuel : nat) (ts : list Tok) : outcome (string * FunctionDecl * list Tok) :=
  '(name, ts) ← expect_ident (advance ts).2;
  ts ← expect LParen ts;
  '(ps, ts) ← (if peek_is RParen ts then Ok ([], ts) else param_loop fuel [] ts);
  ts ← expect RParen ts;
  '(b, ts) ← parse_block fuel ts;
  Ok (name, mkFunction ps b, ts).
Fixpoint program_loop (fuel : nat) (p : Program) (ts : list Tok) : outcome Program :=
  match fuel with
  | O => no_fuel
  | S fuel =>
      if peek_is Eof ts then Ok p
      else if keyword "function" ts then
        '(name, f, ts) ← parse_function fuel ts;
        program_loop fuel (mkProgram (<[name := f]> (functions p)) (globals p)) ts
      else
        '(s, ts) ← parse_stmt fuel ts;
        program_loop fuel (mkProgram (functions p) (globals p ++ [s])) ts
  end.
Definition FUEL_FACTOR : nat := 20.
Definition parse_program (ts : list Tok) : outcome Program :=
  program_loop (FUEL_FACTOR * S (length ts)) (mkProgram ∅ []) ts.
Definition pac_parse (src : string) : outcome Program :=
  toks ← tokenize src; parse_program toks.
End Parser.

(** ** The interpreter *)

(** [ToSocketAddrs] and the source address of a connected UDP socket. *)
Class Resolver (W : Type) := {
  rs_lookup : string -> io W (list IpAddr);
  rs_local_ip : io W IpAddr
}.

(** *** Built-in helpers *)

Definition is_in_net (ip pattern mask : string) : bool :=
  match parse_ipv4 ip, parse_ipv4 pattern, parse_ipv4 mask with
  | Some ip, Some pattern, Some mask => Z.land ip mask =? Z.land pattern mask
  | _, _, _ => false
  end.
(** The shell patterns of [shExpMatch], on bytes: star and question mark. *)
Fixpoint sh_matches (p s : list Z) : bool :=
  match p with
  | [] => match s with [] => true | _ => false end
  | pc :: p' =>
      if pc =? 42 then
        (fix star (s : list Z) : bool :=
           sh_matches p' s || match s with [] => false | _ :: s' => star s' end) s
      else match s with
           | [] => false
           | sc :: s' => if (pc =? 63) || (sc =? pc) then sh_matches p' s' else false
           end
  end.
Definition sh_exp_match (s pattern : string) : bool := sh_matches (str_bytes pattern) (str_bytes s).

(** Days since the epoch to year, month, day; integer division truncates. *)
Definition civil_from_days (z : Z) : Z * Z * Z :=
  let z := z + 719468 in
  let era := Z.quot (if 0 <=? z then z else z - 146096) 146097 in
  let doe := z - era * 146097 in
  let yoe := (doe - doe / 1460 + doe / 36524 - doe / 146096) / 365 in
  let y := yoe + era * 400 in
  let doy := doe - (365 * yoe + yoe / 4 - yoe / 100) in
  let mp := (5 * doy + 2) / 153 in
  let d := doy - (153 * mp + 2) / 5 + 1 in
  let m := if mp <? 10 then mp + 3 else mp - 9 in
  let y := if m <=? 2 then y + 1 else y in
  (y, m, d).
Definition weekday_from_days (z : Z) : Z := (z mod 7 + 4) mod 7.
Definition WEEKDAYS : list string := ["SUN"; "MON"; "TUE"; "WED"; "THU"; "FRI"; "SAT"]%string.
Definition weekday_index (s : string) : option Z :=
  Z.of_nat <$> position (fun w => String.eqb w (to_ascii_uppercase s)) WEEKDAYS.
(** A range that may wrap around. *)
Definition in_range (x lo : Z) (hi : option Z) : bool :=
  match hi with
  | None => x =? lo
  | Some hi => if lo <=? hi then (lo <=? x) && (x <=? hi) else (lo <=? x) || (x <=? hi)
  end.
Definition weekday_range (days : Z) (args : list Value) : bool :=
  match head args ≫= fun v => weekday_index (as_string v) with
  | None => false
  | Some d1 => in_range (weekday_from_days days) d1 (args !! 1%nat ≫= fun v => weekday_index (as_string v))
  end.
Definition date_range (days : Z) (args : list Value) : bool :=
  let '(_, _, today) := civil_from_days days in
  match head args with
  | None => false
  | Some v => in_range today (f64_to_u32 (as_num v)) (f64_to_u32 ∘ as_num <$> args !! 1%nat)
  end.
Definition time_range (secs : Z) (args : list Value) : bool :=
  match head args with
  | None => false
  | Some v => in_range (secs / 3600) (f64_to_u32 (as_num v)) (f64_to_u32 ∘ as_num <$> args !! 1%nat)
  end.
Definition arg_str (args : list Value) (i : nat) : outcome string :=
  ok_or (as_string <$> args !! i) (Other ("PAC builtin missing argument " +:+ dec (Z.of_nat i))).
Definition count_char (c : ascii) (s : string) : Z :=
  Z.of_nat (length (List.filter (Z.eqb (byte_of c)) (str_bytes s))).

Section Interp.
Context {W : Type} `{Resolver W} `{Clock W}.

Definition resolve_host (host : string) : M W (option string) :=
  match parse_ip host with
  | Some ip => mret (Some (show_ip ip))
  | None =>
      r ← io_match (rs_lookup host);
      mret (match r with
            | inl addrs => show_ip <$> (match List.find is_ipv4 addrs with Some ip => Some ip | None => head addrs end)
            | inr _ => None
            end)
  end.
Definition my_ip_address : M W string :=
  r ← io_match rs_local_ip;
  mret (match r with inl ip => show_ip ip | inr _ => "127.0.0.1" end).
Definition now_unix_days_and_secs : M W (Z * Z) :=
  secs ← now_secs; mret (secs / 86400, secs mod 86400).

Definition call_builtin (name : string) (args : list Value) : M W (option Value) :=
  if String.eqb name "isPlainHostName" then
    h ← lift (arg_str args 0); mret (Some (VBool (negb (contains_char "." h))))
  else if String.eqb name "dnsDomainIs" then
    h ← lift (arg_str args 0); d ← lift (arg_str args 1);
    mret (Some (VBool (ends_with (to_ascii_lowercase d) (to_ascii_lowercase h))))
  else if String.eqb name "localHostOrDomainIs" then
    h ← lift (arg_str args 0); d ← lift (arg_str args 1);
    let host := to_ascii_lowercase h in
    let hostdom := to_ascii_lowercase d in
    mret (Some (VBool (String.eqb host hostdom
                       || (negb (contains_char "." host) && starts_with (host +:+ ".") hostdom))))
  else if String.eqb name "isResolvable" then
    h ← lift (arg_str args 0); r ← resolve_host h; mret (Some (VBool (bool_decide (is_Some r))))
  else if String.eqb name "dnsResolve" then
    h ← lift (arg_str args 0); r ← resolve_host h;
    mret (Some (match r with Some s => VStr s | None => VNull end))
  else if String.eqb name "myIpAddress" then ip ← my_ip_address; mret (Some (VStr ip))
  else if String.eqb name "dnsDomainLevels" then
    h ← lift (arg_str args 0); mret (Some (VNum (f64_of_Z (count_char "." h))))
  else if String.eqb name "isInNet" then
    h ← lift (arg_str args 0); p ← lift (arg_str args 1); m ← lift (arg_str args 2);
    r ← resolve_host h;
    mret (Some (VBool (match r with Some ip => is_in_net ip p m | None => false end)))
  else if String.eqb name "shExpMatch" then
    s ← lift (arg_str args 0); p ← lift (arg_str args 1); mret (Some (VBool (sh_exp_match s p)))
  else if String.eqb name "weekdayRange" then
    '(days, _) ← now_unix_days_and_secs; mret (Some (VBool (weekday_range days args)))
  else if String.eqb name "dateRange" then
    '(days, _) ← now_unix_days_and_secs; mret (Some (VBool (date_range days args)))
  else if String.eqb name "timeRange" then
    '(_, secs) ← now_unix_days_and_secs; mret (Some (VBool (time_range secs args)))
  else if String.eqb name "alert" then mret (Some VNull)
  else mret None.

(** *** Expressions and statements

    [callf] is [self.call] at the current depth. *)

Definition scope : Type := gmap string Value.
Inductive Signal := SigNone | SigReturn (v : Value).

Section Bodies.
Variable callf : string -> list Value -> M W Value.

Fixpoint eval (e : Expr) (sc : scope) : M W Value :=
  let num_cmp (f : f64 -> f64 -> bool) (l r : M W Value) : M W Value :=
    a ← l; b ← r; mret (VBool (f (as_num a) (as_num b))) in
  match e with
  | EStr s => mret (VStr s)
  | ENum n => mret (VNum n)
  | EBool b => mret (VBool b)
  | EIdent name => mret (default VNull (sc !! name))
  | ECall name arg_exprs =>
      args ← (fix go (l : list Expr) : M W (list Value) :=
                match l with
                | [] => mret []
                | a :: l => v ← eval a sc; vs ← go l; mret (v :: vs)
                end) arg_exprs;
      callf name args
  | EAdd l r =>
      a ← eval l sc; b ← eval r sc;
      mret (match a, b with
            | VNum x, VNum y => VNum (f64_add x y)
            | _, _ => VStr (as_string a +:+ as_string b)
            end)
  | EEq l r => a ← eval l sc; b ← eval r sc; mret (VBool (values_eq a b))
  | ENotEq l r => a ← eval l sc; b ← eval r sc; mret (VBool (negb (values_eq a b)))
  | EAnd l r => a ← eval l sc; if negb (truthy a) then mret a else eval r sc
  | EOr l r => a ← eval l sc; if truthy a then mret a else eval r sc
  | ELt l r => num_cmp f64_ltb (eval l sc) (eval r sc)
  | EGt l r => num_cmp (fun x y => f64_ltb y x) (eval l sc) (eval r sc)
  | ELe l r => num_cmp f64_leb (eval l sc) (eval r sc)
  | EGe l r => num_cmp (fun x y => f64_leb y x) (eval l sc) (eval r sc)
  | ENot e => a ← eval e sc; mret (VBool (negb (truthy a)))
  end.

Definition eval_opt (e : option Expr) (sc : scope) : M W Value :=
  match e with Some e => eval e sc | None => mret VNull end.

Fixpoint exec_stmt (s : Stmt) (sc : scope) : M W (Signal * scope) :=
  let exec_block := fix exec_block (l : list Stmt) (sc : scope) : M W (Signal * scope) :=
    match l with
    | [] => mret (SigNone, sc)
    | s :: l =>
        '(sig, sc) ← exec_stmt s sc;
        match sig with SigNone => exec_block l sc | SigReturn _ => mret (sig, sc) end
    end in
  match s with
  | VarDecl name init => v ← eval_opt init sc; mret (SigNone, <[name := v]> sc)
  | Assign name e => v ← eval e sc; mret (SigNone, <[name := v]> sc)
  | ExprStmt e => eval e sc ;; mret (SigNone, sc)
  | If cond then_b else_b => v ← eval cond sc; if truthy v then exec_block then_b sc else exec_block else_b sc
  | Return e => v ← eval_opt e sc; mret (SigReturn v, sc)
  end.
Fixpoint exec_block (l : list Stmt) (sc : scope) : M W (Signal * scope) :=
  match l with
  | [] => mret (SigNone, sc)
  | s :: l =>
      '(sig, sc) ← exec_stmt s sc;
      match sig with SigNone => exec_block l sc | SigReturn _ => mret (sig, sc) end
  end.
End Bodies.

Definition bind_params (ps : list string) (args : list Value) : scope :=
  fold_left (fun sc p => <[p.1 := p.2]> sc) (zip ps args) ∅.

Fixpoint call (fuel : nat) (fns : gmap string FunctionDecl) (name : string) (args : list Value) (depth : nat)
  : M W Value :=
  match fuel with
  | O => lift (Panic "fuel")
  | S fuel =>
      if (MAX_CALL_DEPTH <? depth)%nat then throw (Other "PAC script recursion too deep")
      else
        b ← call_builtin name args;
        match b with
        | Some v => mret v
        | None =>
            func ← lift (ok_or (fns !! name) (Other ("PAC script calls undefined function '" +:+ name +:+ "'")));
            '(sig, _) ← exec_block (fun n a => call fuel fns n a (depth + 1)) (body func)
                          (bind_params (params func) args);
            mret (match sig with SigReturn v => v | SigNone => VNull end)
        end
  end.
(** Deeper than the limit a call is refused: this fuel is never used up. *)
Definition CALL_FUEL : nat := MAX_CALL_DEPTH + 2.

Fixpoint exec_globals (fns : gmap string FunctionDecl) (l : list Stmt) (sc : scope) : M W unit :=
  match l with
  | [] => mret tt
  | s :: l => '(_, sc) ← exec_stmt (fun n a => call CALL_FUEL fns n a 0) s sc; exec_globals fns l sc
  end.
Definition run_program (p : Program) (url host : string) : M W string :=
  if negb (bool_decide (is_Some (functions p !! "FindProxyForURL"%string)))
  then throw (Other "PAC script has no FindProxyForURL function")
  else
    exec_globals (functions p) (globals p) ∅ ;;
    result ← call CALL_FUEL (functions p) "FindProxyForURL" [VStr url; VStr host] 0;
    mret (match result with VStr s => s | VNull => "DIRECT" | other => as_string other end).
Definition evaluate `{PacText} (script url host : string) : M W string :=
  p ← lift (pac_parse script); run_program p url host.
End Interp.

(** ** The front end always returns *)

Definition wf (ts : list Tok) : Prop := exists l, ts = l ++ [Eof] /\ Forall (fun t => t <> Eof) l.

Lemma span_app f (l : list Z) : (span f l).1 ++ (span f l).2 = l.
Proof. induction l as [|x l IH]; [done|]. cbn. destruct (f x); [|done]. destruct (span f l). cbn in *. by rewrite IH. Qed.
Lemma span_shorter f c (l : list Z) a b : f c = true -> span f (c :: l) = (a, b) -> (length b < length (c :: l))%nat.
Proof.
  intros Hc. cbn. rewrite Hc. pose proof (span_app f l) as Hl. destruct (span f l) as [a' b'].
  intros [= <- <-]. cbn in Hl. rewrite <- Hl, length_app. lia.
Qed.
Lemma drop_while_length f (l : list Z) : (length (drop_while f l) <= length l)%nat.
Proof. induction l as [|x l IH]; [done|]. cbn. destruct (f x); cbn; lia. Qed.
Lemma skip_block_length l : (length (skip_block l) <= length l)%nat.
Proof.
  induction l as [|a [|b r] IH]; [done|cbn; lia|]. cbn [skip_block].
  case_match; [cbn; lia|]. etrans; [exact IH|]. cbn. lia.
Qed.
Lemma read_quoted_length n q l s s' r : (length l <= n)%nat -> read_quoted q l s = Some (s', r) -> (length r < length l)%nat.
Proof.
  revert l s. induction n as [|n IH]; intros [|c l] s Hn; try (cbn in *; lia || done).
  cbn [read_quoted]. destruct (c =? q); [intros [= _ <-]; cbn; lia|].
  destruct l as [|d l]; [done|]. case_match; intros Hr; apply IH in Hr; cbn in *; lia.
Qed.

Section Total.
Context `{PacText}.

Lemma tokenize_loop_ok fuel l toks :
  (length l < fuel)%nat -> Forall (fun t => t <> Eof) toks ->
  match tokenize_loop fuel l toks with Ok ts => wf ts | Err _ => True | Panic _ => False end.
Proof.
  revert l toks. induction fuel as [|fuel IH]; intros l toks Hf Ht; [lia|].
  destruct l as [|c r]; cbn [tokenize_loop]; [by exists toks|]. cbn [length] in Hf.
  assert (Hs : forall t, t <> Eof -> Forall (fun t => t <> Eof) (toks ++ [t])).
  { intros t Hn. apply Forall_app. split; [done|]. by repeat constructor. }
  assert (Hd : forall n, (0 < n)%nat -> (length (drop n (c :: r)) < fuel)%nat).
  { intros n Hn. rewrite length_drop. cbn [length]. lia. }
  destruct (is_whitespace c); [apply IH; [lia|done]|].
  destruct ((c =? 47) && next_is 47 r) eqn:Hc.
  { apply andb_true_iff in Hc as [->%Z.eqb_eq _]. apply IH; [|done]. cbn [drop_while Z.eqb negb].
    pose proof (drop_while_length (fun x => negb (x =? 10)) r). cbn. lia. }
  destruct ((c =? 47) && next_is 42 r).
  { apply IH; [|done]. pose proof (skip_block_length (drop 2 (c :: r))). specialize (Hd 2%nat). lia. }
  do 17 match goal with
  | |- context [if ?b then tokenize_loop _ (drop ?n _) _ else _] =>
      destruct b; [apply IH; [apply Hd; lia|by apply Hs]|]
  end.
  destruct ((c =? 34) || (c =? 39)).
  { destruct (read_quoted c r []) as [[s r']|] eqn:Er; [|done].
    apply (read_quoted_length (length r)) in Er; [|done]. apply IH; [lia|by apply Hs]. }
  destruct (is_digit c) eqn:Edig.
  { destruct (span _ (c :: r)) as [text r'] eqn:Es.
    apply span_shorter in Es; [|by rewrite Edig]. cbn [length] in Es.
    destruct (parse_f64 (of_chars text)); cbn; [|done]. apply IH; [lia|by apply Hs]. }
  destruct (ident_start c) eqn:Eid; [|done].
  destruct (span ident_char (c :: r)) as [text r'] eqn:Es. apply span_shorter in Es; [cbn [length] in Es|].
  - apply IH; [lia|by apply Hs].
  - unfold ident_start, ident_char, char_alphabetic, char_alphanumeric, is_ascii_alphanumeric in *.
    destruct (c <? 128); repeat match goal with H : _ || _ = true |- _ => apply orb_true_iff in H as [H|H] end;
      rewrite ?Eid, ?orb_true_r; done.
Qed.
Lemma tokenize_ok src :
  match tokenize src with Ok ts => wf ts | Err _ => True | Panic _ => False end.
Proof. apply tokenize_loop_ok; [lia|done]. Qed.

(** A parser's result: an error, or a shorter well-formed rest.  Every function
    of the parser gets a level, and [FUEL_FACTOR] for each token is enough. *)
Definition shorter {A} (n : nat) (r : outcome (A * list Tok)) : Prop :=
  match r with Ok (_, ts) => wf ts /\ (length ts < n)%nat | Err _ => True | Panic _ => False end.
Definition enough (level : nat) (ts : list Tok) (fuel : nat) : Prop :=
  (FUEL_FACTOR * length ts + level <= fuel)%nat.

Lemma shorter_bind {A B} n m (r : outcome (A * list Tok)) (k : A * list Tok -> outcome (B * list Tok)) :
  shorter n r -> (forall a ts, wf ts -> (length ts < n)%nat -> shorter m (k (a, ts))) -> shorter m (r ≫= k).
Proof. destruct r as [[a ts]|e|w]; cbn; [|done|done]. intros [Hw Hl] Hk. by apply Hk. Qed.
Lemma shorter_mono {A} n m (r : outcome (A * list Tok)) : shorter n r -> (n <= m)%nat -> shorter m r.
Proof. destruct r as [[a ts]|e|w]; cbn; [|done|done]. intros [Hw Hl]. split; [done|lia]. Qed.

Lemma advance_wf ts : wf ts -> peek ts <> Eof ->
  wf (advance ts).2 /\ (S (length (advance ts).2) = length ts)%nat /\ (advance ts).1 = peek ts.
Proof.
  intros ([|t l] & -> & Hl) Hp; [done|]. apply Forall_cons_1 in Hl as [Ht Hl].
  assert (E : advance ((t :: l) ++ [Eof]) = (t, l ++ [Eof])) by (by destruct l).
  rewrite E. split_and!; [by exists l|done|done].
Qed.
Lemma advance_fst ts : (advance ts).1 = peek ts.
Proof. destruct ts as [|t [|u l]]; done. Qed.
Lemma peek_is_wf t ts : wf ts -> t <> Eof -> peek_is t ts = true ->
  wf (advance ts).2 /\ (S (length (advance ts).2) = length ts)%nat.
Proof.
  intros Hw Ht Hp%bool_decide_eq_true_1. destruct (advance_wf ts Hw) as (H1 & H2 & _); [congruence|]. done.
Qed.
Lemma expect_bind {B} n want ts (k : list Tok -> outcome (B * list Tok)) :
  wf ts -> want <> Eof ->
  (forall ts', wf ts' -> (S (length ts') = length ts)%nat -> shorter n (k ts')) ->
  shorter n (expect want ts ≫= k).
Proof.
  intros Hw Hn Hk. unfold expect. destruct (peek_is want ts) eqn:E; cbn; [|done].
  destruct (peek_is_wf want ts Hw Hn E). by apply Hk.
Qed.
Lemma expect_ident_shorter ts : wf ts -> shorter (length ts) (expect_ident ts).
Proof.
  intros Hw. unfold expect_ident. destruct (advance ts) as [t ts'] eqn:E.
  pose proof (advance_wf ts Hw) as Ha. pose proof (advance_fst ts) as Hf. rewrite E in Ha, Hf. cbn [fst snd] in *.
  destruct t; try done. cbn. destruct Ha as (? & ? & _); [congruence|]. split; [done|lia].
Qed.
Lemma skip_semi_wf ts : wf ts -> wf (skip_semi ts) /\ (length (skip_semi ts) <= length ts)%nat.
Proof.
  intros Hw. unfold skip_semi. destruct (peek_is Semi ts) eqn:E; [|done].
  destruct (peek_is_wf Semi ts Hw) as [H1 H2]; [done|done|]. split; [done|lia].
Qed.
Lemma shorter_skip {A} n (a : A) ts : wf ts -> (length ts < n)%nat -> shorter n (Ok (a, skip_semi ts)).
Proof. intros Hw Hl. destruct (skip_semi_wf ts Hw). cbn. split; [done|lia]. Qed.

(** One statement for each function of the expression parser. *)
Definition exprs_ok (fuel : nat) : Prop :=
  (forall ts, wf ts -> enough 9 ts fuel -> shorter (length ts) (parse_expr fuel ts))
  /\ (forall ts, wf ts -> enough 8 ts fuel -> shorter (length ts) (parse_or fuel ts))
  /\ (forall e ts, wf ts -> enough 8 ts fuel -> shorter (S (length ts)) (or_loop fuel e ts))
  /\ (forall ts, wf ts -> enough 7 ts fuel -> shorter (length ts) (parse_and fuel ts))
  /\ (forall e ts, wf ts -> enough 7 ts fuel -> shorter (S (length ts)) (and_loop fuel e ts))
  /\ (forall ts, wf ts -> enough 6 ts fuel -> shorter (length ts) (parse_equality fuel ts))
  /\ (forall e ts, wf ts -> enough 6 ts fuel -> shorter (S (length ts)) (equality_loop fuel e ts))
  /\ (forall ts, wf ts -> enough 5 ts fuel -> shorter (length ts) (parse_relational fuel ts))
  /\ (forall e ts, wf ts -> enough 5 ts fuel -> shorter (S (length ts)) (relational_loop fuel e ts))
  /\ (forall ts, wf ts -> enough 4 ts fuel -> shorter (length ts) (parse_additive fuel ts))
  /\ (forall e ts, wf ts -> enough 4 ts fuel -> shorter (S (length ts)) (additive_loop fuel e ts))
  /\ (forall ts, wf ts -> enough 3 ts fuel -> shorter (length ts) (parse_unary fuel ts))
  /\ (forall ts, wf ts -> enough 2 ts fuel -> shorter (length ts) (parse_primary fuel ts))
  /\ (forall es ts, wf ts -> enough 10 ts fuel -> shorter (length ts) (parse_args fuel es ts)).

(** A level of the precedence ladder, and its loop on an operator. *)
Lemma level_step {A B} n (r : outcome (A * list Tok)) (k : A -> list Tok -> outcome (B * list Tok)) :
  shorter n r -> (forall a ts, wf ts -> (length ts < n)%nat -> shorter (S (length ts)) (k a ts)) ->
  shorter n (r ≫= fun '(a, ts) => k a ts).
Proof.
  intros Hr Hk. eapply shorter_bind; [done|]. cbn. intros a ts Hw Hl.
  eapply shorter_mono; [by apply Hk|lia].
Qed.
Lemma loop_step {A B} t ts (p : list Tok -> outcome (A * list Tok)) (k : A -> list Tok -> outcome (B * list Tok)) :
  wf ts -> peek ts = t -> t <> Eof ->
  (forall ts', wf ts' -> (S (length ts') = length ts)%nat -> shorter (length ts') (p ts')) ->
  (forall a ts', wf ts' -> (length ts' < length ts)%nat -> shorter (S (length ts')) (k a ts')) ->
  shorter (S (length ts)) ('(a, ts) ← p (advance ts).2; k a ts).
Proof.
  intros Hw Hp Ht Hr Hk. destruct (advance_wf ts Hw) as (H1 & H2 & _); [congruence|].
  eapply shorter_bind; [by apply Hr|]. cbn. intros a ts' Hw' Hl. eapply shorter_mono; [apply Hk; [done|lia]|lia].
Qed.
Ltac fuel_lia := unfold enough, FUEL_FACTOR in *; lia.

Lemma primary_step fuel ts :
  wf ts ->
  (forall ts', wf ts' -> (length ts' < length ts)%nat -> shorter (length ts') (parse_expr fuel ts')) ->
  (forall ts', wf ts' -> (length ts' < length ts)%nat -> shorter (length ts') (parse_args fuel [] ts')) ->
  shorter (length ts) (parse_primary (S fuel) ts).
Proof.
  intros Hw He Hargs. cbn. pose proof (advance_wf ts Hw) as Ha. pose proof (advance_fst ts) as Hf.
  destruct (advance ts) as [t ts1]. cbn [fst snd] in *. rewrite Hf in *.
  destruct (peek ts) as [name|s|n| | | | | | | | | | | | | | | | | | ] eqn:Ep; try done;
    destruct (Ha ltac:(done)) as (Hw1 & Hl1 & _); try (cbn; split; [done|lia]).
  - do 2 (destruct (String.eqb name _); [cbn; split; [done|lia]|]).
    destruct (peek_is LParen ts1) eqn:E; [|cbn; split; [done|lia]].
    destruct (peek_is_wf LParen ts1) as [Hw2 Hl2]; [done..|].
    apply shorter_bind with (n := length ts).
    + destruct (peek_is RParen _); [cbn; split; [done|lia]|].
      eapply shorter_mono; [apply Hargs; [done|lia]|lia].
    + intros args ts3 Hw3 Hl3. cbn beta iota. apply expect_bind; [done|done|]. intros ts4 Hw4 Hl4. cbn. split; [done|lia].
  - eapply shorter_bind; [apply He; [done|lia]|]. intros e ts2 Hw2 Hl2. cbn beta iota.
    apply expect_bind; [done|done|]. intros ts3 Hw3 Hl3. cbn. split; [done|lia].
Qed.
Lemma exprs_ok_all fuel : exprs_ok fuel.
Proof.
  induction fuel as [|fuel (He & Ho & Hol & Ha & Hal & Hq & Hql & Hr & Hrl & Hd & Hdl & Hu & Hp & Hargs)].
  { unfold exprs_ok, enough. split_and!; intros; lia. }
  assert (Hself : forall e ts, wf ts -> shorter (S (length ts)) (Ok (e : Expr, ts))) by (intros; cbn; auto with lia).
  unfold exprs_ok. split_and!; intros.
  - apply Ho; [done|fuel_lia].
  - apply level_step; [apply Ha; [done|fuel_lia]|]. intros. apply Hol; [done|fuel_lia].
  - cbn. destruct (peek_is OrOr ts) eqn:E; [|by apply Hself]. apply bool_decide_eq_true_1 in E.
    apply (loop_step OrOr); [done..|intros; apply Ha; [done|fuel_lia]|intros; apply Hol; [done|fuel_lia]].
  - apply level_step; [apply Hq; [done|fuel_lia]|]. intros. apply Hal; [done|fuel_lia].
  - cbn. destruct (peek_is AndAnd ts) eqn:E; [|by apply Hself]. apply bool_decide_eq_true_1 in E.
    apply (loop_step AndAnd); [done..|intros; apply Hq; [done|fuel_lia]|intros; apply Hal; [done|fuel_lia]].
  - apply level_step; [apply Hr; [done|fuel_lia]|]. intros. apply Hql; [done|fuel_lia].
  - cbn. destruct (peek ts) eqn:E; try by apply Hself.
    all: eapply loop_step; [done|done|done|intros; apply Hr; [done|fuel_lia]|intros; apply Hql; [done|fuel_lia]].
  - apply level_step; [apply Hd; [done|fuel_lia]|]. intros. apply Hrl; [done|fuel_lia].
  - cbn. destruct (peek ts) eqn:E; try by apply Hself.
    all: eapply loop_step; [done|done|done|intros; apply Hd; [done|fuel_lia]|intros; apply Hrl; [done|fuel_lia]].
  - apply level_step; [apply Hu; [done|fuel_lia]|]. intros. apply Hdl; [done|fuel_lia].
  - cbn. destruct (peek_is Plus ts) eqn:E; [|by apply Hself]. apply bool_decide_eq_true_1 in E.
    apply (loop_step Plus); [done..|intros; apply Hu; [done|fuel_lia]|intros; apply Hdl; [done|fuel_lia]].
  - cbn. destruct (peek_is TNot ts) eqn:E; [|apply Hp; [done|fuel_lia]].
    destruct (peek_is_wf TNot ts) as [Hw1 Hl1]; [done..|].
    eapply shorter_bind; [apply Hu; [done|fuel_lia]|]. cbn. intros e ts' Hw Hl. split; [done|lia].
  - apply primary_step; [done| |]; intros; [apply He|apply Hargs]; (done || fuel_lia).
  - apply shorter_bind with (n := length ts); [apply He; [done|fuel_lia]|]. intros e ts' Hw Hl. cbn beta iota.
    destruct (peek_is Comma ts') eqn:E; [|by cbn].
    destruct (peek_is_wf Comma ts') as [Hw1 Hl1]; [done..|].
    eapply shorter_mono; [apply Hargs; [done|fuel_lia]|lia].
Qed.

Lemma parse_expr_ok fuel ts : wf ts -> enough 9 ts fuel -> shorter (length ts) (parse_expr fuel ts).
Proof. apply (proj1 (exprs_ok_all fuel)). Qed.

Definition stmts_ok (fuel : nat) : Prop :=
  (forall ts, wf ts -> enough 1 ts fuel -> shorter (length ts) (parse_block fuel ts))
  /\ (forall l ts, wf ts -> enough 13 ts fuel -> shorter (length ts) (block_loop fuel l ts))
  /\ (forall ts, wf ts -> enough 12 ts fuel -> shorter (length ts) (parse_stmt fuel ts)).

Lemma keyword_wf kw ts : wf ts -> keyword kw ts = true ->
  wf (advance ts).2 /\ (S (length (advance ts).2) = length ts)%nat.
Proof. intros Hw. by apply peek_is_wf. Qed.
Lemma optional_shorter {A B} n (b : bool) (r : outcome (A * list Tok)) (f : A -> B) (a : B) ts :
  wf ts -> (length ts < n)%nat -> shorter n r ->
  shorter n (if b then Ok (a, ts) else '(x, ts) ← r; Ok (f x, ts)).
Proof.
  intros Hw Hl Hr. destruct b; [by cbn|]. eapply shorter_bind; [done|]. intros x ts' Hw' Hl'. by cbn.
Qed.

Section StmtSteps.
Variables (fuel : nat) (ts : list Tok).
Hypothesis Hw : wf ts.
Hypothesis Hexpr : forall ts', wf ts' -> (length ts' <= length ts)%nat -> shorter (length ts') (parse_expr fuel ts').
Hypothesis Hblock : forall ts', wf ts' -> (length ts' < length ts)%nat -> shorter (length ts') (parse_block fuel ts').
Hypothesis Hstmt : forall ts', wf ts' -> (length ts' < length ts)%nat -> shorter (length ts') (parse_stmt fuel ts').

Lemma if_step : keyword "if" ts = true ->
  shorter (length ts)
    (ts ← expect LParen (advance ts).2;
     '(cond, ts) ← parse_expr fuel ts;
     ts ← expect RParen ts;
     '(then_branch, ts) ← parse_block fuel ts;
     '(else_branch, ts) ← (if keyword "else" ts then
                             let ts := (advance ts).2 in
                             if keyword "if" ts then '(s, ts) ← parse_stmt fuel ts; Ok ([s], ts)
                             else parse_block fuel ts
                           else Ok ([], ts));
     Ok (If cond then_branch else_branch, ts)).
Proof using Hw Hexpr Hblock Hstmt.
  intros Hk. destruct (keyword_wf _ _ Hw Hk) as [Hw1 Hl1].
  apply expect_bind; [done|done|]. intros ts2 Hw2 Hl2.
  eapply shorter_bind; [apply Hexpr; [done|lia]|]. intros c ts3 Hw3 Hl3. cbn beta iota.
  apply expect_bind; [done|done|]. intros ts4 Hw4 Hl4.
  eapply shorter_bind; [apply Hblock; [done|lia]|]. intros b ts5 Hw5 Hl5. cbn beta iota.
  apply shorter_bind with (n := length ts); [|intros e ts6 Hw6 Hl6; by cbn].
  destruct (keyword "else" ts5) eqn:E; [|cbn; split; [done|lia]].
  destruct (keyword_wf _ _ Hw5 E) as [Hw6 Hl6]. cbv zeta. destruct (keyword "if" (advance ts5).2).
  - eapply shorter_bind; [apply Hstmt; [done|lia]|]. intros s ts7 Hw7 Hl7. cbn. split; [done|lia].
  - eapply shorter_mono; [apply Hblock; [done|lia]|lia].
Qed.

Lemma stmt_step : shorter (length ts) (parse_stmt (S fuel) ts).
Proof using Hw Hexpr Hblock Hstmt.
  cbn [parse_stmt]. destruct (keyword "var" ts) eqn:Hk1.
  { destruct (keyword_wf _ _ Hw Hk1) as [Hw1 Hl1].
    eapply shorter_bind; [by apply expect_ident_shorter|]. intros name ts2 Hw2 Hl2. cbn beta iota.
    apply shorter_bind with (n := length ts).
    - destruct (peek_is TAssign ts2) eqn:E; [|cbn; split; [done|lia]].
      destruct (peek_is_wf TAssign ts2) as [Hw3 Hl3]; [done..|].
      eapply shorter_bind; [apply Hexpr; [done|lia]|]. intros e ts4 Hw4 Hl4. cbn. split; [done|lia].
    - intros i ts3 Hw3 Hl3. by apply shorter_skip. }
  destruct (keyword "return" ts) eqn:Hk2.
  { destruct (keyword_wf _ _ Hw Hk2) as [Hw1 Hl1]. cbv zeta.
    apply shorter_bind with (n := length ts).
    - apply optional_shorter; [done|lia|]. eapply shorter_mono; [apply Hexpr; [done|lia]|lia].
    - intros i ts3 Hw3 Hl3. by apply shorter_skip. }
  destruct (keyword "if" ts) eqn:Hk3; [by apply if_step|].
  destruct (peek ts) eqn:Ep; try done.
  destruct (bool_decide_reflect (ts !! 1%nat = Some TAssign)) as [E|E].
  - destruct (advance_wf ts Hw) as (Hw1 & Hl1 & _); [congruence|].
    assert (Hp : peek (advance ts).2 = TAssign) by (destruct ts as [|t [|u l]]; cbn in *; congruence).
    destruct (advance_wf (advance ts).2 Hw1) as (Hw2 & Hl2 & _); [congruence|].
    eapply shorter_bind; [apply Hexpr; [done|lia]|]. intros e ts4 Hw4 Hl4. apply shorter_skip; [done|lia].
  - eapply shorter_bind; [apply Hexpr; [done|lia]|]. intros e ts4 Hw4 Hl4. by apply shorter_skip.
Qed.
End StmtSteps.

Lemma stmts_ok_all fuel : stmts_ok fuel.
Proof.
  induction fuel as [|fuel (Hb & Hl & Hs)]; [unfold stmts_ok, enough; split_and!; intros; lia|].
  unfold stmts_ok. split_and!.
  - intros ts Hw Hf. cbn. apply expect_bind; [done|done|]. intros ts1 Hw1 Hl1.
    eapply shorter_mono; [apply Hl; [done|fuel_lia]|lia].
  - intros l ts Hw Hf. cbn [block_loop]. destruct (peek_is RBrace ts) eqn:E.
    { apply expect_bind; [done|done|]. intros ts1 Hw1 Hl1. cbn. split; [done|lia]. }
    destruct (peek_is Eof ts); [done|].
    eapply shorter_bind; [apply Hs; [done|fuel_lia]|]. intros s ts1 Hw1 Hl1. cbn beta iota.
    eapply shorter_mono; [apply Hl; [done|fuel_lia]|lia].
  - intros ts Hw Hf. apply stmt_step; [done|..]; intros ts1 Hw1 Hl1.
    + apply parse_expr_ok; [done|fuel_lia].
    + apply Hb; [done|fuel_lia].
    + apply Hs; [done|fuel_lia].
Qed.

Lemma param_loop_ok fuel ps ts : wf ts -> enough 1 ts fuel -> shorter (length ts) (param_loop fuel ps ts).
Proof.
  revert ps ts. induction fuel as [|fuel IH]; intros ps ts Hw Hf; [fuel_lia|]. cbn.
  eapply shorter_bind; [by apply expect_ident_shorter|]. intros p ts1 Hw1 Hl1. cbn beta iota.
  destruct (peek_is Comma ts1) eqn:E; [|by cbn]. destruct (peek_is_wf Comma ts1) as [Hw2 Hl2]; [done..|].
  eapply shorter_mono; [apply IH; [done|fuel_lia]|lia].
Qed.
Lemma parse_function_ok fuel ts :
  wf ts -> enough 1 ts fuel -> keyword "function" ts = true -> shorter (length ts) (parse_function fuel ts).
Proof.
  intros Hw Hf Hk. destruct (keyword_wf _ _ Hw Hk) as [Hw1 Hl1]. unfold parse_function.
  eapply shorter_bind; [by apply expect_ident_shorter|]. intros name ts2 Hw2 Hl2. cbn beta iota.
  apply expect_bind; [done|done|]. intros ts3 Hw3 Hl3.
  apply shorter_bind with (n := length ts).
  { destruct (peek_is RParen ts3); [cbn; split; [done|lia]|].
    eapply shorter_mono; [apply param_loop_ok; [done|fuel_lia]|lia]. }
  intros ps ts4 Hw4 Hl4. cbn beta iota. apply expect_bind; [done|done|]. intros ts5 Hw5 Hl5.
  eapply shorter_bind; [apply (stmts_ok_all fuel); [done|fuel_lia]|]. intros b ts6 Hw6 Hl6. cbn. split; [done|lia].
Qed.
Lemma program_loop_ok fuel p ts : wf ts -> enough 14 ts fuel -> no_panic (program_loop fuel p ts).
Proof.
  revert p ts. induction fuel as [|fuel IH]; intros p ts Hw Hf; [fuel_lia|]. cbn [program_loop].
  destruct (peek_is Eof ts); [done|]. destruct (keyword "function" ts) eqn:Hk.
  - pose proof (parse_function_ok fuel ts Hw ltac:(fuel_lia) Hk) as H1.
    destruct (parse_function fuel ts) as [[[name f] ts1]|e|w]; [|done|done]. destruct H1 as [Hw1 Hl1].
    cbn. apply IH; [done|fuel_lia].
  - pose proof (proj2 (proj2 (stmts_ok_all fuel)) ts Hw ltac:(fuel_lia)) as H1.
    destruct (parse_stmt fuel ts) as [[s ts1]|e|w]; [|done|done]. destruct H1 as [Hw1 Hl1].
    cbn. apply IH; [done|fuel_lia].
Qed.
Lemma pac_parse_no_panic src : no_panic (pac_parse src).
Proof.
  unfold pac_parse. pose proof (tokenize_ok src) as Ht.
  destruct (tokenize src) as [ts|e|w]; [|done|done].
  change (no_panic (parse_program ts)). apply program_loop_ok; [done|fuel_lia].
Qed.
End Total.

(** ** Evaluation always returns *)

Section ExprInd.
Variable P : Expr -> Prop.
Hypothesis HStr : forall s, P (EStr s).
Hypothesis HNum : forall n, P (ENum n).
Hypothesis HBool : forall b, P (EBool b).
Hypothesis HIdent : forall s, P (EIdent s).
Hypothesis HCall : forall n l, Forall P l -> P (ECall n l).
Hypothesis HBin : forall l r, P l -> P r ->
  P (EAdd l r) /\ P (EEq l r) /\ P (ENotEq l r) /\ P (EAnd l r) /\ P (EOr l r)
  /\ P (ELt l r) /\ P (EGt l r) /\ P (ELe l r) /\ P (EGe l r).
Hypothesis HNot : forall e, P e -> P (ENot e).
Fixpoint Expr_full_ind (e : Expr) : P e :=
  match e with
  | EStr s => HStr s | ENum n => HNum n | EBool b => HBool b | EIdent s => HIdent s
  | ECall n l => HCall n l ((fix go l : Forall P l :=
      match l with [] => Forall_nil_2 P | x :: l => Forall_cons_2 P x l (Expr_full_ind x) (go l) end) l)
  | EAdd l r => proj1 (HBin l r (Expr_full_ind l) (Expr_full_ind r))
  | EEq l r => proj1 (proj2 (HBin l r (Expr_full_ind l) (Expr_full_ind r)))
  | ENotEq l r => proj1 (proj2 (proj2 (HBin l r (Expr_full_ind l) (Expr_full_ind r))))
  | EAnd l r => proj1 (proj2 (proj2 (proj2 (HBin l r (Expr_full_ind l) (Expr_full_ind r)))))
  | EOr l r => proj1 (proj2 (proj2 (proj2 (proj2 (HBin l r (Expr_full_ind l) (Expr_full_ind r))))))
  | ELt l r => proj1 (proj2 (proj2 (proj2 (proj2 (proj2 (HBin l r (Expr_full_ind l) (Expr_full_ind r)))))))
  | EGt l r => proj1 (proj2 (proj2 (proj2 (proj2 (proj2 (proj2 (HBin l r (Expr_full_ind l) (Expr_full_ind r))))))))
  | ELe l r => proj1 (proj2 (proj2 (proj2 (proj2 (proj2 (proj2 (proj2 (HBin l r (Expr_full_ind l) (Expr_full_ind r)))))))))
  | EGe l r => proj2 (proj2 (proj2 (proj2 (proj2 (proj2 (proj2 (proj2 (HBin l r (Expr_full_ind l) (Expr_full_ind r)))))))))
  | ENot e => HNot e (Expr_full_ind e)
  end.
End ExprInd.

Section StmtInd.
Variable P : Stmt -> Prop.
Hypothesis HVar : forall n i, P (VarDecl n i).
Hypothesis HAssign : forall n e, P (Assign n e).
Hypothesis HExpr : forall e, P (ExprStmt e).
Hypothesis HIf : forall c a b, Forall P a -> Forall P b -> P (If c a b).
Hypothesis HReturn : forall e, P (Return e).
Fixpoint Stmt_full_ind (s : Stmt) : P s :=
  let all := fix go l : Forall P l :=
    match l with [] => Forall_nil_2 P | x :: l => Forall_cons_2 P x l (Stmt_full_ind x) (go l) end in
  match s with
  | VarDecl n i => HVar n i | Assign n e => HAssign n e | ExprStmt e => HExpr e
  | If c a b => HIf c a b (all a) (all b)
  | Return e => HReturn e
  end.
End StmtInd.

(** A computation that ends with a value or an error from every world. *)
Definition returns {W A} (c : M W A) : Prop := forall w, no_panic (c w).1.
Lemma returns_bind {W A B} (c : M W A) (k : A -> M W B) :
  returns c -> (forall a, returns (k a)) -> returns (c ≫= k).
Proof.
  intros Hc Hk w. unfold mbind, M_bind. specialize (Hc w).
  destruct (c w) as [[a|e|s] w']; [by apply Hk|done|by destruct (Hc s)].
Qed.
Lemma returns_mret {W A} (a : A) : returns (mret a : M W A).
Proof. done. Qed.
Lemma returns_throw {W A} e : returns (throw e : M W A).
Proof. done. Qed.
Lemma returns_ok_or {W A} (o : option A) e : returns (lift (ok_or o e) : M W A).
Proof. intros w. cbn. by destruct o. Qed.
Lemma returns_io_match {W A} (c : io W A) : returns (io_match c).
Proof. intros w. unfold io_match. by destruct (c w). Qed.
Lemma returns_observe {W A} (f : W -> A * W) : returns (observe f).
Proof. intros w. by rewrite observe_run. Qed.
#[export] Hint Resolve returns_mret returns_throw returns_ok_or returns_io_match returns_observe : mitos.
Ltac returns_binds :=
  repeat first [ solve [eauto with mitos] | apply returns_bind; [|intros ?] | case_match_goal ].

Section Evaluation.
Context {W : Type} `{Resolver W} `{Clock W}.

Lemma resolve_host_returns h : returns (resolve_host h : M W _).
Proof. unfold resolve_host. destruct (parse_ip h); returns_binds. Qed.
Hint Resolve resolve_host_returns : mitos.
Lemma arg_str_returns args i : returns (lift (arg_str args i) : M W string).
Proof. apply returns_ok_or. Qed.
Hint Resolve arg_str_returns : mitos.
Lemma now_returns : returns (now_unix_days_and_secs : M W (Z * Z)).
Proof. unfold now_unix_days_and_secs, now_secs. returns_binds. Qed.
Hint Resolve now_returns : mitos.
Lemma call_builtin_returns name args : returns (call_builtin name args : M W (option Value)).
Proof.
  unfold call_builtin, my_ip_address.
  repeat (match goal with |- returns (if String.eqb _ _ then _ else _) => destruct (String.eqb _ _) end;
          [solve [returns_binds]|]).
  returns_binds.
Qed.

Section Body.
Variable callf : string -> list Value -> M W Value.
Hypothesis Hcall : forall n a, returns (callf n a).
Lemma eval_returns e sc : returns (eval callf e sc).
Proof using Hcall.
  apply (Expr_full_ind (fun e => returns (eval callf e sc))); try done.
  - intros n l Hl. apply returns_bind; [|done]. induction Hl as [|x l Hx _ IH]; [done|].
    apply returns_bind; [done|]. intros v. apply returns_bind; [done|]. eauto with mitos.
  - intros l r Hl Hr. split_and!; cbn [eval]; returns_binds.
  - intros x Hx. cbn [eval]. returns_binds.
Qed.
Hint Resolve eval_returns : mitos.
Lemma eval_opt_returns e sc : returns (eval_opt callf e sc).
Proof using Hcall. destruct e; [apply eval_returns|done]. Qed.
Hint Resolve eval_opt_returns : mitos.
Lemma block_returns (f : Stmt -> scope -> M W (Signal * scope)) l sc :
  Forall (fun s => forall sc, returns (f s sc)) l ->
  returns ((fix exec_block (l : list Stmt) (sc : scope) : M W (Signal * scope) :=
    match l with
    | [] => mret (SigNone, sc)
    | s :: l => '(sig, sc) ← f s sc;
                match sig with SigNone => exec_block l sc | SigReturn _ => mret (sig, sc) end
    end) l sc).
Proof.
  intros Hl. revert sc. induction Hl as [|s l Hs _ IH]; intros sc; [done|].
  apply returns_bind; [done|]. intros [[|v] sc']; [apply IH|done].
Qed.
Lemma exec_stmt_returns s sc : returns (exec_stmt callf s sc).
Proof using Hcall.
  revert sc. induction s using Stmt_full_ind; intros sc; cbn [exec_stmt]; try solve [returns_binds].
  apply returns_bind; [apply eval_returns|]. intros v. destruct (truthy v); by apply block_returns.
Qed.
Lemma exec_block_returns l sc : returns (exec_block callf l sc).
Proof using Hcall.
  revert sc. induction l as [|s l IH]; intros sc; [done|]. cbn.
  apply returns_bind; [apply exec_stmt_returns|]. intros [[|v] sc']; [apply IH|done].
Qed.
End Body.

Lemma call_returns fuel fns name args depth :
  (CALL_FUEL <= fuel + depth)%nat -> (depth <= MAX_CALL_DEPTH + 1)%nat -> returns (call fuel fns name args depth : M W Value).
Proof.
  unfold CALL_FUEL, MAX_CALL_DEPTH. revert name args depth.
  induction fuel as [|fuel IH]; intros name args depth Hf Hd; [lia|]. cbn [call].
  destruct (Nat.ltb_spec MAX_CALL_DEPTH depth); [done|]. unfold MAX_CALL_DEPTH in *.
  apply returns_bind; [apply call_builtin_returns|]. intros [v|]; [done|].
  apply returns_bind; [apply returns_ok_or|]. intros f.
  apply returns_bind; [|by intros [[] ?]]. apply exec_block_returns. intros n a. apply IH; lia.
Qed.
Lemma run_program_returns p url host : returns (run_program p url host : M W string).
Proof.
  unfold run_program. destruct (negb _); [done|].
  assert (Hc : forall n a, returns (call CALL_FUEL (functions p) n a 0 : M W Value)).
  { intros n a. apply call_returns; unfold CALL_FUEL, MAX_CALL_DEPTH; lia. }
  apply returns_bind; [|intros _; apply returns_bind; [done|done]].
  generalize (∅ : scope). induction (globals p) as [|s l IH]; intros sc; [done|]. cbn.
  apply returns_bind; [by apply exec_stmt_returns|]. by intros [??].
Qed.
End Evaluation.

(** ** Shell patterns *)

(** What a pattern means: a star stands for any bytes, a question mark for one,
    any other byte for itself. *)
Inductive glob : list Z -> list Z -> Prop :=
| glob_nil : glob [] []
| glob_star p s1 s2 : glob p s2 -> glob (42 :: p) (s1 ++ s2)
| glob_any p c s : glob p s -> glob (63 :: p) (c :: s)
| glob_byte p c s : c <> 42 -> c <> 63 -> glob p s -> glob (c :: p) (c :: s).

Lemma sh_matches_star p s :
  sh_matches (42 :: p) s = sh_matches p s || match s with [] => false | _ :: s' => sh_matches (42 :: p) s' end.
Proof. by destruct s. Qed.
Lemma sh_matches_glob p s : sh_matches p s = true <-> glob p s.
Proof.
  split.
  - revert s. induction p as [|pc p IH]; intros s.
    + destruct s; [constructor|done].
    + destruct (Z.eqb_spec pc 42) as [->|Hs].
      * induction s as [|c s IHs]; rewrite sh_matches_star.
        -- rewrite orb_false_r. intros H. apply (glob_star p [] []). by apply IH.
        -- intros [H|H]%orb_true_iff; [by apply (glob_star p []), IH|].
           apply IHs in H. inversion H as [|? s1 s2 Hg| |]; subst; [|done]. by apply (glob_star p (c :: s1)).
      * cbn. rewrite (proj2 (Z.eqb_neq pc 42)) by done. destruct s as [|sc s]; [done|].
        destruct (Z.eqb_spec pc 63) as [->|Hq]; cbn [orb]; [intros H; by apply glob_any, IH|].
        destruct (Z.eqb_spec sc pc) as [->|]; [|done]. intros H. by apply glob_byte; [| |apply IH].
  - induction 1 as [|p s1 s2 _ IH|p c s _ IH|p c s Hs Hq _ IH]; [done| |done|].
    + induction s1 as [|c s1 IHs]; rewrite sh_matches_star; [cbn; by rewrite IH|].
      cbn [app]. by rewrite IHs, orb_true_r.
    + cbn. rewrite (proj2 (Z.eqb_neq c 42)) by done. by rewrite Z.eqb_refl, orb_true_r.
Qed.

(** ** The cost of a script *)

(** [n + 1] functions, each but the first calling the one before it twice. *)
Definition chain_name (k : nat) : string := "f" +:+ dec (Z.of_nat k).
Definition chain_body (k : nat) : list Stmt :=
  match k with
  | O => [ExprStmt (ECall "dnsResolve" [EStr "x"])]
  | S k => [ExprStmt (ECall (chain_name k) []); ExprStmt (ECall (chain_name k) [])]
  end.
Fixpoint chain_functions (n : nat) : gmap string FunctionDecl :=
  <[chain_name n := mkFunction [] (chain_body n)]> (match n with O => ∅ | S n => chain_functions n end).
Definition chain_program (n : nat) : Program :=
  mkProgram (<["FindProxyForURL"%string := mkFunction ["url"; "host"]%string [ExprStmt (ECall (chain_name n) [])]]>
               (chain_functions n)) [].

Lemma dec_inj (a b : nat) : Z.of_nat a < 2 ^ 64 -> Z.of_nat b < 2 ^ 64 -> dec (Z.of_nat a) = dec (Z.of_nat b) -> a = b.
Proof.
  intros Ha Hb He. pose proof (parse_uint_dec 64 (Z.of_nat a)) as H1. pose proof (parse_uint_dec 64 (Z.of_nat b)) as H2.
  rewrite He, H2 in H1 by (unfold is_uint; lia). assert (Some (Z.of_nat b) = Some (Z.of_nat a)) as [= ?] by
    (apply H1; unfold is_uint; lia). lia.
Qed.
Lemma chain_name_inj a b : (a <= 64)%nat -> (b <= 64)%nat -> chain_name a = chain_name b -> a = b.
Proof. unfold chain_name. intros Ha Hb He. apply dec_inj; [lia|lia|]. by injection He. Qed.
Lemma chain_lookup n k : (k <= n <= 64)%nat ->
  chain_functions n !! chain_name k = Some (mkFunction [] (chain_body k)).
Proof.
  revert k. induction n as [|n IH]; intros k Hk; cbn [chain_functions].
  - replace k with 0%nat by lia. apply lookup_insert_eq.
  - destruct (decide (k = S n)) as [->|Hn]; [apply lookup_insert_eq|].
    rewrite lookup_insert_ne by (intros He%chain_name_inj; lia). apply IH. lia.
Qed.

Lemma chain_none n x : (forall k, (k <= n)%nat -> chain_name k <> x) -> chain_functions n !! x = None.
Proof.
  induction n as [|n IH]; intros Hx; cbn [chain_functions]; rewrite lookup_insert_ne by (apply Hx; lia); [done|].
  apply IH. intros k Hk. apply Hx. lia.
Qed.
Lemma chain_size n : (n <= 64)%nat -> size (chain_functions n) = S n.
Proof.
  induction n as [|n IH]; intros Hn; cbn [chain_functions]; rewrite map_size_insert_None; try done.
  - by rewrite IH by lia.
  - apply chain_none. intros k Hk He%chain_name_inj; lia.
Qed.

(** A world that counts name look-ups, and finds nothing. *)
Definition counting_resolver : Resolver Z := {|
  rs_lookup _ n := (inl [], n + 1);
  rs_local_ip n := (inr (IoError IoOther "no route"), n)
|}.
Definition stopped_clock : Clock Z := {|
  clk_instant n := (0, n); clk_unix n := ((0, 0), n); clk_pid _ := 1; clk_sleep _ n := n
|}.
#[local] Existing Instances counting_resolver stopped_clock.

Lemma lookup_cost fuel fns depth c : (depth <= MAX_CALL_DEPTH)%nat ->
  call (S fuel) fns "dnsResolve" [VStr "x"] depth c = (Ok VNull, c + 1).
Proof. intros Hd. cbn [call]. rewrite (proj2 (Nat.ltb_ge MAX_CALL_DEPTH depth)) by lia. reflexivity. Qed.
Lemma chain_not_builtin k c : call_builtin (chain_name k) [] c = (Ok None, c).
Proof. reflexivity. Qed.
Lemma chain_cost fns n k fuel depth c :
  (forall j, (j <= n)%nat -> fns !! chain_name j = Some (mkFunction [] (chain_body j))) ->
  (k <= n)%nat -> (k + 2 <= fuel)%nat -> (depth + k + 1 <= MAX_CALL_DEPTH)%nat ->
  call fuel fns (chain_name k) [] depth c = (Ok VNull, c + 2 ^ Z.of_nat k).
Proof.
  intros Hf. revert fuel depth c. induction k as [|k IH]; intros fuel depth c Hk Hfuel Hd;
    (destruct fuel as [|fuel]; [lia|]); cbn [call];
    rewrite (proj2 (Nat.ltb_ge MAX_CALL_DEPTH depth)) by lia;
    unfold mbind at 1, M_bind at 1; rewrite chain_not_builtin, Hf by lia;
    unfold mbind, M_bind, lift; cbn [ok_or exec_block chain_body body exec_stmt eval];
    unfold mbind, M_bind, mret, M_ret.
  - destruct fuel as [|fuel]; [lia|]. by rewrite lookup_cost by lia.
  - rewrite IH by lia. rewrite IH by lia.
    rewrite Nat2Z.inj_succ, Z.pow_succ_r by lia. f_equal. lia.
Qed.

Lemma entry_not_builtin args (c : Z) : call_builtin "FindProxyForURL" args c = (Ok None, c).
Proof. reflexivity. Qed.
Lemma entry_cost fns n args c :
  (forall j, (j <= n)%nat -> fns !! chain_name j = Some (mkFunction [] (chain_body j))) ->
  fns !! "FindProxyForURL"%string = Some (mkFunction ["url"; "host"]%string [ExprStmt (ECall (chain_name n) [])]) ->
  (n <= 62)%nat -> call CALL_FUEL fns "FindProxyForURL" args 0 c = (Ok VNull, c + 2 ^ Z.of_nat n).
Proof.
  intros Hf He Hn. assert (exists f, CALL_FUEL = S f /\ (64 <= f)%nat) as (f & -> & Hl).
  { exists 65%nat. by unfold CALL_FUEL, MAX_CALL_DEPTH; split; [|lia]. }
  cbn [call].
  replace (MAX_CALL_DEPTH <? 0)%nat with false by done.
  unfold mbind at 1, M_bind at 1. rewrite entry_not_builtin, He.
  unfold mbind, M_bind, lift. cbn [ok_or exec_block body exec_stmt eval].
  unfold mbind, M_bind, mret, M_ret. by rewrite (chain_cost fns n) by (done || unfold MAX_CALL_DEPTH; lia).
Qed.

(** ** Properties *)

Lemma evaluate_no_panic {W} `{Resolver W} `{Clock W} `{PacText} script url host :
  returns (evaluate script url host : M W string).
Proof.
  apply (returns_bind (lift (pac_parse script))).
  - intros w'. apply pac_parse_no_panic.
  - intros p. apply run_program_returns.
Qed.

(** The fuel given is enough: the tokenizer, the parser and the interpreter end
    with a string or an error on any script, the interpreter because the call
    depth is limited.  The program itself recurses once for each level of nesting
    in the text, which nothing but the length of the text bounds, and the model
    has no stack to overflow. *)
Theorem pac_evaluate_returns {W} `{Resolver W} `{Clock W} `{PacText} script url host (w : W) :
  no_panic (evaluate script url host w).1.
Proof. apply evaluate_no_panic. Qed.

(** C30: [shExpMatch] decides exactly the shell-pattern language: it accepts a
    string if and only if the pattern generates its bytes, a star standing for
    any of them and a question mark for one. *)
Theorem sh_exp_match_correct s pattern :
  sh_exp_match s pattern = true <-> glob (str_bytes pattern) (str_bytes s).
Proof. apply sh_matches_glob. Qed.

(** C31: the depth limit does not bound the work.  A script of [n + 2] functions,
    none of them recursive, [n] at most 62, makes [2^n] name look-ups, so up to
    about 4.6e18 of them (a longer chain is refused by the depth limit). *)
Theorem pac_exponential_cost n url host c :
  (n <= 62)%nat ->
  size (functions (chain_program n)) = (n + 2)%nat
  /\ run_program (chain_program n) url host c = (Ok "DIRECT"%string, c + 2 ^ Z.of_nat n).
Proof.
  intros Hn. assert (Hx : chain_functions n !! "FindProxyForURL"%string = None) by (by apply chain_none).
  split.
  - unfold chain_program. cbn [functions]. rewrite map_size_insert_None, chain_size by (done || lia). lia.
  - unfold run_program. cbn [functions globals chain_program]. rewrite lookup_insert_eq.
    rewrite bool_decide_eq_true_2 by done. cbn [negb]. unfold mbind at 1, M_bind at 1. cbn [exec_globals mret M_ret].
    unfold mret at 1, M_ret at 1. unfold mbind, M_bind. rewrite (entry_cost _ n); [done| |apply lookup_insert_eq|done].
    intros j Hj. rewrite lookup_insert_ne by done. apply chain_lookup. lia.
Qed.
Lemma pac_exponential_cost_witness :
  run_program (chain_program 40) "http://example.com/" "example.com" 0 = (Ok "DIRECT"%string, 2 ^ 40).
Proof. apply (pac_exponential_cost 40 "http://example.com/" "example.com" 0). apply Nat.leb_le. reflexivity. Defined.

(** ** Findings on concrete scripts *)

Definition ascii_text : PacText := {|
  uni_alphabetic _ := false; uni_numeric _ := false; tok_debug _ := "token"%string
|}.
#[local] Existing Instance ascii_text.
(** The text of a chain is short. *)
Lemma chain_text :
  pac_parse ("function f0(){dnsResolve('x');}function f1(){f0();f0();}function f2(){f1();f1();}"
             +:+ "function FindProxyForURL(url,host){f2();}") = Ok (chain_program 2).
Proof. vm_compute. reflexivity. Qed.
(** A chunk size that ends inside a character panics. *)
Lemma dechunk_splits_char :
  exists why, dechunk ("1" +:+ CRLF +:+ bytes_str [195; 169] +:+ CRLF) = Panic why.
Proof. eexists. vm_compute. reflexivity. Qed.
(** A script's top-level variables are null inside its functions. *)
Lemma globals_invisible :
  (evaluate "var p = 'PROXY a:1'; function FindProxyForURL(url, host) { return p; }" "http://b/" "b" 0).1
    = Ok "DIRECT"%string.
Proof. vm_compute. reflexivity. Qed.
