(* ===== verification/Proxy.v ===== *)
(** * The system proxy (proxy/proxy.rs)

    The process-wide state ([ACTIVE], [PAC_CACHE]), [apply] with the shell script
    it writes, and [resolve_for_url].  A PAC file comes from [Pac.pac_fetch]. *)

From Stdlib Require Import Ascii String.
From S2P Require Import Prelude RustStr IpAddr Sys Persistence World Ipc Pac.

Definition PROFILE_SCRIPT_PATH : string := "/etc/profile.d/mitos-network-proxy.sh".
Definition NL : string := String "010" "".
Definition DQ : string := String "034" "".

(** ** URLs *)

Definition extract_host (url : string) : option string :=
  let after_scheme := match split_once_str "://" url with Some (_, rest) => rest | None => url end in
  let authority := default "" (head (split_by (fun c => Ascii.eqb c "/" || Ascii.eqb c "?" || Ascii.eqb c "#") after_scheme)) in
  let authority := match rsplit_once "@" authority with Some (_, h) => h | None => authority end in
  match strip_prefix "[" authority with
  | Some rest =>
      match head (split "]" rest) with
      | Some s => if String.eqb s "" then None else Some s
      | None => None
      end
  | None =>
      let host := default authority (head (split ":" authority)) in
      if String.eqb host "" then None else Some host
  end.

Definition host_matches_no_proxy (host pattern : string) : bool :=
  let host := to_ascii_lowercase host in
  let pattern := to_ascii_lowercase (trim pattern) in
  if String.eqb pattern "*" then true
  else
    let pattern := default pattern (strip_prefix "." pattern) in
    String.eqb host pattern || ends_with ("." +:+ pattern) host.

Definition or_else {A} (a b : option A) : option A := match a with Some _ => a | None => b end.
Definition manual_directive (cfg : ProxyConfig) (url : string) : string :=
  let host := default "" (extract_host url) in
  if existsb (host_matches_no_proxy host) (no_proxy cfg) then "DIRECT"
  else
    let scheme := to_ascii_lowercase (default "http" (head (split ":" url))) in
    let chosen := if String.eqb scheme "https" then or_else (https cfg) (http cfg)
                  else if String.eqb scheme "ftp" then ftp cfg
                  else http cfg in
    match or_else chosen (socks cfg) with
    | Some proxy => "PROXY " +:+ proxy
    | None => "DIRECT"
    end.

(** ** The shell script *)

Definition export_line (var v : string) : string := "export " +:+ var +:+ "=" +:+ DQ +:+ v +:+ DQ +:+ NL.
Definition export_both (var : string) (value : option string) : string :=
  match value with
  | Some v => export_line var v +:+ export_line (to_ascii_uppercase var) v
  | None => ""
  end.
Definition manual_script (cfg : ProxyConfig) : string :=
  "# Generated by mitos-network. Do not edit by hand." +:+ NL
  +:+ export_both "http_proxy" (http cfg) +:+ export_both "https_proxy" (https cfg)
  +:+ export_both "ftp_proxy" (ftp cfg) +:+ export_both "all_proxy" (socks cfg)
  +:+ (match no_proxy cfg with
       | [] => ""
       | l => let joined := join "," l in export_line "no_proxy" joined +:+ export_line "NO_PROXY" joined
       end).

(** ** State and operations *)

Record ProxyState := mkProxyState { active_config : option ProxyConfig; pac_cache : option string }.

Section Ops.
Context {W : Type} `{FileSystem W} `{Resolver W} `{Clock W} `{TcpStreams W} `{PacText} `{Codec ProxyConfig}.
Variable base_dir : string.
Definition PM (A : Type) : Type := M (ProxyState * W) A.

Definition in_world {A} (c : M W A) : PM A := fun s => let '(r, w) := c s.2 in (r, (s.1, w)).
Definition set_active (c : ProxyConfig) : PM unit := fun s =>
  (Ok tt, (mkProxyState (Some c) (pac_cache s.1), s.2)).
Definition set_cache (c : option string) : PM unit := fun s =>
  (Ok tt, (mkProxyState (active_config s.1) c, s.2)).

Definition clear : PM unit :=
  in_world (r ← io_match (fs_remove PROFILE_SCRIPT_PATH);
            match r with
            | inl _ => mret tt
            | inr e => if is_not_found e then mret tt else throw (Io e)
            end).
Definition config_error (url : string) (e : NetworkError) : NetworkError :=
  Config ("PAC script at " +:+ url +:+ " is invalid: " +:+ error_to_string e).
Definition check_script (script url : string) : PM unit := fun s =>
  match evaluate script "http://example.com/" "example.com" s.2 with
  | (Ok _, w) => (Ok tt, (s.1, w))
  | (Err e, w) => (Err (config_error url e), (s.1, w))
  | (Panic why, w) => (Panic why, (s.1, w))
  end.
Definition apply_inner (cfg : ProxyConfig) : PM unit :=
  match mode cfg with
  | PmNone => set_cache None ;; clear
  | PmManual => set_cache None ;; in_world (io_try (fs_write PROFILE_SCRIPT_PATH (manual_script cfg)))
  | PmAuto =>
      clear ;;
      match pac_url cfg with
      | None => set_cache None ;; throw (Config "proxy mode is Auto but no pac_url is configured")
      | Some url =>
          script ← in_world (pac_fetch url);
          check_script script url ;;
          set_cache (Some script)
      end
  end.

(** persistence/state.rs *)
Definition proxy_config_path : string := path_join base_dir "proxy.json".
Definition save_proxy_config (cfg : ProxyConfig) : M W unit := write_json proxy_config_path cfg.
Definition load_proxy_config : M W (option ProxyConfig) := read_json proxy_config_path.

Definition proxy_apply (cfg : ProxyConfig) : PM unit := fun s =>
  match (set_active cfg ;; apply_inner cfg) s with
  | (Ok _, s) => (ignore (in_world (save_proxy_config cfg))) s
  | other => other
  end.
Definition proxy_current (s : ProxyState) : option ProxyConfig := active_config s.

Definition resolve_for_url (url : string) : PM string := fun s =>
  let cfg := default proxy_config_default (active_config s.1) in
  match mode cfg with
  | PmNone => (Ok "DIRECT", s)
  | PmManual => (Ok (manual_directive cfg url), s)
  | PmAuto =>
      match pac_cache s.1 with
      | None => (Ok "DIRECT", s)
      | Some script =>
          match evaluate script url (default "" (extract_host url)) s.2 with
          | (Ok r, w) => (Ok r, (s.1, w))
          | (Err _, w) => (Ok "DIRECT", (s.1, w))
          | (Panic why, w) => (Panic why, (s.1, w))
          end
      end
  end.
End Ops.

(** ** Domain labels *)

Fixpoint unsplit (c : ascii) (l : list string) : string :=
  match l with
  | [] => ""
  | [x] => x
  | x :: l => x +:+ String c (unsplit c l)
  end.
Lemma unsplit_cons c x l : l <> [] -> unsplit c (x :: l) = x +:+ String c (unsplit c l).
Proof. by destruct l. Qed.
Lemma unsplit_app c k l : k <> [] -> l <> [] -> unsplit c (k ++ l) = unsplit c k +:+ String c (unsplit c l).
Proof.
  intros Hk Hl. induction k as [|x k IH]; [done|]. destruct k as [|y k].
  - cbn [app]. by rewrite unsplit_cons.
  - cbn [app]. rewrite unsplit_cons by done. cbn [app] in IH. rewrite IH by done.
    rewrite (unsplit_cons c x (y :: k)) by done. by rewrite str_app_assoc.
Qed.
Lemma unsplit_split c s : unsplit c (split c s) = s.
Proof.
  unfold split. induction s as [|a s IH]; [done|]. cbn [split_by].
  pose proof (split_by_nonnil (Ascii.eqb c) s) as Hn. destruct (Ascii.eqb_spec c a) as [<-|_].
  - rewrite unsplit_cons by done. by rewrite IH.
  - destruct (split_by (Ascii.eqb c) s) as [|x [|y l]]; [done|by rewrite <- IH|]. by rewrite <- IH.
Qed.
(** A string's labels end another's exactly when it is the other or follows a separator in it. *)
Lemma split_suffix c s t :
  (exists sub, split c s = sub ++ split c t) <-> s = t \/ exists r, s = r +:+ String c t.
Proof.
  split.
  - intros [sub E]. rewrite <- (unsplit_split c s), E. destruct sub as [|x sub]; [left; apply unsplit_split|].
    right. exists (unsplit c (x :: sub)). rewrite unsplit_app; [|done|apply split_by_nonnil]. by rewrite unsplit_split.
  - intros [->|[r ->]]; [by exists []|]. exists (split c r). apply split_by_cut, Ascii.eqb_refl.
Qed.

(** The labels of a host name, and the domain a [no_proxy] entry names. *)
Definition labels (host : string) : list string := split "." (to_ascii_lowercase host).
Definition no_proxy_domain (pattern : string) : string :=
  let p := to_ascii_lowercase (trim pattern) in default p (strip_prefix "." p).

Lemma manual_directive_cases cfg url :
  manual_directive cfg url = "DIRECT"%string
  \/ (forallb (fun p => negb (host_matches_no_proxy (default "" (extract_host url)) p)) (no_proxy cfg) = true
     /\ exists p, manual_directive cfg url = "PROXY " +:+ p /\ Some p ∈ [http cfg; https cfg; ftp cfg; socks cfg]).
Proof.
  unfold manual_directive. cbn zeta. destruct (existsb _ (no_proxy cfg)) eqn:Ex; [by left|].
  destruct (or_else _ (socks cfg)) as [p|] eqn:Eo; [right|by left]. split.
  - apply forallb_forall. intros q Hq. apply negb_true_iff, not_true_iff_false. intros Hm.
    rewrite (proj2 (existsb_exists _ _)) in Ex by (by exists q). done.
  - exists p. split; [done|]. rewrite <- Eo. unfold or_else.
    repeat case_match; set_solver.
Qed.

(** ** What [apply] does to the state *)

Section Apply.
Context {W : Type} `{FileSystemLaws W} `{Resolver W} `{Clock W} `{TcpStreams W} `{PacText} `{Codec ProxyConfig}.
Variable base_dir : string.

Lemma in_world_state {A} (c : M W A) (s : ProxyState * W) : (in_world c s).2.1 = s.1.
Proof. unfold in_world. by destruct (c s.2). Qed.

(** Saving the configuration never touches the script. *)
Lemma save_keeps_script cfg w :
  files (save_proxy_config base_dir cfg w).2 !! PROFILE_SCRIPT_PATH = files w !! PROFILE_SCRIPT_PATH.
Proof.
  unfold save_proxy_config. set (path := proxy_config_path base_dir).
  assert (Hp : last_byte path = Some 110) by (unfold path, proxy_config_path; by rewrite path_join_last).
  destruct (encode cfg) as [text|e|why] eqn:E.
  - pose proof (write_json_replaces path text cfg w E) as [Ho _]. apply Ho; intros Heq.
    + by rewrite <- Heq in Hp.
    + assert (Ht := with_extension_last path "json.tmp" ltac:(done)). by rewrite <- Heq in Ht.
  - unfold write_json, mbind, M_bind, io_try, lift. rewrite E. pose proof (law_create_dir (path_parent path) w).
    destruct (fs_create_dir_all (path_parent path) w) as [[[]|?] ?]; cbn [fst snd] in *; congruence.
  - unfold write_json, mbind, M_bind, io_try, lift. rewrite E. pose proof (law_create_dir (path_parent path) w).
    destruct (fs_create_dir_all (path_parent path) w) as [[[]|?] ?]; cbn [fst snd] in *; congruence.
Qed.
Lemma clear_spec (s : ProxyState * W) :
  (clear s).2.1 = s.1 /\ match (clear s).1 with
    | Ok _ => files (clear s).2.2 = delete PROFILE_SCRIPT_PATH (files s.2)
    | Err e => (exists e', e = Io e') /\ files (clear s).2.2 = files s.2
    | Panic _ => False
    end.
Proof.
  split; [apply in_world_state|]. unfold clear, in_world, mbind, M_bind, io_match.
  pose proof (law_remove PROFILE_SCRIPT_PATH s.2) as Hr.
  destruct (fs_remove PROFILE_SCRIPT_PATH s.2) as [[[]|e] w]; cbn [fst snd mret M_ret] in *; [done|].
  destruct Hr as [Hn Hf]. destruct (is_not_found e); cbn [fst snd mret M_ret throw]; [by rewrite Hf, delete_id by auto|eauto].
Qed.

(** What [apply_inner] leaves behind: the cache and the login script.  In auto
    mode the script is taken away first, and then the PAC script is fetched. *)
Definition applied (cfg : ProxyConfig) (old : option string) (w0 : W) (r : outcome unit) (st : ProxyState) (w : W) : Prop :=
  match mode cfg with
  | PmNone => pac_cache st = None /\ (r = Ok tt -> files w !! PROFILE_SCRIPT_PATH = None)
  | PmManual =>
      pac_cache st = None /\ (r = Ok tt -> files w !! PROFILE_SCRIPT_PATH = Some (manual_script cfg))
  | PmAuto =>
      (exists e, r = Err (Io e) /\ pac_cache st = old /\ files w = files w0)
      \/ exists w1, files w1 = delete PROFILE_SCRIPT_PATH (files w0)
         /\ match r with
            | Ok _ => exists url script w2 answer,
                pac_url cfg = Some url /\ pac_fetch url w1 = (Ok script, w2)
                /\ (evaluate script "http://example.com/" "example.com" w2).1 = Ok answer
                /\ pac_cache st = Some script
            | _ => match pac_url cfg with
                   | None => pac_cache st = None /\ w = w1
                   | Some url => pac_cache st = old /\ forall script w2 answer, pac_fetch url w1 = (Ok script, w2) ->
                       (evaluate script "http://example.com/" "example.com" w2).1 <> Ok answer
                   end
            end
  end.
Lemma apply_inner_applied cfg (s : ProxyState * W) :
  let '(r, s') := apply_inner cfg s in
  active_config s'.1 = active_config s.1 /\ applied cfg (pac_cache s.1) s.2 r s'.1 s'.2.
Proof.
  unfold apply_inner, applied. destruct (mode cfg); unfold mbind at 1, M_bind at 1.
  - cbn [set_cache]. set (t := (mkProxyState _ _, _)). destruct (clear_spec t) as [Ht Hf].
    destruct (clear t) as [r s']; cbn [fst snd] in *. rewrite Ht. split_and!; [done|done|]. intros ->. by rewrite Hf, lookup_delete_eq.
  - cbn [set_cache]. unfold in_world, io_try. pose proof (law_write PROFILE_SCRIPT_PATH (manual_script cfg) s.2) as Hw.
    cbn [fst snd]. destruct (fs_write PROFILE_SCRIPT_PATH (manual_script cfg) s.2) as [[[]|e] w]; cbn [fst snd pac_cache active_config].
    + split_and!; [done|done|]. intros _. by rewrite Hw, lookup_insert_eq.
    + done.
  - destruct (clear_spec s) as [Ht Hf]. destruct (clear s) as [[[]|e|why] s']; cbn [fst snd] in *; [|rewrite Ht; split; [done|left]; destruct Hf as [[e' ->] Hf]; by exists e'|done].
    destruct (pac_url cfg) as [url|] eqn:Eu.
    2:{ unfold mbind, M_bind, throw, set_cache. cbn. rewrite Ht. split; [done|]. right. by exists s'.2. }
    unfold mbind, M_bind. unfold in_world. destruct (pac_fetch url s'.2) as [[script|e|why] w] eqn:Ef; cbn [fst snd];
      try (rewrite Ht; split; [done|right]; exists s'.2; split_and!; [done|done|]; intros * E; congruence).
    unfold check_script. cbn [fst snd].
    destruct (evaluate script "http://example.com/" "example.com" w) as [[a|e|why] w2] eqn:Ee; cbn [fst snd];
      try (rewrite Ht; split; [done|right]; exists s'.2; split_and!; [done|done|]; intros * E; rewrite Ef in E; injection E as <- <-; by rewrite Ee).
    cbn. rewrite Ht. split; [done|]. right. exists s'.2. split; [done|]. exists url, script, w, a. by rewrite Ee.
Qed.
End Apply.

(** ** Findings on concrete configurations *)

(** Values reach the login script as they are: a quote ends the assignment, and
    what follows it is a command of every login shell. *)
Lemma manual_script_unescaped :
  exists before after,
    manual_script (mkProxyConfig PmManual (Some (DQ +:+ "; id > /tmp/x; " +:+ DQ)) None None None [] None)
    = before +:+ "export http_proxy=" +:+ DQ +:+ DQ +:+ "; id > /tmp/x; " +:+ DQ +:+ DQ +:+ NL +:+ after.
Proof.
  exists ("# Generated by mitos-network. Do not edit by hand." +:+ NL),
    (export_line "HTTP_PROXY" (DQ +:+ "; id > /tmp/x; " +:+ DQ)).
  vm_compute. reflexivity.
Qed.

(** ** Properties *)

(** A server that hands out a script, and a login script left by the manual mode:
    it is gone once the automatic mode has been applied. *)
Definition pac_server : TcpStreams sim := {|
  tcp_connect _ _ w := (inl 5, w); tcp_connect_timeout _ _ _ w := (inl 5, w); tcp_read_timeout _ _ w := (inl tt, w);
  tcp_write_timeout _ _ w := (inl tt, w); tcp_write_all _ _ w := (inl tt, w); tcp_close _ w := w;
  tcp_read_to_end _ _ w := (inl (str_bytes ("HTTP/1.1 200 OK" +:+ CRLF +:+ CRLF +:+ "function FindProxyForURL(url,host){return 'DIRECT';}")), w)
|}.
Definition no_names : Resolver sim := {| rs_lookup _ w := (inl [], w); rs_local_ip w := (inr not_found, w) |}.
Definition proxy_codec : Codec ProxyConfig := {| encode _ := Ok "auto"%string; decode _ := Err (Parse "") |}.
Definition ascii_pac : PacText := {| uni_alphabetic _ := false; uni_numeric _ := false; tok_debug _ := "token"%string |}.
#[local] Existing Instances pac_server no_names proxy_codec ascii_pac.
Definition auto_config : ProxyConfig := mkProxyConfig PmAuto None None None None [] (Some "http://wpad/wpad.dat"%string).
Definition was_manual : ProxyState * sim :=
  (mkProxyState None None, with_files {[PROFILE_SCRIPT_PATH := "export http_proxy=old"%string]} (sim_start [])).

(** C40: a [no_proxy] entry exempts exactly the domain it names and the hosts
    below it: a host matches when the entry is a star, or when the entry's
    labels, a leading dot and the case of letters apart, are the last labels
    of the host.  A name that merely ends in the entry's text does not match. *)
Theorem no_proxy_by_labels host pattern :
  host_matches_no_proxy host pattern = true
  <-> to_ascii_lowercase (trim pattern) = "*"%string
      \/ exists sub, labels host = sub ++ split "." (no_proxy_domain pattern).
Proof.
  unfold labels. rewrite split_suffix. unfold host_matches_no_proxy, no_proxy_domain. cbn zeta.
  destruct (String.eqb_spec (to_ascii_lowercase (trim pattern)) "*") as [E|E]; [by split; auto|].
  rewrite orb_true_iff, String.eqb_eq, ends_with_spec. split; [by right|by intros [?|?]].
Qed.

(** A client that asks which proxy to use always gets an answer, and asking
    changes nothing but the world that was consulted: DIRECT in mode none,
    without a script and when the script fails; the script's answer otherwise; in manual mode
    DIRECT or one of the configured proxies, and always DIRECT for an exempted host. *)
Theorem resolve_for_url_answers {W} `{Resolver W} `{Clock W} `{PacText} url (s : ProxyState * W) :
  exists answer w, resolve_for_url url s = (Ok answer, (s.1, w))
  /\ let cfg := default proxy_config_default (active_config s.1) in
     match mode cfg, pac_cache s.1 with
     | PmNone, _ | PmAuto, None => answer = "DIRECT"%string
     | PmAuto, Some script =>
         answer = match (evaluate script url (default "" (extract_host url)) s.2).1 with
                  | Ok a => a | _ => "DIRECT"%string end
     | PmManual, _ =>
         answer = "DIRECT"%string
         \/ (forallb (fun p => negb (host_matches_no_proxy (default "" (extract_host url)) p)) (no_proxy cfg) = true
            /\ exists p, answer = "PROXY " +:+ p /\ Some p ∈ [http cfg; https cfg; ftp cfg; socks cfg])
     end.
Proof.
  unfold resolve_for_url. cbn zeta. set (cfg := default _ _). destruct (mode cfg).
  - eexists _, s.2. split; [by destruct s|done].
  - eexists _, s.2. split; [by destruct s|]. apply manual_directive_cases.
  - destruct (pac_cache s.1) as [script|]; [|eexists _, s.2; split; [by destruct s|done]].
    pose proof (evaluate_no_panic script url (default "" (extract_host url)) s.2) as Hp.
    destruct (evaluate _ _ _ _) as [[a|e|why] w]; [by eexists _, w..|]. by destruct (Hp why).
Qed.
