(* ===== verification/Dns.v ===== *)
(** * DNS configuration (dns/resolver.rs, servers.rs, cache.rs, fallback.rs)

    Writing and reading [/etc/resolv.conf], merging the servers of several
    connections, the look-up cache and the fallback servers. *)

From Stdlib Require Import Ascii String.
From S2P Require Import Prelude RustStr IpAddr Sys Persistence World Pac.

#[local] Set Warnings "-clear-no-such-hyp".

Inductive DnsMode := DnsAuto | DnsManual | DnsNone.
Record DnsConfig := mkDnsConfig {
  dns_mode : DnsMode;
  dns_cfg_servers : list string;
  search_domains : list string;
  resolv_conf_path : string
}.
Definition DEFAULT_RESOLV_CONF : string := "/etc/resolv.conf".

(** ** resolv.conf *)

Definition EOL : string := String "010" "".
Definition RESOLV_HEADER : string :=
  "# Managed by mitos-network -- changes here will be overwritten." +:+ EOL
  +:+ "# Edit /etc/mitos-network/dns.toml instead." +:+ EOL.
Definition search_line (search : list string) : string :=
  match search with [] => "" | _ => "search " +:+ join " " search +:+ EOL end.
Definition nameserver_lines (servers : list IpAddr) : string :=
  foldr (fun s acc => "nameserver " +:+ show_ip s +:+ EOL +:+ acc) "" servers.
Definition resolv_text (servers : list IpAddr) (search : list string) : string :=
  RESOLV_HEADER +:+ search_line search +:+ nameserver_lines servers.

Record ResolvConf := mkResolvConf { nameservers : list IpAddr; rc_search : list string }.
Definition read_line (out : ResolvConf) (line : string) : ResolvConf :=
  let line := trim line in
  match strip_prefix "nameserver " line with
  | Some rest =>
      match parse_ip (trim rest) with
      | Some ip => mkResolvConf (nameservers out ++ [ip]) (rc_search out)
      | None => out
      end
  | None =>
      match strip_prefix "search " line with
      | Some rest => mkResolvConf (nameservers out) (split_whitespace rest)
      | None => out
      end
  end.
Definition read_resolv (text : string) : ResolvConf := foldl read_line (mkResolvConf [] []) (lines text).

Section Resolver.
Context {W : Type} `{FileSystem W}.

Definition apply_to (path : string) (servers : list IpAddr) (search : list string) : M W unit :=
  io_try (fs_create_dir_all (path_parent path)) ;;
  let tmp := with_extension path "mitos-tmp" in
  io_try (fs_write tmp (resolv_text servers search)) ;;
  io_try (fs_rename tmp path).
Definition dns_apply_static (servers : list IpAddr) (search : list string) : M W unit :=
  apply_to DEFAULT_RESOLV_CONF servers search.
Definition apply_from_config (cfg : DnsConfig) : M W unit :=
  match dns_mode cfg with
  | DnsNone => mret tt
  | DnsManual => apply_to (resolv_conf_path cfg) (omap parse_ip (dns_cfg_servers cfg)) (search_domains cfg)
  | DnsAuto => mret tt
  end.
Definition read_current : M W ResolvConf :=
  text ← io_try (fs_read DEFAULT_RESOLV_CONF); mret (read_resolv text).
End Resolver.

(** ** The servers of several connections *)

Definition dns_entry : Type := list IpAddr * list string * Z.
Definition DnsServerRegistry : Type := gmap string dns_entry.
Definition dns_set (id : string) (servers : list IpAddr) (search : list string) (priority : Z)
    (r : DnsServerRegistry) : DnsServerRegistry := <[id := (servers, search, priority)]> r.
Definition dns_clear (id : string) (r : DnsServerRegistry) : DnsServerRegistry := delete id r.

#[export] Instance IpAddr_eqdec : EqDecision IpAddr.
Proof. solve_decision. Defined.
Definition push_new {A} `{EqDecision A} (l : list A) (x : A) : list A :=
  if bool_decide (x ∈ l) then l else l ++ [x].
(** [HashMap::values] gives the entries in any order, [order]. *)
Definition by_priority (a b : dns_entry) : bool := b.2 <=? a.2.
Definition merged (order : list dns_entry) : list IpAddr * list string :=
  foldl (fun '(servers, search) '(s, d, _) => (foldl push_new servers s, foldl push_new search d))
    ([], []) (sort_by by_priority order).

(** ** The cache *)

Record CacheEntry := mkCacheEntry { addrs : list IpAddr; cache_expires_at : Z }.
Definition DnsCache : Type := gmap string CacheEntry.
Section Cache.
Context {W : Type} `{Clock W} `{Resolver W}.
Definition CM (A : Type) : Type := M (DnsCache * W) A.
Definition outside {A} (c : M W A) : CM A := fun s => let '(r, w) := c s.2 in (r, (s.1, w)).

(** The clock is read only when there is an entry. *)
Definition cache_get (name : string) : CM (option (list IpAddr)) := fun s =>
  match s.1 !! name with
  | None => (Ok None, s)
  | Some e => let '(now, w) := clk_instant s.2 in
              (Ok (if now <? cache_expires_at e then Some (addrs e) else None), (s.1, w))
  end.
Definition cache_insert (name : string) (l : list IpAddr) (ttl : Z) : CM unit := fun s =>
  let '(now, w) := clk_instant s.2 in
  (Ok tt, (<[name := mkCacheEntry l (now + ttl)]> s.1, w)).
Definition cache_resolve (host : string) (ttl : Z) : CM (list IpAddr) :=
  cached ← cache_get host;
  match cached with
  | Some l => mret l
  | None =>
      l ← outside (io_try (rs_lookup host));
      cache_insert host l ttl ;;
      mret l
  end.
End Cache.

(** ** Fallback servers *)

Definition default_servers : list IpAddr := omap parse_ip ["1.1.1.1"; "9.9.9.9"; "8.8.8.8"]%string.
Section Fallback.
Context {W : Type} `{TcpStreams W}.
Definition is_reachable (server : IpAddr) (timeout : Z) : M W bool := fun w =>
  match tcp_connect_timeout server 53 timeout w with
  | (inl fd, w) => (Ok true, tcp_close fd w)
  | (inr _, w) => (Ok false, w)
  end.
Fixpoint any_reachable (l : list IpAddr) (timeout : Z) : M W bool :=
  match l with
  | [] => mret false
  | s :: l => up ← is_reachable s timeout; if (up : bool) then mret true else any_reachable l timeout
  end.
Definition servers_or_fallback (configured : list IpAddr) : M W (list IpAddr) :=
  up ← any_reachable configured 800000000;
  mret (if (up : bool) then configured else default_servers).
End Fallback.

(** ** Reading back what was written *)

Lemma fold_join sep l (x a : string) :
  fold_left (fun acc y => (acc ++ sep ++ y)%string) l (a +:+ x) = a +:+ fold_left (fun acc y => (acc ++ sep ++ y)%string) l x.
Proof.
  revert x. induction l as [|y l IH]; intros x; cbn [fold_left]; [done|].
  rewrite <- IH. by rewrite str_app_assoc.
Qed.
Lemma join_cons sep x y l : join sep (x :: y :: l) = x +:+ sep +:+ join sep (y :: l).
Proof. unfold join. cbn [fold_left]. rewrite fold_join, (fold_join sep l y sep). done. Qed.

Lemma word_bytes d : word_ok d = true -> forallb graphic (str_bytes d) = true /\ str_bytes d <> [].
Proof. unfold word_ok. intros [Hn Hg]%andb_true_iff. split; [done|]. by destruct d. Qed.

(** What joining words gives is a line, and splits into the words. *)
Lemma words_join d l :
  forallb word_ok (d :: l) = true ->
  line_ok (join " " (d :: l)) = true
  /\ words_of [] (str_bytes (join " " (d :: l))) = map str_bytes (d :: l).
Proof.
  revert d. induction l as [|e l IH]; intros d.
  - cbn [forallb]. intros [Hd _]%andb_true_iff. split; [by apply word_line|].
    destruct (word_bytes d Hd) as [Hg Hn]. cbn [join fold_left map]. rewrite words_of_word by done. cbn. by destruct (str_bytes d).
  - cbn [forallb]. intros [Hd Hl]%andb_true_iff. destruct (IH e Hl) as [Hline Hw].
    destruct (word_bytes d Hd) as [Hg Hn]. rewrite join_cons.
    assert (Hb : str_bytes (d +:+ " " +:+ join " " (e :: l)) = str_bytes d ++ 32 :: str_bytes (join " " (e :: l)))
      by (by rewrite !str_bytes_app). split.
    + unfold line_ok in *. rewrite Hb. apply andb_true_iff in Hline as [[Ha Hf]%andb_true_iff Hlast].
      apply andb_true_iff. split; [apply andb_true_iff; split|].
      * rewrite forallb_app. cbn [forallb]. rewrite Ha. rewrite forallb_forall in Hg.
        apply andb_true_iff. split; [|done]. apply forallb_forall. intros b Hin. by rewrite Hg.
      * destruct (str_bytes d) as [|b r]; [done|]. by apply andb_true_iff in Hg as [? _].
      * rewrite rev_app_distr. cbn [rev]. by destruct (rev (str_bytes (join " " (e :: l)))).
    + rewrite Hb, words_of_space by done. rewrite Hw. done.
Qed.
Lemma split_join d l : forallb word_ok (d :: l) = true -> split_whitespace (join " " (d :: l)) = d :: l.
Proof.
  intros Hl. destruct (words_join d l Hl) as [Hline Hw]. unfold split_whitespace.
  unfold line_ok in Hline. apply andb_true_iff in Hline as [[Ha _]%andb_true_iff _].
  destruct (ascii_line (fun b => graphic b || (b =? 32)) (join " " (d :: l))) as [-> _]; [unfold graphic; lia|done|].
  rewrite Hw, map_map. rewrite <- (map_id (d :: l)) at 2. apply map_ext_in. intros x Hx.
  rewrite forallb_forall in Hl. destruct (word_bytes x (Hl x Hx)) as [Hg _].
  apply (ascii_line graphic); [unfold graphic; lia|done].
Qed.

(** Text before a line keeps it one, and a line has no breaks in it. *)
Lemma line_prefix p s :
  forallb (fun b => graphic b || (b =? 32)) (str_bytes p) = true ->
  match str_bytes p with b :: _ => graphic b | [] => false end = true ->
  line_ok s = true -> line_ok (p +:+ s) = true.
Proof.
  intros Hp Hh Hs. unfold line_ok in *. apply andb_true_iff in Hs as [[Ha _]%andb_true_iff Hl].
  rewrite str_bytes_app, rev_app_distr, forallb_app, Hp, Ha.
  destruct (rev (str_bytes s)); [done|]. destruct (str_bytes p); [done|]. cbn in *. by rewrite Hh, Hl.
Qed.
Lemma line_lines s y : line_ok s = true -> lines (s +:+ EOL +:+ y) = s :: lines y.
Proof.
  intros Hs. unfold EOL. change (String "010" "" +:+ y) with (String "010" y). rewrite lines_cons.
  - f_equal. unfold strip_cr, line_ok in *. apply andb_true_iff in Hs as [_ Hl].
    destruct (rev (str_bytes s)) as [|b r] eqn:E; [done|].
    destruct b as [|b|b]; try done. do 4 (destruct b as [b|b|]; try done).
  - unfold line_ok in Hs. apply andb_true_iff in Hs as [[Ha _]%andb_true_iff _].
    apply forallb_forall. intros b Hb. rewrite forallb_forall in Ha. specialize (Ha b Hb). unfold graphic in Ha. lia.
Qed.

Definition readable (ip : IpAddr) : Prop := parse_ip (show_ip ip) = Some ip.
Lemma readable4 a : is_u32 a -> readable (V4 a).
Proof. apply parse_ip_show4. Qed.
Lemma show_ip_word ip : readable ip -> word_ok (show_ip ip) = true.
Proof.
  intros Hr. unfold word_ok. apply andb_true_iff. split.
  - destruct (String.eqb_spec (show_ip ip) "") as [E|]; [|done]. unfold readable in Hr. by rewrite E in Hr.
  - apply parse_ip_chars in Hr. apply forallb_forall. intros b Hb. rewrite forallb_forall in Hr.
    specialize (Hr b Hb). unfold ip_char, is_ascii_hexdigit, is_digit, graphic in *. lia.
Qed.
Lemma read_nameservers servers out :
  Forall readable servers ->
  foldl read_line out (lines (nameserver_lines servers))
  = mkResolvConf (nameservers out ++ servers) (rc_search out).
Proof.
  intros Hs. revert out. induction Hs as [|ip servers Hip _ IH]; intros out; cbn [nameserver_lines foldr].
  - cbn. rewrite app_nil_r. by destruct out.
  - fold (nameserver_lines servers). pose proof (show_ip_word ip Hip) as Hw. apply word_line in Hw.
    assert (Hl : line_ok ("nameserver " +:+ show_ip ip) = true)
      by (apply (line_prefix "nameserver "); [reflexivity|reflexivity|done]).
    rewrite <- str_app_assoc. rewrite line_lines by done. cbn [foldl].
    assert (E : read_line out ("nameserver " +:+ show_ip ip) = mkResolvConf (nameservers out ++ [ip]) (rc_search out)).
    { unfold read_line. cbn zeta. rewrite trim_line by done.
      rewrite (proj2 (strip_prefix_Some "nameserver " _ (show_ip ip)) eq_refl). rewrite trim_line by done. by rewrite Hip. }
    rewrite E, IH. cbn [nameservers rc_search]. by rewrite <- app_assoc.
Qed.

Lemma read_text servers search :
  Forall readable servers -> forallb word_ok search = true ->
  read_resolv (resolv_text servers search) = mkResolvConf servers search.
Proof.
  intros Hs Hd. unfold read_resolv, resolv_text, RESOLV_HEADER. rewrite !str_app_assoc.
  rewrite line_lines by reflexivity. rewrite line_lines by reflexivity. cbn [foldl].
  assert (Hh : read_line (read_line (mkResolvConf [] []) "# Managed by mitos-network -- changes here will be overwritten.")
                 "# Edit /etc/mitos-network/dns.toml instead." = mkResolvConf [] []) by reflexivity.
  rewrite Hh. destruct search as [|d l]; unfold search_line; [by apply (read_nameservers servers (mkResolvConf [] []))|].
  destruct (words_join d l Hd) as [Hline _].
  assert (Hl : line_ok ("search " +:+ join " " (d :: l)) = true)
    by (apply (line_prefix "search "); [reflexivity|reflexivity|done]).
  rewrite <- (str_app_assoc "search "), str_app_assoc, line_lines by done. cbn [foldl]. unfold read_line at 2. cbn zeta.
  rewrite trim_line by done. change (strip_prefix "nameserver " ("search " +:+ join " " (d :: l))) with (@None string).
  rewrite (proj2 (strip_prefix_Some "search " _ (join " " (d :: l))) eq_refl), split_join by done.
  apply (read_nameservers servers (mkResolvConf [] (d :: l))). done.
Qed.

(** ** Merging *)

Section Merge.
Context {A E : Type} `{EqDecision A} (f : E -> list A) (prio : E -> Z).

Lemma push_new_spec (l : list A) x :
  NoDup l -> NoDup (push_new l x) /\ (forall y, y ∈ push_new l x <-> y ∈ l \/ y = x).
Proof.
  intros Hl. unfold push_new. case_bool_decide as Hx; [split; [done|]; split; [by left|by intros [?| ->]]|].
  split; [|intros y; by rewrite elem_of_app, list_elem_of_singleton].
  apply list.NoDup_app. split_and!; [done| |by apply NoDup_singleton]. intros y Hy ->%list_elem_of_singleton. done.
Qed.
Lemma push_all_spec xs (l : list A) :
  NoDup l -> NoDup (foldl push_new l xs) /\ (forall y, y ∈ foldl push_new l xs <-> y ∈ l \/ y ∈ xs).
Proof.
  revert l. induction xs as [|x xs IH]; intros l Hl; cbn [foldl]; [split; [done|]; set_solver|].
  destruct (push_new_spec l x Hl) as [Hn Hi]. destruct (IH _ Hn) as [Hn' Hi']. split; [done|].
  intros y. rewrite Hi', Hi. set_solver.
Qed.

(** [a] may stand before [b]: some entry with [a] has at least the priority of
    every entry with [b]. *)
Definition may_precede (es : list E) (a b : A) : Prop :=
  forall e, e ∈ es -> b ∈ f e -> exists e', e' ∈ es /\ a ∈ f e' /\ prio e <= prio e'.

Lemma sorted_snoc (R : A -> A -> Prop) l x :
  StronglySorted R l -> (forall a, a ∈ l -> R a x) -> StronglySorted R (l ++ [x]).
Proof.
  induction 1 as [|a l Hl IH Ha]; intros Hx; cbn; [by repeat constructor|].
  constructor; [apply IH; set_solver|]. apply List.Forall_app. split; [done|]. constructor; [apply Hx; set_solver|done].
Qed.

(** Adding the elements of [e] after those of entries of higher priority. *)
Lemma push_entry es before e after xs acc :
  es = before ++ e :: after ->
  (forall e', e' ∈ before -> prio e <= prio e') -> (forall e', e' ∈ after -> prio e' <= prio e) ->
  (forall x, x ∈ xs -> x ∈ f e) ->
  (forall a, a ∈ acc -> exists e', e' ∈ before ++ [e] /\ a ∈ f e') ->
  (forall e' x, e' ∈ before -> x ∈ f e' -> x ∈ acc) ->
  StronglySorted (may_precede es) acc -> StronglySorted (may_precede es) (foldl push_new acc xs).
Proof.
  intros Hes Hb Ha. revert acc. induction xs as [|x xs IH]; intros acc Hxs Hacc Hall Hs; cbn [foldl]; [done|].
  apply IH; clear IH.
  - set_solver.
  - intros a. unfold push_new. case_bool_decide; [auto|]. rewrite elem_of_app, list_elem_of_singleton.
    intros [?| ->]; [auto|]. exists e. set_solver.
  - intros e' y He Hy. unfold push_new. case_bool_decide; [eauto|]. apply elem_of_app. left. eauto.
  - unfold push_new. case_bool_decide as Hx; [done|]. apply sorted_snoc; [done|].
    intros a Hin e0 He0 Hx0. apply Hacc in Hin as (e1 & He1 & Ha1). exists e1. subst es. split_and!; [set_solver|done|].
    assert (prio e <= prio e1) by (apply elem_of_app in He1 as [He1|He1%list_elem_of_singleton]; [auto|subst e1; lia]).
    apply elem_of_app in He0 as [He0|He0]; [by destruct Hx; eauto|].
    apply elem_of_cons in He0 as [->|He0]; [done|]. specialize (Ha e0 He0). lia.
Qed.
Lemma push_entries es : StronglySorted (fun a b => prio b <= prio a) es ->
  let out := foldl (fun acc e => foldl push_new acc (f e)) [] es in
  NoDup out /\ (forall x, x ∈ out <-> exists e, e ∈ es /\ x ∈ f e) /\ StronglySorted (may_precede es) out.
Proof.
  intros Hs. cbn zeta.
  cut (forall rest before acc, es = before ++ rest -> NoDup acc ->
    (forall x, x ∈ acc <-> exists e, e ∈ before /\ x ∈ f e) -> StronglySorted (may_precede es) acc ->
    let out := foldl (fun acc e => foldl push_new acc (f e)) acc rest in
    NoDup out /\ (forall x, x ∈ out <-> exists e, e ∈ es /\ x ∈ f e) /\ StronglySorted (may_precede es) out).
  { intros H. apply (H es [] []); [done|constructor|set_solver|constructor]. }
  induction rest as [|e rest IH]; intros before acc Hes Hn Hacc Hsort; cbn [foldl].
  - rewrite app_nil_r in Hes. by subst before.
  - assert (Hord : (forall e', e' ∈ before -> prio e <= prio e') /\ (forall e', e' ∈ rest -> prio e' <= prio e)).
    { clear - Hs Hes. subst es. induction before as [|b before IH]; cbn in Hs.
      - apply StronglySorted_inv in Hs as [_ Hs]. rewrite List.Forall_forall in Hs.
        split; [set_solver|]. intros e' He. apply Hs. by apply list_elem_of_In.
      - apply StronglySorted_inv in Hs as [Hs Hf]. destruct (IH Hs) as [H1 H2]. split; [|done].
        rewrite List.Forall_forall in Hf. intros e' [->|He]%elem_of_cons; [|auto]. apply Hf. apply in_or_app. right. by left. }
    destruct (push_all_spec (f e) acc Hn) as [Hn' Hi]. apply (IH (before ++ [e])).
    + by rewrite <- app_assoc.
    + done.
    + intros x. rewrite Hi, Hacc. set_solver.
    + apply (push_entry es before e rest); try done; [apply Hord|apply Hord| |].
      * intros a (e' & ? & ?)%Hacc. exists e'. set_solver.
      * intros e' x He Hx. apply Hacc. eauto.
Qed.
End Merge.

Lemma merged_split order :
  merged order = (foldl (fun acc e => foldl push_new acc e.1.1) [] (sort_by by_priority order),
                  foldl (fun acc e => foldl push_new acc e.1.2) [] (sort_by by_priority order)).
Proof.
  unfold merged. generalize (sort_by by_priority order) (@nil IpAddr) (@nil string). intros l.
  induction l as [|[[s d] p] l IH]; intros a b; cbn [foldl]; [done|]. apply IH.
Qed.
Lemma by_priority_sorted order :
  StronglySorted (fun a b : dns_entry => b.2 <= a.2) (sort_by by_priority order).
Proof.
  assert (H : StronglySorted (fun a b => by_priority a b = true) (sort_by by_priority order)).
  { apply sort_by_sorted; unfold by_priority; intros; lia. }
  induction H as [|a l _ IH Ha]; constructor; [done|]. eapply List.Forall_impl; [|exact Ha].
  unfold by_priority. cbn. intros; lia.
Qed.

(** ** The cache's clock *)

Section CacheLaws.
Context {W : Type} `{Clock W} `{Resolver W}.
(** A cached answer is handed out before its time is up, and then nobody is asked. *)
Lemma cache_hit host ttl e (s : DnsCache * W) :
  s.1 !! host = Some e -> (clk_instant s.2).1 < cache_expires_at e ->
  cache_resolve host ttl s = (Ok (addrs e), (s.1, (clk_instant s.2).2)).
Proof.
  intros He Ht. unfold cache_resolve, mbind, M_bind, cache_get. rewrite He.
  destruct (clk_instant s.2) as [now w]. cbn [fst snd] in *. by rewrite (proj2 (Z.ltb_lt _ _) Ht).
Qed.
(** Otherwise the resolver is, and its answer is kept for [ttl] from then on. *)
Lemma cache_miss host ttl l w (s : DnsCache * W) :
  s.1 !! host = None -> rs_lookup host s.2 = (inl l, w) ->
  cache_resolve host ttl s
  = (Ok l, (<[host := mkCacheEntry l ((clk_instant w).1 + ttl)]> s.1, (clk_instant w).2)).
Proof.
  intros Hn Hl. unfold cache_resolve, mbind, M_bind, cache_get, outside, io_try, cache_insert. rewrite Hn, Hl.
  cbn [fst snd]. by destruct (clk_instant w).
Qed.
End CacheLaws.

(** ** Properties *)

(** [resolv.conf] is replaced as a whole and reads back.  When the write
    succeeds, [read_current] gives the servers and search domains that were
    written; when it fails, the file keeps its old content; no other file but
    the temporary one changes. *)
Theorem resolv_conf_roundtrip {W} `{FileSystemLaws W} servers search (w : W) :
  Forall readable servers -> forallb word_ok search = true ->
  let '(r, w') := dns_apply_static servers search w in
  (forall p, p <> DEFAULT_RESOLV_CONF -> p <> "/etc/resolv.mitos-tmp"%string -> files w' !! p = files w !! p)
  /\ match r with
     | Ok _ => files w' !! DEFAULT_RESOLV_CONF = Some (resolv_text servers search)
               /\ forall rc w'', read_current w' = (Ok rc, w'') -> rc = mkResolvConf servers search
     | _ => files w' !! DEFAULT_RESOLV_CONF = files w !! DEFAULT_RESOLV_CONF
     end.
Proof.
  intros Hs Hd.
  assert (Hr := replace_file_replaces DEFAULT_RESOLV_CONF "/etc/resolv.mitos-tmp" (resolv_text servers search) w ltac:(done)).
  change (replace_file DEFAULT_RESOLV_CONF "/etc/resolv.mitos-tmp" (resolv_text servers search) w)
    with (dns_apply_static servers search w) in Hr.
  destruct (dns_apply_static servers search w) as [r w'] eqn:E. cbn [fst snd] in Hr. destruct Hr as [Ho Hf].
  split; [done|]. destruct r as [u|e|why]; [|done..]. split; [done|]. intros rc w'' Hrc.
  unfold read_current in Hrc. apply M_bind_Ok in Hrc as (text & w1 & Ht%io_try_Ok & Hx).
  pose proof (law_read DEFAULT_RESOLV_CONF w') as Hl. rewrite Ht in Hl. destruct Hl as [Hl _].
  rewrite Hf in Hl. injection Hl as <-. apply mret_Ok in Hx as [-> _]. by apply read_text.
Qed.
Lemma resolv_conf_roundtrip_witness :
  files (dns_apply_static [V4 (ipv4_new 1 1 1 1)] ["lan"; "example.org"]%string (sim_start [])).2 !! DEFAULT_RESOLV_CONF
  = Some (resolv_text [V4 (ipv4_new 1 1 1 1)] ["lan"; "example.org"]%string).
Proof.
  assert (Hr : Forall readable [V4 (ipv4_new 1 1 1 1)]) by (apply Forall_singleton, readable4; by_decision).
  pose proof (resolv_conf_roundtrip [V4 (ipv4_new 1 1 1 1)] ["lan"; "example.org"]%string (sim_start []) Hr eq_refl) as H.
  destruct (dns_apply_static [V4 (ipv4_new 1 1 1 1)] ["lan"; "example.org"]%string (sim_start [])) as [r w] eqn:E.
  assert (r = Ok tt) as -> by (vm_compute in E; by injection E). exact (proj1 (proj2 H)).
Defined.

(** Merging the servers of all connections loses none, repeats none, and
    puts those of higher priority first, whatever order the hash map gives its
    entries in. *)
Theorem dns_merged_complete (r : DnsServerRegistry) order :
  order ≡ₚ (map_to_list r).*2 ->
  let '(servers, search) := merged order in
  NoDup servers /\ NoDup search
  /\ (forall ip, ip ∈ servers <-> exists id e, r !! id = Some e /\ ip ∈ e.1.1)
  /\ (forall d, d ∈ search <-> exists id e, r !! id = Some e /\ d ∈ e.1.2)
  /\ StronglySorted (may_precede (fun e : dns_entry => e.1.1) snd order) servers
  /\ StronglySorted (may_precede (fun e : dns_entry => e.1.2) snd order) search.
Proof.
  intros Ho. rewrite merged_split. pose proof (by_priority_sorted order) as Hs.
  assert (Hp : forall e, e ∈ sort_by by_priority order <-> e ∈ order) by (intros e; by rewrite sort_by_perm).
  assert (Hm : forall e, e ∈ order <-> exists id, r !! id = Some e).
  { intros e. rewrite Ho, list_elem_of_fmap. split.
    - intros ([id e'] & -> & Hin%elem_of_map_to_list). by exists id.
    - intros [id Hid]. exists (id, e). split; [done|]. by apply elem_of_map_to_list. }
  assert (Hmono : forall A (f : dns_entry -> list A) l,
    StronglySorted (may_precede f snd (sort_by by_priority order)) l -> StronglySorted (may_precede f snd order) l).
  { intros A f l. induction 1 as [|a l _ IH Ha]; constructor; [done|]. eapply List.Forall_impl; [|exact Ha].
    intros b Hb e He Hbe. apply Hp in He. destruct (Hb e He Hbe) as (e' & ? & ? & ?). exists e'. by rewrite <- Hp. }
  destruct (push_entries (fun e : dns_entry => e.1.1) snd _ Hs) as (N1 & I1 & S1).
  destruct (push_entries (fun e : dns_entry => e.1.2) snd _ Hs) as (N2 & I2 & S2).
  split_and!; auto; intros x; [rewrite I1|rewrite I2]; setoid_rewrite Hp; setoid_rewrite Hm; naive_solver.
Qed.
Lemma dns_merged_complete_witness :
  NoDup (merged [([V4 1; V4 2], [], 10); ([V4 2; V4 3], [], 20)]).1.
Proof.
  set (r := <["vpn"%string := ([V4 2; V4 3], [], 20)]> (<["lan"%string := ([V4 1; V4 2], [], 10)]> ∅) : DnsServerRegistry).
  assert (Ho : [([V4 1; V4 2], [], 10); ([V4 2; V4 3], [], 20)] ≡ₚ (map_to_list r).*2) by (vm_compute; by repeat constructor).
  pose proof (dns_merged_complete r _ Ho) as H.
  destruct (merged [([V4 1; V4 2], [], 10); ([V4 2; V4 3], [], 20)]) as [servers search]. exact (proj1 H).
Defined.
