(* ===== verification/Logging.v ===== *)
(** * Logging (logging/logger.rs, audit.rs)

    Which messages reach standard error, and the append-only audit trail. *)

From Stdlib Require Import Ascii String.
From S2P Require Import Prelude RustStr IpAddr Sys Persistence World Dns.

(** ** The daemon log *)

Inductive Level := LError | LWarn | LInfo | LDebug.
Definition level_raw (l : Level) : Z := match l with LError => 0 | LWarn => 1 | LInfo => 2 | LDebug => 3 end.
(** [static MIN_LEVEL] *)
Definition MinLevel : Type := Z.
Definition min_level_default : MinLevel := level_raw LInfo.
Definition level_of_name (name : string) : Level :=
  if String.eqb name "error" then LError
  else if String.eqb name "warn" then LWarn
  else if String.eqb name "debug" || String.eqb name "trace" then LDebug
  else LInfo.
Definition set_level (name : string) : MinLevel := level_raw (level_of_name name).
Definition enabled (min : MinLevel) (level : Level) : bool := level_raw level <=? min.
Definition level_tag (l : Level) : string :=
  match l with LError => "ERROR" | LWarn => "WARN" | LInfo => "INFO" | LDebug => "DEBUG" end.
(** The line [log] prints, if any. *)
Definition log_line (min : MinLevel) (level : Level) (msg : string) : option string :=
  if enabled min level then Some ("[" +:+ level_tag level +:+ "] " +:+ msg) else None.

(** [eprintln!] *)
Class Stderr (W : Type) := { eprint : string -> W -> W }.
#[export] Instance traced_stderr {W} `{Stderr W} : Stderr (traced W) := { eprint s w := (eprint s w.1, w.2) }.
Section Logger.
Context {W : Type} `{Stderr W} `{Static MinLevel W}.
Definition log (level : Level) (msg : string) : M W unit :=
  min ← static_get;
  match log_line min level msg with
  | Some line => effect (eprint line)
  | None => mret tt
  end.
Definition log_error (msg : string) : M W unit := log LError msg.
Definition log_warn (msg : string) : M W unit := log LWarn msg.
Definition log_info (msg : string) : M W unit := log LInfo msg.
Definition log_debug (msg : string) : M W unit := log LDebug msg.
End Logger.

(** Nothing is sent for it. *)
Lemma log_traced {W} `{Stderr W} `{Static MinLevel W} level msg (w : traced W) : (log level msg w).2.2 = w.2.
Proof. unfold log, mbind, M_bind, static_get. by destruct (log_line _ _ _). Qed.
(** The log of the simulated host: standard error is not kept. *)
Definition sim_stderr : Stderr sim := {| eprint _ w := w |}.
Definition sim_level : Static MinLevel sim := {| st_get _ := min_level_default; st_put _ w := w |}.

(** ** The audit trail *)

(** A file opened for appending: each write goes to its end. *)
Class AppendFiles (W : Type) := {
  (** [OpenOptions::create(true).append(true).open] *)
  ap_open : string -> io W unit;
  ap_write : string -> string -> io W unit
}.
(** The path, and the file once it is open.  What stands for the file is the
    history of the writes made through it, each with whether it succeeded:
    nothing the program does depends on it. *)
Record AuditLog := mkAuditLog { audit_path : string; audit_file : option (list (string * bool)) }.
Definition audit_new (path : string) : AuditLog := mkAuditLog path None.
Definition audit_line (ts : Z) (actor action detail : string) : string :=
  dec ts +:+ " actor=" +:+ actor +:+ " action=" +:+ action +:+ " detail=" +:+ detail +:+ EOL.

Section Audit.
Context {W : Type} `{FileSystem W} `{AppendFiles W} `{Clock W}.
Definition ensure_open (log : AuditLog) : M W AuditLog :=
  match audit_file log with
  | Some _ => mret log
  | None =>
      io_try (fs_create_dir_all (path_parent (audit_path log))) ;;
      io_try (ap_open (audit_path log)) ;;
      io_ignore (fs_chmod (audit_path log) 384) ;;
      mret (mkAuditLog (audit_path log) (Some []))
  end.
(** [record]: a file that cannot be opened is no error. *)
Definition audit_record (log : AuditLog) (actor action detail : string) : M W AuditLog :=
  r ← attempt (ensure_open log);
  match r with
  | inr _ => mret log
  | inl log =>
      ts ← now_secs;
      let line := audit_line ts actor action detail in
      r ← io_match (ap_write (audit_path log) line);
      mret (mkAuditLog (audit_path log) ((fun writes => writes ++ [(line, went_well r)]) <$> audit_file log))
  end.
End Audit.

(** ** Properties *)

(** The writes made so far. *)
Definition audit_writes (log : AuditLog) : list (string * bool) := default [] (audit_file log).
(** What a call of [record] leaves: the log with one more write, or, when the
    file was not open and could not be opened, the log as it was. *)
Definition recorded (log : AuditLog) (actor action detail : string) (log' : AuditLog) : Prop :=
  audit_path log' = audit_path log /\
  ((exists ts ok, audit_file log' = Some (audit_writes log ++ [(audit_line ts actor action detail, ok)]))
   \/ (audit_file log = None /\ log' = log)).

Lemma ensure_open_run {W} `{FileSystem W} `{AppendFiles W} log (w : W) :
  match ensure_open log w with
  | (Ok log', _) => audit_path log' = audit_path log /\ audit_file log' = Some (audit_writes log)
  | (Err _, _) => audit_file log = None
  | (Panic _, _) => False
  end.
Proof.
  unfold ensure_open, audit_writes. destruct (audit_file log) as [lines|] eqn:E; [done|].
  unfold mbind, M_bind, io_try, io_ignore. destruct (fs_create_dir_all _ w) as [[]  w1]; [|done].
  by destruct (ap_open _ w1) as [[] w2].
Qed.
(** Recording never fails. *)
Lemma audit_record_ok {W} `{FileSystem W} `{AppendFiles W} `{Clock W} log actor action detail (w : W) :
  exists log' w', audit_record log actor action detail w = (Ok log', w') /\ recorded log actor action detail log'.
Proof.
  unfold audit_record, attempt, mbind, M_bind. pose proof (ensure_open_run log w) as Ho.
  destruct (ensure_open log w) as [[l|e|s] w1]; [| |done].
  - destruct Ho as [Hp Hf]. unfold now_secs. rewrite observe_run. unfold io_match. destruct (ap_write _ _ _) as [r w2]. eexists _, _. split; [done|].
    split; [done|]. left. eexists _, _. cbn. by rewrite Hf.
  - eexists _, _. split; [done|]. split; [done|]. by right.
Qed.
(** What appending does: a write that succeeds puts its text at the end of the
    file, and reading the clock leaves the file. *)
Class AppendLaws (W : Type) `{AppendFiles W} `{Clock W} := {
  file_text : W -> string -> string;
  law_append p text w : match ap_write p text w with
    | (inl _, w') => file_text w' p = file_text w p +:+ text
    | (inr _, _) => True end;
  law_clock p w : file_text (clk_unix w).2 p = file_text w p
}.
(** A record to an open file is one write, and puts the line at the end of the
    file where it succeeds. *)
Lemma audit_record_appends {W} `{FileSystem W} `{AppendFiles W} `{Clock W} `{!AppendLaws W} log actor action detail (w : W) :
  is_Some (audit_file log) ->
  exists log' w' ts ok, let line := audit_line ts actor action detail in
    audit_record log actor action detail w = (Ok log', w') /\ audit_file log' = Some (audit_writes log ++ [(line, ok)])
    /\ (ok = true -> file_text w' (audit_path log) = file_text w (audit_path log) +:+ line).
Proof.
  intros [f Hf]. unfold audit_record, attempt, ensure_open, audit_writes. rewrite Hf. unfold mbind, M_bind. cbn [mret M_ret].
  unfold mret, M_ret, now_secs. rewrite observe_run. pose proof (law_clock (audit_path log) w) as Hc. destruct (clk_unix w) as [[s n] w1]. cbn [fst snd] in *.
  unfold io_match. pose proof (law_append (audit_path log) (audit_line s actor action detail) w1) as Ha.
  destruct (ap_write _ _ w1) as [r w2]. eexists _, _, s, (went_well r). split; [done|]. cbn. rewrite Hf. split; [done|].
  destruct r; [|done]. intros _. by rewrite Ha, Hc.
Qed.
(** A message is printed when its level is at most the one that was set. *)
Lemma log_line_levels name level msg :
  is_Some (log_line (set_level name) level msg) <-> level_raw level <= level_raw (level_of_name name).
Proof.
  unfold log_line, enabled, set_level. destruct (Z.leb_spec (level_raw level) (level_raw (level_of_name name))); split; try done; try lia.
Qed.
