(* ===== verification/Config.v ===== *)
(** * Daemon configuration (config/mod.rs, loader.rs, defaults.rs, validation.rs)

    The four sections, their defaults, overlaying them with the files of the
    configuration directory, and validation.  [toml] is a parameter: a [Codec]
    for the top-level table of each file. *)

From Stdlib Require Import Ascii String.
From S2P Require Import Prelude RustStr IpAddr Sys Persistence World Connection Dns.

#[local] Set Warnings "-clear-no-such-hyp".

Record GeneralConfig := mkGeneral {
  manage_all_devices : bool;
  unmanaged_devices : list string;
  ipv6_enabled : bool;
  connectivity_check_url : string;
  connectivity_check_interval_secs : Z;
  socket_path : string;
  data_dir : string;
  log_level : string
}.
Record InterfaceConfig := mkInterfaceConfig {
  if_method : AddressMethod;
  if_addresses : list string;
  if_gateway : option string;
  if_dns : list string;
  if_mtu : option Z;
  if_autoconnect : bool
}.
Record WirelessConfig := mkWireless {
  wireless_enabled : bool;
  country_code : option string;
  scan_interval_secs : Z;
  powersave : bool;
  ctrl_interface_dir : string
}.
Record NetworkConfig := mkConfig {
  general : GeneralConfig;
  interfaces : gmap string InterfaceConfig;
  dns_config : DnsConfig;
  wireless : WirelessConfig
}.

Definition DEFAULT_SOCKET_PATH : string := "/run/mitos-network/network.sock".
Definition DEFAULT_DATA_DIR : string := "/var/lib/mitos-network".
Definition DEFAULT_CONFIG_DIR : string := "/etc/mitos-network".
Definition DEFAULT_CONNECTIVITY_URL : string := "http://connectivity.mitos-os.org/check".
Definition default_config : NetworkConfig :=
  mkConfig (mkGeneral true ["lo"%string] true DEFAULT_CONNECTIVITY_URL 30 DEFAULT_SOCKET_PATH DEFAULT_DATA_DIR "info")
    ∅ (mkDnsConfig DnsAuto ["1.1.1.1"; "9.9.9.9"]%string [] DEFAULT_RESOLV_CONF)
    (mkWireless true None 60 false "/run/mitos-network/wpa").
Definition interface_config_default : InterfaceConfig := mkInterfaceConfig AmAuto [] None [] None true.

(** ** Validation *)

(** [for x in l { f(x)? }] *)
Fixpoint try_each {A} (f : A -> outcome unit) (l : list A) : outcome unit :=
  match l with
  | [] => Ok tt
  | x :: l => f x ;; try_each f l
  end.
(** [map_err(|_| e)] *)
Definition map_err {A} (e : NetworkError) (o : outcome A) : outcome A :=
  match o with Err _ => Err e | _ => o end.

Definition validate_server (server : string) : outcome unit :=
  ok_or (parse_ip server) (Config ("invalid DNS server address: " +:+ server)) ;; Ok tt.
Definition validate_interface (entry : string * InterfaceConfig) : outcome unit :=
  let '(name, iface) := entry in
  if String.eqb name "" then Err (Config "interface name must not be empty")
  else if (match if_method iface with AmManual => true | _ => false end)
          && (match if_addresses iface with [] => true | _ => false end)
  then Err (Config ("interface '" +:+ name +:+ "' uses method = manual but lists no addresses"))
  else try_each (fun addr =>
         map_err (Config ("interface '" +:+ name +:+ "': invalid address '" +:+ addr +:+ "'")) (parse_cidr addr) ;; Ok tt)
       (if_addresses iface).
(** A hash map is iterated in some order. *)
Class HashOrder := {
  hash_order : gmap string InterfaceConfig -> list (string * InterfaceConfig);
  hash_order_perm m : hash_order m ≡ₚ map_to_list m
}.
Definition validate `{HashOrder} (cfg : NetworkConfig) : outcome unit :=
  if String.eqb (socket_path (general cfg)) "" then Err (Config "general.socket-path must not be empty")
  else
    try_each validate_server (dns_cfg_servers (dns_config cfg)) ;;
    try_each validate_interface (hash_order (interfaces cfg)) ;;
    if scan_interval_secs (wireless cfg) =? 0 then Err (Config "wireless.scan-interval-secs must be > 0")
    else Ok tt.

(** ** Loading *)

Record TopLevelGeneral := mkTopGeneral { top_general : GeneralConfig }.
Record TopLevelInterfaces := mkTopInterfaces { top_interface : gmap string InterfaceConfig }.
Record TopLevelDns := mkTopDns { top_dns : DnsConfig }.
Record TopLevelWireless := mkTopWireless { top_wireless : WirelessConfig }.

Section Load.
Context {W : Type} `{FileSystem W} `{HashOrder}
  `{Codec TopLevelGeneral} `{Codec TopLevelInterfaces} `{Codec TopLevelDns} `{Codec TopLevelWireless}.
Definition load (config_dir : string) : M W NetworkConfig :=
  g ← parse_optional (A := TopLevelGeneral) (path_join config_dir "network.toml");
  i ← parse_optional (A := TopLevelInterfaces) (path_join config_dir "interfaces.toml");
  d ← parse_optional (A := TopLevelDns) (path_join config_dir "dns.toml");
  v ← parse_optional (A := TopLevelWireless) (path_join config_dir "wireless.toml");
  let cfg := mkConfig
    (match g with Some g => top_general g | None => general default_config end)
    (match i with Some i => top_interface i | None => interfaces default_config end)
    (match d with Some d => top_dns d | None => dns_config default_config end)
    (match v with Some v => top_wireless v | None => wireless default_config end) in
  lift (validate cfg) ;;
  mret cfg.
End Load.

(** ** What validation accepts *)

Definition valid_interface (name : string) (iface : InterfaceConfig) : Prop :=
  name <> ""%string
  /\ (if_method iface = AmManual -> if_addresses iface <> [])
  /\ (forall a, a ∈ if_addresses iface -> exists r, parse_cidr a = Ok r).
Definition valid_config (cfg : NetworkConfig) : Prop :=
  socket_path (general cfg) <> ""%string
  /\ (forall s, s ∈ dns_cfg_servers (dns_config cfg) -> is_Some (parse_ip s))
  /\ (forall name iface, interfaces cfg !! name = Some iface -> valid_interface name iface)
  /\ scan_interval_secs (wireless cfg) <> 0.

Lemma try_each_Ok {A} (f : A -> outcome unit) l : try_each f l = Ok tt <-> forall x, x ∈ l -> f x = Ok tt.
Proof.
  induction l as [|x l IH]; cbn; [split; [set_solver|done]|]. rewrite outcome_bind_Ok. split.
  - intros ([] & Hx & Hl) y [->|Hy]%elem_of_cons; [done|]. by apply IH.
  - intros Hall. exists tt. split; [apply Hall; set_solver|]. apply IH. set_solver.
Qed.
Lemma validate_server_Ok s : validate_server s = Ok tt <-> is_Some (parse_ip s).
Proof. unfold validate_server. destruct (parse_ip s); cbn; by split. Qed.
Lemma validate_interface_Ok name iface : validate_interface (name, iface) = Ok tt <-> valid_interface name iface.
Proof.
  unfold validate_interface, valid_interface. destruct (String.eqb_spec name "") as [->|Hn]; [split; [done|by intros [? _]]|].
  assert (Hc : forall a, (map_err (Config ("interface '" +:+ name +:+ "': invalid address '" +:+ a +:+ "'")) (parse_cidr a) ;; Ok tt)
      = Ok tt <-> exists r, parse_cidr a = Ok r).
  { intros a. destruct (parse_cidr a); cbn; split; naive_solver. }
  destruct (match if_method iface with AmManual => true | _ => false end
            && match if_addresses iface with [] => true | _ => false end) eqn:E.
  - apply andb_true_iff in E as [Em Ea]. split; [done|]. intros (_ & Hm & _). exfalso.
    destruct (if_method iface), (if_addresses iface); try done. by apply Hm.
  - rewrite try_each_Ok. setoid_rewrite Hc. split; [|by intros (_ & _ & ?)]. intros Ha. split_and!; [done| |done].
    intros Hm. rewrite Hm in E. by destruct (if_addresses iface).
Qed.
Lemma validate_Ok `{HashOrder} cfg : validate cfg = Ok tt <-> valid_config cfg.
Proof.
  unfold validate, valid_config. destruct (String.eqb_spec (socket_path (general cfg)) "") as [->|Hs]; [split; [done|by intros [? _]]|].
  rewrite outcome_bind_Ok. split.
  - intros ([] & Hd & ([] & Hi & Hw)%outcome_bind_Ok). pose proof (proj1 (try_each_Ok _ _) Hd) as Hd'. pose proof (proj1 (try_each_Ok _ _) Hi) as Hi'. split_and!; [done| | |].
    + intros s Hin. by apply validate_server_Ok, Hd'.
    + intros name iface Hl. apply validate_interface_Ok, Hi'. rewrite hash_order_perm. by apply elem_of_map_to_list.
    + by destruct (Z.eqb_spec (scan_interval_secs (wireless cfg)) 0).
  - intros (_ & Hd & Hi & Hw). exists tt. split; [apply try_each_Ok; intros; by apply validate_server_Ok, Hd|].
    apply outcome_bind_Ok. exists tt. split.
    + apply try_each_Ok. intros [name iface] Hin. rewrite hash_order_perm in Hin.
      apply validate_interface_Ok, Hi. by apply elem_of_map_to_list.
    + by destruct (Z.eqb_spec (scan_interval_secs (wireless cfg)) 0).
Qed.

(** ** Where each section comes from *)

Section Source.
Context {W : Type} `{FileSystemLaws W}.
(** The value is the file's, or the default if there is no file. *)
Definition from_file {A B} `{Codec A} (f : gmap string string) (path : string) (part : A -> B) (dflt x : B) : Prop :=
  match f !! path with
  | Some text => exists v, decode text = Ok v /\ x = part v
  | None => x = dflt
  end.
Lemma parse_optional_source {A B} `{Codec A} path (part : A -> B) dflt (w : W) r w' :
  parse_optional path w = (Ok r, w') ->
  files w' = files w /\ from_file (files w) path part dflt (match r with Some v => part v | None => dflt end).
Proof.
  unfold parse_optional, mbind, M_bind, io_match, from_file. pose proof (law_read path w) as Hr.
  destruct (fs_read path w) as [[text|e] w1].
  - destruct Hr as [-> Hf]. unfold lift. destruct (decode text) as [v|e|why]; [|done..].
    unfold mret, M_ret. intros [= <- <-]. split; [done|]. by exists v.
  - destruct Hr as [Hn Hf]. destruct (is_not_found e); [|done]. unfold mret, M_ret. intros [= <- <-].
    split; [done|]. by rewrite Hn.
Qed.
End Source.

(** ** Properties *)

(** A configuration is loaded section by section and only a valid one is
    accepted.  If [load] succeeds, each section is what its own file says, or
    the built-in default when the file does not exist, no file changed, and the
    configuration satisfies everything the daemon relies on; and validation
    accepts exactly the configurations that do. *)
Theorem config_load_valid {W} `{FileSystemLaws W} `{HashOrder}
    `{Codec TopLevelGeneral} `{Codec TopLevelInterfaces} `{Codec TopLevelDns} `{Codec TopLevelWireless}
    dir (w : W) :
  (forall cfg, validate cfg = Ok tt <-> valid_config cfg)
  /\ forall cfg w', load dir w = (Ok cfg, w') ->
     valid_config cfg /\ files w' = files w
     /\ from_file (files w) (path_join dir "network.toml") top_general (general default_config) (general cfg)
     /\ from_file (files w) (path_join dir "interfaces.toml") top_interface (interfaces default_config) (interfaces cfg)
     /\ from_file (files w) (path_join dir "dns.toml") top_dns (dns_config default_config) (dns_config cfg)
     /\ from_file (files w) (path_join dir "wireless.toml") top_wireless (wireless default_config) (wireless cfg).
Proof.
  split; [apply validate_Ok|]. intros cfg w' Hl. unfold load in Hl.
  apply M_bind_Ok in Hl as (g & w1 & Hg & Hl). apply M_bind_Ok in Hl as (i & w2 & Hi & Hl).
  apply M_bind_Ok in Hl as (d & w3 & Hd & Hl). apply M_bind_Ok in Hl as (v & w4 & Hv & Hl). cbn zeta in Hl.
  apply M_bind_Ok in Hl as ([] & w5 & [Hok ->]%lift_Ok & [-> ->]%mret_Ok).
  apply (parse_optional_source _ top_general (general default_config)) in Hg as [Fg Sg].
  apply (parse_optional_source _ top_interface (interfaces default_config)) in Hi as [Fi Si].
  apply (parse_optional_source _ top_dns (dns_config default_config)) in Hd as [Fd Sd].
  apply (parse_optional_source _ top_wireless (wireless default_config)) in Hv as [Fv Sv].
  rewrite Fd, Fi, Fg in *. apply validate_Ok in Hok. by split_and!.
Qed.
Definition no_codec A : Codec A := {| encode _ := Err (Parse ""); decode _ := Err (Parse "") |}.
Definition list_order : HashOrder := {| hash_order := map_to_list; hash_order_perm m := reflexivity _ |}.
#[local] Existing Instances no_codec list_order.
Lemma config_load_valid_witness : valid_config default_config.
Proof.
  destruct (config_load_valid "/etc/mitos-network" (sim_start [])) as [_ H].
  exact (proj1 (H default_config (sim_start []) ltac:(vm_compute; reflexivity))).
Defined.
