(* ===== verification/Store.v ===== *)
(** * The profile store (persistence/profiles.rs)

    One TOML file per profile under the profiles directory: loading, saving,
    deleting, and the order of last use, which the files' times keep. *)

From Stdlib Require Import Ascii String.
From S2P Require Import Prelude RustStr IpAddr Sys Persistence World Security Connection Logging.

Definition profile_path (dir id : string) : outcome string :=
  validate_identifier id ;; Ok (path_join dir (id +:+ ".toml")).

(** What [toml] says of a text it cannot read. *)
Definition toml_text (e : NetworkError) : string := match e with Config text => text | _ => error_to_string e end.

Section Store.
Context {W : Type} `{FileSystem W} `{Codec ConnectionProfile} `{Stderr W} `{Static MinLevel W}.

(** An unparsable profile is skipped with a warning; an unreadable one ends
    the whole load. *)
Fixpoint load_each (paths : list string) (out : list ConnectionProfile) : M W (list ConnectionProfile) :=
  match paths with
  | [] => mret out
  | path :: paths =>
      text ← io_try (fs_read path);
      match decode text with
      | Ok p => load_each paths (out ++ [p])
      | Err e => log_warn ("skipping unreadable connection profile " +:+ path +:+ ": " +:+ toml_text e) ;; load_each paths out
      | Panic why => lift (Panic why)
      end
  end.
Definition load_all (dir : string) : M W (list ConnectionProfile) :=
  io_try (fs_create_dir_all dir) ;;
  paths ← list_dir dir "toml";
  load_each paths [].
Definition save (dir : string) (profile : ConnectionProfile) : M W unit :=
  path ← lift (profile_path dir (profile_id profile));
  write_atomic path profile.
Definition delete_profile (dir id : string) : M W unit :=
  path ← lift (profile_path dir id);
  r ← io_match (fs_remove path);
  match r with
  | inl _ => mret tt
  | inr e => if is_not_found e then throw (NotFound ("connection profile '" +:+ id +:+ "'")) else throw (Io e)
  end.
(** [filetime_set_mtime_best_effort] *)
Definition rewrite_file (path : string) : M W unit :=
  r ← io_match (fs_read_raw path);
  match r with
  | inl contents => io_ignore (fs_write path contents)
  | inr _ => mret tt
  end.
Definition touch (dir id : string) : M W unit :=
  path ← lift (profile_path dir id);
  rewrite_file path.

Definition profile_mtime (dir : string) (p : ConnectionProfile) : M W Z :=
  match profile_path dir (profile_id p) with
  | Ok path => r ← io_match (fs_mtime path); mret (match r with inl t => t | inr _ => 0 end)
  | Err _ => mret 0
  | Panic why => lift (Panic why)
  end.
Fixpoint with_mtime (dir : string) (profiles : list ConnectionProfile) : M W (list (Z * ConnectionProfile)) :=
  match profiles with
  | [] => mret []
  | p :: l => t ← profile_mtime dir p; r ← with_mtime dir l; mret ((t, p) :: r)
  end.
Definition newest_first (a b : Z * ConnectionProfile) : bool := b.1 <=? a.1.
Definition recently_used_first (dir : string) (profiles : list ConnectionProfile) : M W (list ConnectionProfile) :=
  l ← with_mtime dir profiles; mret (sort_by newest_first l).*2.
End Store.

(** ** Profile files *)

Lemma profile_path_Ok dir id path :
  profile_path dir id = Ok path ->
  path = join_prefix dir +:+ id +:+ ".toml" /\ contains_char "/" id = false /\ last_byte path = Some 108.
Proof.
  unfold profile_path. intros ([] & Hv & [= <-])%outcome_bind_Ok.
  apply validate_identifier_Ok in Hv as (Hn & _ & Hc).
  assert (Hs : contains_char "/" id = false) by (by apply (forallb_no_char identifier_char)).
  rewrite path_join_prefix.
  - split_and!; [done|done|]. rewrite last_byte_app by (by destruct id). by apply last_byte_app.
  - destruct id as [|a id]; [done|]. apply not_true_iff_false. rewrite starts_with_spec. intros [r [= -> _]].
    unfold contains_char in Hs. cbn in Hs. done.
Qed.
Lemma str_app_inj_r (x y z : string) : x +:+ z = y +:+ z -> x = y.
Proof.
  intros E. apply str_bytes_inj. apply (f_equal str_bytes) in E. rewrite !str_bytes_app in E. by apply app_inv_tail in E.
Qed.
(** Two profiles never share a file. *)
Lemma profile_path_inj dir id id' path : profile_path dir id = Ok path -> profile_path dir id' = Ok path -> id = id'.
Proof.
  intros (H1 & _)%profile_path_Ok (H2 & _)%profile_path_Ok. rewrite H1 in H2.
  apply str_app_inj_l in H2. by apply str_app_inj_r in H2.
Qed.
(** Nor is a profile's file the temporary file of another. *)
Lemma profile_path_not_tmp dir id path p : profile_path dir id = Ok path -> path <> with_extension p "toml.tmp".
Proof.
  intros (_ & _ & Hl)%profile_path_Ok E. assert (Ht := with_extension_last p "toml.tmp" ltac:(done)).
  rewrite <- E, Hl in Ht. done.
Qed.

Section Laws.
Context {W : Type} `{FileSystemLaws W} `{Codec ConnectionProfile}.
Lemma rewrite_file_files path (w : W) :
  let '(r, w') := rewrite_file path w in
  r = Ok tt /\ (forall p, p <> path -> files w' !! p = files w !! p)
  /\ ((forall e s w1 w2, fs_write path s w1 <> (inr e, w2)) -> files w' = files w).
Proof.
  unfold rewrite_file, mbind, M_bind, io_match, io_ignore. pose proof (law_read_raw path w) as Hr.
  destruct (fs_read_raw path w) as [[s|e] w1].
  - destruct Hr as [Hs Hf]. pose proof (law_write path s w1) as Hw.
    destruct (fs_write path s w1) as [[[]|e] w2] eqn:E; cbn [snd].
    + rewrite Hf in Hw. rewrite insert_id in Hw by done. by rewrite Hw.
    + split_and!; [done| |intros Hok; by destruct (Hok e s w1 w2)]. intros p Hp.
      rewrite <- (lookup_delete_ne (files w2) path p), Hw, lookup_delete_ne, Hf by done. done.
  - unfold mret, M_ret. by rewrite Hr.
Qed.
End Laws.

(** ** The order of last use *)

Section Order.
Context {W : Type} `{FileSystem W}.
Lemma profile_mtime_returns dir p (w : W) : exists t w', profile_mtime dir p w = (Ok t, w').
Proof.
  unfold profile_mtime, profile_path, validate_identifier.
  destruct (_ || _); [by eexists _, _|]. destruct (negb _); [by eexists _, _|].
  cbn. unfold mbind, M_bind, io_match. destruct (fs_mtime _ w) as [[t|e] w1]; by eexists _, _.
Qed.
Lemma with_mtime_profiles dir ps (w : W) : exists l w', with_mtime dir ps w = (Ok l, w') /\ l.*2 = ps.
Proof.
  revert w. induction ps as [|p ps IH]; intros w; cbn [with_mtime]; [by exists [], w|].
  destruct (profile_mtime_returns dir p w) as (t & w1 & Hm). destruct (IH w1) as (l & w2 & Hl & Hp).
  exists ((t, p) :: l), w2. unfold mbind, M_bind. rewrite Hm, Hl. split; [done|]. cbn. by rewrite Hp.
Qed.
End Order.

(** ** Properties *)

(** Saving a profile touches that profile only.  Its file is the identifier
    with [.toml] in the profiles directory, and no other profile's file changes;
    the write is atomic; and what was saved is what loading the file gives. *)
Theorem profile_save_isolated {W} `{FileSystemLaws W} `{Codec ConnectionProfile} `{Stderr W} `{Static MinLevel W} dir p path text (w : W) :
  profile_path dir (profile_id p) = Ok path -> encode p = Ok text -> decode text = Ok p ->
  let '(r, w') := save dir p w in
  path = join_prefix dir +:+ profile_id p +:+ ".toml" /\ contains_char "/" (profile_id p) = false
  /\ (forall id' path', id' <> profile_id p -> profile_path dir id' = Ok path' ->
        files w' !! path' = files w !! path')
  /\ match r with
     | Ok _ => files w' !! path = Some text
               /\ forall out ps w'', load_each [path] out w' = (Ok ps, w'') -> ps = out ++ [p]
     | _ => files w' !! path = files w !! path
     end.
Proof.
  intros Hp He Hd. unfold save, mbind, M_bind, lift. rewrite Hp.
  pose proof (write_atomic_replaces path text p w He) as [Ho Hr].
  destruct (write_atomic path p w) as [r w']. cbn [fst snd] in *. destruct (profile_path_Ok _ _ _ Hp) as (Hpath & Hs & _).
  split_and!; [done|done| |].
  - intros id' path' Hid Hp'. apply Ho; [|by apply (profile_path_not_tmp dir id')].
    intros ->. by apply Hid, (profile_path_inj dir _ _ path).
  - destruct r as [u|e|why]; [|done..]. split; [done|]. intros out ps w'' Hl. cbn [load_each] in Hl.
    apply M_bind_Ok in Hl as (text' & w1 & Ht%io_try_Ok & Hx). pose proof (law_read path w') as Hrd. rewrite Ht in Hrd.
    destruct Hrd as [Hf _]. rewrite Hr in Hf. injection Hf as <-. rewrite Hd in Hx. by apply mret_Ok in Hx as [-> _].
Qed.
Definition demo_profile : ConnectionProfile := new_wifi "home" "Home" SecOpen.
Definition demo_codec : Codec ConnectionProfile :=
  {| encode _ := Ok "id = home"%string; decode _ := Ok demo_profile |}.
#[local] Existing Instances demo_codec sim_stderr sim_level.
Lemma profile_save_isolated_witness :
  files (save "/var/lib/p" demo_profile (sim_start [])).2 !! "/var/lib/p/home.toml"%string = Some "id = home"%string.
Proof.
  assert (Hp : profile_path "/var/lib/p" (profile_id demo_profile) = Ok "/var/lib/p/home.toml"%string) by (vm_compute; reflexivity).
  pose proof (profile_save_isolated "/var/lib/p" demo_profile _ "id = home" (sim_start []) Hp eq_refl eq_refl) as H.
  destruct (save "/var/lib/p" demo_profile (sim_start [])) as [r w] eqn:E.
  assert (r = Ok tt) as -> by (vm_compute in E; by injection E). exact (proj1 (proj2 (proj2 (proj2 H)))).
Defined.

(** The order of last use keeps every profile once and puts the files used
    later first; it is always found, whatever the file system answers. *)
Theorem recently_used_order {W} `{FileSystem W} dir ps (w : W) :
  exists times w', with_mtime dir ps w = (Ok times, w') /\ times.*2 = ps
  /\ exists sorted, recently_used_first dir ps w = (Ok sorted.*2, w')
     /\ sorted ≡ₚ times /\ StronglySorted (fun a b : Z * ConnectionProfile => b.1 <= a.1) sorted.
Proof.
  destruct (with_mtime_profiles dir ps w) as (l & w' & Hl & Hps). exists l, w'. split_and!; [done|done|].
  exists (sort_by newest_first l). unfold recently_used_first, mbind, M_bind. rewrite Hl. split_and!; [done|apply sort_by_perm|].
  assert (H0 : StronglySorted (fun a b => newest_first a b = true) (sort_by newest_first l))
    by (apply sort_by_sorted; unfold newest_first; intros; lia).
  induction H0 as [|a k _ IH Ha]; constructor; [done|]. eapply List.Forall_impl; [|exact Ha]. unfold newest_first. intros; lia.
Qed.
