(* ===== verification/ProfileStore.v ===== *)
(** * The profile store as a finite map (persistence/profiles.rs)

    What [Store] keeps on disk is specified by a map from identifiers to
    profiles: saving inserts, deleting removes, marking a profile as used
    leaves it, and loading the directory gives the map back, which is what the
    manager starts from.  The files are related to the map by [holds], which
    leaves out the files that are in doubt. *)

From Stdlib Require Import Ascii String.
From S2P Require Import Prelude RustStr IpAddr Sys Persistence Journal World Security Connection Logging Store.

(** ** Names in the directory *)

Lemma rsplit_once_app c x y : contains_char c y = false -> rsplit_once c (x +:+ String c y) = Some (x, y).
Proof.
  intros Hy. unfold rsplit_once. rewrite <- contains_char_rev in Hy.
  assert (E : str_rev (x +:+ String c y) = str_rev y +:+ String c (str_rev x)).
  { change (String c y) with (String c "" +:+ y). rewrite !str_rev_app, str_app_assoc.
    assert (Er : str_rev (String c "") = String c "") by (apply str_bytes_inj; by rewrite str_bytes_rev). by rewrite Er. }
  rewrite E, (split_once_app c (str_rev y)) by done. by rewrite !str_rev_involutive.
Qed.
Lemma extension_toml id : id <> "" -> extension (id +:+ ".toml") = Some "toml"%string.
Proof.
  intros Hid. unfold extension. change ".toml"%string with (String "." "toml"). rewrite rsplit_once_app by done.
  by rewrite bool_decide_eq_false_2.
Qed.
Lemma extension_toml_inv f : extension f = Some "toml"%string -> exists stem, f = stem +:+ ".toml".
Proof.
  unfold extension. pose proof (rsplit_once_spec "." f) as Hs. destruct (rsplit_once "." f) as [[stem e]|]; [|done].
  destruct Hs as [-> _]. case_bool_decide; [done|]. intros [= ->]. by exists stem.
Qed.
(** A directory as the daemon names it. *)
Definition plain_dir (dir : string) : Prop := join_prefix dir = dir +:+ "/".
Lemma dir_split dir name : plain_dir dir -> contains_char "/" name = false -> rsplit_once "/" (join_prefix dir +:+ name) = Some (dir, name).
Proof. intros Hd Hc. rewrite Hd, str_app_assoc. by apply (rsplit_once_app "/"). Qed.
(** A file the profile store loads. *)
Definition profile_file (dir p : string) : Prop :=
  match rsplit_once "/" p with Some (d, f) => d = dir /\ extension f = Some "toml"%string | None => False end.
#[export] Instance profile_file_dec dir p : Decision (profile_file dir p).
Proof. unfold profile_file. destruct (rsplit_once "/" p) as [[d f]|]; apply _. Defined.
Lemma profile_file_join dir name : plain_dir dir -> extension name = Some "toml"%string -> contains_char "/" name = false ->
  profile_file dir (join_prefix dir +:+ name).
Proof. intros Hd Hx Hc. unfold profile_file. by rewrite dir_split. Qed.
(** The files in doubt that would be loaded. *)
Definition lost (dir : string) (D : gset string) : gset string := filter (profile_file dir) D.
Lemma profile_path_name dir id path :
  profile_path dir id = Ok path -> path = join_prefix dir +:+ id +:+ ".toml" /\ extension (id +:+ ".toml") = Some "toml"%string
    /\ contains_char "/" (id +:+ ".toml") = false.
Proof.
  intros Hp. destruct (profile_path_Ok _ _ _ Hp) as (-> & Hs & _). split; [done|]. unfold profile_path in Hp.
  apply outcome_bind_Ok in Hp as ([] & (Hn & _)%validate_identifier_Ok & _). split; [by apply extension_toml|].
  by rewrite contains_char_app, Hs.
Qed.

(** A directory is read whole: every file in it is listed, once.  And standard
    error is not one of the files. *)
Class DirLaws (W : Type) `{FileSystemLaws W} `{Stderr W} := {
  law_eprint line w : files (eprint line w) = files w;
  law_list d w : match fs_read_dir d w with
    | (inl entries, _) => NoDup entries /\ forall p f text, files w !! p = Some text -> rsplit_once "/" p = Some (d, f) -> In f entries
    | (inr e, _) => is_not_found e = true -> forall p f, rsplit_once "/" p = Some (d, f) -> files w !! p = None
    end
}.

(** ** The specification *)

Inductive store_op :=
| StSave (p : ConnectionProfile)
| StDelete (id : string)
| StTouch (id : string).
Definition spec (op : store_op) (a : gmap string ConnectionProfile) : gmap string ConnectionProfile :=
  match op with StSave p => <[profile_id p := p]> a | StDelete id => delete id a | StTouch _ => a end.

Section Refinement.
Context {W : Type} `{FileSystemLaws W} `{Codec ConnectionProfile} `{Stderr W} `{Static MinLevel W}.
Definition perform_op (dir : string) (op : store_op) : M W unit :=
  match op with StSave p => save dir p | StDelete id => delete_profile dir id | StTouch id => touch dir id end.

(** The profile an identifier's file holds. *)
Definition on_disk (dir : string) (f : gmap string string) (id : string) : option ConnectionProfile :=
  match profile_path dir id with
  | Ok path => text ← f !! path; match decode text with Ok p => Some p | _ => None end
  | _ => None
  end.
(** No file of the directory, those in doubt apart, holds a profile of another
    name. *)
Definition tidy (dir : string) (D : gset string) (f : gmap string string) : Prop := forall name text p,
  extension name = Some "toml"%string -> contains_char "/" name = false -> join_prefix dir +:+ name ∉ D ->
  f !! (join_prefix dir +:+ name) = Some text -> decode text = Ok p -> profile_path dir (profile_id p) = Ok (join_prefix dir +:+ name).
(** The file of the identifier is not in doubt. *)
Definition clear_of (dir : string) (D : gset string) (id : string) : Prop := forall path, profile_path dir id = Ok path -> path ∉ D.
Definition holds (dir : string) (D : gset string) (a : gmap string ConnectionProfile) (f : gmap string string) : Prop :=
  tidy dir D f /\ forall id, clear_of dir D id -> on_disk dir f id = a !! id.
Lemma holds_more dir D D' a f : holds dir D a f -> D ⊆ D' -> holds dir D' a f.
Proof.
  intros [Ht Ha] HD. split.
  - intros name text p Hx Hc Hn. apply Ht; [done|done|set_solver].
  - intros id Hi. apply Ha. intros path Hp Hin. by apply (Hi path Hp), HD.
Qed.

(** Files that only differ in the temporary ones hold the same profiles. *)
Definition same_but (path : string) (f f' : gmap string string) : Prop :=
  forall p, last_byte p = Some 108 -> p <> path -> f' !! p = f !! p.
Lemma toml_last dir name : extension name = Some "toml"%string -> last_byte (join_prefix dir +:+ name) = Some 108.
Proof.
  intros (stem & ->)%extension_toml_inv. rewrite last_byte_app by (by destruct stem). by apply last_byte_app.
Qed.
Lemma on_disk_other dir f f' path id : same_but path f f' -> profile_path dir id <> Ok path -> on_disk dir f' id = on_disk dir f id.
Proof.
  intros Hs Hp. unfold on_disk. destruct (profile_path dir id) as [p|e|why] eqn:E; [|done..].
  rewrite (Hs p); [done| |congruence]. destruct (profile_path_name _ _ _ E) as (-> & Hx & _). by apply toml_last.
Qed.
(** One file is replaced or removed, and is no longer in doubt. *)
Lemma holds_change dir D D' a f f' path id (new : option ConnectionProfile) :
  holds dir D a f -> same_but path f f' -> profile_path dir id = Ok path -> on_disk dir f' id = new ->
  (forall p, last_byte p = Some 108 -> p <> path -> p ∈ D -> p ∈ D') ->
  (forall p, new = Some p -> profile_id p = id) -> holds dir D' (partial_alter (fun _ => new) id a) f'.
Proof.
  intros [Ht Ha] Hs Hp Hn HD Hi. split.
  - intros name text p Hx Hc Hd Hf Hdec. destruct (decide (join_prefix dir +:+ name = path)) as [E|E].
    + assert (Hnew : on_disk dir f' id = Some p). { unfold on_disk. rewrite Hp, <- E, Hf. cbn. by rewrite Hdec. }
      rewrite (Hi p) by congruence. by rewrite Hp, E.
    + pose proof (toml_last dir name Hx). rewrite (Hs _) in Hf by done. eapply Ht; [done|done| |done|done]. intros Hin. by apply Hd, HD.
  - intros id' Hc. destruct (decide (id' = id)) as [->|Hid]; [by rewrite lookup_partial_alter_eq|].
    assert (Hne : profile_path dir id' <> Ok path) by (intros Hp'; by apply Hid, (profile_path_inj dir _ _ path)).
    rewrite lookup_partial_alter_ne by done. rewrite <- Ha; [by eapply on_disk_other|]. intros path' Hp' Hin.
    apply (Hc path' Hp'), HD; [by destruct (profile_path_Ok _ _ _ Hp') as (_ & _ & ?)|congruence|done].
Qed.
(** Files that are not in doubt are as they were. *)
Lemma holds_kept dir D D' a f f' : holds dir D a f -> (forall p, last_byte p = Some 108 -> p ∉ D' -> (p ∉ D) /\ f' !! p = f !! p) -> holds dir D' a f'.
Proof.
  intros [Ht Ha] E. split.
  - intros name text p Hx Hc Hd Hf Hdec. destruct (E _ (toml_last dir name Hx) Hd) as [Hd' Ef]. rewrite Ef in Hf. by eapply Ht.
  - intros id Hc. unfold clear_of, on_disk in *. specialize (Ha id). destruct (profile_path dir id) as [path|e|why] eqn:Ep; [|by apply Ha..].
    destruct (E path) as [Hd' ->]; [by destruct (profile_path_Ok _ _ _ Ep) as (_ & _ & ?)|by apply Hc|]. apply Ha. by intros path' [= <-].
Qed.
Definition encodes (op : store_op) : Prop :=
  match op with StSave p => forall text, encode p = Ok text -> decode text = Ok p | _ => True end.

(** *** The operations, on a world with a journal *)

Context {JR : Journal W} (removals : bool).
Definition doubts (w : W) : gset string := in_doubt removals (journal w).
(** A file is replaced: what was in doubt about it no longer is. *)
Lemma replace_file_doubts path tmp text (w : W) : last_byte tmp <> Some 108 ->
  let '(r, w') := replace_file path tmp text w in
  forall p, last_byte p = Some 108 -> p ∈ doubts w' <-> p ∈ doubts w /\ (r = Ok tt -> p <> path).
Proof.
  intros Ht. unfold replace_file, mbind, M_bind, io_try. pose proof (jr_create_dir_all (path_parent path) w) as J1.
  destruct (fs_create_dir_all (path_parent path) w) as [[[]|e] w1]; unfold doubts; cbn [snd] in J1.
  2:{ intros p Hp. rewrite J1, in_doubt_snoc. cbn. intuition discriminate. }
  pose proof (jr_write tmp text w1) as J2. destruct (fs_write tmp text w1) as [[[]|e] w2]; cbn [snd fst went_well] in J2.
  2:{ intros p Hp. rewrite J2, J1, !in_doubt_snoc. cbn. assert (p <> tmp) by congruence. set_solver. }
  pose proof (jr_rename tmp path w2) as J3. destruct (fs_rename tmp path w2) as [[[]|e] w3]; cbn [snd fst went_well] in J3;
    intros p Hp; rewrite J3, J2, J1, !in_doubt_snoc; cbn; [set_solver|intuition discriminate].
Qed.
Lemma save_refines dir p a (w : W) : encodes (StSave p) -> holds dir (doubts w) a (files w) ->
  let '(r, w') := save dir p w in holds dir (doubts w') (match r with Ok _ => <[profile_id p := p]> a | _ => a end) (files w').
Proof.
  intros He Ha. unfold save, mbind, M_bind, lift. destruct (profile_path dir (profile_id p)) as [path|e|why] eqn:Ep; [|done..].
  destruct (encode p) as [text|e|why] eqn:Et; [|unfold write_atomic, mbind, M_bind, lift; rewrite Et; done..].
  pose proof (write_atomic_replaces path text p w Et) as [Ho Hr]. rewrite (write_atomic_replace path text p w Et) in *.
  set (tmp := with_extension path "toml.tmp") in *. assert (Htmp : last_byte tmp <> Some 108) by (unfold tmp; by rewrite with_extension_last).
  pose proof (replace_file_doubts path tmp text w Htmp) as Hj. destruct (replace_file path tmp text w) as [r w']. cbn [fst snd] in *.
  assert (Hs : same_but path (files w) (files w')) by (intros q Hq Hne; apply Ho; congruence).
  destruct r as [[]|e|why].
  - eapply holds_change; [done|done|done| | |by intros q [= <-]]; [unfold on_disk; rewrite Ep, Hr; cbn; by rewrite (He text)|].
    intros q Hq Hne Hin. by apply Hj.
  - apply (holds_kept dir (doubts w)  _ a (files w)); [done|]. intros q Hq Hd. rewrite (Hj q Hq) in Hd. split; [intros Hin; by apply Hd|].
    destruct (decide (q = path)) as [->|Hne]; [done|by apply Hs].
  - apply (holds_kept dir (doubts w)  _ a (files w)); [done|]. intros q Hq Hd. rewrite (Hj q Hq) in Hd. split; [intros Hin; by apply Hd|].
    destruct (decide (q = path)) as [->|Hne]; [done|by apply Hs].
Qed.
Lemma delete_refines dir id a (w : W) : holds dir (doubts w) a (files w) ->
  let '(r, w') := delete_profile dir id w in
  match r with
  | Ok _ => holds dir (doubts w') (delete id a) (files w')
  | Err (NotFound _) => (clear_of dir (doubts w) id -> a !! id = None) /\ doubts w' = doubts w /\ holds dir (doubts w') a (files w')
  | _ => holds dir (doubts w') a (files w')
  end.
Proof.
  intros Ha. unfold delete_profile, mbind, M_bind, lift. destruct (profile_path dir id) as [path|e|why] eqn:Ep.
  2:{ unfold profile_path, validate_identifier in Ep. destruct (_ || _); [by injection Ep as <-|]. destruct (negb _); [by injection Ep as <-|done]. }
  2:done. unfold io_match. pose proof (law_remove path w) as Hr. pose proof (jr_remove path w) as Hj.
  destruct (fs_remove path w) as [[[]|e] w']; unfold doubts; cbn [snd fst] in Hj; cbn.
  - unfold delete, map_delete. eapply holds_change; [exact Ha| |done| | |done].
    + intros q _ Hq. by rewrite Hr, lookup_delete_ne.
    + unfold on_disk. by rewrite Ep, Hr, lookup_delete_eq.
    + intros q _ Hq Hin. rewrite Hj, in_doubt_snoc. cbn. unfold doubts in Hin. set_solver.
  - destruct Hr as [Hn Hf]. assert (Ed : in_doubt removals (journal w') = if removals && negb (is_not_found e) then {[path]} ∪ doubts w else doubts w)
      by (rewrite Hj, in_doubt_snoc; done).
    destruct (is_not_found e) eqn:E; cbn; rewrite Hf, Ed; rewrite ?andb_false_r; cbn.
    + split_and!; [|done|exact Ha]. intros Hc. rewrite <- (proj2 Ha) by done. unfold on_disk. by rewrite Ep, Hn.
    + eapply holds_more; [exact Ha|]. destruct removals; [apply union_subseteq_r|done].
Qed.
Lemma touch_refines dir id a (w : W) : holds dir (doubts w) a (files w) ->
  let w' := (touch dir id w).2 in holds dir (doubts w') a (files w').
Proof.
  intros Ha. unfold touch, mbind, M_bind, lift. destruct (profile_path dir id) as [path|e|why] eqn:Ep; [|done..].
  unfold rewrite_file, mbind, M_bind, io_match, io_ignore. pose proof (law_read_raw path w) as Hr. pose proof (jr_read_raw path w) as J1.
  destruct (fs_read_raw path w) as [[s|e] w1]; unfold doubts; cbn [fst snd mret M_ret] in *; [|by rewrite J1, Hr].
  destruct Hr as [Hs Hf]. pose proof (law_write path s w1) as Hw. pose proof (jr_write path s w1) as J2.
  destruct (fs_write path s w1) as [[[]|e] w2]; cbn [fst snd went_well] in *; rewrite J2, J1, in_doubt_snoc; cbn.
  - rewrite Hw, Hf, insert_id by done. exact Ha.
  - apply (holds_kept dir (doubts w) _ a (files w)); [done|]. intros q _ Hq. apply not_elem_of_union in Hq as [Hq%not_elem_of_singleton Hd].
    split; [done|]. by rewrite <- (lookup_delete_ne (files w2) path q), Hw, lookup_delete_ne, Hf.
Qed.

(** *** Loading *)

Context {DL : DirLaws W}.
Lemma log_files level msg (w : W) : exists w', log level msg w = (Ok tt, w') /\ files w' = files w.
Proof using DL.
  unfold log, mbind, M_bind, static_get. destruct (log_line _ _ _) as [line|]; [|by exists w]. exists (eprint line w). by rewrite law_eprint.
Qed.

Lemma load_each_decodes paths out ps (w w' : W) : load_each paths out w = (Ok ps, w') ->
  files w' = files w /\ exists texts, Forall2 (fun path text => files w !! path = Some text) paths texts
    /\ ps = out ++ omap (fun text => match decode text with Ok p => Some p | _ => None end) texts.
Proof using DL.
  revert out w. induction paths as [|path paths IH]; intros out w; cbn [load_each].
  - intros [-> ->]%mret_Ok. split; [done|]. exists []. by rewrite app_nil_r.
  - intros (text & w1 & Ht%io_try_Ok & Hl)%M_bind_Ok. pose proof (law_read path w) as Hr. rewrite Ht in Hr. destruct Hr as [Hf Ef].
    assert (Hrest : exists out' w2, load_each paths out' w2 = (Ok ps, w') /\ files w2 = files w1
      /\ out' = out ++ omap (fun text => match decode text with Ok p => Some p | _ => None end) [text]).
    { cbn. destruct (decode text) as [p|e|why]; [by exists (out ++ [p]), w1| |done]. unfold mbind, M_bind, log_warn in Hl.
      destruct (log_files LWarn ("skipping unreadable connection profile " +:+ path +:+ ": " +:+ toml_text e) w1) as (w2 & E & Hw2).
      rewrite E in Hl. exists out, w2. by rewrite app_nil_r. }
    destruct Hrest as (out' & w2 & (E & texts & Hall & Hps)%IH & E2 & ->). rewrite E, E2, Ef. split; [done|]. exists (text :: texts). split.
    + constructor; [done|]. by rewrite <- Ef, <- E2.
    + rewrite Hps, <- app_assoc, <- omap_app. done.
Qed.
Definition decoded (text : string) : option ConnectionProfile := match decode text with Ok p => Some p | _ => None end.
(** The paths that are read. *)
Lemma list_dir_paths dir paths (w w' : W) : plain_dir dir -> list_dir dir "toml" w = (Ok paths, w') ->
  files w' = files w /\ NoDup paths
  /\ (forall path, path ∈ paths -> exists name, path = join_prefix dir +:+ name /\ extension name = Some "toml"%string /\ contains_char "/" name = false)
  /\ (forall id path text, profile_path dir id = Ok path -> files w !! path = Some text -> path ∈ paths).
Proof using DL.
  intros Hd. unfold list_dir, mbind, M_bind, io_match. pose proof (law_list dir w) as Hl. pose proof (law_read_dir dir w) as Hr.
  assert (Hsplit : forall id path, profile_path dir id = Ok path -> rsplit_once "/" path = Some (dir, id +:+ ".toml")).
  { intros id path (-> & _ & Hc)%profile_path_name. by apply dir_split. }
  destruct (fs_read_dir dir w) as [[entries|e] w1].
  - intros [= <- <-]. destruct Hl as [Hnd Hall]. destruct Hr as [Hf Hslash]. split; [done|].
    set (names := List.filter _ entries).
    assert (Hnames : forall name, name ∈ names -> extension name = Some "toml"%string /\ contains_char "/" name = false).
    { intros name [Hi Hx]%list_elem_of_In%filter_In. apply bool_decide_eq_true in Hx. split; [done|by apply Hslash]. }
    assert (Hjoin : forall name, name ∈ names -> path_join dir name = join_prefix dir +:+ name).
    { intros name Hn. apply path_join_prefix. destruct (Hnames _ Hn) as [Hx Hc]. apply not_true_iff_false. rewrite starts_with_spec.
      intros [r ->]. rewrite contains_char_app in Hc. done. }
    split_and!.
    + assert (E : map (path_join dir) names = map (fun name => join_prefix dir +:+ name) names).
      { apply map_ext_in. intros name Hi. by apply Hjoin, list_elem_of_In. }
      rewrite E. apply NoDup_fmap_2; [|by apply NoDup_ListNoDup, List.NoDup_filter, NoDup_ListNoDup]. intros x y. apply str_app_inj_l.
    + intros path (name & -> & Hn)%list_elem_of_fmap. exists name. rewrite Hjoin by done. split; [done|by apply Hnames].
    + intros id path text Hp Ht. pose proof (Hall path _ text Ht (Hsplit _ _ Hp)) as Hi. destruct (profile_path_name _ _ _ Hp) as (-> & Hx & Hc).
      apply list_elem_of_fmap. exists (id +:+ ".toml"). assert (Hn : id +:+ ".toml" ∈ names).
      { apply list_elem_of_In, filter_In. split; [done|]. by apply bool_decide_eq_true. }
      by rewrite Hjoin.
  - destruct (is_not_found e) eqn:E; [|done]. intros [= <- <-]. split_and!; [done|constructor|intros path Hi; by apply list.not_elem_of_nil in Hi|].
    intros id path text Hp Ht. by rewrite (Hl eq_refl path _ (Hsplit _ _ Hp)) in Ht.
Qed.
Lemma decoded_in paths texts (f : gmap string string) p : Forall2 (fun path text => f !! path = Some text) paths texts ->
  p ∈ omap decoded texts <-> exists path text, path ∈ paths /\ f !! path = Some text /\ decode text = Ok p.
Proof.
  intros Hall. rewrite list_elem_of_omap. split.
  - intros (text & Ht & Hd). apply list_elem_of_lookup in Ht as (i & Hi). destruct (Forall2_lookup_r _ _ _ _ _ Hall Hi) as (path & Hp & Hf).
    exists path, text. split; [by eapply list_elem_of_lookup_2|]. split; [done|]. unfold decoded in Hd. destruct (decode text); by simplify_eq.
  - intros (path & text & Hp & Hf & Hd). apply list_elem_of_lookup in Hp as (i & Hi). destruct (Forall2_lookup_l _ _ _ _ _ Hall Hi) as (text' & Ht & Hf').
    simplify_eq. exists text. split; [by eapply list_elem_of_lookup_2|]. unfold decoded. by rewrite Hd.
Qed.
Lemma decoded_nodup dir paths texts (f : gmap string string) : NoDup paths -> Forall2 (fun path text => f !! path = Some text) paths texts ->
  (forall path text p, path ∈ paths -> f !! path = Some text -> decode text = Ok p -> profile_path dir (profile_id p) = Ok path) ->
  NoDup (profile_id <$> omap decoded texts).
Proof.
  intros Hnd Hall Hid. induction Hall as [|path text paths texts Hf Hall IH]; [constructor|]. apply list.NoDup_cons in Hnd as [Hn Hnd].
  assert (IH' : NoDup (profile_id <$> omap decoded texts)). { apply IH; [done|]. intros path' text' p Hi. apply Hid. by right. }
  cbn [omap list_omap]. unfold decoded at 1. destruct (decode text) as [p|e|why] eqn:Ed; [|done..]. cbn. constructor; [|done].
  intros (q & Hq & Hi)%list_elem_of_fmap. apply (decoded_in _ _ _ _ Hall) in Hi as (path' & text' & Hi' & Hf' & Hd').
  apply Hn. assert (E : Ok path = Ok path'); [|by injection E as ->].
  rewrite <- (Hid path text p), <- (Hid path' text' q); [by rewrite Hq|by right|done|done|by left|done|done].
Qed.
(** Read from a file that is in doubt. *)
Definition torn (dir : string) (D : gset string) (f : gmap string string) (p : ConnectionProfile) : Prop :=
  exists path text, path ∈ lost dir D /\ f !! path = Some text /\ decode text = Ok p.
(** What loading gives: the profiles of the map whose files are not in doubt,
    and nothing else but what files in doubt hold; without such files the map,
    each profile once. *)
Definition loads (dir : string) (D : gset string) (a : gmap string ConnectionProfile) (f : gmap string string) (ps : list ConnectionProfile) : Prop :=
  (forall p, a !! profile_id p = Some p -> clear_of dir D (profile_id p) -> p ∈ ps)
  /\ (forall p, p ∈ ps -> a !! profile_id p = Some p \/ torn dir D f p)
  /\ (lost dir D = ∅ -> NoDup (profile_id <$> ps) /\ forall p, p ∈ ps <-> a !! profile_id p = Some p).
Lemma load_all_gives dir D a ps (w w' : W) : plain_dir dir -> holds dir D a (files w) -> load_all dir w = (Ok ps, w') ->
  files w' = files w /\ loads dir D a (files w) ps.
Proof using DL.
  intros Hd [Ht Ha] (u & w1 & Hc%io_try_Ok & (paths & w2 & Hp & Hl)%M_bind_Ok)%M_bind_Ok.
  pose proof (law_create_dir dir w) as E1. rewrite Hc in E1. cbn in E1. destruct (list_dir_paths _ _ _ _ Hd Hp) as (E2 & Hnd & Hname & Hall).
  apply load_each_decodes in Hl as (E3 & texts & HF & ->). rewrite E2, E1 in *. cbn [app]. split; [done|].
  change (omap _ texts) with (omap decoded texts).
  assert (Hid : forall path text p, path ∈ paths -> path ∉ D -> files w !! path = Some text -> decode text = Ok p -> profile_path dir (profile_id p) = Ok path).
  { intros path text p (name & -> & Hx & Hs)%Hname. by apply Ht. }
  assert (Hlost : forall path, path ∈ paths -> path ∈ D -> path ∈ lost dir D).
  { intros path (name & -> & Hx & Hs)%Hname Hin. apply elem_of_filter. split; [by apply profile_file_join|done]. }
  assert (Hin : forall p, a !! profile_id p = Some p -> clear_of dir D (profile_id p) -> p ∈ omap decoded texts).
  { intros p Hp' Hcl. rewrite (decoded_in _ _ _ _ HF). rewrite <- Ha in Hp' by done. unfold on_disk in Hp'.
    destruct (profile_path dir (profile_id p)) as [path|e|why] eqn:Ep; [|done..]. apply bind_Some in Hp' as (text & Hf & Hdec).
    exists path, text. split; [by eapply Hall|]. split; [done|]. by destruct (decode text); simplify_eq. }
  assert (Hout : forall p, p ∈ omap decoded texts -> a !! profile_id p = Some p \/ torn dir D (files w) p).
  { intros p. rewrite (decoded_in _ _ _ _ HF). intros (path & text & Hi & Hf & Hdec). destruct (decide (path ∈ D)) as [HD|HD].
    - right. exists path, text. split; [by apply Hlost|done].
    - left. pose proof (Hid path text p Hi HD Hf Hdec) as Hpp. rewrite <- Ha by (intros path' Hp'; congruence). unfold on_disk. rewrite Hpp, Hf. cbn. by rewrite Hdec. }
  split_and!; [done|done|]. intros HL. split.
  - eapply decoded_nodup; [done|done|]. intros path text p Hi. apply Hid; [done|]. intros HD. apply (not_elem_of_empty (C := gset string) path). rewrite <- HL. by apply Hlost.
  - intros p. split.
    + intros [?|(path & text & Hin' & _)]%Hout; [done|]. rewrite HL in Hin'. by apply not_elem_of_empty in Hin'.
    + intros Hp'. apply Hin; [done|]. intros path Hpath HD. apply (not_elem_of_empty (C := gset string) path). rewrite <- HL.
      destruct (profile_path_name _ _ _ Hpath) as (-> & Hx & Hcn). apply elem_of_filter. split; [by apply profile_file_join|done].
Qed.

(** *** Any sequence of operations *)

(** A failed operation does not stop the ones after it. *)
Fixpoint perform_all (dir : string) (ops : list store_op) (w : W) : list (store_op * outcome unit) * W :=
  match ops with
  | [] => ([], w)
  | op :: ops => let '(r, w) := perform_op dir op w in let '(done, w) := perform_all dir ops w in ((op, r) :: done, w)
  end.
(** The specification of those that succeeded. *)
Fixpoint spec_all (l : list (store_op * outcome unit)) (a : gmap string ConnectionProfile) : gmap string ConnectionProfile :=
  match l with
  | [] => a
  | (op, Ok _) :: l => spec_all l (spec op a)
  | (_, _) :: l => spec_all l a
  end.
Lemma perform_op_refines dir op a (w : W) : encodes op -> holds dir (doubts w) a (files w) ->
  let '(r, w') := perform_op dir op w in holds dir (doubts w') (match r with Ok _ => spec op a | _ => a end) (files w').
Proof.
  intros He Ha. destruct op as [p|id|id]; cbn [perform_op spec].
  - by apply save_refines.
  - pose proof (delete_refines dir id a w Ha) as Hd. destruct (delete_profile dir id w) as [[[]|e|why] w']; [done| |done]. destruct e; by destruct Hd as (? & ? & ?) || done.
  - pose proof (touch_refines dir id a w Ha) as Ht. by destruct (touch dir id w) as [[[]|e|why] w'].
Qed.
Lemma perform_all_refines dir ops a (w : W) : Forall encodes ops -> holds dir (doubts w) a (files w) ->
  let '(l, w') := perform_all dir ops w in l.*1 = ops /\ holds dir (doubts w') (spec_all l a) (files w').
Proof.
  revert a w. induction ops as [|op ops IH]; intros a w He Ha; [done|]. apply Forall_cons_1 in He as [He Hes]. cbn [perform_all].
  pose proof (perform_op_refines dir op a w He Ha) as Ho. destruct (perform_op dir op w) as [r w1].
  specialize (IH _ w1 Hes Ho). destruct (perform_all dir ops w1) as [l w2]. cbn. destruct IH as [-> IH]. split; [done|]. by destruct r.
Qed.
End Refinement.

(** ** Properties *)

(** What the journal says of writes in place that failed. *)
Definition torn_files (j : list deed) : gset string := in_doubt false j.
(** Two profiles, one of them saved twice and the other deleted. *)
Definition home : ConnectionProfile := new_wifi "home" "Home" SecOpen.
Definition work : ConnectionProfile := new_wifi "office" "Office" SecOpen.
Definition two_codec : Codec ConnectionProfile := {|
  encode p := Ok (profile_id p);
  decode text := if String.eqb text "home" then Ok home else if String.eqb text "office" then Ok work else Err (Parse "")
|}.
#[local] Existing Instances two_codec sim_stderr sim_level.
#[local] Instance sim_dir_laws : DirLaws sim.
Proof.
  split; [done|]. intros d w. cbn. split.
  - assert (Hnd := NoDup_fst_map_to_list (sim_files w)). induction (map_to_list (sim_files w)).*1 as [|p l IH]; [constructor|].
    apply list.NoDup_cons in Hnd as [Hn Hnd]. cbn. pose proof (rsplit_once_spec "/" p) as Hs.
    destruct (rsplit_once "/" p) as [[d' f]|]; [|by apply IH]. case_bool_decide; [|by apply IH]. subst d'. constructor; [|by apply IH].
    intros (q & Hq & Hf)%list_elem_of_omap. pose proof (rsplit_once_spec "/" q) as Hs'.
    destruct (rsplit_once "/" q) as [[d' f']|]; [|done]. case_bool_decide; simplify_eq. destruct Hs as [-> _], Hs' as [-> _]. done.
  - intros p f text Hf Hs. apply list_elem_of_In, list_elem_of_omap. exists p. rewrite Hs, bool_decide_eq_true_2 by done. split; [|done].
    apply list_elem_of_fmap. exists (p, text). split; [done|]. by apply elem_of_map_to_list.
Qed.
Definition demo_ops : list store_op := [StSave home; StSave work; StTouch "home"; StDelete "office"; StDelete "office"; StSave home].
(** The restart itself: the loaded list. *)
Example restart_loads :
  (load_all "/var/lib/p" (perform_all "/var/lib/p" demo_ops (sim_start [])).2).1 = Ok [home].
Proof. vm_compute. reflexivity. Qed.

(** A full disk, on which a write leaves the file empty. *)
Definition disk_full : io_error := IoError IoOther "No space left on device (os error 28)".
Definition full_disk : FileSystem sim := {|
  fs_read := fs_read; fs_read_raw := fs_read_raw;
  fs_write p _ w := (inr disk_full, with_files (<[p := ""%string]> (sim_files w)) w);
  fs_rename := fs_rename; fs_remove := fs_remove; fs_create_dir_all := fs_create_dir_all; fs_read_dir := fs_read_dir; fs_mtime := fs_mtime;
  fs_chmod := fs_chmod; fs_exists := fs_exists; fs_read_link := fs_read_link; fs_open := fs_open; fs_create_new := fs_create_new; fs_create_dir := fs_create_dir
|}.
(** On it, marking a profile as used succeeds and loses the profile, where a
    save fails and keeps it. *)
Lemma touch_loses_profile :
  let w := (save "/var/lib/p" home (sim_start [])).2 in
  (touch (H := full_disk) "/var/lib/p" "home" w).1 = Ok tt
  /\ on_disk "/var/lib/p" (sim_files w) "home" = Some home
  /\ on_disk "/var/lib/p" (sim_files (touch (H := full_disk) "/var/lib/p" "home" w).2) "home" = None
  /\ on_disk "/var/lib/p" (sim_files (save (H := full_disk) "/var/lib/p" home w).2) "home" = Some home.
Proof. vm_compute. repeat split. Qed.
(** The journal tells the two apart. *)
Example torn_profile_noted :
  let w := (save "/var/lib/p" home (sim_start [])).2 in
  torn_files (touch (W := journaled sim) (H := @journaled_files sim full_disk) "/var/lib/p" "home" (w, [])).2.2 = {["/var/lib/p/home.toml"%string]}
  /\ lost "/var/lib/p" (torn_files (save (W := journaled sim) (H := @journaled_files sim full_disk) "/var/lib/p" home (w, [])).2.2) = ∅.
Proof. vm_compute. repeat split. Qed.
