(* ===== verification/Wpa.v ===== *)
(** * Wi-Fi control (wifi/wpa.rs, wifi.rs, scanner.rs, roaming.rs) and temporary
    files (security/tempfile.rs)

    The client of wpa_supplicant's control socket: one text command, one reply;
    joining a network, scanning, and choosing an access point.  The loops that
    poll take fuel for their turns. *)

From Stdlib Require Import Ascii String.
From S2P Require Import Prelude RustStr IpAddr Sys Persistence World Netlink DhcpClient Security Device Connection Logging.

(** ** Temporary files *)

Section Temp.
Context {W : Type} `{FileSystem W} `{Entropy W}.
Definition random_suffix : M W string :=
  b ← io_try_with (fun e => Other ("reading /dev/urandom: " +:+ io_err_text e)) (rand_bytes 16);
  mret (foldr (fun x acc => hex2 x +:+ acc) "" b).
Definition random_temp_path (prefix suffix : string) : M W string :=
  r ← random_suffix;
  mret (path_join (env_temp_dir (W := W)) (prefix +:+ "-" +:+ r +:+ "." +:+ suffix)).
(** [for _ in 0..tries] *)
Fixpoint create_attempts (tries : nat) (create : string -> io W unit) (prefix suffix what : string) : M W string :=
  match tries with
  | O => throw (Other ("could not create a temp " +:+ what +:+ " after several attempts"))
  | S tries =>
      path ← random_temp_path prefix suffix;
      r ← io_match (create path);
      match r with
      | inl _ => mret path
      | inr e =>
          match io_err_kind e with
          | IoAlreadyExists => create_attempts tries create prefix suffix what
          | _ => throw (Io e)
          end
      end
  end.
Definition create_secret_temp_dir (prefix : string) : M W string :=
  create_attempts 4 (fun p => fs_create_dir p 448) prefix "d" "directory".
Definition create_secret_temp_file (prefix suffix : string) : M W string :=
  create_attempts 4 (fun p => fs_create_new p 384) prefix suffix "file".
End Temp.

(** ** The control socket *)

Definition WPA_BUF : nat := Z.to_nat 8192.

Record WpaCtrl := mkWpaCtrl { wpa_fd : Z; client_path : string }.
Record WpaMonitor := mkWpaMonitor { mon_fd : Z; mon_path : string }.

(** [s.trim_matches(c)] for an ASCII character *)
Definition trim_matches (c : ascii) (s : string) : string :=
  let d := drop_while (Z.eqb (byte_of c)) in
  bytes_str (rev (d (rev (d (str_bytes s))))).
(** [lines().filter_map(split_once('=')).collect()]: the last value of a key *)
Definition key_values (raw : string) : gmap string string :=
  foldl (fun m l => match split_once "=" l with Some (k, v) => <[k := v]> m | None => m end) ∅ (lines raw).
Definition network_of_line (l : string) : option (Z * string) :=
  match split TAB l with
  | a :: b :: _ => id ← parse_uint 32 a; Some (id, b)
  | _ => None
  end.

Section Ctrl.
Context {W : Type} `{FileSystem W} `{Entropy W} `{Sockets W} `{Clock W} `{Stderr W} `{Static MinLevel W}.

(** [UnixDatagram::bind] *)
Definition unix_bind (path : string) : io W Z := fun w =>
  match so_socket SkUnixDatagram w with
  | (inr e, w) => (inr e, w)
  | (inl fd, w) =>
      match so_bind fd (UnixPath path) w with
      | (inl _, w) => (inl fd, w)
      | (inr e, w) => (inr e, so_close fd w)
      end
  end.
(** A value dropped on the way out of a failing body. *)
Definition dropped_on_error {A} (c : M W A) (drop : W -> W) : M W A := fun w =>
  match c w with
  | (Ok a, w) => (Ok a, w)
  | (r, w) => (r, drop w)
  end.
(** The socket's file is removed by the [Drop] of the finished value only. *)
Definition wpa_connect (ctrl_dir ifname : string) : M W WpaCtrl :=
  lift (validate_interface_name ifname) ;;
  let server_path := ctrl_dir +:+ "/" +:+ ifname in
  path ← random_temp_path ("mitos-wpa-" +:+ ifname) "sock";
  fd ← io_try_with (fun e => Wifi ("bind control client socket: " +:+ io_err_text e)) (unix_bind path);
  dropped_on_error (
    io_try_with (fun e => Wifi ("connect to wpa_supplicant at " +:+ server_path +:+ ": " +:+ io_err_text e))
      (so_connect fd (UnixPath server_path)) ;;
    io_try (so_setsockopt fd (SoRcvTimeout (secs_to_nanos 5)))) (so_close fd) ;;
  mret (mkWpaCtrl fd path).
Definition wpa_drop (c : WpaCtrl) (w : W) : W := so_close (wpa_fd c) (fs_remove (client_path c) w).2.
Definition with_ctrl {A} (ctrl_dir ifname : string) (body : WpaCtrl -> M W A) : M W A :=
  c ← wpa_connect ctrl_dir ifname; finally (body c) (wpa_drop c).

Definition raw_request (fd : Z) (cmd : string) : M W string :=
  io_try (so_send fd (str_bytes cmd) DestPeer) ;;
  b ← io_try (so_recv fd WPA_BUF);
  mret (trim_end (from_utf8_lossy b)).
Definition wpa_request (c : WpaCtrl) (cmd : string) : M W string := raw_request (wpa_fd c) cmd.
Definition request_ok (c : WpaCtrl) (cmd : string) : M W unit :=
  reply ← wpa_request c cmd;
  if String.eqb (trim reply) "OK" then mret tt
  else throw (Wifi ("'" +:+ cmd +:+ "' failed: " +:+ reply)).

Definition ping (c : WpaCtrl) : M W bool := r ← wpa_request c "PING"; mret (String.eqb (trim r) "PONG").
Definition wpa_scan (c : WpaCtrl) : M W unit := request_ok c "SCAN".
Definition scan_results_raw (c : WpaCtrl) : M W string := wpa_request c "SCAN_RESULTS".
Definition wpa_status (c : WpaCtrl) : M W (gmap string string) := raw ← wpa_request c "STATUS"; mret (key_values raw).
Definition signal_poll (c : WpaCtrl) : M W (gmap string string) :=
  raw ← wpa_request c "SIGNAL_POLL"; mret (key_values raw).
Definition add_network (c : WpaCtrl) : M W Z :=
  reply ← wpa_request c "ADD_NETWORK";
  lift (ok_or (parse_uint 32 (trim reply)) (Wifi ("unexpected ADD_NETWORK reply: " +:+ reply))).
Definition DQUOTE : string := String QUOTE "".
Definition set_network_quoted (c : WpaCtrl) (id : Z) (key value : string) : M W unit :=
  lift (validate_quoted_value key value) ;;
  request_ok c ("SET_NETWORK " +:+ dec id +:+ " " +:+ key +:+ " " +:+ DQUOTE +:+ value +:+ DQUOTE).
Definition set_network_raw (c : WpaCtrl) (id : Z) (key value : string) : M W unit :=
  request_ok c ("SET_NETWORK " +:+ dec id +:+ " " +:+ key +:+ " " +:+ value).
Definition enable_network (c : WpaCtrl) (id : Z) : M W unit := request_ok c ("ENABLE_NETWORK " +:+ dec id).
Definition disable_network (c : WpaCtrl) (id : Z) : M W unit := request_ok c ("DISABLE_NETWORK " +:+ dec id).
Definition select_network (c : WpaCtrl) (id : Z) : M W unit := request_ok c ("SELECT_NETWORK " +:+ dec id).
Definition remove_network (c : WpaCtrl) (id : Z) : M W unit := request_ok c ("REMOVE_NETWORK " +:+ dec id).
Definition list_networks (c : WpaCtrl) : M W (list (Z * string)) :=
  raw ← wpa_request c "LIST_NETWORKS"; mret (omap network_of_line (drop 1 (lines raw))).
Definition wpa_disconnect (c : WpaCtrl) : M W unit := request_ok c "DISCONNECT".
Definition wpa_reconnect (c : WpaCtrl) : M W unit := request_ok c "RECONNECT".
Definition save_config (c : WpaCtrl) : M W unit := request_ok c "SAVE_CONFIG".

(** ** The event stream *)

Definition monitor_drop (m : WpaMonitor) (w : W) : W :=
  so_close (mon_fd m) (fs_remove (mon_path m) (raw_request (mon_fd m) "DETACH" w).2).2.
Definition monitor_attach (ctrl_dir ifname : string) : M W WpaMonitor :=
  lift (validate_interface_name ifname) ;;
  let server_path := ctrl_dir +:+ "/" +:+ ifname in
  path ← random_temp_path ("mitos-wpa-mon-" +:+ ifname) "sock";
  fd ← io_try_with (fun e => Wifi ("bind monitor socket: " +:+ io_err_text e)) (unix_bind path);
  dropped_on_error (
    io_try_with (fun e => Wifi ("connect monitor to wpa_supplicant at " +:+ server_path +:+ ": " +:+ io_err_text e))
      (so_connect fd (UnixPath server_path))) (so_close fd) ;;
  let mon := mkWpaMonitor fd path in
  dropped_on_error (
    reply ← raw_request fd "ATTACH";
    if String.eqb (trim reply) "OK" then mret tt else throw (Wifi ("ATTACH failed: " +:+ reply))) (monitor_drop mon) ;;
  mret mon.
(** The event's name without its priority. *)
Definition event_of (line : string) : string :=
  match strip_prefix "<" line with
  | Some s => match split_once ">" s with Some (_, rest) => rest | None => line end
  | None => line
  end.
Fixpoint wait_for_any_loop (fuel : nat) (m : WpaMonitor) (names : list string) (deadline : Z) : M W (option string) :=
  match fuel with
  | O => lift (Panic "fuel")
  | S fuel =>
      now ← instant_now;
      if deadline <=? now then mret None
      else
        io_try (so_setsockopt (mon_fd m) (SoRcvTimeout (deadline - now))) ;;
        r ← io_match (so_recv (mon_fd m) WPA_BUF);
        match r with
        | inr e =>
            match io_err_kind e with
            | IoWouldBlock | IoTimedOut => mret None
            | _ => throw (Io e)
            end
        | inl b =>
            let line := trim_end (from_utf8_lossy b) in
            if existsb (fun n => starts_with n (event_of line)) names then mret (Some line)
            else wait_for_any_loop fuel m names deadline
        end
  end.
Definition wait_for_any (fuel : nat) (m : WpaMonitor) (names : list string) (timeout : Z) : M W (option string) :=
  now ← instant_now; wait_for_any_loop fuel m names (now + timeout).

(** ** Scanning *)

Definition SCAN_MAX_WAIT : Z := secs_to_nanos 8.
Definition scanner_scan (fuel : nat) (ctrl_dir ifname : string) : M W (list WifiNetwork) :=
  with_ctrl ctrl_dir ifname (fun ctrl =>
    m ← attempt (monitor_attach ctrl_dir ifname);
    (match m with
     | inl mon =>
         finally (
           wpa_scan ctrl ;;
           wait_for_any fuel mon ["CTRL-EVENT-SCAN-RESULTS"; "CTRL-EVENT-SCAN-FAILED"]%string SCAN_MAX_WAIT ;;
           mret tt) (monitor_drop mon)
     | inr _ => wpa_scan ctrl ;; effect (clk_sleep (secs_to_nanos 3))
     end) ;;
    raw ← scan_results_raw ctrl;
    mret (parse_scan_results raw)).
Definition last_results (ctrl_dir ifname : string) : M W (list WifiNetwork) :=
  with_ctrl ctrl_dir ifname (fun ctrl => raw ← scan_results_raw ctrl; mret (parse_scan_results raw)).

(** ** Joining a network *)

Record EapConfig := mkEapConfig {
  identity : option string;
  ca_cert_path : option string;
  client_cert_path : option string;
  private_key_path : option string;
  private_key_password : option string;
  eap_cfg_method : option string;
  eap_cfg_phase2 : option string
}.
Definition check_cert_readable (path : string) : M W unit :=
  io_try_with (fun e => Config ("cannot read '" +:+ path +:+ "': " +:+ io_err_text e)) (fs_open path).
Definition configure_eap (c : WpaCtrl) (id : Z) (ssid : string) (eap : EapConfig) (password : option string) : M W unit :=
  ident ← lift (ok_or (identity eap)
    (Wifi ("'" +:+ ssid +:+ "' is an Enterprise network but no EAP identity (username) was configured")));
  set_network_quoted c id "identity" ident ;;
  (match eap_cfg_method eap with
   | Some m => lift (validate_eap_method m) ;; set_network_raw c id "eap" (to_ascii_uppercase m)
   | None => mret tt end) ;;
  (match eap_cfg_phase2 eap with
   | Some p => lift (validate_quoted_value "EAP phase2" p) ;; set_network_quoted c id "phase2" p
   | None => mret tt end) ;;
  (match password with
   | Some pass => set_network_quoted c id "password" pass
   | None =>
       match client_cert_path eap with
       | None => throw (Wifi ("'" +:+ ssid +:+ "' needs either a password or a client certificate for Enterprise auth"))
       | Some _ => mret tt
       end
   end) ;;
  (match ca_cert_path eap with
   | Some ca =>
       lift (validate_cert_path "CA certificate path" ca) ;; check_cert_readable ca ;;
       set_network_quoted c id "ca_cert" ca
   | None =>
       log_warn ("connecting to Enterprise network '" +:+ ssid +:+ "' with no CA certificate configured -- the server's identity will not be validated")
   end) ;;
  (match client_cert_path eap with
   | Some cert =>
       lift (validate_cert_path "client certificate path" cert) ;; check_cert_readable cert ;;
       set_network_quoted c id "client_cert" cert
   | None => mret tt end) ;;
  match private_key_path eap with
  | Some key =>
      lift (validate_cert_path "private key path" key) ;; check_cert_readable key ;;
      set_network_quoted c id "private_key" key ;;
      match private_key_password eap with
      | Some p => set_network_quoted c id "private_key_passwd" p
      | None => mret tt
      end
  | None => mret tt
  end.
Definition field (k : string) (m : gmap string string) : string := default "" (m !! k).
Definition associated (ssid : string) (status : gmap string string) : bool :=
  String.eqb (field "wpa_state" status) "COMPLETED" && String.eqb (field "ssid" status) ssid.
Fixpoint association_loop (fuel : nat) (c : WpaCtrl) (ssid : string) (deadline : Z) : M W unit :=
  match fuel with
  | O => lift (Panic "fuel")
  | S fuel =>
      status ← wpa_status c;
      if associated ssid status then mret tt
      else
        now ← instant_now;
        if deadline <=? now
        then throw (Timeout ("association with '" +:+ ssid +:+ "' did not complete (last state: "
                             +:+ field "wpa_state" status +:+ ")"))
        else effect (clk_sleep 300000000) ;; association_loop fuel c ssid deadline
  end.
Definition wait_for_association (fuel : nat) (c : WpaCtrl) (ssid : string) (timeout : Z) : M W unit :=
  now ← instant_now; association_loop fuel c ssid (now + timeout).

Definition same_ssid (ssid existing : string) : bool := String.eqb (trim_matches QUOTE existing) ssid.
Definition wifi_connect (fuel : nat) (ctrl_dir ifname ssid : string) (security : SecurityType)
    (passphrase : option string) (eap : option EapConfig) : M W unit :=
  lift (validate_ssid ssid) ;;
  with_ctrl ctrl_dir ifname (fun ctrl =>
    nets ← attempt (list_networks ctrl);
    for_each (match nets with inl l => l | inr _ => [] end) (fun '(id, existing) =>
      if same_ssid ssid existing then ignore (remove_network ctrl id) else mret tt) ;;
    id ← add_network ctrl;
    set_network_quoted ctrl id "ssid" ssid ;;
    set_network_raw ctrl id "key_mgmt" (key_mgmt security) ;;
    (if is_enterprise security then
       eap ← lift (ok_or eap (Wifi ("'" +:+ ssid +:+ "' is an Enterprise network but no EAP identity/certificate "
                                    +:+ "configuration was provided")));
       configure_eap ctrl id ssid eap passphrase
     else if needs_passphrase security then
       match passphrase with
       | Some pass => lift (validate_wpa_passphrase pass) ;; set_network_quoted ctrl id "psk" pass
       | None => throw (Wifi ("'" +:+ ssid +:+ "' requires a passphrase but none was provided/stored"))
       end
     else mret tt) ;;
    enable_network ctrl id ;;
    select_network ctrl id ;;
    wait_for_association fuel ctrl ssid (secs_to_nanos 20)).
Definition wifi_disconnect (ctrl_dir ifname : string) : M W unit := with_ctrl ctrl_dir ifname wpa_disconnect.
Definition wifi_forget (ctrl_dir ifname ssid : string) : M W unit :=
  with_ctrl ctrl_dir ifname (fun ctrl =>
    nets ← list_networks ctrl;
    for_each nets (fun '(id, existing) => if same_ssid ssid existing then remove_network ctrl id else mret tt) ;;
    save_config ctrl).
Definition current_status (ctrl_dir ifname : string) : M W (gmap string string) := with_ctrl ctrl_dir ifname wpa_status.
End Ctrl.

(** ** Roaming *)

Definition ROAM_HYSTERESIS_DBM : Z := 8.
(** [Iterator::max_by_key]: of equal elements the last *)
Definition later_max (best : option WifiNetwork) (n : WifiNetwork) : option WifiNetwork :=
  match best with
  | Some b => if signal_dbm b <=? signal_dbm n then Some n else Some b
  | None => Some n
  end.
Definition best_bss (networks : list WifiNetwork) (name : string) : option WifiNetwork :=
  foldl later_max None (List.filter (fun n => String.eqb (ssid n) name) networks).
(** [a - b] on [i32] *)
Definition i32_sub (a b : Z) : outcome Z :=
  if bool_decide (is_i32 (a - b)) then Ok (a - b) else Panic "attempt to subtract with overflow".
Definition should_roam (networks : list WifiNetwork) (name current_bssid : string) : outcome (option WifiNetwork) :=
  match List.find (fun n => String.eqb (bssid n) current_bssid) networks with
  | None => Ok None
  | Some cur =>
      match best_bss networks name with
      | None => Ok None
      | Some cand =>
          if String.eqb (bssid cand) current_bssid then Ok None
          else d ← i32_sub (signal_dbm cand) (signal_dbm cur);
               Ok (if ROAM_HYSTERESIS_DBM <=? d then Some cand else None)
      end
  end.

(** ** What is sent *)

(** Nothing in it ends a line, a string or a command. *)
Definition harmless (l : list Z) : bool :=
  forallb (fun b => negb (b =? 0) && negb (b =? 10) && negb (b =? 34) && negb (b =? 92)) l.
(** A command without quotes, or with one quoted value at its end. *)
Definition clean_command (l : list Z) : Prop :=
  harmless l = true
  \/ exists pre value, l = pre ++ 34 :: value ++ [34] /\ harmless pre = true /\ harmless value = true.

Lemma harmless_app l k : harmless (l ++ k) = harmless l && harmless k.
Proof. apply forallb_app. Qed.
Lemma harmless_dec n : 0 <= n -> harmless (str_bytes (dec n)) = true.
Proof.
  intros Hn. apply forallb_forall. intros b Hb. apply (dec_digits n) in Hb; [|done]. unfold is_digit in Hb. lia.
Qed.
Lemma validate_quoted_harmless f v : validate_quoted_value f v = Ok tt -> harmless (str_bytes v) = true.
Proof.
  unfold validate_quoted_value. destruct (contains_char QUOTE v) eqn:E1; [done|]. destruct (contains_char BACKSLASH v) eqn:E2; [done|].
  destruct (contains_char NUL v) eqn:E3; [done|]. destruct (contains_char NEWLINE v) eqn:E4; [done|]. intros _.
  apply forallb_forall. intros b Hb.
  assert (Hne : forall c, contains_char c v = false -> (b =? byte_of c) = false).
  { intros c Hc. apply not_true_iff_false. intros Hx. unfold contains_char in Hc.
    rewrite (proj2 (existsb_exists _ _)) in Hc; [done|]. exists b. split; [done|]. rewrite Z.eqb_sym. done. }
  apply Hne in E1, E2, E3, E4. change (byte_of QUOTE) with 34 in E1. change (byte_of BACKSLASH) with 92 in E2.
  change (byte_of NUL) with 0 in E3. change (byte_of NEWLINE) with 10 in E4. by rewrite E1, E2, E3, E4.
Qed.
Lemma eap_method_harmless m : validate_eap_method m = Ok tt -> harmless (str_bytes (to_ascii_uppercase m)) = true.
Proof.
  unfold validate_eap_method. destruct (existsb _ KNOWN_EAP_METHODS) eqn:E; [|done]. intros _.
  apply existsb_exists in E as (k & Hk & ->%String.eqb_eq).
  assert (Hall : forallb (fun k => harmless (str_bytes k)) KNOWN_EAP_METHODS = true) by reflexivity.
  rewrite forallb_forall in Hall. by apply Hall.
Qed.

Section Clean.
Context {W : Type} `{FileSystem W} `{Entropy W} `{Sockets W} `{Clock W} `{Stderr W} `{Static MinLevel W}.
Abbreviation clean := (sends (W := W) clean_command).

Lemma clean_bind_post {A B} (Q : A -> Prop) (m : M (traced W) A) (f : A -> M (traced W) B) :
  clean m -> (forall w a w', m w = (Ok a, w') -> Q a) -> (forall a, Q a -> clean (f a)) -> clean (m ≫= f).
Proof.
  intros Hm HQ Hf w. unfold mbind, M_bind. destruct (Hm w) as (tr & Ht & Ho).
  destruct (m w) as [[a|e|s] w1] eqn:E; cbn [snd] in *; [|by exists tr..].
  destruct (Hf a (HQ _ _ _ E) w1) as (tr2 & Ht2 & Ho2). exists (tr ++ tr2). rewrite Ht2, Ht, <- app_assoc.
  split; [done|by apply Forall_app_2].
Qed.
(** After a check that passed, what it shows is known. *)
Lemma clean_after {B} (o : outcome unit) (f : M (traced W) B) :
  (o = Ok tt -> clean f) -> clean (lift o ;; f).
Proof.
  intros Hf. apply (clean_bind_post (fun _ => o = Ok tt)); [apply sends_lift| |auto].
  intros w [] w' [Ho _]%lift_Ok. done.
Qed.
Lemma clean_quiet_io {A} (c : io (traced W) A) : (forall w, (c w).2.2 = w.2) -> clean (io_try c) /\ clean (io_match c).
Proof.
  intros Hq. split; apply sends_quiet; intros w; specialize (Hq w); unfold io_try, io_match;
    by destruct (c w) as [[a|e] w'].
Qed.
Lemma clean_quiet_with {A} g (c : io (traced W) A) : (forall w, (c w).2.2 = w.2) -> clean (io_try_with g c).
Proof. intros Hq. apply sends_quiet. intros w. specialize (Hq w). unfold io_try_with. by destruct (c w) as [[a|e] w']. Qed.
Lemma clean_attempt {A} (c : M (traced W) A) : clean c -> clean (attempt c).
Proof.
  intros Hc w. unfold attempt. destruct (Hc w) as (tr & Ht & Ho). exists tr. by destruct (c w) as [[a|e|s] w1].
Qed.
(** [drop] may say good-bye. *)
Definition clean_drop (f : traced W -> traced W) : Prop :=
  forall w, exists tr, (f w).2 = w.2 ++ tr /\ Forall (ev_ok clean_command) tr.
Lemma quiet_drop f : (forall w, (f w).2 = w.2) -> clean_drop f.
Proof. intros Hf w. exists []. rewrite app_nil_r. split; [apply Hf|constructor]. Qed.
Lemma clean_then_drop {A} (c : M (traced W) A) f :
  clean c -> clean_drop f -> clean (finally c f) /\ clean (dropped_on_error c f).
Proof.
  intros Hc Hf. assert (Hgo : forall w, exists tr, (f (c w).2).2 = w.2 ++ tr /\ Forall (ev_ok clean_command) tr).
  { intros w. destruct (Hc w) as (tr & Ht & Ho). destruct (Hf (c w).2) as (tr2 & Ht2 & Ho2).
    exists (tr ++ tr2). rewrite Ht2, Ht, <- app_assoc. split; [done|by apply Forall_app_2]. }
  split; intros w; specialize (Hgo w); specialize (Hc w).
  - unfold finally. by destruct (c w) as [r w'].
  - unfold dropped_on_error. by destruct (c w) as [[a|e|s] w'].
Qed.

Lemma raw_request_clean fd cmd : clean_command (str_bytes cmd) -> clean (raw_request fd cmd).
Proof.
  intros Hc. unfold raw_request. apply sends_bind.
  - intros w. unfold io_try. cbn. destruct (so_send _ _ _ w.1) as [[u|e] w']; cbn [snd].
    + eexists [_]. split; [done|]. apply Forall_singleton. exact Hc.
    + exists []. rewrite app_nil_r. split; [done|constructor].
  - intros _. apply sends_bind; [|intros; by apply sends_quiet].
    apply (sends_recv clean_command fd WPA_BUF Io).
Qed.
Lemma request_ok_clean c cmd : clean_command (str_bytes cmd) -> clean (request_ok c cmd).
Proof.
  intros Hc. apply sends_bind; [by apply raw_request_clean|]. intros r. destruct (String.eqb _ _); by apply sends_quiet.
Qed.
Lemma plain_clean s : harmless (str_bytes s) = true -> clean_command (str_bytes s).
Proof. by left. Qed.
(** A fixed word and a network's number. *)
Lemma numbered_clean s id : harmless (str_bytes s) = true -> 0 <= id -> clean_command (str_bytes (s +:+ dec id)).
Proof. intros Hs Hid. left. by rewrite str_bytes_app, harmless_app, Hs, harmless_dec. Qed.
Lemma set_raw_clean c id key v :
  0 <= id -> harmless (str_bytes key) = true -> harmless (str_bytes v) = true -> clean (set_network_raw c id key v).
Proof.
  intros Hid Hk Hv. apply request_ok_clean, plain_clean. rewrite !str_bytes_app, !harmless_app, Hk, Hv, harmless_dec by done. done.
Qed.
Lemma set_quoted_clean c id key v : 0 <= id -> harmless (str_bytes key) = true -> clean (set_network_quoted c id key v).
Proof.
  intros Hid Hk. apply clean_after. intros Hv. apply validate_quoted_harmless in Hv. apply request_ok_clean. right.
  exists (str_bytes ("SET_NETWORK " +:+ dec id +:+ " " +:+ key +:+ " ")), (str_bytes v). split_and!; [|by rewrite !str_bytes_app, !harmless_app, Hk, harmless_dec|done].
  rewrite !str_bytes_app, <- !app_assoc. done.
Qed.

Lemma untraced_io {A} (c : io W A) (w : traced W) : (untraced c w).2.2 = w.2.
Proof. apply untraced_quiet. Qed.
Lemma temp_path_clean p s : clean (random_temp_path p s).
Proof.
  unfold random_temp_path, random_suffix. apply sends_bind; [|intros; by apply sends_quiet].
  apply sends_bind; [|intros; by apply sends_quiet]. apply clean_quiet_with. intros w. apply untraced_io.
Qed.
Lemma unix_bind_quiet path (w : traced W) : (unix_bind path w).2.2 = w.2.
Proof.
  unfold unix_bind. pose proof (untraced_io (so_socket SkUnixDatagram) w) as H1'. cbn in *.
  destruct (untraced (so_socket SkUnixDatagram) w) as [[fd|e] w1]; cbn [snd] in *; [|done].
  pose proof (untraced_io (so_bind fd (UnixPath path)) w1) as H2'. cbn in *.
  destruct (untraced (so_bind fd (UnixPath path)) w1) as [[[]|e] w2]; cbn [snd] in *; congruence.
Qed.
Lemma close_quiet fd (w : traced W) : (so_close fd w).2 = w.2.
Proof. done. Qed.
Lemma wpa_connect_clean d i : clean (wpa_connect d i).
Proof.
  unfold wpa_connect. apply sends_bind; [apply sends_lift|]. intros _. apply sends_bind; [apply temp_path_clean|]. intros path.
  apply sends_bind; [apply clean_quiet_with, unix_bind_quiet|]. intros fd. apply sends_bind; [|intros; by apply sends_quiet].
  apply clean_then_drop; [|by apply quiet_drop]. apply sends_bind; [apply clean_quiet_with; intros w; apply untraced_io|].
  intros _. apply clean_quiet_io. intros w. apply untraced_io.
Qed.
Lemma wpa_drop_quiet c (w : traced W) : (wpa_drop c w).2 = w.2.
Proof. unfold wpa_drop. rewrite close_quiet. apply untraced_io. Qed.
Lemma with_ctrl_clean {A} d i (body : WpaCtrl -> M (traced W) A) : (forall c, clean (body c)) -> clean (with_ctrl d i body).
Proof.
  intros Hb. apply sends_bind; [apply wpa_connect_clean|]. intros c. apply clean_then_drop; [apply Hb|].
  apply quiet_drop, wpa_drop_quiet.
Qed.
Lemma monitor_drop_clean m : clean_drop (monitor_drop m).
Proof.
  intros w. destruct (raw_request_clean (mon_fd m) "DETACH" ltac:(by left) w) as (tr & Ht & Ho). exists tr. split; [|done].
  unfold monitor_drop. rewrite close_quiet, <- Ht. apply untraced_io.
Qed.
Lemma monitor_attach_clean d i : clean (monitor_attach d i).
Proof.
  unfold monitor_attach. apply sends_bind; [apply sends_lift|]. intros _. apply sends_bind; [apply temp_path_clean|]. intros path.
  apply sends_bind; [apply clean_quiet_with, unix_bind_quiet|]. intros fd. apply sends_bind.
  { apply clean_then_drop; [|by apply quiet_drop]. apply clean_quiet_with; intros w; apply untraced_io. }
  intros _. apply sends_bind; [|intros; by apply sends_quiet]. apply clean_then_drop; [|apply monitor_drop_clean].
  apply sends_bind; [apply raw_request_clean; by left|]. intros r. destruct (String.eqb _ _); by apply sends_quiet.
Qed.
Lemma instant_clean : clean instant_now.
Proof. apply sends_quiet. intros w. unfold instant_now. rewrite observe_run. apply traced_instant. Qed.
Lemma wait_loop_clean fuel m names deadline : clean (wait_for_any_loop fuel m names deadline).
Proof.
  induction fuel as [|fuel IH]; cbn [wait_for_any_loop]; [apply sends_lift|]. apply sends_bind; [apply instant_clean|]. intros now.
  destruct (deadline <=? now); [by apply sends_quiet|]. apply sends_bind; [apply clean_quiet_io; intros w; apply untraced_io|].
  intros _. apply sends_bind.
  - intros w. destruct (recv_traced (mon_fd m) WPA_BUF w) as (tr & Ht & Ho). exists tr. unfold io_match.
    destruct (so_recv (mon_fd m) WPA_BUF w) as [r w']. split; [done|]. eapply List.Forall_impl; [|exact Ho]. by intros [].
  - intros [b|e]; [destruct (existsb _ _); [by apply sends_quiet|apply IH]|]. destruct (io_err_kind e); by apply sends_quiet.
Qed.

Lemma network_of_line_nonneg l id x : network_of_line l = Some (id, x) -> 0 <= id.
Proof.
  unfold network_of_line. destruct (split TAB l) as [|a [|b r]]; [done..|]. destruct (parse_uint 32 a) as [n|] eqn:E; [|done].
  intros [= <- _]. by eapply parse_uint_nonneg.
Qed.
Lemma list_networks_nonneg c (w w' : traced W) l : list_networks c w = (Ok l, w') -> forall id x, In (id, x) l -> 0 <= id.
Proof.
  unfold list_networks. intros (raw & w1 & _ & [-> _]%mret_Ok)%M_bind_Ok id x Hin.
  apply list_elem_of_In, list_elem_of_omap in Hin as (line & _ & Hl). by eapply network_of_line_nonneg.
Qed.
Lemma list_networks_clean c : clean (list_networks c).
Proof. apply sends_bind; [apply raw_request_clean; by left|]. intros. by apply sends_quiet. Qed.
Lemma add_network_nonneg c (w w' : traced W) id : add_network c w = (Ok id, w') -> 0 <= id.
Proof.
  unfold add_network. intros (r & w1 & _ & [Hid _]%lift_Ok)%M_bind_Ok.
  destruct (parse_uint 32 (trim r)) as [n|] eqn:E; [|done]. injection Hid as <-. by eapply parse_uint_nonneg.
Qed.
Lemma cert_clean c id key what path :
  0 <= id -> harmless (str_bytes key) = true ->
  clean (lift (validate_cert_path what path) ;; check_cert_readable path ;; set_network_quoted c id key path).
Proof.
  intros Hid Hk. apply sends_bind; [apply sends_lift|]. intros _. apply sends_bind; [|intros; by apply set_quoted_clean].
  apply clean_quiet_with. intros w. apply untraced_io.
Qed.
Lemma configure_eap_clean c id name eap pass : 0 <= id -> clean (configure_eap c id name eap pass).
Proof.
  intros Hid. unfold configure_eap. apply sends_bind; [apply sends_lift|]. intros ident.
  apply sends_bind; [by apply set_quoted_clean|]. intros _. apply sends_bind.
  { destruct (eap_cfg_method eap) as [m|]; [|by apply sends_quiet]. apply clean_after. intros Hm.
    apply set_raw_clean; [done|done|by apply eap_method_harmless]. }
  intros _. apply sends_bind.
  { destruct (eap_cfg_phase2 eap); [|by apply sends_quiet]. apply sends_bind; [apply sends_lift|]. intros _. by apply set_quoted_clean. }
  intros _. apply sends_bind.
  { destruct pass; [by apply set_quoted_clean|]. destruct (client_cert_path eap); by apply sends_quiet. }
  intros _. apply sends_bind; [destruct (ca_cert_path eap); [by apply cert_clean|apply sends_quiet, log_traced]|].
  intros _. apply sends_bind; [destruct (client_cert_path eap); [by apply cert_clean|by apply sends_quiet]|].
  intros _. destruct (private_key_path eap) as [key|]; [|by apply sends_quiet].
  apply sends_bind; [apply sends_lift|]. intros _. apply sends_bind; [apply clean_quiet_with; intros w; apply untraced_io|]. intros _.
  apply sends_bind; [by apply set_quoted_clean|]. intros _.
  destruct (private_key_password eap); [by apply set_quoted_clean|by apply sends_quiet].
Qed.
Lemma wpa_status_clean c : clean (wpa_status c).
Proof. apply sends_bind; [apply raw_request_clean; by left|]. intros. by apply sends_quiet. Qed.
Lemma association_clean fuel c name deadline : clean (association_loop fuel c name deadline).
Proof.
  induction fuel as [|fuel IH]; cbn [association_loop]; [apply sends_lift|]. apply sends_bind; [apply wpa_status_clean|].
  intros st. destruct (associated name st); [by apply sends_quiet|]. apply sends_bind; [apply instant_clean|]. intros now.
  destruct (deadline <=? now); [by apply sends_quiet|]. apply sends_bind; [by apply sends_quiet|]. intros _. apply IH.
Qed.
Lemma numbered_request_clean c s id : harmless (str_bytes s) = true -> 0 <= id -> clean (request_ok c (s +:+ dec id)).
Proof. intros. by apply request_ok_clean, numbered_clean. Qed.

Lemma forget_clean c name nets :
  (forall id x, In (id, x) nets -> 0 <= id) ->
  clean (for_each nets (fun '(id, existing) => if same_ssid name existing then ignore (remove_network c id) else mret tt)).
Proof.
  intros Hids. apply sends_for_each. intros [id x] Hin. destruct (same_ssid name x); [|by apply sends_quiet].
  apply sends_ignore. by apply numbered_request_clean, (Hids id x).
Qed.
Lemma add_network_clean c : clean (add_network c).
Proof. apply sends_bind; [apply raw_request_clean; by left|]. intros. apply sends_lift. Qed.
Lemma credentials_clean c id name sec pass eap :
  0 <= id ->
  clean (if is_enterprise sec then
       eap ← lift (ok_or eap (Wifi ("'" +:+ name +:+ "' is an Enterprise network but no EAP identity/certificate "
                                    +:+ "configuration was provided")));
       configure_eap c id name eap pass
     else if needs_passphrase sec then
       match pass with
       | Some pass => lift (validate_wpa_passphrase pass) ;; set_network_quoted c id "psk" pass
       | None => throw (Wifi ("'" +:+ name +:+ "' requires a passphrase but none was provided/stored"))
       end
     else mret tt).
Proof.
  intros Hid. destruct (is_enterprise sec); [|destruct (needs_passphrase sec); [destruct pass|]].
  - apply sends_bind; [apply sends_lift|]. intros e. by apply configure_eap_clean.
  - apply sends_bind; [apply sends_lift|]. intros _. by apply set_quoted_clean.
  - by apply sends_quiet.
  - by apply sends_quiet.
Qed.
Lemma wifi_connect_clean fuel d i name sec pass eap : clean (wifi_connect fuel d i name sec pass eap).
Proof.
  apply sends_bind; [apply sends_lift|]. intros _. apply with_ctrl_clean. intros c.
  apply (clean_bind_post (fun nets => forall id x, In (id, x) (match nets with inl l => l | inr _ => [] end) -> 0 <= id)).
  { apply clean_attempt, list_networks_clean. }
  { intros w a w'. unfold attempt. destruct (list_networks c w) as [[l|e|why] w1] eqn:E; intros [= <- <-]; [|done].
    by eapply list_networks_nonneg. }
  intros nets Hids. apply sends_bind; [by apply forget_clean|].
  intros _. apply (clean_bind_post (fun id => 0 <= id)); [apply add_network_clean|intros w id w'; apply add_network_nonneg|].
  intros id Hid. apply sends_bind; [by apply set_quoted_clean|]. intros _.
  apply sends_bind; [apply set_raw_clean; [done|done|by destruct sec]|]. intros _. apply sends_bind; [by apply credentials_clean|].
  intros _. apply sends_bind; [by apply numbered_request_clean|]. intros _.
  apply sends_bind; [by apply numbered_request_clean|]. intros _.
  apply sends_bind; [apply instant_clean|]. intros now. apply association_clean.
Qed.
Lemma wifi_forget_clean d i name : clean (wifi_forget d i name).
Proof.
  apply with_ctrl_clean. intros c.
  apply (clean_bind_post (fun nets => forall id x, In (id, x) nets -> 0 <= id)); [apply list_networks_clean|intros w l w'; apply list_networks_nonneg|].
  intros nets Hids. apply sends_bind; [|intros; apply request_ok_clean; by left]. apply sends_for_each.
  intros [id x] Hin. destruct (same_ssid name x); [|by apply sends_quiet]. by apply numbered_request_clean, (Hids id x).
Qed.
Lemma scanner_clean fuel d i : clean (scanner_scan fuel d i).
Proof.
  apply with_ctrl_clean. intros c. apply sends_bind; [apply clean_attempt, monitor_attach_clean|]. intros m. apply sends_bind.
  - destruct m as [mon|e]; [apply clean_then_drop; [|apply monitor_drop_clean]|].
    + apply sends_bind; [apply request_ok_clean; by left|]. intros _. apply sends_bind; [|intros; by apply sends_quiet].
      apply sends_bind; [apply instant_clean|]. intros now. apply wait_loop_clean.
    + apply sends_bind; [apply request_ok_clean; by left|]. intros. by apply sends_quiet.
  - intros _. apply sends_bind; [apply raw_request_clean; by left|]. intros. by apply sends_quiet.
Qed.
End Clean.

(** ** Association *)

Section Association.
Context {W : Type} `{FileSystem W} `{Entropy W} `{Sockets W} `{Clock W} `{Stderr W} `{Static MinLevel W}.
Abbreviation clean := (sends (W := W) clean_command).

(** The reply a status is read from. *)
Definition status_text (b : list Z) : string := trim_end (from_utf8_lossy b).
Definition status_reply (b : list Z) : gmap string string := key_values (status_text b).
(** The value on the last line of a text that sets the key. *)
Definition setting (key text : string) : option string := list.last (omap (strip_prefix (key +:+ "=")) (lines text)).
(** An answer that tells of a finished association with the network. *)
Definition confirms (name : string) (b : list Z) : Prop :=
  setting "wpa_state" (status_text b) = Some "COMPLETED"%string /\ setting "ssid" (status_text b) = Some name.
Lemma key_values_setting key raw : contains_char "=" key = false -> key_values raw !! key = setting key raw.
Proof.
  intros Hk. unfold key_values, setting. induction (lines raw) as [|l ls IH] using rev_ind; [done|].
  rewrite foldl_app, omap_app. cbn. pose proof (split_once_spec "=" l) as Hs. destruct (split_once "=" l) as [[k v]|].
  - destruct Hs as [-> Hc]. destruct (decide (k = key)) as [->|Hne].
    + rewrite lookup_insert_eq. assert (E : strip_prefix (key +:+ "=") (key ++ String "=" v) = Some v).
      { apply strip_prefix_Some. by rewrite str_app_assoc. }
      cbn. rewrite E. by rewrite last_snoc.
    + rewrite lookup_insert_ne, IH by done. destruct (strip_prefix (key +:+ "=") (k ++ String "=" v)) as [r|] eqn:E; [|by rewrite app_nil_r].
      apply strip_prefix_Some in E. rewrite str_app_assoc in E. exfalso. apply Hne.
      pose proof (split_once_app "=" k v Hc) as E1. change ((key +:+ "=" ++ r)%string) with (key ++ String "=" r)%string in E.
      rewrite E, (split_once_app "=" key r Hk) in E1. by injection E1.
  - rewrite IH. destruct (strip_prefix (key +:+ "=") l) as [r|] eqn:E; [|by rewrite app_nil_r].
    apply strip_prefix_Some in E as ->. rewrite str_app_assoc, contains_char_app in Hs. by rewrite orb_true_r in Hs.
Qed.
Lemma associated_confirms name b : name <> "" -> associated name (status_reply b) = true -> confirms name b.
Proof.
  unfold associated, field, status_reply, confirms. rewrite !key_values_setting by done. intros Hn [Hs%String.eqb_eq Hi%String.eqb_eq]%andb_true_iff.
  destruct (setting "wpa_state" _), (setting "ssid" _); cbn in *; by subst.
Qed.
(** A success is backed by the last exchange on the socket. *)
Definition backed {A} (name : string) (c : M (traced W) A) : Prop := forall w a w', c w = (Ok a, w') ->
  exists pre fd b, w'.2 = w.2 ++ pre ++ [EvSend fd (str_bytes "STATUS") DestPeer; EvRecv fd b]
    /\ confirms name b.

Lemma backed_bind {A B} name (Q : A -> Prop) (m : M (traced W) A) (f : A -> M (traced W) B) :
  clean m -> (forall w a w', m w = (Ok a, w') -> Q a) -> (forall a, Q a -> backed name (f a)) -> backed name (m ≫= f).
Proof.
  intros Hm HQ Hf w b w' (a & w1 & E & Hr)%M_bind_Ok. destruct (Hm w) as (tr & Ht & _). rewrite E in Ht. cbn [snd] in Ht.
  destruct (Hf a (HQ _ _ _ E) w1 b w' Hr) as (pre & fd & bs & Hw & Ha). exists (tr ++ pre), fd, bs.
  by rewrite Hw, Ht, <- !app_assoc.
Qed.
Lemma backed_then {A B} name (m : M (traced W) A) (f : A -> M (traced W) B) :
  clean m -> (forall a, backed name (f a)) -> backed name (m ≫= f).
Proof. intros. by apply (backed_bind name (fun _ => True)). Qed.
Lemma wpa_status_exchange c (w : traced W) m w' : wpa_status c w = (Ok m, w') ->
  exists b, w'.2 = w.2 ++ [EvSend (wpa_fd c) (str_bytes "STATUS") DestPeer; EvRecv (wpa_fd c) b] /\ m = status_reply b.
Proof.
  unfold wpa_status, wpa_request, raw_request. intros (raw & w1 & Hr & [-> ->]%mret_Ok)%M_bind_Ok.
  apply M_bind_Ok in Hr as ([] & w2 & Hs%io_try_Ok%traced_send & Hr). apply M_bind_Ok in Hr as (b & w3 & Hb%io_try_Ok%traced_recv & [-> ->]%mret_Ok).
  exists b. by rewrite Hb, Hs, <- app_assoc.
Qed.
Lemma association_backed fuel c name deadline : name <> "" -> backed name (association_loop fuel c name deadline).
Proof.
  intros Hname.
  induction fuel as [|fuel IH]; cbn [association_loop]; [done|]. intros w a w' (st & w1 & Hs & Hr)%M_bind_Ok.
  destruct (associated name st) eqn:E.
  - apply mret_Ok in Hr as [_ ->]. destruct (wpa_status_exchange c w st w1 Hs) as (b & Hb & ->). exists [], (wpa_fd c), b. split; [done|by apply associated_confirms].
  - destruct (wpa_status_clean c w) as (tr & Ht & _). rewrite Hs in Ht. cbn [snd] in Ht.
    assert (Hb : backed name (now ← instant_now; if deadline <=? now
        then throw (Timeout ("association with '" +:+ name +:+ "' did not complete (last state: " +:+ field "wpa_state" st +:+ ")"))
        else effect (clk_sleep 300000000) ;; association_loop fuel c name deadline)).
    { apply backed_then; [apply instant_clean|]. intros now. destruct (deadline <=? now); [done|].
      apply backed_then; [by apply sends_quiet|]. intros _. apply IH. }
    destruct (Hb w1 a w' Hr) as (pre & fd & b & Hw & Ha). exists (tr ++ pre), fd, b. by rewrite Hw, Ht, <- !app_assoc.
Qed.
Lemma with_ctrl_backed {A} name d i (body : WpaCtrl -> M (traced W) A) :
  (forall c, backed name (body c)) -> backed name (with_ctrl d i body).
Proof.
  intros Hb. apply backed_then; [apply wpa_connect_clean|]. intros c w a w'. unfold finally.
  destruct (body c w) as [r w1] eqn:E. intros [= -> <-]. destruct (Hb c w a w1 E) as (pre & fd & b & Hw & Ha).
  exists pre, fd, b. split; [|done]. rewrite <- Hw. apply wpa_drop_quiet.
Qed.
Lemma wifi_connect_backed fuel d i name sec pass eap : backed name (wifi_connect fuel d i name sec pass eap).
Proof.
  apply (backed_bind name (fun _ => name <> "")); [apply sends_lift| |].
  { intros w [] w' [Hv _]%lift_Ok ->. by vm_compute in Hv. }
  intros _ Hname. apply with_ctrl_backed. intros c.
  apply (backed_bind name (fun nets => forall id x, In (id, x) (match nets with inl l => l | inr _ => [] end) -> 0 <= id)).
  { apply clean_attempt, list_networks_clean. }
  { intros w a w'. unfold attempt. destruct (list_networks c w) as [[l|e|why] w1] eqn:E; intros [= <- <-]; [|done].
    by eapply list_networks_nonneg. }
  intros nets Hids. apply backed_then; [by apply forget_clean|].
  intros _. apply (backed_bind name (fun id => 0 <= id)); [apply add_network_clean|intros w id w'; apply add_network_nonneg|].
  intros id Hid. apply backed_then; [by apply set_quoted_clean|]. intros _.
  apply backed_then; [apply set_raw_clean; [done|done|by destruct sec]|]. intros _.
  apply backed_then; [by apply credentials_clean|]. intros _.
  apply backed_then; [by apply numbered_request_clean|]. intros _. apply backed_then; [by apply numbered_request_clean|]. intros _.
  apply backed_then; [apply instant_clean|]. intros now. by apply association_backed.
Qed.
End Association.

(** Sleeping takes its time. *)
Class SleepLaws (W : Type) `{Clock W} `{Sockets W} `{!TimeLaws W} := {
  sleeps d w : time w + d <= time (clk_sleep d w)
}.
Section AssociationEnds.
Context {W : Type} `{Sockets W} `{Clock W} `{!TimeLaws W} {SL : SleepLaws W}.
Lemma wpa_status_time c (w : W) : no_panic (wpa_status c w).1 /\ time w <= time (wpa_status c w).2.
Proof.
  unfold wpa_status, wpa_request, raw_request, mbind, M_bind, io_try. pose proof (time_send (wpa_fd c) (str_bytes "STATUS") DestPeer w) as Hs.
  destruct (so_send (wpa_fd c) (str_bytes "STATUS") DestPeer w) as [[[]|e] w1]; [|done]. pose proof (time_recv (wpa_fd c) WPA_BUF w1) as Hr.
  destruct (so_recv (wpa_fd c) WPA_BUF w1) as [[b|e] w2]; unfold mret, M_ret; cbn [fst snd] in *; (split; [done|lia]).
Qed.
(** Each turn that goes on has slept. *)
Lemma association_ends fuel c name deadline (w : W) :
  (0 < fuel)%nat -> deadline - time w <= 300000000 * (Z.of_nat fuel - 1) ->
  no_panic (association_loop fuel c name deadline w).1.
Proof using SL.
  revert w. induction fuel as [|fuel IH]; intros w Hpos Hf; [lia|]. cbn [association_loop]. unfold mbind, M_bind.
  destruct (wpa_status_time c w) as [Hn Ht]. destruct (wpa_status c w) as [[st|e|why] w1]; cbn [fst snd] in *; [|done|by destruct (Hn why)].
  destruct (associated name st); [done|]. unfold instant_now. rewrite observe_run. pose proof (time_instant w1). pose proof (time_passes w1).
  destruct (clk_instant w1) as [now w2]; cbn [fst snd] in *. destruct (Z.leb_spec deadline now); [done|].
  unfold effect. pose proof (sleeps 300000000 w2). destruct fuel as [|fuel]; [lia|]. apply IH; lia.
Qed.
Lemma wait_ends fuel c name timeout (w : W) :
  (0 < fuel)%nat -> timeout <= 300000000 * (Z.of_nat fuel - 1) -> no_panic (wait_for_association fuel c name timeout w).1.
Proof using SL.
  intros Hpos Hf. unfold wait_for_association, mbind, M_bind, instant_now. rewrite observe_run. apply association_ends; [done|].
  pose proof (time_instant w). pose proof (time_passes w). lia.
Qed.
End AssociationEnds.

(** ** Properties *)

(** C33: nothing a network, a profile or a user supplies can break out of a
    command to wpa_supplicant.  Whatever the SSID, the passphrase, the 802.1X
    settings and wpa_supplicant's answers, every message joining, scanning and
    forgetting send is one line without a backslash or a NUL, and is free of
    quotes but for one pair around a value at its end. *)
Theorem wpa_commands_clean {W} `{FileSystem W} `{Entropy W} `{Sockets W} `{Clock W} `{Stderr W} `{Static MinLevel W} fuel dir ifname name sec pass eap :
  sends (W := W) clean_command (wifi_connect fuel dir ifname name sec pass eap)
  /\ sends (W := W) clean_command (scanner_scan fuel dir ifname)
  /\ sends (W := W) clean_command (wifi_forget dir ifname name).
Proof. split_and!; [apply wifi_connect_clean|apply scanner_clean|apply wifi_forget_clean]. Qed.

(** C34: joining a network is believed only when wpa_supplicant says so: if
    [connect] succeeds, its last exchange on the control socket is a STATUS whose
    answer has [wpa_state=COMPLETED] as the last line for the state and
    [ssid=] with the very name that was asked for as the last line for the
    network.  And waiting for it ends: 68 polls, one each 300 milliseconds, take
    the 20 seconds it may last, so the wait gives success or an error. *)
Theorem wifi_join_confirmed {W} `{FileSystem W} `{Entropy W} `{Sockets W} `{Clock W} `{!TimeLaws W} `{!SleepLaws W} `{Stderr W} `{Static MinLevel W}
    fuel dir ifname name sec pass eap :
  (68 <= fuel)%nat ->
  backed (W := W) name (wifi_connect fuel dir ifname name sec pass eap)
  /\ forall c (w : W), no_panic (wait_for_association fuel c name (secs_to_nanos 20) w).1.
Proof.
  intros Hf. split; [apply wifi_connect_backed|]. intros c w. apply wait_ends; [lia|]. unfold secs_to_nanos. lia.
Qed.

(** A world of time alone, in which wpa_supplicant is always associated. *)
Definition quick_reply : list Z := str_bytes ("wpa_state=COMPLETED" +:+ String "010" "ssid=Home").
Definition quick_error : io_error := IoError IoOther "refused".
Definition quick_sockets : Sockets Z := {|
  so_socket _ w := (inl 3, w); so_setsockopt _ _ w := (inl tt, w); so_bind _ _ w := (inl tt, w);
  so_connect _ _ w := (inl tt, w); so_close _ w := w; so_send _ _ _ w := (inl tt, w); so_recv _ _ w := (inl quick_reply, w)
|}.
Definition quick_clock : Clock Z := {|
  clk_instant w := (w, w + 1); clk_unix w := ((w, 0), w + 1); clk_pid _ := 1; clk_sleep d w := w + d
|}.
Definition quick_files : FileSystem Z := {|
  fs_read _ w := (inr quick_error, w); fs_read_raw _ w := (inr quick_error, w); fs_write _ _ w := (inr quick_error, w);
  fs_rename _ _ w := (inr quick_error, w); fs_remove _ w := (inr quick_error, w); fs_create_dir_all _ w := (inr quick_error, w);
  fs_read_dir _ w := (inr quick_error, w); fs_mtime _ w := (inr quick_error, w); fs_chmod _ _ w := (inr quick_error, w);
  fs_exists _ w := (false, w); fs_read_link _ w := (inr quick_error, w); fs_open _ w := (inr quick_error, w);
  fs_create_new _ _ w := (inr quick_error, w); fs_create_dir _ _ w := (inr quick_error, w)
|}.
Definition quick_entropy : Entropy Z := {| rand_bytes n w := (inl (replicate n 7), w); env_temp_dir := "/tmp" |}.
#[local] Existing Instances quick_sockets quick_clock quick_files quick_entropy.
Definition quick_time : TimeLaws Z.
Proof. refine {| time := fun w : Z => w |}; intros; cbn; lia. Defined.
#[local] Existing Instance quick_time.
Definition quick_sleep : SleepLaws Z.
Proof. constructor. intros. cbn. lia. Defined.
#[local] Existing Instance quick_sleep.
Lemma wifi_join_confirmed_witness : no_panic (wait_for_association 68 (mkWpaCtrl 3 "/tmp/s") "Home" (secs_to_nanos 20) (5 : Z)).1.
Proof.
  pose (e := {| eprint _ w := w |} : Stderr Z). pose (l := {| st_get _ := min_level_default; st_put _ w := w |} : Static MinLevel Z).
  destruct (wifi_join_confirmed (W := Z) 68 "/run/wpa" "wlan0" "Home" SecOpen None None ltac:(lia)) as [_ H].
  exact (H (mkWpaCtrl 3 "/tmp/s") 5).
Defined.

(** The commands of one successful join of an open network. *)
Example join_commands :
  let replies := ["network id / ssid / bssid / flags"; "0"; "OK"; "OK"; "OK"; "OK";
                  "wpa_state=COMPLETED" +:+ String "010" "ssid=Home"]%string in
  let '(r, w) := @wifi_connect sim sim_fs sim_entropy sim_sockets sim_clock sim_stderr sim_level 68 "/run/wpa" "wlan0" "Home" SecOpen None None
                   (sim_start (map (fun s => inl (str_bytes s)) replies)) in
  r = Ok tt /\ map (fun m => bytes_str m.1) (sim_sent w)
    = ["LIST_NETWORKS"; "ADD_NETWORK"; "SET_NETWORK 0 ssid " +:+ DQUOTE +:+ "Home" +:+ DQUOTE; "SET_NETWORK 0 key_mgmt NONE";
       "ENABLE_NETWORK 0"; "SELECT_NETWORK 0"; "STATUS"]%string
  /\ sim_open w = [].
Proof. vm_compute. auto. Qed.
