(* ===== verification/Wireguard.v ===== *)
(** * WireGuard and plain tunnels (vpn/wireguard.rs, vpn/tunnel.rs)

    The base64 decoder of the keys, the [WG_CMD_SET_DEVICE] message with its
    nested attributes, connecting and disconnecting.  [toml] and the resolution
    of the peer's endpoint are parameters. *)

From Stdlib Require Import Ascii String.
From S2P Require Import Prelude RustStr IpAddr Sys World Netlink IpLayer Security Device Connection.


(** [toml::from_str] with the derived instance: a value, or the error's text. *)
Class Toml (A : Type) := { toml_from_str : string -> A + string }.

(** ** Configuration *)

Record WireGuardConfig := mkWgConfig {
  wg_interface : string;
  wg_address : string;
  peer_public_key : string;
  peer_endpoint : string;
  peer_allowed_ips : string;
  listen_port : option Z;
  persistent_keepalive_secs : Z
}.
Definition default_allowed_ips : string := "0.0.0.0/0, ::/0".
Definition default_keepalive : Z := 25.
(** The keys of the file: the derived instance fills in what is missing. *)
Record RawWireGuardConfig := mkRawWg {
  raw_interface : string;
  raw_address : string;
  raw_public_key : string;
  raw_endpoint : string;
  raw_allowed_ips : option string;
  raw_listen_port : option Z;
  raw_keepalive : option Z
}.
Definition wg_config_of (r : RawWireGuardConfig) : WireGuardConfig :=
  mkWgConfig (raw_interface r) (raw_address r) (raw_public_key r) (raw_endpoint r)
    (default default_allowed_ips (raw_allowed_ips r)) (raw_listen_port r)
    (default default_keepalive (raw_keepalive r)).

(** [s.split(',').map(str::trim).filter(|s| !s.is_empty())] *)
Definition split_list (s : string) : list string :=
  List.filter (fun x => negb (String.eqb x "")) (map trim (split "," s)).

(** ** Keys *)

(** [val] inside [base64_decode] *)
Definition base64_val (c : Z) : option Z :=
  if is_upper c then Some (c - 65)
  else if is_lower c then Some (c - 97 + 26)
  else if is_digit c then Some (c - 48 + 52)
  else if c =? 43 then Some 62
  else if c =? 47 then Some 63
  else None.
(** The loop over the characters: [buf << 6] drops the bits above the word. *)
Fixpoint base64_loop (bytes : list Z) (buf bits : Z) (out : list Z) : option (list Z) :=
  match bytes with
  | [] => Some out
  | b :: bytes =>
      v ← base64_val b;
      let buf := Z.lor (wrap 32 (Z.shiftl buf 6)) v in
      let bits := bits + 6 in
      if 8 <=? bits then
        let bits := bits - 8 in
        base64_loop bytes buf bits (out ++ [wrap 8 (Z.shiftr buf bits)])
      else base64_loop bytes buf bits out
  end.
(** [input.trim_end_matches('=')] *)
Definition trim_padding (s : list Z) : list Z := rev (drop_while (Z.eqb 61) (rev s)).
Definition base64_decode (input : string) : option (list Z) :=
  base64_loop (trim_padding (str_bytes input)) 0 0 [].

Definition WG_KEY_LEN : nat := 32.
Definition decode_key (field b64 : string) : outcome (list Z) :=
  bytes ← ok_or (base64_decode (trim b64)) (Vpn (field +:+ " is not valid base64"));
  if bool_decide (length bytes = WG_KEY_LEN) then Ok bytes
  else Err (Vpn (field +:+ " must decode to 32 bytes")).

(** ** The device message *)

Definition WG_CMD_SET_DEVICE : Z := 1.
Definition WGDEVICE_A_IFNAME : Z := 2.
Definition WGDEVICE_A_PRIVATE_KEY : Z := 3.
Definition WGDEVICE_A_FLAGS : Z := 5.
Definition WGDEVICE_A_LISTEN_PORT : Z := 6.
Definition WGDEVICE_A_PEERS : Z := 8.
Definition WGDEVICE_F_REPLACE_PEERS : Z := Z.shiftl 1 0.
Definition WGPEER_A_PUBLIC_KEY : Z := 1.
Definition WGPEER_A_FLAGS : Z := 3.
Definition WGPEER_A_ENDPOINT : Z := 4.
Definition WGPEER_A_PERSISTENT_KEEPALIVE_INTERVAL : Z := 5.
Definition WGPEER_A_ALLOWEDIPS : Z := 9.
Definition WGPEER_F_REPLACE_ALLOWEDIPS : Z := Z.shiftl 1 1.
Definition WGALLOWEDIP_A_FAMILY : Z := 1.
Definition WGALLOWEDIP_A_IPADDR : Z := 2.
Definition WGALLOWEDIP_A_CIDR_MASK : Z := 3.

Definition encode_sockaddr (addr : SocketAddr) : list Z :=
  match sa_ip addr with
  | V4 a => to_le 2 AF_INET ++ to_be 2 (sa_port addr) ++ octets4 a ++ replicate 8 0
  | V6 a => to_le 2 AF_INET6 ++ to_be 2 (sa_port addr) ++ to_le 4 0 ++ octets6 a ++ to_le 4 0
  end.

Definition allowed_entry (addr : IpAddr) (prefixlen : Z) : list Z :=
  let entry := match addr with
    | V4 v4 => attr_bytes (attr_u16 [] WGALLOWEDIP_A_FAMILY AF_INET) WGALLOWEDIP_A_IPADDR (octets4 v4)
    | V6 v6 => attr_bytes (attr_u16 [] WGALLOWEDIP_A_FAMILY AF_INET6) WGALLOWEDIP_A_IPADDR (octets6 v6)
    end in
  attr_u8 entry WGALLOWEDIP_A_CIDR_MASK prefixlen.
(** [for (i, cidr) in split_list(..).enumerate()] *)
Fixpoint allowed_loop (i : nat) (cidrs : list string) (allowedips : list Z) : outcome (list Z) :=
  match cidrs with
  | [] => Ok allowedips
  | cidr :: cidrs =>
      '(addr, prefixlen) ← map_err (fun _ => Vpn ("invalid allowed-ips entry '" +:+ cidr +:+ "'")) (parse_cidr cidr);
      allowed_loop (S i) cidrs (attr_nested allowedips (wrap 16 (Z.of_nat i)) (allowed_entry addr prefixlen))
  end.

(** The payload [set_crypto_params] builds from what it has decoded. *)
Definition device_payload (cfg : WireGuardConfig) (private_key public_key : list Z) (endpoint : SocketAddr)
  : outcome (list Z) :=
  let peer := attr_bytes [] WGPEER_A_PUBLIC_KEY public_key in
  let peer := attr_u32 peer WGPEER_A_FLAGS WGPEER_F_REPLACE_ALLOWEDIPS in
  let peer := attr_bytes peer WGPEER_A_ENDPOINT (encode_sockaddr endpoint) in
  let peer := attr_u16 peer WGPEER_A_PERSISTENT_KEEPALIVE_INTERVAL (persistent_keepalive_secs cfg) in
  allowedips ← allowed_loop 0 (split_list (peer_allowed_ips cfg)) [];
  let peer := attr_nested peer WGPEER_A_ALLOWEDIPS allowedips in
  let peers := attr_nested [] 0 peer in
  let attrs := attr_nul_str [] WGDEVICE_A_IFNAME (wg_interface cfg) in
  let attrs := attr_bytes attrs WGDEVICE_A_PRIVATE_KEY private_key in
  let attrs := match listen_port cfg with
    | Some port => attr_u16 attrs WGDEVICE_A_LISTEN_PORT port
    | None => attrs
    end in
  let attrs := attr_u32 attrs WGDEVICE_A_FLAGS WGDEVICE_F_REPLACE_PEERS in
  let attrs := attr_nested attrs WGDEVICE_A_PEERS peers in
  Ok (build_genlmsghdr WG_CMD_SET_DEVICE 1 ++ attrs).

Record VpnSession := mkVpnSession { session_interface : string; session_kind : VpnKind }.

Section WireGuardOps.
Context {W : Type} `{Sockets W} `{NlEnv} `{SocketAddrs W} `{Toml RawWireGuardConfig}.
Context {B : Type} `{SecretsBackend B W}.

Definition resolve_endpoint (endpoint : string) : M W SocketAddr :=
  l ← io_try_with (fun e => Vpn ("cannot resolve peer endpoint '" +:+ endpoint +:+ "': " +:+ io_err_text e))
        (to_socket_addrs endpoint);
  lift (ok_or (head l) (Vpn ("peer endpoint '" +:+ endpoint +:+ "' resolved to nothing"))).

(** [c.map_err(f)?] *)
Definition with_error {A} (f : NetworkError -> NetworkError) (c : M W A) : M W A := fun w =>
  let '(r, w') := c w in (map_err f r, w').

Definition set_crypto_params (cfg : WireGuardConfig) (private_key_b64 : string) : M W unit :=
  private_key ← lift (decode_key "private key" private_key_b64);
  public_key ← lift (decode_key "peer public key" (peer_public_key cfg));
  endpoint ← resolve_endpoint (peer_endpoint cfg);
  payload ← lift (device_payload cfg private_key public_key endpoint);
  family ← with_error (fun e => Vpn ("WireGuard kernel module not available: " +:+ error_to_string e
                                     +:+ " (try `modprobe wireguard`)")) (resolve "wireguard");
  with_sock (with_protocol NETLINK_GENERIC 0) (fun sock =>
    with_error (fun e => Vpn ("WG_CMD_SET_DEVICE failed: " +:+ error_to_string e))
      (nl_request sock family 0 payload)).

(** [for cidr in split_list(..)]: a route for each entry that parses. *)
Definition allowed_routes (index : Z) (cidrs : list string) : M W unit :=
  for_each cidrs (fun cidr =>
    match parse_cidr cidr with
    | Ok (dst, len) => ignore (route_add (mkRoute (Some (dst, len)) None index None PStatic))
    | Err _ => mret tt
    | Panic s => lift (Panic s)
    end).

Definition wireguard_connect (config : string) (secrets : B) (profile_id : string) : M W VpnSession :=
  cfg ← lift (match toml_from_str config with
              | inl raw => Ok (wg_config_of raw)
              | inr e => Err (Vpn ("invalid WireGuard config: " +:+ e))
              end);
  lift (validate_interface_name (wg_interface cfg)) ;;
  key ← secret_get secrets profile_id "wg-private-key";
  private_key_b64 ← lift (ok_or key (Vpn ("no private key stored for '" +:+ profile_id +:+ "'")));
  found ← attempt (get_by_name (wg_interface cfg));
  (match found with
   | inr _ => create_virtual (wg_interface cfg) "wireguard"
   | inl _ => mret tt
   end) ;;
  iface ← get_by_name (wg_interface cfg);
  '(addr, prefixlen) ← lift (parse_cidr (wg_address cfg));
  address_add (if_index iface) addr prefixlen ;;
  set_crypto_params cfg private_key_b64 ;;
  bring_up (if_index iface) ;;
  allowed_routes (if_index iface) (split_list (peer_allowed_ips cfg)) ;;
  mret (mkVpnSession (wg_interface cfg) WireGuard).

Definition wireguard_disconnect (ifname : string) : M W unit :=
  iface ← get_by_name ifname;
  interface_delete (if_index iface).

(** ** vpn/tunnel.rs *)

Inductive TunnelKind := Gre | Ipip | Sit | Vxlan.
Definition tunnel_link_kind (k : TunnelKind) : string :=
  match k with Gre => "gre" | Ipip => "ipip" | Sit => "sit" | Vxlan => "vxlan" end.
Definition tunnel_create (name : string) (kind : TunnelKind) : M W unit :=
  lift (validate_interface_name name) ;;
  create_virtual name (tunnel_link_kind kind).
Definition tunnel_destroy (name : string) : M W unit :=
  iface ← get_by_name name;
  interface_delete (if_index iface).
End WireGuardOps.

(** ** Base64

    The reference encoder of RFC 4648, by groups of three bytes. *)
Definition base64_char (v : Z) : Z :=
  if v <? 26 then 65 + v else if v <? 52 then 97 + (v - 26)
  else if v <? 62 then 48 + (v - 52) else if v =? 62 then 43 else 47.
(** The six-bit groups of the bytes, the last one filled with zeros. *)
Fixpoint sextets (l : list Z) : list Z :=
  match l with
  | a :: b :: c :: l =>
      a / 4 :: a mod 4 * 16 + b / 16 :: b mod 16 * 4 + c / 64 :: c mod 64 :: sextets l
  | [a; b] => [a / 4; a mod 4 * 16 + b / 16; b mod 16 * 4]
  | [a] => [a / 4; a mod 4 * 16]
  | [] => []
  end.
Definition padding (l : list Z) : list Z :=
  match (length l mod 3)%nat with 1%nat => [61; 61] | 2%nat => [61] | _ => [] end.
Definition base64_encode (l : list Z) : string := bytes_str (map base64_char (sextets l) ++ padding l).

Lemma base64_val_char v : is_uint 6 v -> base64_val (base64_char v) = Some v.
Proof.
  intros Hv. unfold is_uint in Hv. change (2 ^ 6) with 64 in Hv.
  assert (Hall : forallb (fun n => bool_decide (base64_val (base64_char (Z.of_nat n)) = Some (Z.of_nat n))) (seq 0 64) = true)
    by (vm_compute; done).
  rewrite forallb_forall in Hall. specialize (Hall (Z.to_nat v)).
  rewrite Z2Nat.id in Hall by lia. apply bool_decide_eq_true in Hall; [done|]. apply in_seq. lia.
Qed.
Lemma lor_shift6 x v : is_uint 6 v -> Z.lor (wrap 32 (Z.shiftl x 6)) v = 64 * (x mod 2 ^ 26) + v.
Proof.
  intros Hv. unfold wrap. rewrite Z.shiftl_mul_pow2 by lia.
  change (2 ^ 32) with (2 ^ 26 * 2 ^ 6). rewrite Z.mul_mod_distr_r by lia.
  assert (Hl : Z.land (x mod 2 ^ 26 * 2 ^ 6) v = 0).
  { apply Z.bits_inj'. intros n Hn. rewrite Z.land_spec, Z.bits_0.
    destruct (Z.lt_ge_cases n 6); [by rewrite Z.mul_pow2_bits_low by lia|].
    assert (Hl : Z.log2 v < 6) by (destruct (Z.eq_dec v 0) as [->|]; [done|unfold is_uint in Hv; apply Z.log2_lt_pow2; lia]).
    unfold is_uint in Hv. by rewrite (Z.bits_above_log2 v), andb_false_r by lia. }
  pose proof (Z.add_lor_land (x mod 2 ^ 26 * 2 ^ 6) v). change (2 ^ 6) with 64 in *. lia.
Qed.

(** The decoder without the word: [p] is the value of the bits not yet given
    out. *)
Fixpoint sextet_loop (vs : list Z) (p bits : Z) (out : list Z) : list Z :=
  match vs with
  | [] => out
  | v :: vs =>
      let p := 64 * p + v in
      if 8 <=? bits + 6
      then sextet_loop vs (p mod 2 ^ (bits - 2)) (bits - 2) (out ++ [p / 2 ^ (bits - 2)])
      else sextet_loop vs p (bits + 6) out
  end.

Lemma mod_mod_pow x a b : 0 <= b <= a -> (x mod 2 ^ a) mod 2 ^ b = x mod 2 ^ b.
Proof. intros. apply Z.mod_mod_divide. exists (2 ^ (a - b)). rewrite <- Z.pow_add_r by lia. f_equal. lia. Qed.
Lemma shifted_low x v bits :
  0 <= bits <= 26 -> (64 * (x mod 2 ^ 26) + v) mod 2 ^ (bits + 6) = (64 * (x mod 2 ^ bits) + v) mod 2 ^ (bits + 6).
Proof.
  intros Hb. assert (Hm : x mod 2 ^ 26 mod 2 ^ bits = x mod 2 ^ bits).
  { apply mod_mod_pow. lia. }
  rewrite Z.pow_add_r by lia. change (2 ^ 6) with 64.
  rewrite (Z.add_mod (64 * (x mod 2 ^ 26))), (Z.add_mod (64 * (x mod 2 ^ bits))) by lia.
  rewrite !(Z.mul_comm 64), !Z.mul_mod_distr_r by lia. by rewrite Hm, Z.mod_mod by lia.
Qed.

(** What the word holds above the pending bits never reaches the output. *)
Lemma base64_loop_sextets vs buf bits p out :
  Forall (is_uint 6) vs -> bits = 0 \/ bits = 2 \/ bits = 4 \/ bits = 6 -> p = buf mod 2 ^ bits ->
  base64_loop (map base64_char vs) buf bits out = Some (sextet_loop vs p bits out).
Proof.
  intros Hv. revert buf bits p out. induction Hv as [|v vs Hv Hvs IH]; intros buf bits p out Hb ->; [done|].
  cbn [map base64_loop sextet_loop]. rewrite base64_val_char by done. cbn [mbind option_bind].
  rewrite lor_shift6 by done. set (b := 64 * (buf mod 2 ^ 26) + v).
  pose proof (shifted_low buf v bits ltac:(lia)) as Hlow. fold b in Hlow.
  set (p' := 64 * (buf mod 2 ^ bits) + v) in *.
  assert (Hp : 0 <= p' < 2 ^ (bits + 6)).
  { unfold p'. pose proof (Z.mod_pos_bound buf (2 ^ bits) ltac:(lia)). unfold is_uint in Hv.
    rewrite Z.pow_add_r by lia. change (2 ^ 6) with 64 in *. lia. }
  rewrite (Z.mod_small p') in Hlow by done.
  destruct (Z.leb_spec 8 (bits + 6)) as [H8|H8].
  - replace (bits + 6 - 8) with (bits - 2) by lia.
    assert (Hbyte : wrap 8 (Z.shiftr b (bits - 2)) = p' / 2 ^ (bits - 2)).
    { unfold wrap. rewrite Z.shiftr_div_pow2 by lia. rewrite <- Hlow.
      replace (bits + 6) with (bits - 2 + 8) by lia. rewrite Z.pow_add_r by lia.
      rewrite Z.rem_mul_r by lia. rewrite Z.add_comm, Z.mul_comm, Z.div_add_l by lia.
      rewrite (Z.div_small (b mod _)); [lia|]. apply Z.mod_pos_bound. lia. }
    rewrite Hbyte. apply IH; [lia|]. rewrite <- Hlow.
    apply mod_mod_pow. lia.
  - apply IH; [lia|]. by rewrite Hlow.
Qed.

#[local] Ltac dlia := Z.to_euclidean_division_equations; lia.
Lemma sextets_ok n l : (length l <= n)%nat -> bytes_ok l -> Forall (is_uint 6) (sextets l).
Proof.
  revert l. induction n as [|n IH]; intros [|a [|b [|c r]]] Hn Hb; cbn in Hn; try lia; cbn [sextets];
    unfold bytes_ok in Hb; rewrite ?List.Forall_cons_iff in Hb; [constructor..| | |]; unfold is_uint in Hb;
    change (2 ^ 8) with 256 in Hb; repeat apply Forall_cons_2; try apply Forall_nil_2;
    try (hnf; change (2 ^ 6) with 64; dlia).
  apply IH; [lia|]. by apply Hb.
Qed.
Lemma sextet_first v1 v2 vs out :
  sextet_loop (v1 :: v2 :: vs) 0 0 out =
  sextet_loop vs ((64 * v1 + v2) mod 16) 4 (out ++ [(64 * v1 + v2) / 16]).
Proof. cbn [sextet_loop]. rewrite Z.mul_0_r, Z.add_0_l. done. Qed.
Lemma sextet_second p v3 vs out :
  sextet_loop (v3 :: vs) p 4 out = sextet_loop vs ((64 * p + v3) mod 4) 2 (out ++ [(64 * p + v3) / 4]).
Proof. done. Qed.
Lemma sextet_third p v4 vs out :
  sextet_loop (v4 :: vs) p 2 out = sextet_loop vs 0 0 (out ++ [64 * p + v4]).
Proof.
  cbn [sextet_loop]. change (8 <=? 2 + 6) with true. cbn iota. change (2 - 2) with 0. change (2 ^ 0) with 1.
  by rewrite Z.mod_1_r, Z.div_1_r.
Qed.
(** Three bytes cut into sextets and put together again. *)
Lemma regroup a b c :
  is_u8 a -> is_u8 b -> is_u8 c ->
  let v1 := a / 4 in let v2 := a mod 4 * 16 + b / 16 in
  let p := (64 * v1 + v2) mod 16 in let v3 := b mod 16 * 4 + c / 64 in
  (64 * v1 + v2) / 16 = a /\ (64 * p + v3) / 4 = b /\ 64 * ((64 * p + v3) mod 4) + c mod 64 = c.
Proof.
  intros Ha Hb Hc. unfold is_uint in *. change (2 ^ 8) with 256 in *. cbn zeta.
  assert (H1 : 64 * (a / 4) + (a mod 4 * 16 + b / 16) = 16 * a + b / 16) by dlia.
  rewrite H1. assert (Hq : 0 <= b / 16 < 16) by dlia.
  assert (H2 : (16 * a + b / 16) mod 16 = b / 16) by dlia. rewrite H2.
  assert (H3 : 64 * (b / 16) + (b mod 16 * 4 + c / 64) = 4 * b + c / 64) by dlia.
  rewrite H3. split_and!; dlia.
Qed.
Lemma sextet_loop_sextets n l out :
  (length l <= n)%nat -> bytes_ok l -> sextet_loop (sextets l) 0 0 out = out ++ l.
Proof.
  revert l out. induction n as [|n IH]; intros [|a [|b [|c r]]] out Hn Hb; cbn in Hn; try lia;
    unfold bytes_ok in Hb; rewrite ?List.Forall_cons_iff in Hb; cbn [sextets].
  1-2: by rewrite app_nil_r.
  - pose proof (regroup a 0 0 ltac:(tauto) ltac:(done) ltac:(done)) as (H1 & _). cbn zeta in H1.
    change (0 / 16) with 0 in H1. rewrite Z.add_0_r in H1. rewrite sextet_first. cbn [sextet_loop]. by rewrite H1.
  - pose proof (regroup a b 0 ltac:(tauto) ltac:(tauto) ltac:(done)) as (H1 & H2 & _). cbn zeta in H1, H2.
    change (0 / 64) with 0 in H2. rewrite Z.add_0_r in H2. rewrite sextet_first, sextet_second. cbn [sextet_loop].
    by rewrite H1, H2, <- app_assoc.
  - pose proof (regroup a b c ltac:(tauto) ltac:(tauto) ltac:(tauto)) as (H1 & H2 & H3). cbn zeta in H1, H2, H3.
    rewrite sextet_first, sextet_second, sextet_third, H1, H2, H3.
    rewrite IH by (try lia; tauto). by rewrite <- !app_assoc.
Qed.

Lemma base64_char_not_pad v : is_uint 6 v -> base64_char v <> 61 /\ is_u8 (base64_char v) /\ graphic (base64_char v) = true.
Proof.
  intros Hv. unfold is_uint in Hv. change (2 ^ 6) with 64 in Hv. unfold base64_char, graphic, is_uint. change (2 ^ 8) with 256.
  repeat case_match; rewrite ?Z.ltb_lt, ?Z.ltb_ge in *; lia.
Qed.
Lemma trim_padding_app l n : Forall (fun b => b <> 61) l -> trim_padding (l ++ replicate n 61) = l.
Proof.
  intros Hl. unfold trim_padding. rewrite rev_app_distr.
  assert (Hr : rev (replicate n 61) = replicate n 61) by (rewrite rev_alt; apply reverse_replicate).
  rewrite Hr. assert (Hd : forall r, drop_while (Z.eqb 61) (replicate n 61 ++ r) = drop_while (Z.eqb 61) r)
    by (clear; intros r; induction n as [|n IH]; [done|exact IH]).
  rewrite Hd, drop_while_head; [apply rev_involutive|].
  apply Forall_rev in Hl. destruct (rev l); [done|]. apply Forall_cons_1 in Hl as [Hb _]. destruct (Z.eqb_spec 61 z); congruence.
Qed.
Lemma padding_replicate l : exists n, padding l = replicate n 61.
Proof. unfold padding. repeat case_match; by eexists 0%nat + by eexists 1%nat + by eexists 2%nat. Qed.
Lemma encoded_bytes l : bytes_ok l ->
  exists n, str_bytes (base64_encode l) = map base64_char (sextets l) ++ replicate n 61.
Proof.
  intros Hl. destruct (padding_replicate l) as [n Hn]. exists n. unfold base64_encode. rewrite Hn. apply str_bytes_str.
  apply Forall_app_2; [|apply Forall_replicate; done]. rewrite Forall_map.
  refine (List.Forall_impl _ _ (sextets_ok (length l) l _ Hl)); [|lia]. intros v Hv. by apply base64_char_not_pad.
Qed.
Lemma base64_roundtrip l : bytes_ok l -> base64_decode (base64_encode l) = Some l.
Proof.
  intros Hl. destruct (encoded_bytes l Hl) as [n Hn]. unfold base64_decode. rewrite Hn.
  pose proof (sextets_ok (length l) l ltac:(lia) Hl) as Hs. rewrite trim_padding_app.
  - rewrite (base64_loop_sextets _ 0 0 0) by (done || lia). by rewrite (sextet_loop_sextets (length l)).
  - rewrite Forall_map. refine (List.Forall_impl _ _ Hs). intros v Hv. by apply base64_char_not_pad.
Qed.

(** ** The device message read back *)

(** How the kernel reads one allowed-ips entry, and the endpoint. *)
Definition read_allowed (b : list Z) : outcome (option (IpAddr * Z)) :=
  attrs ← parse_attrs b;
  Ok (fam ← from_le <$> attr attrs WGALLOWEDIP_A_FAMILY;
      ip ← attr attrs WGALLOWEDIP_A_IPADDR ≫= bytes_to_ip fam;
      mask ← attr attrs WGALLOWEDIP_A_CIDR_MASK ≫= head;
      Some (ip, mask)).
Definition read_sockaddr (b : list Z) : option SocketAddr :=
  if from_le (take 2 b) =? AF_INET
  then Some (mkSocketAddr (V4 (from_be (take 4 (drop 4 b)))) (from_be (take 2 (drop 2 b))))
  else if from_le (take 2 b) =? AF_INET6
  then Some (mkSocketAddr (V6 (from_be (take 16 (drop 8 b)))) (from_be (take 2 (drop 2 b))))
  else None.

Lemma read_encode_sockaddr a :
  ip_ok (sa_ip a) -> is_u16 (sa_port a) -> read_sockaddr (encode_sockaddr a) = Some a.
Proof.
  destruct a as [[a|a] p]; cbn [sa_ip sa_port]; intros Ha Hp; unfold read_sockaddr, encode_sockaddr; cbn [sa_ip sa_port].
  - change (from_le (take 2 (to_le 2 AF_INET ++ to_be 2 p ++ octets4 a ++ replicate 8 0)) =? AF_INET) with true. cbn iota.
    rewrite (app_assoc (to_le 2 AF_INET)) at 1.
    rewrite (drop_app_length' (to_le 2 AF_INET ++ to_be 2 p)) by (autorewrite with lens; done).
    rewrite (drop_app_length' (to_le 2 AF_INET)), !take_app_length' by (unfold octets4; autorewrite with lens; done).
    unfold octets4. by rewrite !from_be_to_be.
  - change (from_le (take 2 (to_le 2 AF_INET6 ++ to_be 2 p ++ to_le 4 0 ++ octets6 a ++ to_le 4 0))) with AF_INET6.
    change (AF_INET6 =? AF_INET) with false. change (AF_INET6 =? AF_INET6) with true. cbn iota.
    rewrite (app_assoc (to_be 2 p)) at 1. rewrite (app_assoc (to_le 2 AF_INET6)) at 1.
    rewrite (drop_app_length' (to_le 2 AF_INET6 ++ to_be 2 p ++ to_le 4 0)) by (autorewrite with lens; done).
    rewrite (drop_app_length' (to_le 2 AF_INET6)), !take_app_length' by (unfold octets6; autorewrite with lens; done).
    unfold octets6. by rewrite !from_be_to_be.
Qed.

Definition allowed_attrs (ip : IpAddr) (p : Z) : list (Z * list Z) :=
  [(WGALLOWEDIP_A_FAMILY, to_le 2 (family_raw (family_of_addr ip))); (WGALLOWEDIP_A_IPADDR, ip_bytes ip);
   (WGALLOWEDIP_A_CIDR_MASK, [p])].
Lemma allowed_entry_enc ip p : allowed_entry ip p = enc_attrs (allowed_attrs ip p).
Proof. by destruct ip. Qed.
Lemma length_allowed_entry ip p : (length (allowed_entry ip p) <= 36)%nat.
Proof.
  rewrite allowed_entry_enc. unfold enc_attrs. cbn [map allowed_attrs concat]. rewrite !length_app, !length_enc_attr.
  cbn [snd]. rewrite length_to_le. destruct ip; cbn [ip_bytes]; unfold octets4, octets6; rewrite length_to_be; by_decision.
Qed.
Lemma read_allowed_entry ip p : ip_ok ip -> read_allowed (allowed_entry ip p) = Ok (Some (ip, p)).
Proof.
  intros Hip. unfold read_allowed. rewrite allowed_entry_enc, parse_attrs_enc.
  2:{ repeat apply Forall_cons_2; [|by apply attr_ok_ip| |apply Forall_nil_2]; done. }
  cbn [mbind outcome_bind allowed_attrs attrs_map fold_left fst snd]. unfold attr. lookup_attrs.
  assert (Hf : from_le (to_le 2 (family_raw (family_of_addr ip))) = family_raw (family_of_addr ip)) by (by destruct ip).
  cbn [fmap option_fmap option_map mbind option_bind head]. rewrite Hf, bytes_to_ip_bytes by done. done.
Qed.

(** The entries as attributes numbered from [i]. *)
Definition numbered (i : nat) (entries : list (IpAddr * Z)) : list (Z * list Z) :=
  imap (fun k e => (wrap 16 (Z.of_nat (i + k)), allowed_entry e.1 e.2)) entries.
Lemma numbered_cons i e entries :
  numbered i (e :: entries) = (wrap 16 (Z.of_nat i), allowed_entry e.1 e.2) :: numbered (S i) entries.
Proof.
  unfold numbered. rewrite imap_cons, Nat.add_0_r. f_equal. apply imap_ext. intros k x _. cbn. by rewrite Nat.add_succ_r.
Qed.
Lemma allowed_loop_entries cidrs entries i l :
  Forall2 (fun c e => parse_cidr c = Ok e) cidrs entries ->
  allowed_loop i cidrs (enc_attrs l) = Ok (enc_attrs (l ++ numbered i entries)).
Proof.
  intros Hf. revert i l. induction Hf as [|c [ip p] cidrs entries Hc _ IH]; intros i l; cbn [allowed_loop].
  - cbn. by rewrite app_nil_r.
  - rewrite Hc. cbn [map_err mbind outcome_bind]. unfold attr_nested. rewrite enc_attrs_snoc, IH, numbered_cons, <- app_assoc. done.
Qed.
Lemma numbered_ok i entries : Forall attr_ok (numbered i entries).
Proof.
  apply list.Forall_forall. intros a (k & [ip p] & -> & _)%elem_of_lookup_imap. split; cbn [fst snd]; [apply wrap_range; lia|].
  pose proof (length_allowed_entry ip p). lia.
Qed.
Lemma length_numbered i entries : (length (enc_attrs (numbered i entries)) <= 40 * length entries)%nat.
Proof.
  revert i. induction entries as [|[ip p] entries IH]; intros i; [cbn; lia|]. rewrite numbered_cons.
  change (enc_attrs (?a :: ?l)) with (enc_attr a ++ enc_attrs l). rewrite length_app, length_enc_attr. cbn [snd fst].
  pose proof (length_allowed_entry ip p). pose proof (IH (S i)). pose proof (align_Z (4 + length (allowed_entry ip p))).
  cbn [length] in *. dlia.
Qed.
Lemma attrs_map_snoc l a m : attrs_map (l ++ [a]) m = <[a.1 := a.2]> (attrs_map l m).
Proof. unfold attrs_map. by rewrite fold_left_app. Qed.
Lemma numbered_lookup entries j :
  Z.of_nat (length entries) <= 65536 ->
  attrs_map (numbered 0 entries) ∅ !! Z.of_nat j = (fun e => allowed_entry e.1 e.2) <$> entries !! j.
Proof.
  induction entries as [|e entries IH] using rev_ind; intros Hlen; [done|]. rewrite length_app in Hlen. cbn [length] in Hlen.
  unfold numbered. rewrite imap_app. cbn [imap]. rewrite attrs_map_snoc. cbn [fst snd compose]. rewrite Nat.add_0_r, Nat.add_0_l.
  rewrite wrap_small by (unfold is_uint; lia).
  destruct (decide (j = length entries)) as [->|Hne].
  - by rewrite lookup_insert_eq, list_lookup_middle.
  - rewrite lookup_insert_ne by lia. fold (numbered 0 entries). rewrite IH by lia.
    destruct (decide (j < length entries)%nat); [by rewrite lookup_app_l|].
    rewrite !lookup_ge_None_2; [done|..]; rewrite ?length_app; cbn; lia.
Qed.

Definition wg_config_ok (cfg : WireGuardConfig) : Prop :=
  (length (str_bytes (wg_interface cfg)) <= 15)%nat /\ from_option is_u16 True (listen_port cfg)
  /\ is_u16 (persistent_keepalive_secs cfg).
Definition peer_attrs (cfg : WireGuardConfig) (public_key : list Z) (endpoint : SocketAddr) (entries : list (IpAddr * Z))
  : list (Z * list Z) :=
  [(WGPEER_A_PUBLIC_KEY, public_key); (WGPEER_A_FLAGS, to_le 4 WGPEER_F_REPLACE_ALLOWEDIPS);
   (WGPEER_A_ENDPOINT, encode_sockaddr endpoint);
   (WGPEER_A_PERSISTENT_KEEPALIVE_INTERVAL, to_le 2 (persistent_keepalive_secs cfg));
   (WGPEER_A_ALLOWEDIPS, enc_attrs (numbered 0 entries))].
Definition device_attrs (cfg : WireGuardConfig) (private_key : list Z) (peer : list Z) : list (Z * list Z) :=
  [(WGDEVICE_A_IFNAME, str_bytes (wg_interface cfg) ++ [0]); (WGDEVICE_A_PRIVATE_KEY, private_key)]
  ++ from_option (fun p => [(WGDEVICE_A_LISTEN_PORT, to_le 2 p)]) [] (listen_port cfg)
  ++ [(WGDEVICE_A_FLAGS, to_le 4 WGDEVICE_F_REPLACE_PEERS); (WGDEVICE_A_PEERS, enc_attrs [(0, peer)])].

Lemma device_payload_attrs cfg priv pub ep entries :
  Forall2 (fun c e => parse_cidr c = Ok e) (split_list (peer_allowed_ips cfg)) entries ->
  device_payload cfg priv pub ep =
  Ok (build_genlmsghdr WG_CMD_SET_DEVICE 1 ++ enc_attrs (device_attrs cfg priv (enc_attrs (peer_attrs cfg pub ep entries)))).
Proof.
  intros Hf. unfold device_payload. pose proof (allowed_loop_entries _ _ 0 [] Hf) as Hl.
  change (enc_attrs []) with (@nil Z) in Hl. rewrite Hl. cbn [mbind outcome_bind app].
  unfold attr_bytes, attr_u32, attr_u16, attr_nested, attr_nul_str, device_attrs, peer_attrs.
  change (@nil Z) with (enc_attrs []). rewrite !enc_attrs_snoc. cbn [app].
  destruct (listen_port cfg); rewrite !enc_attrs_snoc; done.
Qed.
Lemma length_encode_sockaddr ep : (length (encode_sockaddr ep) <= 28)%nat.
Proof. unfold encode_sockaddr. destruct (sa_ip ep); unfold octets4, octets6; autorewrite with lens; lia. Qed.
Lemma enc_attr_le t p n : (length p <= 4 * n)%nat -> (length (enc_attr (t, p)) <= 4 + 4 * n)%nat.
Proof. intros. rewrite length_enc_attr. cbn [snd]. pose proof (align_Z (4 + length p)). dlia. Qed.
Lemma length_peer cfg pub ep entries :
  length pub = 32%nat -> (length (enc_attrs (peer_attrs cfg pub ep entries)) <= 88 + 40 * length entries)%nat.
Proof.
  intros Hp. unfold peer_attrs. change (enc_attrs ?l) with (concat (map enc_attr l)). cbn [map concat]. rewrite !length_app.
  pose proof (enc_attr_le WGPEER_A_PUBLIC_KEY pub 8). pose proof (enc_attr_le WGPEER_A_FLAGS (to_le 4 WGPEER_F_REPLACE_ALLOWEDIPS) 1).
  pose proof (enc_attr_le WGPEER_A_ENDPOINT (encode_sockaddr ep) 7). pose proof (length_encode_sockaddr ep).
  pose proof (enc_attr_le WGPEER_A_PERSISTENT_KEEPALIVE_INTERVAL (to_le 2 (persistent_keepalive_secs cfg)) 1).
  pose proof (enc_attr_le WGPEER_A_ALLOWEDIPS (enc_attrs (numbered 0 entries)) (10 * length entries)).
  pose proof (length_numbered 0 entries). rewrite !length_to_le in *. unfold enc_attrs in *. cbn [length] in *. lia.
Qed.

Lemma decode_key_encode key field :
  length key = WG_KEY_LEN -> bytes_ok key -> decode_key field (base64_encode key) = Ok key.
Proof.
  intros Hl Hk. unfold decode_key. rewrite trim_line.
  - rewrite base64_roundtrip by done. cbn [ok_or mbind outcome_bind]. by rewrite bool_decide_eq_true_2.
  - apply word_line. unfold word_ok. destruct (encoded_bytes key Hk) as [n Hn]. rewrite Hn. apply andb_true_iff. split.
    + destruct (base64_encode key) eqn:E; [|done]. destruct key as [|a [|b [|c r]]]; done.
    + apply forallb_forall. intros b Hb. apply in_app_or in Hb as [Hb|Hb].
      * apply in_map_iff in Hb as (v & <- & Hv). apply base64_char_not_pad.
        pose proof (sextets_ok (length key) key ltac:(lia) Hk) as Hs. rewrite List.Forall_forall in Hs. by apply Hs.
      * apply list_elem_of_In, elem_of_replicate in Hb as [-> _]. done.
Qed.

(** What the kernel is told about the device, as it reads the message. *)
Definition device_message_says (cfg : WireGuardConfig) (priv pub : list Z) (ep : SocketAddr)
    (entries : list (IpAddr * Z)) (payload : list Z) : Prop :=
  exists dev peer_bytes peer ips,
    take 4 payload = [WG_CMD_SET_DEVICE; 1; 0; 0] /\ parse_attrs (drop 4 payload) = Ok dev
    /\ dev !! WGDEVICE_A_IFNAME = Some (str_bytes (wg_interface cfg) ++ [0])
    /\ dev !! WGDEVICE_A_PRIVATE_KEY = Some priv
    /\ dev !! WGDEVICE_A_LISTEN_PORT = to_le 2 <$> listen_port cfg
    /\ from_le <$> dev !! WGDEVICE_A_FLAGS = Some WGDEVICE_F_REPLACE_PEERS
    /\ parse_attrs <$> dev !! WGDEVICE_A_PEERS = Some (Ok {[ 0 := peer_bytes ]})
    /\ parse_attrs peer_bytes = Ok peer
    /\ peer !! WGPEER_A_PUBLIC_KEY = Some pub
    /\ peer !! WGPEER_A_ENDPOINT ≫= read_sockaddr = Some ep
    /\ from_le <$> peer !! WGPEER_A_PERSISTENT_KEEPALIVE_INTERVAL = Some (persistent_keepalive_secs cfg)
    /\ from_le <$> peer !! WGPEER_A_FLAGS = Some WGPEER_F_REPLACE_ALLOWEDIPS
    /\ parse_attrs <$> peer !! WGPEER_A_ALLOWEDIPS = Some (Ok ips)
    /\ forall j, read_allowed <$> ips !! Z.of_nat j = (fun e => Ok (Some e)) <$> entries !! j.

Lemma device_attrs_ok cfg priv peer :
  wg_config_ok cfg -> length priv = 32%nat -> Z.of_nat (length peer) <= 65520 -> Forall attr_ok (device_attrs cfg priv peer).
Proof.
  intros (Hn & _ & _) Hk Hp. unfold device_attrs, attr_ok.
  assert (He : Z.of_nat (length (enc_attrs [(0, peer)])) <= 65527).
  { unfold enc_attrs. cbn [map concat]. rewrite app_nil_r, length_enc_attr. cbn [snd]. pose proof (align_Z (4 + length peer)). dlia. }
  repeat apply Forall_app_2; [|destruct (listen_port cfg); cbn [from_option]|]; repeat apply Forall_cons_2; try apply Forall_nil_2;
    (split; [done|]); cbn [snd]; rewrite ?length_app, ?length_to_le; cbn [length]; lia.
Qed.
Lemma peer_attrs_ok cfg pub ep entries :
  length pub = 32%nat -> (length entries <= 1600)%nat -> Forall attr_ok (peer_attrs cfg pub ep entries).
Proof.
  intros Hp He. unfold peer_attrs, attr_ok. pose proof (length_encode_sockaddr ep). pose proof (length_numbered 0 entries).
  repeat apply Forall_cons_2; try apply Forall_nil_2; (split; [done|]); cbn [snd]; rewrite ?length_to_le; lia.
Qed.

Lemma device_attrs_lookup cfg priv peer (d := attrs_map (device_attrs cfg priv peer) ∅) :
  d !! WGDEVICE_A_IFNAME = Some (str_bytes (wg_interface cfg) ++ [0]) /\ d !! WGDEVICE_A_PRIVATE_KEY = Some priv
  /\ d !! WGDEVICE_A_LISTEN_PORT = to_le 2 <$> listen_port cfg
  /\ d !! WGDEVICE_A_FLAGS = Some (to_le 4 WGDEVICE_F_REPLACE_PEERS) /\ d !! WGDEVICE_A_PEERS = Some (enc_attrs [(0, peer)]).
Proof.
  subst d. unfold device_attrs, attrs_map. destruct (listen_port cfg); cbn [app from_option fold_left fst snd];
    split_and!; lookup_attrs; done.
Qed.
Lemma peer_attrs_lookup cfg pub ep entries (d := attrs_map (peer_attrs cfg pub ep entries) ∅) :
  d !! WGPEER_A_PUBLIC_KEY = Some pub /\ d !! WGPEER_A_FLAGS = Some (to_le 4 WGPEER_F_REPLACE_ALLOWEDIPS)
  /\ d !! WGPEER_A_ENDPOINT = Some (encode_sockaddr ep)
  /\ d !! WGPEER_A_PERSISTENT_KEEPALIVE_INTERVAL = Some (to_le 2 (persistent_keepalive_secs cfg))
  /\ d !! WGPEER_A_ALLOWEDIPS = Some (enc_attrs (numbered 0 entries)).
Proof. subst d. unfold peer_attrs, attrs_map. cbn [fold_left fst snd]. split_and!; lookup_attrs; done. Qed.

Lemma device_message_correct cfg priv pub ep entries :
  wg_config_ok cfg -> length priv = 32%nat -> length pub = 32%nat -> ip_ok (sa_ip ep) -> is_u16 (sa_port ep) ->
  Forall (fun e => ip_ok e.1) entries -> (length entries <= 1600)%nat ->
  Forall2 (fun c e => parse_cidr c = Ok e) (split_list (peer_allowed_ips cfg)) entries ->
  exists payload, device_payload cfg priv pub ep = Ok payload /\ device_message_says cfg priv pub ep entries payload.
Proof.
  intros Hc Hpriv Hpub Hip Hport Hent Hlen Hf. eexists. split; [by apply device_payload_attrs|].
  pose proof (length_peer cfg pub ep entries Hpub) as Hpl. set (peer := enc_attrs (peer_attrs cfg pub ep entries)) in *.
  destruct (device_attrs_lookup cfg priv peer) as (D1 & D2 & D3 & D4 & D5).
  destruct (peer_attrs_lookup cfg pub ep entries) as (P1 & P2 & P3 & P4 & P5).
  exists (attrs_map (device_attrs cfg priv peer) ∅), peer, (attrs_map (peer_attrs cfg pub ep entries) ∅),
    (attrs_map (numbered 0 entries) ∅).
  change (drop 4 (build_genlmsghdr WG_CMD_SET_DEVICE 1 ++ ?x)) with x.
  rewrite parse_attrs_enc by (apply device_attrs_ok; [done|done|lia]).
  assert (Hpeer : parse_attrs peer = Ok (attrs_map (peer_attrs cfg pub ep entries) ∅))
    by (apply parse_attrs_enc; by apply peer_attrs_ok).
  rewrite Hpeer.
  rewrite D1, D2, D3, D4, D5, P1, P2, P3, P4, P5. cbn [fmap option_fmap option_map mbind option_bind].
  rewrite read_encode_sockaddr by done.
  rewrite (parse_attrs_enc (numbered 0 entries)) by apply numbered_ok.
  rewrite (parse_attrs_enc [(0, peer)]) by (apply Forall_singleton; split; cbn [fst snd]; [done|lia]).
  destruct Hc as (_ & Hlp & Hka). rewrite (from_le_to_le 2) by done. split_and!; try done.
  intros j. rewrite numbered_lookup by lia. destruct (entries !! j) as [[ip p]|] eqn:E; [|done].
  cbn [fmap option_fmap option_map fst snd]. rewrite read_allowed_entry; [done|].
  eapply Forall_lookup_1 in Hent; [|exact E]. done.
Qed.

(** ** Properties *)

(** C26: The message that configures a WireGuard device tells the kernel exactly
    what the profile says.  Both keys, written in standard base64, are decoded
    to themselves; the message is built, and read as the kernel reads it, it
    names the interface, carries the two keys, the listening port when there is
    one, the resolved endpoint, the keep-alive interval and, in order, every
    allowed address range, and replaces the peers and ranges of before.  Up to
    1600 ranges the 16-bit attribute lengths do not overflow. *)
Theorem wireguard_message_roundtrip cfg priv pub ep entries :
  wg_config_ok cfg -> bytes_ok priv -> length priv = WG_KEY_LEN -> bytes_ok pub -> length pub = WG_KEY_LEN ->
  peer_public_key cfg = base64_encode pub -> ip_ok (sa_ip ep) -> is_u16 (sa_port ep) ->
  Forall (fun e => ip_ok e.1) entries -> (length entries <= 1600)%nat ->
  Forall2 (fun c e => parse_cidr c = Ok e) (split_list (peer_allowed_ips cfg)) entries ->
  decode_key "private key" (base64_encode priv) = Ok priv
  /\ decode_key "peer public key" (peer_public_key cfg) = Ok pub
  /\ exists payload, device_payload cfg priv pub ep = Ok payload /\ device_message_says cfg priv pub ep entries payload.
Proof.
  intros Hc Hb1 Hl1 Hb2 Hl2 Hk Hip Hp He Hn Hf. rewrite Hk. split_and!.
  - by apply decode_key_encode.
  - by apply decode_key_encode.
  - by apply device_message_correct.
Qed.
Definition demo_wg_key : list Z := replicate 32 200.
Definition demo_wg : WireGuardConfig :=
  mkWgConfig "wg0" "10.0.0.2/32" (base64_encode demo_wg_key) "vpn.example.org:51820" "10.0.0.0/8, ::/0" (Some 51820) 25.
Lemma wireguard_message_roundtrip_witness :
  exists payload, device_payload demo_wg demo_wg_key demo_wg_key (mkSocketAddr (V4 3405803777) 51820) = Ok payload
    /\ device_message_says demo_wg demo_wg_key demo_wg_key (mkSocketAddr (V4 3405803777) 51820)
         [(V4 167772160, 8); (V6 0, 0)] payload.
Proof.
  apply (wireguard_message_roundtrip demo_wg demo_wg_key demo_wg_key (mkSocketAddr (V4 3405803777) 51820)
           [(V4 167772160, 8); (V6 0, 0)]);
    try done; try by_decision; try (cbn; lia); repeat constructor; by_decision.
Defined.
