(* ===== verification/OpenVpn.v ===== *)
(** * OpenVPN sessions and the VPN table (vpn/openvpn.rs, vpn/vpn.rs)

    Starting openvpn with its management socket, reading its state lines,
    ending a session, and the table that says which interface belongs to which
    kind of VPN.  The reader thread is run over the lines that arrive while
    [connect] waits; what it does with later lines is [background_reader] on
    them. *)

From Stdlib Require Import Ascii String.
From S2P Require Import Prelude RustStr IpAddr Sys Persistence World Netlink IpLayer Security Device.
From S2P Require Import Connection Dns DhcpClient Wpa Wireguard.

(** ** Polling

    [loop { if let Some(a) = probe()? { return Ok(a) }
            if Instant::now() >= deadline { return timeout }
            sleep(step) }] *)
Fixpoint poll_loop {W A} `{Clock W} (fuel : nat) (probe : M W (option A)) (deadline step : Z) (timeout : outcome A) : M W A :=
  match fuel with
  | O => lift (Panic "fuel")
  | S fuel =>
      r ← probe;
      match r with
      | Some a => mret a
      | None =>
          now ← instant_now;
          if deadline <=? now then lift timeout
          else effect (clk_sleep step) ;; poll_loop fuel probe deadline step timeout
      end
  end.

Record SessionStatus := mkStatus { vpn_state : string; vpn_ifname : option string }.
Definition status_default : SessionStatus := mkStatus "" None.
Record Session := mkSession {
  ses_child : Z;
  ses_management : Z;
  ses_workdir : string;
  ses_status : SessionStatus
}.
(** [static SESSIONS] and [static ACTIVE] *)
Definition Sessions : Type := option (gmap string Session).
Definition ActiveVpns : Type := option (gmap string VpnKind).

Inductive MgmtEvent := MgmtConnected (ifname : option string) | MgmtFailed (msg : string).

(** The lines openvpn sends while [connect] waits at most the given time, and
    whether the connection is closed by then. *)
Class Management (W : Type) := { mg_lines : Z -> Z -> W -> (list string * bool) * W }.

(** The value of a [>STATE:] line: [rest.split(',').nth(1)]. *)
Definition state_of_line (line : string) : option string :=
  rest ← strip_prefix ">STATE:" (trim_end line);
  split "," rest !! 1%nat.

(** The reader thread's variables: the shared status, and whether [initial_tx]
    is still there. *)
Record Reader := mkReader { rd_status : SessionStatus; rd_waiting : bool }.

Section OpenVpnOps.
Context {W : Type} `{FileSystem W} `{Entropy W} `{Clock W} `{Children W} `{WorkDirs W} `{UnixStreams W} `{Threads W}
  `{Management W} `{Static Sessions W}.
Context {B : Type} `{SecretsBackend B W}.

Definition write_script (path content : string) : M W unit :=
  io_try (fs_create_new path 448) ;;
  io_try (fs_write path content).

Definition ifname_probe (path : string) : M W (option string) :=
  r ← io_match (fs_read path);
  mret (match r with
        | inl contents => let name := trim contents in if String.eqb name "" then None else Some name
        | inr _ => None
        end).
Definition read_ifname_with_retry (fuel : nat) (path : string) (timeout : Z) : M W (option string) :=
  start ← instant_now;
  poll_loop fuel (r ← ifname_probe path; mret (Some <$> r)) (start + timeout) 100000000 (Ok None).

Definition setup_error (e : io_error) : NetworkError := Vpn ("management socket setup: " +:+ io_err_text e).
Definition accept_probe (listener : Z) : M W (option Z) :=
  r ← io_match (us_accept listener);
  match r with
  | inl stream =>
      dropped_on_error (io_try_with setup_error (us_nonblocking stream false)) (us_close stream) ;;
      mret (Some stream)
  | inr e => if bool_decide (io_err_kind e = IoWouldBlock) then mret None else throw (Io e)
  end.
Definition accept_with_timeout (fuel : nat) (listener timeout : Z) : M W Z :=
  io_try_with setup_error (us_nonblocking listener true) ;;
  start ← instant_now;
  poll_loop fuel (accept_probe listener) (start + timeout) 50000000
    (Err (Vpn "openvpn did not connect to the management socket in time")).

(** *** The reader thread *)

(** One line: the reader's variables after it, and what it sends to [connect]. *)
Definition reader_line (fuel : nat) (ifname_file line : string) (r : Reader) : M W (Reader * list MgmtEvent) :=
  match state_of_line line with
  | None => mret (r, [])
  | Some state =>
      let status := mkStatus state (vpn_ifname (rd_status r)) in
      if String.eqb state "CONNECTED" then
        ifname ← read_ifname_with_retry fuel ifname_file (secs_to_nanos 2);
        let status := match ifname with Some name => mkStatus state (Some name) | None => status end in
        mret (mkReader status false, if rd_waiting r then [MgmtConnected ifname] else [])
      else if String.eqb state "AUTH_FAILED" || String.eqb state "FATAL" then
        mret (mkReader status false, if rd_waiting r then [MgmtFailed ("openvpn reported state " +:+ state)] else [])
      else mret (mkReader status (rd_waiting r), [])
  end.
Fixpoint reader_lines (fuel : nat) (ifname_file : string) (lines : list string) (r : Reader) : M W (Reader * list MgmtEvent) :=
  match lines with
  | [] => mret (r, [])
  | line :: lines =>
      '(r, sent) ← reader_line fuel ifname_file line r;
      '(r, more) ← reader_lines fuel ifname_file lines r;
      mret (r, sent ++ more)
  end.
Definition background_reader (fuel : nat) (ifname_file : string) (lines : list string) (closed : bool) (r : Reader)
  : M W (Reader * list MgmtEvent) :=
  '(r, sent) ← reader_lines fuel ifname_file lines r;
  if closed && rd_waiting r
  then mret (mkReader (rd_status r) false, sent ++ [MgmtFailed "management connection closed before reaching CONNECTED"])
  else mret (r, sent).

(** *** Connecting *)

Definition cleanup_workdir (workdir : string) : M W unit := io_ignore (fs_remove_dir_all workdir).
Definition reap (child : Z) : M W unit := io_ignore (cp_kill child) ;; io_ignore (cp_wait child).
(** The lines an early return after the spawn runs. *)
Definition give_up_session {A} (child : Z) (workdir : string) (e : NetworkError) : M W A :=
  reap child ;; cleanup_workdir workdir ;; throw e.

Definition up_script_text (ifname_file : string) : string :=
  "#!/bin/sh" +:+ EOL +:+ "umask 077" +:+ EOL +:+ "printf '%s' " +:+ DQUOTE +:+ "$dev" +:+ DQUOTE +:+ " > '"
  +:+ ifname_file +:+ "'" +:+ EOL.
Definition down_script_text (ifname_file : string) : string :=
  "#!/bin/sh" +:+ EOL +:+ ": > '" +:+ ifname_file +:+ "'" +:+ EOL.
Definition openvpn_args (config_path workdir profile_id : string) (userpass : option string) : list string :=
  ["--config"; config_path]%string
  ++ match userpass with Some path => ["--auth-user-pass"%string; path] | None => [] end
  ++ ["--management"%string; path_join workdir "mgmt.sock"; "unix"%string; "--management-client"%string; "--script-security"%string;
      "2"%string; "--up"%string; path_join workdir "up.sh"; "--up-restart"%string; "--down"%string; path_join workdir "down.sh";
      "--daemon"%string; "mitos-openvpn-" +:+ profile_id].

(** The credentials file, when both secrets are stored. *)
Definition write_userpass (secrets : B) (profile_id : string) : M W (option string) :=
  user ← secret_get secrets profile_id "auth-username";
  pass ← secret_get secrets profile_id "auth-password";
  match user, pass with
  | Some user, Some pass =>
      path ← create_secret_temp_file "mitos-ovpn" "auth";
      io_try (fs_write path (user +:+ EOL)) ;;
      io_try (fs_write path (user +:+ EOL +:+ pass +:+ EOL)) ;;
      mret (Some path)
  | _, _ => mret None
  end.

(** From the secrets to the accepted management connection. *)
Definition start_openvpn (fuel : nat) (config_path workdir : string) (secrets : B) (profile_id : string) (listener : Z)
  : M W (Z * Z) :=
  userpass ← write_userpass secrets profile_id;
  r ← io_match (cp_spawn "openvpn" (openvpn_args config_path workdir profile_id userpass));
  match r with
  | inr e => cleanup_workdir workdir ;; throw (Vpn ("failed to spawn openvpn: " +:+ io_err_text e))
  | inl child =>
      (match userpass with
       | Some path => spawn_thread ;; effect (spawn_remove_after (secs_to_nanos 5) path)
       | None => mret tt
       end) ;;
      s ← attempt (accept_with_timeout fuel listener (secs_to_nanos 15));
      match s with
      | inl stream => mret (child, stream)
      | inr e => give_up_session child workdir e
      end
  end.

(** From the management connection to the interface name. *)
Definition await_connected (fuel : nat) (workdir profile_id : string) (child stream : Z) : M W (string * SessionStatus) :=
  w ← io_match (us_write stream ("state on" +:+ EOL));
  match w with
  | inr e => give_up_session child workdir (Io e)
  | inl _ =>
      c ← io_match (us_try_clone stream);
      match c with
      | inr e => give_up_session child workdir (Io e)
      | inl reader =>
          spawn_thread ;;
          '(lines, closed) ← observe (mg_lines reader (secs_to_nanos 60));
          '(r, sent) ← background_reader fuel (path_join workdir "ifname") lines closed (mkReader status_default true);
          match head sent with
          | Some (MgmtConnected ifname) => mret (default ("openvpn-" +:+ profile_id) ifname, rd_status r)
          | Some (MgmtFailed msg) => give_up_session child workdir (Vpn ("openvpn failed to connect: " +:+ msg))
          | None => give_up_session child workdir (Vpn "timed out waiting for openvpn to report CONNECTED")
          end
      end
  end.

Definition openvpn_connect (fuel : nat) (config_path : string) (secrets : B) (profile_id : string) : M W VpnSession :=
  is_file ← observe (fs_is_file config_path);
  if negb is_file then throw (Vpn ("OpenVPN config '" +:+ config_path +:+ "' not found"))
  else
    workdir ← create_secret_temp_dir "mitos-ovpn";
    let ifname_file := path_join workdir "ifname" in
    s ← attempt (write_script (path_join workdir "up.sh") (up_script_text ifname_file) ;;
                 write_script (path_join workdir "down.sh") (down_script_text ifname_file));
    match s with
    | inr e => cleanup_workdir workdir ;; throw e
    | inl _ =>
        l ← io_match (us_bind (path_join workdir "mgmt.sock"));
        match l with
        | inr e => cleanup_workdir workdir ;; throw (Vpn ("binding management socket: " +:+ io_err_text e))
        | inl listener =>
            '(child, stream) ← finally (start_openvpn fuel config_path workdir secrets profile_id listener) (us_close listener);
            '(ifname, status) ← dropped_on_error (
                io_ignore (fs_remove (path_join workdir "mgmt.sock")) ;;
                await_connected fuel workdir profile_id child stream) (us_close stream);
            sessions ← static_get;
            static_put (Some (<[ifname := mkSession child stream workdir status]> (default ∅ sessions)) : Sessions) ;;
            mret (mkVpnSession ifname OpenVpn)
        end
    end.

Definition openvpn_disconnect (ifname : string) : M W unit :=
  sessions ← static_get;
  match (m ← (sessions : Sessions); m !! ifname) with
  | None => throw (NotFound ("no tracked openvpn session for '" +:+ ifname +:+ "'"))
  | Some session =>
      static_put (delete ifname <$> sessions : Sessions) ;;
      io_ignore (us_write (ses_management session) ("signal SIGTERM" +:+ EOL)) ;;
      effect (clk_sleep 300000000) ;;
      reap (ses_child session) ;;
      io_ignore (fs_remove_dir_all (ses_workdir session)) ;;
      effect (us_close (ses_management session))
  end.

Definition openvpn_status (ifname : string) : M W (option SessionStatus) :=
  sessions ← static_get;
  mret (ses_status <$> (m ← (sessions : Sessions); m !! ifname)).
End OpenVpnOps.

(** ** vpn/vpn.rs *)

Section VpnOps.
Context {W : Type} `{FileSystem W} `{Entropy W} `{Clock W} `{Children W} `{WorkDirs W} `{UnixStreams W} `{Threads W}
  `{Management W} `{Static Sessions W} `{Static ActiveVpns W}
  `{Sockets W} `{NlEnv} `{SocketAddrs W} `{Toml RawWireGuardConfig}.
Context {B : Type} `{SecretsBackend B W}.

Definition vpn_track (interface_name : string) (kind : VpnKind) : M W unit :=
  active ← static_get;
  static_put (Some (<[interface_name := kind]> (default ∅ (active : ActiveVpns))) : ActiveVpns).
Definition vpn_untrack (interface_name : string) : M W (option VpnKind) :=
  active ← static_get;
  static_put (delete interface_name <$> (active : ActiveVpns)) ;;
  mret (m ← active; m !! interface_name).

Definition vpn_connect (fuel : nat) (kind : VpnKind) (config : string) (secrets : B) (profile_id : string) : M W VpnSession :=
  session ← match kind with
            | WireGuard => wireguard_connect config secrets profile_id
            | OpenVpn => openvpn_connect fuel config secrets profile_id
            end;
  vpn_track (session_interface session) kind ;;
  mret session.
Definition vpn_disconnect (interface_name : string) : M W unit :=
  kind ← vpn_untrack interface_name;
  match kind with
  | Some WireGuard => wireguard_disconnect interface_name
  | Some OpenVpn => openvpn_disconnect interface_name
  | None => throw (NotFound ("no active VPN session on '" +:+ interface_name +:+ "'"))
  end.
End VpnOps.

(** ** Polling ends *)

(** The clock runs on, and a sleep takes its time; the polled operations take
    none back. *)
Class PollLaws (W : Type) `{Clock W} `{FileSystem W} `{UnixStreams W} := {
  wall : W -> Z;
  wall_instant w : (clk_instant w).1 = wall w;
  wall_passes w : wall w <= wall (clk_instant w).2;
  wall_sleep d w : wall w + d <= wall (clk_sleep d w);
  wall_read p w : wall w <= wall (fs_read p w).2;
  wall_accept fd w : wall w <= wall (us_accept fd w).2;
  wall_nonblocking fd b w : wall w <= wall (us_nonblocking fd b w).2
}.

Section Polling.
Context {W : Type} `{Clock W} `{FileSystem W} `{UnixStreams W} {PL : PollLaws W}.
(** A probe that finds nothing does not turn back the clock. *)
Definition steady {A} (c : M W (option A)) : Prop :=
  forall w, no_panic (c w).1 /\ ((c w).1 = Ok None -> wall w <= wall (c w).2).

Lemma poll_loop_ends {A} fuel (probe : M W (option A)) deadline step timeout w :
  steady probe -> no_panic timeout -> 0 < step ->
  (0 < fuel)%nat -> deadline - wall w <= step * (Z.of_nat fuel - 1) ->
  no_panic (poll_loop fuel probe deadline step timeout w).1.
Proof using PL.
  intros Hp Ht Hs. revert w. induction fuel as [|fuel IH]; intros w Hpos Hf; [lia|]. cbn [poll_loop]. unfold mbind, M_bind.
  destruct (Hp w) as [Hn Hw]. destruct (probe w) as [[[a|]|e|s] w1]; cbn [fst snd] in *; [done| |done|by destruct (Hn s)].
  specialize (Hw eq_refl). unfold instant_now. rewrite observe_run. pose proof (wall_instant w1). pose proof (wall_passes w1).
  destruct (clk_instant w1) as [now w2]; cbn [fst snd] in *. destruct (Z.leb_spec deadline now); [done|].
  unfold effect. pose proof (wall_sleep step w2). destruct fuel as [|fuel]; [nia|]. apply IH; [lia|]. nia.
Qed.
Lemma poll_loop_no_err {A} fuel (probe : M W (option A)) deadline step timeout w e :
  (forall w e, (probe w).1 <> Err e) -> timeout <> Err e -> (poll_loop fuel probe deadline step timeout w).1 <> Err e.
Proof.
  intros Hp Ht. revert w. induction fuel as [|fuel IH]; intros w; cbn [poll_loop]; [done|]. unfold mbind, M_bind.
  specialize (Hp w). destruct (probe w) as [[[a|]|e'|s] w1]; [done| |by destruct (Hp e')|done].
  unfold instant_now. rewrite observe_run. case_match_goal; [done|]. apply IH.
Qed.
Lemma read_ifname_ends fuel path timeout :
  (0 < fuel)%nat -> timeout <= 100000000 * (Z.of_nat fuel - 1) -> safe (read_ifname_with_retry (W := W) fuel path timeout).
Proof using PL.
  intros Hpos Hf w. unfold read_ifname_with_retry, mbind at 1, M_bind at 1, instant_now. rewrite observe_run.
  apply poll_loop_ends; [|done|done|done|pose proof (wall_instant w); pose proof (wall_passes w); lia].
  intros w1. unfold ifname_probe, io_match, mbind, M_bind. pose proof (wall_read path w1). by destruct (fs_read path w1).
Qed.
Lemma read_ifname_ok fuel path timeout w :
  (0 < fuel)%nat -> timeout <= 100000000 * (Z.of_nat fuel - 1) -> is_ok (read_ifname_with_retry (W := W) fuel path timeout w).1.
Proof using PL.
  intros Hpos Hf. pose proof (read_ifname_ends fuel path timeout Hpos Hf w) as Hn.
  assert (He : forall e, (read_ifname_with_retry fuel path timeout w).1 <> Err e).
  { intros e. unfold read_ifname_with_retry, mbind at 1, M_bind at 1, instant_now. rewrite observe_run.
    apply poll_loop_no_err; [|done]. intros w1 e1. unfold ifname_probe, io_match, mbind, M_bind. by destruct (fs_read path w1). }
  destruct (read_ifname_with_retry fuel path timeout w) as [[a|e|s] w1]; [by eexists|by destruct (He e)|by destruct (Hn s)].
Qed.
Lemma accept_probe_steady l : steady (accept_probe l).
Proof using PL.
  intros w. unfold accept_probe, io_match, mbind, M_bind. pose proof (wall_accept l w).
  destruct (us_accept l w) as [[s|e] w1]; cbn [fst snd] in *; [|by case_bool_decide].
  unfold dropped_on_error, io_try_with. by destruct (us_nonblocking s false w1) as [[[]|e] w2].
Qed.
Lemma accept_ends fuel l timeout :
  (0 < fuel)%nat -> timeout <= 50000000 * (Z.of_nat fuel - 1) -> safe (accept_with_timeout fuel l timeout).
Proof using PL.
  intros Hpos Hf. unfold accept_with_timeout. apply safe_bind; [auto with frame|]. intros _ w.
  unfold mbind, M_bind, instant_now. rewrite observe_run.
  apply poll_loop_ends; [apply accept_probe_steady|done|done|done|pose proof (wall_instant w); pose proof (wall_passes w); lia].
Qed.

(** *** The reader's verdict *)
Definition decisive (s : string) : bool := String.eqb s "CONNECTED" || (String.eqb s "AUTH_FAILED" || String.eqb s "FATAL").
(** What [connect] is told for a decisive state. *)
Definition verdict (s : string) (sent : list MgmtEvent) : Prop :=
  if String.eqb s "CONNECTED" then exists name, sent = [MgmtConnected name]
  else sent = [MgmtFailed ("openvpn reported state " +:+ s)].
Definition expected (waiting : bool) (states : list string) (sent : list MgmtEvent) : Prop :=
  if waiting then match List.find decisive states with Some s => verdict s sent | None => sent = [] end else sent = [].

Lemma existsb_find {A} (f : A -> bool) l : existsb f l = match List.find f l with Some _ => true | None => false end.
Proof. induction l as [|x l IH]; cbn; [done|]. by destruct (f x). Qed.
Lemma last_cons {A} (l : list A) x d : List.last (x :: l) d = List.last l x.
Proof.
  revert x d. induction l as [|y l IH]; intros x d; [done|].
  change (List.last (x :: y :: l) d) with (List.last (y :: l) d). by rewrite !IH.
Qed.
Lemma reader_line_state fuel file line s r w :
  (21 <= fuel)%nat -> state_of_line line = Some s ->
  exists r' sent w', reader_line (W := W) fuel file line r w = (Ok (r', sent), w') /\ vpn_state (rd_status r') = s
    /\ rd_waiting r' = rd_waiting r && negb (decisive s)
    /\ if rd_waiting r && decisive s then verdict s sent else sent = [].
Proof using PL.
  intros Hf Hs. unfold reader_line, decisive, verdict. rewrite Hs. destruct (String.eqb s "CONNECTED") eqn:Ec.
  - destruct (read_ifname_ok fuel file (secs_to_nanos 2) w ltac:(lia) ltac:(unfold secs_to_nanos; lia)) as [n Hn].
    unfold mbind, M_bind. destruct (read_ifname_with_retry fuel file (secs_to_nanos 2) w) as [o w1]; cbn [fst] in Hn; subst o.
    unfold mret, M_ret. eexists _, _, _. split; [done|]. cbn [orb negb]. destruct n, (rd_waiting r); cbn; split_and!; by eauto.
  - cbn [orb]. destruct (_ || _); unfold mret, M_ret; eexists _, _, _; (split; [done|]); cbn;
      rewrite ?andb_true_r, ?andb_false_r; by destruct (rd_waiting r).
Qed.
Lemma reader_lines_verdict fuel file lines r w :
  (21 <= fuel)%nat ->
  exists r' sent w', reader_lines (W := W) fuel file lines r w = (Ok (r', sent), w')
    /\ vpn_state (rd_status r') = List.last (omap state_of_line lines) (vpn_state (rd_status r))
    /\ rd_waiting r' = rd_waiting r && negb (existsb decisive (omap state_of_line lines))
    /\ expected (rd_waiting r) (omap state_of_line lines) sent.
Proof using PL.
  intros Hf. revert r w. induction lines as [|l lines IH]; intros r w; cbn [reader_lines omap list_omap].
  - exists r, [], w. cbn. rewrite andb_true_r. unfold expected. cbn. by destruct (rd_waiting r).
  - unfold mbind, M_bind. destruct (state_of_line l) as [s|] eqn:Es.
    + destruct (reader_line_state fuel file l s r w Hf Es) as (r1 & sent1 & w1 & -> & E1 & E2 & E3).
      destruct (IH r1 w1) as (r2 & sent2 & w2 & -> & E4 & E5 & E6). eexists _, _, _. split; [done|].
      rewrite E4, E5, E1, E2. unfold expected in *. rewrite E2 in E6. cbn [existsb List.find].
      split_and!; [symmetry; apply last_cons|by rewrite negb_orb, andb_assoc|].
      destruct (rd_waiting r), (decisive s); cbn [andb negb] in *; by subst; rewrite ?app_nil_r.
    + unfold reader_line at 1. rewrite Es. unfold mret, M_ret. destruct (IH r w) as (r2 & sent2 & w2 & -> & E4 & E5 & E6).
      by exists r2, sent2, w2.
Qed.
End Polling.

(** ** What a session leaves behind *)


Definition untraced_M {W A} (c : M W A) : M (traced W) A := fun w => let '(r, w') := c w.1 in (r, (w', w.2)).
#[export] Instance traced_secrets {B W} `{SecretsBackend B W} : SecretsBackend B (traced W) := {
  secret_get b o k := untraced_M (secret_get b o k);
  secret_set b o k v := untraced_M (secret_set b o k v);
  secret_delete_all b o := untraced_M (secret_delete_all b o)
}.
#[export] Instance traced_management {W} `{Management W} : Management (traced W) := {
  mg_lines fd d w := let '(r, w') := mg_lines fd d w.1 in (r, (w', w.2))
}.
#[export] Instance traced_polling {W} `{PollLaws W} : PollLaws (traced W).
Proof.
  refine {| wall w := wall w.1 |}; intros; cbn.
  - rewrite <- wall_instant. by destruct (clk_instant w.1).
  - pose proof (wall_passes w.1). by destruct (clk_instant w.1).
  - apply wall_sleep.
  - unfold untraced. pose proof (wall_read p w.1). by destruct (fs_read p w.1).
  - unfold untraced. pose proof (wall_accept fd w.1). by destruct (us_accept fd w.1).
  - unfold untraced. pose proof (wall_nonblocking fd b w.1). by destruct (us_nonblocking fd b w.1).
Defined.

Section Lifecycle.
Context {W : Type} `{FileSystem W} `{Entropy W} `{Clock W} `{Children W} `{WorkDirs W} `{UnixStreams W} `{Threads W}
  `{Management W} `{Static Sessions W} {SL : StaticLaws Sessions W} {PL : PollLaws W}.
Context {B : Type} `{SecretsBackend B W} (secrets : B).
(** Reading a secret gives a value or an error. *)
Hypothesis secrets_safe : forall o k (w : W), no_panic (secret_get secrets o k w).1.

(** Nothing on the trace, and no panic. *)
Definition calm {A} (c : M (traced W) A) : Prop := keeps snd c /\ safe c.
Lemma untraced_keeps {A} (c : io W A) : keeps_io snd (untraced c).
Proof. intros w. apply untraced_quiet. Qed.
Lemma secret_get_calm o k : calm (secret_get secrets o k).
Proof using secrets_safe.
  split; intros w; cbn; unfold untraced_M; pose proof (secrets_safe o k w.1); by destruct (secret_get secrets o k w.1).
Qed.
Hint Resolve untraced_keeps traced_instant : frame.

Lemma poll_loop_keeps {A} fuel (probe : M (traced W) (option A)) deadline step timeout :
  keeps snd probe -> keeps snd (poll_loop fuel probe deadline step timeout).
Proof.
  intros Hp. induction fuel as [|fuel IH]; cbn [poll_loop]; [done|]. unfold instant_now. frame.
Qed.
Lemma create_attempts_calm tries create p s what :
  (forall path, keeps_io snd (create path)) -> calm (create_attempts (W := traced W) tries create p s what).
Proof.
  intros Hc. induction tries as [|n [IH1 IH2]]; [done|]. cbn [create_attempts]. unfold random_temp_path, random_suffix.
  split; frame; apply Hc || apply untraced_keeps.
Qed.
Lemma write_userpass_calm id : calm (write_userpass secrets id).
Proof using secrets_safe.
  unfold write_userpass. destruct (secret_get_calm id "auth-username") as [U1 U2]. destruct (secret_get_calm id "auth-password") as [P1 P2].
  destruct (create_attempts_calm 4 (fun p => fs_create_new p 384) "mitos-ovpn" "auth" "file") as [C1 C2]; [intros; apply untraced_keeps|].
  split; frame; done || apply untraced_keeps.
Qed.
Lemma accept_calm fuel l timeout :
  (0 < fuel)%nat -> timeout <= 50000000 * (Z.of_nat fuel - 1) -> calm (accept_with_timeout (W := traced W) fuel l timeout).
Proof using PL.
  intros. split; [|by apply accept_ends]. unfold accept_with_timeout, instant_now. frame; [apply untraced_keeps|].
  apply poll_loop_keeps. unfold accept_probe. frame; [apply untraced_keeps|].
  intros w. unfold dropped_on_error, io_try_with. pose proof (untraced_keeps (us_nonblocking z false) w) as Hq. cbn in *.
  by destruct (untraced (us_nonblocking z false) w) as [[?|?] ?].
Qed.
(** A calm step before a body whose failures leave no trace either. *)
Definition leaves {A} (c : M (traced W) A) (Q : outcome A -> list sock_event -> traced W -> Prop) : Prop :=
  forall w, exists tr, (c w).2.2 = w.2 ++ tr /\ Q (c w).1 tr (c w).2.
Lemma leaves_calm_bind {A C} (m : M (traced W) A) (g : A -> M (traced W) C) Q :
  calm m -> (forall a, leaves (g a) Q) -> (forall e w, Q (Err e) [] w) -> leaves (m ≫= g) Q.
Proof.
  intros [Hk Hs] Hg He w. unfold mbind, M_bind. specialize (Hk w). specialize (Hs w).
  destruct (m w) as [[a|e|s] w1]; cbn [fst snd] in *; [|exists []; by rewrite app_nil_r|by destruct (Hs s)].
  rewrite <- Hk. apply Hg.
Qed.
Lemma leaves_bind {A C} (m : M (traced W) A) (g : A -> M (traced W) C) P Q :
  leaves m P -> (forall a t0 w0, P (Ok a) t0 w0 -> leaves (g a) (fun r tr => Q r (t0 ++ tr))) ->
  (forall e tr w, P (Err e) tr w -> Q (Err e) tr w) -> (forall s tr w, P (Panic s) tr w -> Q (Panic s) tr w) -> leaves (m ≫= g) Q.
Proof.
  intros Hm Hg He Hs w. unfold mbind, M_bind. destruct (Hm w) as (tr & Ht & Hp).
  destruct (m w) as [[a|e|s] w1]; cbn [fst snd] in *; [|eauto..].
  destruct (Hg _ _ _ Hp w1) as (tr2 & Ht2 & Hq). exists (tr ++ tr2). by rewrite Ht2, Ht, <- app_assoc.
Qed.
Lemma leaves_mono {A} (c : M (traced W) A) (P Q : outcome A -> list sock_event -> traced W -> Prop) :
  leaves c P -> (forall r tr w, P r tr w -> Q r tr w) -> leaves c Q.
Proof. intros Hc Hpq w. destruct (Hc w) as (tr & Ht & Hp). eauto. Qed.
Lemma leaves_finally {A} (c : M (traced W) A) d Q :
  leaves c (fun r tr _ => Q r tr) -> (forall w, (d w).2 = w.2) -> leaves (finally c d) (fun r tr _ => Q r tr).
Proof.
  intros Hc Hd w. destruct (Hc w) as (tr & Ht & Hp). exists tr. unfold finally. destruct (c w) as [r w1]; cbn [fst snd] in *. by rewrite Hd.
Qed.
Lemma leaves_dropped {A} (c : M (traced W) A) d Q :
  leaves c (fun r tr _ => Q r tr) -> (forall w, (d w).2 = w.2) -> leaves (dropped_on_error c d) (fun r tr _ => Q r tr).
Proof.
  intros Hc Hd w. destruct (Hc w) as (tr & Ht & Hp). exists tr. unfold dropped_on_error.
  destruct (c w) as [[a|e|s] w1]; cbn [fst snd] in *; by rewrite ?Hd.
Qed.

(** The child was asked to end and waited for, and its directory removed, as far
    as the system did these things. *)
Definition gave_up (child : Z) (dir : string) (tr : list sock_event) : Prop :=
  exists killed reaped removed, tr = [EvKill child killed; EvWait child reaped; EvRmDir dir removed].
Lemma give_up_leaves {A} child dir e :
  leaves (give_up_session (A := A) child dir e) (fun r tr _ => r = Err e /\ gave_up child dir tr).
Proof.
  intros w. unfold give_up_session, reap, cleanup_workdir, mbind, M_bind, io_ignore, throw. cbn.
  destruct (cp_kill child w.1) as [r1 w1]. cbn. destruct (cp_wait child w1) as [r2 w2]. cbn.
  destruct (fs_remove_dir_all dir w2) as [r3 w3]. cbn. eexists. split; [by rewrite <- !app_assoc|]. split; [done|by eexists _, _, _].
Qed.
Lemma cleanup_leaves {A} dir e :
  leaves (cleanup_workdir dir ;; throw e : M (traced W) A) (fun r tr _ => r = Err e /\ exists removed, tr = [EvRmDir dir removed]).
Proof.
  intros w. unfold cleanup_workdir, mbind, M_bind, io_ignore, throw. cbn.
  destruct (fs_remove_dir_all dir w.1) as [r w1]. cbn. eexists. split; [done|]. by eauto.
Qed.
(** A thread that cannot be made is a panic; nothing else happens. *)
Lemma spawn_thread_leaves : leaves spawn_thread (fun r tr _ => tr = [] /\ match r with Ok _ => True | Err _ => False | Panic s => s = SPAWN end).
Proof.
  intros w. exists []. rewrite app_nil_r. unfold spawn_thread, mbind, M_bind. rewrite observe_run. cbn. destruct (thread_starts w.1) as [[|] w1]; cbn; done.
Qed.
(** The traces of a failed start: nothing but the directory, or everything the
    started child holds. *)
Definition begun (config dir id : string) (child : Z) (tr : list sock_event) : Prop :=
  exists userpass, tr = [EvSpawn child "openvpn" (openvpn_args config dir id userpass)].
(** What openvpn was told over the management connection. *)
Definition told_state_on (tr : list sock_event) : Prop := tr = [] \/ exists stream ok, tr = [EvTell stream ("state on" +:+ EOL) ok].
Definition failed_start (config dir id : string) (tr : list sock_event) : Prop :=
  tr = [] \/ (exists removed, tr = [EvRmDir dir removed])
  \/ exists child t1 t2 t3, tr = t1 ++ t2 ++ t3 /\ begun config dir id child t1 /\ told_state_on t2 /\ gave_up child dir t3.
(** A panic leaves the child running. *)
Definition panicked_start (config dir id : string) (why : string) (tr : list sock_event) : Prop :=
  why = SPAWN /\ exists child t1 t2, tr = t1 ++ t2 /\ begun config dir id child t1 /\ told_state_on t2.

Lemma calm_io_match {A} (c : io W A) : calm (io_match (untraced c)).
Proof. split; [apply keeps_io_match, untraced_keeps|apply safe_io_match]. Qed.
Lemma calm_attempt {A} (c : M (traced W) A) : calm c -> calm (attempt c).
Proof. intros [H1' H2']. split; [by apply keeps_attempt|by apply safe_attempt]. Qed.

(** A step that always gives a value. *)
Definition sure {A} (c : M (traced W) A) : Prop := keeps snd c /\ forall w, is_ok (c w).1.
Lemma leaves_sure_bind {A C} (m : M (traced W) A) (g : A -> M (traced W) C) Q :
  sure m -> (forall a, leaves (g a) Q) -> leaves (m ≫= g) Q.
Proof.
  intros [Hk Hs] Hg w. unfold mbind, M_bind. specialize (Hk w). destruct (Hs w) as [a Ha].
  destruct (m w) as [r w1]; cbn [fst snd] in *; subst r. rewrite <- Hk. apply Hg.
Qed.
Lemma sure_attempt {A} (c : M (traced W) A) : calm c -> sure (attempt c).
Proof.
  intros [Hk Hs]. split; [by apply keeps_attempt|]. intros w. specialize (Hs w). unfold attempt.
  destruct (c w) as [[a|e|s] w1]; [by eexists..|by destruct (Hs s)].
Qed.
Lemma sure_io_match {A} (c : io W A) : sure (io_match (untraced c)).
Proof. split; [apply keeps_io_match, untraced_keeps|]. intros w. unfold io_match. destruct (untraced c w). by eexists. Qed.
Lemma sure_io_ignore {A} (c : io W A) : sure (io_ignore (untraced c)).
Proof. split; [apply keeps_io_ignore, untraced_keeps|by eexists]. Qed.

Lemma sure_bind {A C} (m : M (traced W) A) (g : A -> M (traced W) C) : sure m -> (forall a, sure (g a)) -> sure (m ≫= g).
Proof.
  intros [Hk Hs] Hg. split; [apply keeps_bind; [done|]; intros a; apply Hg|]. intros w. unfold mbind, M_bind.
  destruct (Hs w) as [a Ha]. destruct (m w) as [r w1]; cbn [fst] in *; subst r. apply Hg.
Qed.
Lemma sure_ret {A} (a : A) : sure (mret a).
Proof. split; [done|by eexists]. Qed.
Lemma read_ifname_sure fuel path timeout :
  (0 < fuel)%nat -> timeout <= 100000000 * (Z.of_nat fuel - 1) -> sure (read_ifname_with_retry (W := traced W) fuel path timeout).
Proof using PL.
  intros Hpos Hf. split.
  - unfold read_ifname_with_retry, instant_now, ifname_probe. frame. apply poll_loop_keeps. frame. apply untraced_keeps.
  - intros w. by apply read_ifname_ok.
Qed.
Lemma reader_line_sure fuel file line r : (21 <= fuel)%nat -> sure (reader_line (W := traced W) fuel file line r).
Proof using PL.
  intros Hf. unfold reader_line. destruct (state_of_line line); [|apply sure_ret]. case_match_goal; [|case_match_goal; apply sure_ret].
  apply sure_bind; [apply read_ifname_sure; unfold secs_to_nanos; lia|]. intros ?. apply sure_ret.
Qed.
Lemma background_reader_sure fuel file lines closed r :
  (21 <= fuel)%nat -> sure (background_reader (W := traced W) fuel file lines closed r).
Proof using PL.
  intros Hf. unfold background_reader. apply sure_bind.
  - revert r. induction lines as [|l lines IH]; intros r; [apply sure_ret|]. cbn [reader_lines].
    apply sure_bind; [by apply reader_line_sure|]. intros [r1 sent]. apply sure_bind; [apply IH|]. intros [r2 more]. apply sure_ret.
  - intros [r1 sent]. case_match_goal; apply sure_ret.
Qed.

Lemma start_leaves fuel config dir id l :
  (301 <= fuel)%nat ->
  leaves (start_openvpn fuel config dir secrets id l) (fun r tr _ =>
    match r with
    | Ok (child, _) => begun config dir id child tr
    | Err _ => failed_start config dir id tr
    | Panic s => panicked_start config dir id s tr
    end).
Proof using PL secrets_safe.
  intros Hf. unfold start_openvpn. apply leaves_calm_bind; [apply write_userpass_calm| |by left]. intros userpass.
  apply (leaves_bind _ _ (fun r tr _ => match r with
    | Ok (inl child) => tr = [EvSpawn child "openvpn" (openvpn_args config dir id userpass)] | Ok (inr _) => tr = [] | _ => False end)); [| |done..].
  - intros w. unfold io_match. cbn. destruct (cp_spawn _ _ w.1) as [[c|e] w1]; cbn; [by eexists|exists []; by rewrite app_nil_r].
  - intros [child|e] t0 w0 ->; [|eapply leaves_mono; [apply cleanup_leaves|]; intros r tr w (-> & rm & ->); right; left; by exists rm].
    set (ev := [EvSpawn _ _ _]). assert (Hev : begun config dir id child ev) by (by exists userpass).
    apply (leaves_bind _ _ (fun r tr _ => tr = [] /\ match r with Ok _ => True | Err _ => False | Panic s => s = SPAWN end)).
    + destruct userpass; [|intros w; exists []; by rewrite app_nil_r]. eapply leaves_bind; [apply spawn_thread_leaves| |by intros e tr w [_ []]|done].
      intros u t0 w1 [-> _] w. exists []. by rewrite app_nil_r.
    + intros u t0 w1 [-> _]. apply leaves_sure_bind; [apply sure_attempt, accept_calm; unfold secs_to_nanos; lia|].
      intros [stream|e]; [intros w; exists []; split; [symmetry; apply app_nil_r|done]|].
      eapply leaves_mono; [apply give_up_leaves|]. intros r tr w [-> Hg]. right. right. exists child, ev, [], tr. split_and!; [done|done|by left|done].
    + by intros e tr w [_ []].
    + intros s tr w [-> ->]. split; [done|]. exists child, ev, []. split_and!; [done|done|by left].
Qed.
Lemma await_leaves fuel dir id child stream :
  (21 <= fuel)%nat ->
  leaves (await_connected fuel dir id child stream) (fun r tr _ =>
    match r with
    | Ok _ => told_state_on tr
    | Err _ => exists t2 t3, tr = t2 ++ t3 /\ told_state_on t2 /\ gave_up child dir t3
    | Panic s => s = SPAWN /\ told_state_on tr
    end).
Proof using PL.
  intros Hf. unfold await_connected.
  apply (leaves_bind _ _ (fun r tr _ => match r with Ok _ => exists ok, tr = [EvTell stream ("state on" +:+ EOL) ok] | _ => False end)); [| |done..].
  { intros w. unfold io_match. cbn. destruct (us_write stream _ w.1) as [r w1]. cbn. eexists. split; [done|]. by eauto. }
  intros a t0 w0 (ok & ->). set (ev := [EvTell _ _ _]). assert (Hev : told_state_on ev) by (right; by exists stream, ok).
  set (Q := fun (r : outcome (string * SessionStatus)) tr => match r with
    | Ok _ => told_state_on tr | Err _ => exists t2 t3, tr = t2 ++ t3 /\ told_state_on t2 /\ gave_up child dir t3 | Panic s => s = SPAWN /\ told_state_on tr end).
  assert (Hg : forall e, leaves (give_up_session child dir e) (fun r tr _ => Q r (ev ++ tr))).
  { intros e. eapply leaves_mono; [apply give_up_leaves|]. intros r tr w [-> Hg]. by exists ev, tr. }
  destruct a as [[]|e]; [|apply Hg]. apply leaves_sure_bind; [apply sure_io_match|]. intros [reader|e]; [|apply Hg].
  eapply leaves_bind; [apply spawn_thread_leaves| |by intros e tr w [_ []]|intros s tr w [-> ->]; by rewrite app_nil_r].
  intros u t0 w1 [-> _]. apply leaves_sure_bind.
  { split; [apply keeps_observe; intros w; cbn; by destruct (mg_lines reader (secs_to_nanos 60) w.1)|].
    intros w. rewrite observe_run. by eexists. }
  intros [lines closed]. apply leaves_sure_bind; [by apply background_reader_sure|]. intros [r sent].
  destruct (head sent) as [[ifname|msg]|]; [|apply Hg..]. intros w. exists []. split; [symmetry; apply app_nil_r|done].
Qed.
Lemma connect_leaves fuel config id :
  (301 <= fuel)%nat ->
  leaves (openvpn_connect fuel config secrets id) (fun r tr w =>
    match r with
    | Ok s => exists child stream dir status t1 t2, tr = t1 ++ t2 /\ begun config dir id child t1 /\ told_state_on t2 /\ session_kind s = OpenVpn
        /\ (st_get w : Sessions) ≫= (fun m => m !! session_interface s) = Some (mkSession child stream dir status)
    | Err _ => exists dir, failed_start config dir id tr
    | Panic s => exists dir, panicked_start config dir id s tr
    end).
Proof using PL SL secrets_safe.
  intros Hf. unfold openvpn_connect. apply leaves_sure_bind.
  { split; [apply keeps_observe; intros w; cbn; by destruct (fs_is_file config w.1)|]. intros w. rewrite observe_run. by eexists. }
  intros [|]; cbn [negb]; [|intros w; exists []; split; [symmetry; apply app_nil_r|exists ""%string; by left]].
  apply leaves_calm_bind; [apply create_attempts_calm; intros; apply untraced_keeps| |intros; exists ""%string; by left].
  intros dir. apply leaves_sure_bind; [apply sure_attempt; unfold write_script; split; frame; apply untraced_keeps|].
  assert (Hclean : forall e, leaves (cleanup_workdir dir ;; throw e) (fun (r : outcome VpnSession) tr _ =>
    exists e, r = Err e /\ failed_start config dir id tr)).
  { intros e. eapply leaves_mono; [apply cleanup_leaves|]. intros r tr w (-> & rm & ->). exists e. split; [done|]. right. left. by exists rm. }
  intros [[]|e]; [|eapply leaves_mono; [apply Hclean|]; intros r tr w (e' & -> & Hs); by exists dir].
  apply leaves_sure_bind; [apply sure_io_match|].
  intros [l|e]; [|eapply leaves_mono; [apply Hclean|]; intros r tr w (e' & -> & Hs); by exists dir].
  eapply leaves_bind; [apply leaves_finally; [by apply start_leaves|done]| |intros; by exists dir|intros; by exists dir].
  intros [child stream] t0 w0 Hst. eapply leaves_bind.
  - apply leaves_dropped; [|done]. apply leaves_sure_bind; [apply sure_io_ignore|]. intros _. apply await_leaves. lia.
  - intros [ifname status] t1 w1 Ht1. intros w. exists []. unfold static_get, static_put, mbind, M_bind, mret, M_ret. cbn [fst snd].
    split; [symmetry; apply app_nil_r|]. exists child, stream, dir, status, t0, t1. rewrite app_nil_r. split_and!; [done..|].
    rewrite st_get_put. cbn. by rewrite lookup_insert_eq.
  - intros e tr w (t2 & t3 & -> & Hto & Hgu). exists dir. right. right. by exists child, t0, t2, t3.
  - intros s tr w [-> Ht]. exists dir. split; [done|]. by exists child, t0, tr.
Qed.
Lemma disconnect_leaves ifname child stream dir status (w : traced W) :
  (st_get w : Sessions) ≫= (fun m => m !! ifname) = Some (mkSession child stream dir status) ->
  exists w' told t, openvpn_disconnect ifname w = (Ok tt, w') /\ w'.2 = w.2 ++ EvTell stream ("signal SIGTERM" +:+ EOL) told :: t /\ gave_up child dir t.
Proof.
  intros Hs. unfold openvpn_disconnect, static_get, mbind at 1, M_bind at 1. rewrite Hs.
  unfold static_put, io_ignore, effect, reap, mbind, M_bind. cbn.
  destruct (us_write stream _ _) as [r0 w0]. cbn. destruct (cp_kill child _) as [r1 w1]. cbn.
  destruct (cp_wait child w1) as [r2 w2]. cbn. destruct (fs_remove_dir_all dir w2) as [r3 w3]. cbn.
  eexists _, _, _. split; [done|]. cbn. split; [by rewrite <- !app_assoc|by eexists _, _, _].
Qed.
End Lifecycle.

(** ** Properties *)

(** C19: What starting and stopping openvpn asks of the system.  With time for
    the polls (301 turns): when [connect] succeeds, it has started one child,
    with the arguments of the profile, that child is in the session table under
    the interface it reports, and disconnecting that interface tells openvpn to
    end over the management connection, then kills the child, waits for it and
    removes its directory, in that order.  When it fails after the start, it has
    killed that child, waited for it and removed the directory before it returns
    the error, but has not told openvpn to end: the child may be the launcher
    of [--daemon] only, so openvpn itself can outlive the error.  It panics only
    where a thread cannot be made, and then leaves the child as it is.  Each call
    is recorded with whether it succeeded; none is repeated where it did not. *)
Theorem openvpn_session_lifecycle {W} `{FileSystem W} `{Entropy W} `{Clock W} `{Children W} `{WorkDirs W} `{UnixStreams W} `{Threads W}
    `{Management W} `{Static Sessions W} `{!StaticLaws Sessions W} `{!PollLaws W} {B} `{SecretsBackend B W}
    (secrets : B) fuel config id (w : traced W) :
  (forall o k (w : W), no_panic (secret_get secrets o k w).1) -> (301 <= fuel)%nat ->
  let '(r, w') := openvpn_connect fuel config secrets id w in
  exists tr, w'.2 = w.2 ++ tr /\
  match r with
  | Ok s => session_kind s = OpenVpn /\ exists child stream dir t1 t2, tr = t1 ++ t2 /\ begun config dir id child t1 /\ told_state_on t2
      /\ exists w'' told t, openvpn_disconnect (session_interface s) w' = (Ok tt, w'')
         /\ w''.2 = w'.2 ++ EvTell stream ("signal SIGTERM" +:+ EOL) told :: t /\ gave_up child dir t
  | Err _ => exists dir, failed_start config dir id tr
  | Panic why => exists dir, panicked_start config dir id why tr
  end.
Proof.
  intros Hsec Hf. destruct (connect_leaves secrets Hsec fuel config id Hf w) as (tr & Ht & Hq).
  destruct (openvpn_connect fuel config secrets id w) as [r w']; cbn [fst snd] in *. exists tr. split; [done|].
  destruct r as [s|e|why]; [|done..].
  destruct Hq as (child & stream & dir & status & t1 & t2 & -> & Hst & Hto & Hk & Hs). split; [done|]. exists child, stream, dir, t1, t2. split_and!; [done..|].
  by apply (disconnect_leaves _ _ _ _ status).
Qed.

(** What openvpn reports decides the connection, once.  Whatever the lines,
    the reader ends; the state it keeps is that of the last state line; and
    [connect] is told exactly one thing: the first state among [CONNECTED],
    [AUTH_FAILED] and [FATAL], a failure when the connection closes before any
    of them, and nothing while none has come. *)
Theorem openvpn_first_verdict {W} `{Clock W} `{FileSystem W} `{UnixStreams W} `{!PollLaws W} fuel file lines closed status (w : W) :
  (21 <= fuel)%nat ->
  exists r sent w', background_reader fuel file lines closed (mkReader status true) w = (Ok (r, sent), w')
    /\ vpn_state (rd_status r) = List.last (omap state_of_line lines) (vpn_state status)
    /\ match List.find decisive (omap state_of_line lines) with
       | Some s => verdict s sent
       | None => sent = if closed then [MgmtFailed "management connection closed before reaching CONNECTED"] else []
       end.
Proof.
  intros Hf. destruct (reader_lines_verdict fuel file lines (mkReader status true) w Hf) as (r & sent & w' & Hr & E1 & E2 & E3).
  unfold background_reader, mbind, M_bind. rewrite Hr. unfold expected in E3. cbn [rd_waiting rd_status andb] in *.
  rewrite existsb_find in E2. destruct (List.find decisive (omap state_of_line lines)); rewrite E2; cbn [negb];
    rewrite ?andb_false_r, ?andb_true_r; [by eexists _, _, _|]. subst sent. destruct closed; by eexists _, _, _.
Qed.

(** A world of time and the session table, in which openvpn comes up on
    [tun0]. *)
Definition tun_world : Type := Z * Sessions.
Definition tun_lines : list string := [">INFO:OpenVPN Management Interface"; ">STATE:1,WAIT,,,"; ">STATE:2,CONNECTED,SUCCESS,10.8.0.2,"]%string.
Definition tun_clock : Clock tun_world := {|
  clk_instant w := (w.1, w); clk_unix w := ((w.1, 0), w); clk_pid _ := 1; clk_sleep d w := (w.1 + d, w.2) |}.
Definition tun_files : FileSystem tun_world := {|
  fs_read _ w := (inl "tun0"%string, w); fs_read_raw _ w := (inl "tun0"%string, w); fs_write _ _ w := (inl tt, w);
  fs_rename _ _ w := (inl tt, w); fs_remove _ w := (inl tt, w); fs_create_dir_all _ w := (inl tt, w);
  fs_read_dir _ w := (inl [], w); fs_mtime _ w := (inl 0, w); fs_chmod _ _ w := (inl tt, w);
  fs_exists _ w := (true, w); fs_read_link _ w := (inr quick_error, w); fs_open _ w := (inl tt, w);
  fs_create_new _ _ w := (inl tt, w); fs_create_dir _ _ w := (inl tt, w) |}.
Definition tun_entropy : Entropy tun_world := {| rand_bytes n w := (inl (replicate n 7), w); env_temp_dir := "/tmp" |}.
Definition tun_children : Children tun_world := {|
  cp_spawn _ _ w := (inl 42, w); cp_kill _ w := (inl tt, w); cp_wait _ w := (inl tt, w) |}.
Definition tun_dirs : WorkDirs tun_world := {| fs_is_file _ w := (true, w); fs_remove_dir_all _ w := (inl tt, w) |}.
Definition tun_streams : UnixStreams tun_world := {|
  us_bind _ w := (inl 3, w); us_nonblocking _ _ w := (inl tt, w); us_accept _ w := (inl 4, w); us_write _ _ w := (inl tt, w);
  us_try_clone _ w := (inl 5, w); us_close _ w := w |}.
Definition tun_threads : Threads tun_world := {| thread_starts w := (true, w); spawn_remove_after _ _ w := w |}.
Definition tun_management : Management tun_world := {| mg_lines _ _ w := ((tun_lines, false), w) |}.
Definition tun_static : Static Sessions tun_world := {| st_get w := w.2; st_put s w := (w.1, s) |}.
#[local] Existing Instances tun_clock tun_files tun_entropy tun_children tun_dirs tun_streams tun_threads tun_management tun_static.
Definition tun_static_laws : StaticLaws Sessions tun_world.
Proof. by constructor. Defined.
Definition tun_polling : PollLaws tun_world.
Proof. refine {| wall := fun w : tun_world => w.1 |}; intros; cbn; lia. Defined.
#[local] Existing Instances tun_static_laws tun_polling.

Lemma openvpn_session_lifecycle_witness :
  exists w'', openvpn_disconnect "tun0"
      (openvpn_connect (W := traced tun_world) 301 "/etc/openvpn/home.ovpn" NullSecrets "home" ((0, None), [])).2 = (Ok tt, w'').
Proof.
  pose proof (openvpn_session_lifecycle (W := tun_world) NullSecrets 301 "/etc/openvpn/home.ovpn" "home" ((0, None), [])
    (fun _ _ _ => no_panic_Ok None) ltac:(lia)) as Ht.
  assert (Hr : (openvpn_connect (W := traced tun_world) 301 "/etc/openvpn/home.ovpn" NullSecrets "home" ((0, None), [])).1
    = Ok (mkVpnSession "tun0" OpenVpn)) by (vm_compute; done).
  destruct (openvpn_connect _ _ _ _ _) as [r w']; cbn [fst snd] in *; subst r.
  destruct Ht as (tr & _ & _ & c & st & d & t1 & t2 & _ & _ & _ & w'' & told & t & Hd & _). by exists w''.
Defined.
Lemma openvpn_first_verdict_witness :
  exists r name w', background_reader (W := tun_world) 21 "/tmp/ifname" tun_lines false (mkReader status_default true) (0, None)
    = (Ok (r, [MgmtConnected name]), w') /\ vpn_state (rd_status r) = "CONNECTED"%string.
Proof.
  destruct (openvpn_first_verdict (W := tun_world) 21 "/tmp/ifname" tun_lines false status_default (0, None) ltac:(lia))
    as (r & sent & w' & Hr & Hs & Hv).
  assert (Hf : List.find decisive (omap state_of_line tun_lines) = Some "CONNECTED"%string) by (vm_compute; done).
  rewrite Hf in Hv. destruct Hv as [name ->]. by exists r, name, w'.
Defined.

(** The directory outlives an error while the credentials are read: a backend
    that refuses leaves it there, with the scripts in it. *)
Inductive FailingSecrets := failing_secrets.
#[export] Instance failing_backend {W} : SecretsBackend FailingSecrets W := {|
  secret_get _ _ _ := throw (Io quick_error); secret_set _ _ _ _ := throw (Io quick_error); secret_delete_all _ _ := throw (Io quick_error) |}.
Example openvpn_workdir_left :
  let '(r, w) := openvpn_connect (W := traced tun_world) 301 "/etc/openvpn/home.ovpn" failing_secrets "home" ((0, None), []) in
  r = Err (Io quick_error) /\ w.2 = [].
Proof. vm_compute. auto. Qed.
