(* ===== verification/Connectivity.v ===== *)
(** * The connectivity check (connectivity/checker.rs, captive_portal.rs,
    internet.rs)

    One plain HTTP request to a known address, and what its answer says about
    the network. *)

From Stdlib Require Import Ascii String.
From S2P Require Import Prelude RustStr IpAddr Sys World Connection Pac.

Definition is_usable (s : ConnectivityState) : bool :=
  match s with CsFull | CsLimited => true | _ => false end.

Definition portal_classify (status expected_status : Z) (redirected : bool) : ConnectivityState :=
  if redirected || ((300 <=? status) && (status <? 400)) then CsPortal
  else if status =? expected_status then CsFull
  else if (200 <=? status) && (status <? 300) then CsLimited
  else CsLimited.

Definition EXPECTED_STATUS : Z := 204.
Record ParsedUrl := mkParsedUrl { url_host : string; url_port : Z; url_path : string }.
Definition parse_url (url : string) : outcome ParsedUrl :=
  rest ← ok_or (strip_prefix "http://" url)
    (Config ("connectivity check URL '" +:+ url +:+ "' must be plain http://"));
  let '(authority, path) := match split_once "/" rest with
                            | Some (a, p) => (a, "/" +:+ p)
                            | None => (rest, "/")
                            end in
  let '(host, port) := match split_once ":" authority with
                       | Some (h, p) => (h, default 80 (parse_uint 16 p))
                       | None => (authority, 80)
                       end in
  Ok (mkParsedUrl host port path).

Definition MAX_RESPONSE_BYTES : Z := 16 * 1024.
Definition CHUNK : nat := Z.to_nat 4096.

Definition check_request (u : ParsedUrl) : string :=
  "GET " +:+ url_path u +:+ " HTTP/1.1" +:+ CRLF +:+ "Host: " +:+ url_host u +:+ CRLF
  +:+ "User-Agent: mitos-network/0.1" +:+ CRLF +:+ "Connection: close" +:+ CRLF +:+ CRLF.

(** What the bytes of the answer say. *)
Definition verdict_of (response : list Z) : ConnectivityState :=
  if bool_decide (response = []) then CsNone
  else
    let text := from_utf8_lossy response in
    match head (lines text) with
    | None => CsNone
    | Some status_line =>
        match split_whitespace status_line !! 1%nat ≫= parse_uint 16 with
        | None => CsNone
        | Some status =>
            let has_location := existsb (fun l => starts_with "location:" (to_ascii_lowercase l)) (lines text) in
            portal_classify status EXPECTED_STATUS has_location
        end
    end.

Section Check.
Context {W : Type} `{SocketAddrs W} `{TcpStreams W} `{TcpReads W}.

(** [loop { stream.read(&mut chunk) ... }]: each round adds a byte or ends, so
    [MAX_RESPONSE_BYTES] and one rounds are enough. *)
Fixpoint read_response (fuel : nat) (fd : Z) (response : list Z) : M W (list Z) :=
  match fuel with
  | O => lift (Panic "fuel")
  | S fuel =>
      r ← io_match (tcp_read fd CHUNK);
      match r with
      | inr _ => mret response
      | inl [] => mret response
      | inl chunk =>
          let response := response ++ chunk in
          if MAX_RESPONSE_BYTES <=? Z.of_nat (length response) then mret response
          else read_response fuel fd response
      end
  end.
Definition RESPONSE_FUEL : nat := Z.to_nat (MAX_RESPONSE_BYTES + 1).

(** [to_socket_addrs(..).ok().and_then(next) ... connect_timeout] *)
Definition open_stream (u : ParsedUrl) (timeout : Z) : M W (option Z) :=
  r ← io_match (to_socket_addrs (url_host u +:+ ":" +:+ dec (url_port u)));
  match r with
  | inl (addr :: _) =>
      s ← io_match (tcp_connect_timeout (sa_ip addr) (sa_port addr) timeout);
      mret (match s with inl fd => Some fd | inr _ => None end)
  | _ => mret None
  end.

Definition check (url : string) (timeout : Z) : M W ConnectivityState :=
  match parse_url url with
  | Panic s => lift (Panic s)
  | Err _ => mret CsUnknown
  | Ok u =>
      s ← open_stream u timeout;
      match s with
      | None => mret CsNone
      | Some fd =>
          finally (
            io_try (tcp_read_timeout fd timeout) ;;
            io_try (tcp_write_timeout fd timeout) ;;
            sent ← io_match (tcp_write_all fd (str_bytes (check_request u)));
            match sent with
            | inr _ => mret CsNone
            | inl _ => response ← read_response RESPONSE_FUEL fd []; mret (verdict_of response)
            end) (tcp_close fd)
      end
  end.
End Check.

(** ** The check ends, within its buffer *)

Section Reading.
Context {W : Type} `{TcpReads W}.
(** [read] fills at most the buffer it is given. *)
Hypothesis read_fits : forall fd n (w w' : W) b, tcp_read fd n w = (inl b, w') -> (length b <= n)%nat.

Lemma read_response_bounded fuel fd resp (w : W) :
  Z.of_nat (length resp) < MAX_RESPONSE_BYTES -> MAX_RESPONSE_BYTES - Z.of_nat (length resp) < Z.of_nat fuel ->
  exists out w', read_response fuel fd resp w = (Ok out, w') /\ Z.of_nat (length out) < MAX_RESPONSE_BYTES + 4096
    /\ exists tl, out = resp ++ tl.
Proof using read_fits.
  revert resp w. induction fuel as [|fuel IH]; intros resp w Hlt Hf; [lia|]. cbn [read_response]. unfold mbind, M_bind, io_match.
  destruct (tcp_read fd CHUNK w) as [[b|e] w1] eqn:E; cbn [fst snd].
  2:{ exists resp, w1. split_and!; [done|lia|]. exists []. by rewrite app_nil_r. }
  pose proof (read_fits _ _ _ _ _ E) as Hb. change CHUNK with (Z.to_nat 4096) in Hb.
  destruct b as [|x b]; [exists resp, w1; split_and!; [done|lia|]; exists []; by rewrite app_nil_r|].
  assert (Hl : length (resp ++ x :: b) = (length resp + length (x :: b))%nat) by apply length_app.
  destruct (Z.leb_spec MAX_RESPONSE_BYTES (Z.of_nat (length (resp ++ x :: b)))) as [Hm|Hm].
  - eexists _, w1. split_and!; [done|rewrite Hl; lia|by eexists].
  - destruct (IH (resp ++ x :: b) w1 Hm) as (out & w2 & Hr & Ho & tl & ->); [rewrite Hl; cbn [length]; lia|].
    exists ((resp ++ x :: b) ++ tl), w2. split_and!; [done|done|]. exists ((x :: b) ++ tl). by rewrite app_assoc.
Qed.
(** The peer sends the pieces, then nothing more. *)
Fixpoint delivers_pieces (fd : Z) (pieces : list (list Z)) (w : W) : Prop :=
  match pieces with
  | [] => exists w' r, tcp_read fd CHUNK w = (r, w') /\ (r = inl [] \/ exists e, r = inr e)
  | p :: pieces => exists w', p <> [] /\ tcp_read fd CHUNK w = (inl p, w') /\ delivers_pieces fd pieces w'
  end.
Lemma read_response_pieces fuel fd pieces resp w :
  delivers_pieces fd pieces w -> Z.of_nat (length (resp ++ concat pieces)) < MAX_RESPONSE_BYTES ->
  (length pieces < fuel)%nat -> (read_response fuel fd resp w).1 = Ok (resp ++ concat pieces).
Proof.
  revert fuel resp w. induction pieces as [|p pieces IH]; intros fuel resp w Hd Hl Hf; (destruct fuel as [|fuel]; [cbn in Hf; lia|]);
    cbn [read_response]; unfold mbind, M_bind, io_match; cbn [delivers_pieces] in Hd.
  - destruct Hd as (w' & r & -> & [->|[e ->]]); cbn; by rewrite app_nil_r.
  - destruct Hd as (w' & Hp & -> & Hd). destruct p as [|x p]; [done|]. cbn [concat] in Hl |- *. rewrite app_assoc in Hl |- *.
    rewrite length_app in Hl. destruct (Z.leb_spec MAX_RESPONSE_BYTES (Z.of_nat (length (resp ++ x :: p)))); [lia|].
    apply IH; [done|by rewrite length_app|]. cbn in Hf. lia.
Qed.
End Reading.

(** ** What an HTTP answer says *)

(** A line of printable ASCII. *)
Definition plain_line (s : string) : bool := forallb (fun b => graphic b || (b =? 32)) (str_bytes s).
Definition http_status (n : Z) (reason : string) : string := "HTTP/1.1 " +:+ dec n +:+ " " +:+ reason.
Definition http_lines (ls : list string) : string := foldr (fun l acc => l +:+ CRLF +:+ acc) "" ls.
Definition http_head (n : Z) (reason : string) (headers : list string) : string :=
  http_lines (http_status n reason :: headers ++ [""%string]).
(** The bytes of an answer, with any body. *)
Definition http_response (n : Z) (reason : string) (headers : list string) (body : list Z) : list Z :=
  str_bytes (http_head n reason headers) ++ body.
Definition is_location (l : string) : bool := starts_with "location:" (to_ascii_lowercase l).
(** What the check answers, by the status and the lines after it: those of the
    headers and those of the body. *)
Definition expected_state (n : Z) (ls : list string) : ConnectivityState :=
  if existsb is_location ls || ((300 <=? n) && (n <? 400)) then CsPortal
  else if n =? 204 then CsFull else CsLimited.

Lemma strip_cr_snoc x : strip_cr (x +:+ String "013" "") = x.
Proof.
  unfold strip_cr. change (x +:+ String "013" "") with (x ++ String "013" "")%string.
  rewrite str_bytes_app, rev_app_distr. cbn. by rewrite rev_involutive, bytes_str_bytes.
Qed.
Lemma plain_line_bytes l : plain_line l = true -> Forall (fun b => 32 <= b < 127) (str_bytes l).
Proof.
  unfold plain_line. intros Hl. apply List.Forall_forall. intros b Hb. rewrite forallb_forall in Hl. specialize (Hl b Hb).
  unfold graphic in Hl. lia.
Qed.
Lemma lines_http ls rest : forallb plain_line ls = true -> lines (http_lines ls ++ rest)%string = ls ++ lines rest.
Proof.
  induction ls as [|l ls IH]; [done|]. cbn [forallb]. intros [Hl Hls]%andb_true_iff. cbn [http_lines foldr]. fold (http_lines ls).
  change ((l +:+ CRLF +:+ http_lines ls) ++ rest)%string with ((l ++ (String "013" (String "010" "" ++ http_lines ls))) ++ rest)%string.
  change (String "013" (String "010" "" ++ http_lines ls))%string with (String "013" "" ++ String "010" (http_lines ls))%string.
  rewrite <- (str_app_assoc l), (str_app_assoc (l ++ String "013" "")). change (String "010" (http_lines ls) ++ rest)%string with (String "010" (http_lines ls ++ rest)).
  rewrite lines_cons.
  - rewrite IH by done. cbn. f_equal. apply strip_cr_snoc.
  - rewrite str_bytes_app, forallb_app. apply andb_true_iff. split; [|done]. apply forallb_forall. intros b Hb.
    pose proof (plain_line_bytes l Hl) as Hp. rewrite List.Forall_forall in Hp. specialize (Hp b Hb). lia.
Qed.
Lemma http_lines_ascii ls : forallb plain_line ls = true -> is_ascii_str (http_lines ls) = true.
Proof.
  unfold is_ascii_str. induction ls as [|l ls IH]; [done|]. cbn [forallb]. intros [Hl Hls]%andb_true_iff. cbn [http_lines foldr]. fold (http_lines ls).
  change (l +:+ CRLF +:+ http_lines ls) with (l ++ (CRLF ++ http_lines ls))%string.
  rewrite !str_bytes_app, !forallb_app, IH by done. rewrite !andb_true_r.
  apply forallb_forall. intros b Hb. pose proof (plain_line_bytes l Hl) as Hp. rewrite List.Forall_forall in Hp. specialize (Hp b Hb). lia.
Qed.
Lemma dec_graphic n : 0 <= n -> forallb graphic (str_bytes (dec n)) = true.
Proof.
  intros Hn. apply forallb_forall. intros b Hb. apply dec_digits in Hb; [|done]. unfold is_digit, graphic in *. lia.
Qed.
Lemma http_status_plain n reason : 0 <= n -> plain_line reason = true -> plain_line (http_status n reason) = true.
Proof.
  intros Hn Hr. unfold plain_line, http_status in *.
  change ("HTTP/1.1 " +:+ dec n +:+ " " +:+ reason) with ("HTTP/1.1 " ++ (dec n ++ (" " ++ reason)))%string.
  rewrite !str_bytes_app, !forallb_app, Hr, andb_true_r. cbn. rewrite andb_true_r. apply forallb_forall. intros b Hb.
  pose proof (dec_graphic n Hn) as Hg. rewrite forallb_forall in Hg. by rewrite Hg.
Qed.
Lemma http_status_code n reason :
  0 <= n -> plain_line reason = true -> split_whitespace (http_status n reason) !! 1%nat = Some (dec n).
Proof.
  intros Hn Hr. pose proof (http_status_plain n reason Hn Hr) as Hp.
  destruct (ascii_line (fun b => graphic b || (b =? 32)) (http_status n reason)) as [Hc _]; [unfold graphic; lia|done|].
  unfold split_whitespace. rewrite Hc. unfold http_status.
  change ("HTTP/1.1 " +:+ dec n +:+ " " +:+ reason) with ("HTTP/1.1 " ++ (dec n ++ (" " ++ reason)))%string.
  rewrite !str_bytes_app. change (str_bytes "HTTP/1.1 ") with (str_bytes "HTTP/1.1" ++ [32]).
  rewrite <- app_assoc. change ([32] ++ ?x) with (32 :: x). rewrite words_of_space by done.
  change (str_bytes " " ++ str_bytes reason) with (32 :: str_bytes reason). rewrite words_of_space.
  - cbn [map lookup list_lookup app]. f_equal. unfold of_chars. by apply (ascii_line graphic (dec n)); [unfold graphic; lia|apply dec_graphic].
  - by apply dec_graphic.
  - destruct (dec_fuel_head (S (Z.to_nat (Z.log2 n))) n "") as (d & r & Hd & _); [lia|lia|]. unfold dec. by rewrite Hd.
Qed.
(** The verdict on a whole answer. *)
Lemma verdict_http n reason headers body :
  is_u16 n -> plain_line reason = true -> forallb plain_line headers = true ->
  verdict_of (http_response n reason headers body) = expected_state n (headers ++ lines (from_utf8_lossy body)).
Proof.
  intros Hn Hr Hh. assert (Hp : forallb plain_line (http_status n reason :: headers ++ [""%string]) = true).
  { cbn [forallb]. rewrite http_status_plain by (done || unfold is_uint in Hn; lia). rewrite forallb_app, Hh. done. }
  unfold verdict_of, http_response, http_head. rewrite bool_decide_eq_false_2 by done. rewrite from_utf8_lossy_prefix by (by apply http_lines_ascii).
  rewrite lines_http by done. cbn [head app]. rewrite http_status_code by (done || unfold is_uint in Hn; lia).
  cbn [mbind option_bind]. rewrite parse_uint_dec by done. unfold portal_classify, expected_state. cbn [existsb].
  change (starts_with "location:" (to_ascii_lowercase (http_status n reason))) with false.
  rewrite <- app_assoc, !existsb_app. cbn [existsb app]. change (starts_with "location:" (to_ascii_lowercase "")) with false.
  unfold EXPECTED_STATUS, is_location. rewrite !orb_false_l. by destruct ((200 <=? n) && (n <? 300)).
Qed.

Lemma parse_url_no_panic url : no_panic (parse_url url).
Proof. unfold parse_url. destruct (strip_prefix "http://" url); [|done]. cbn. by repeat case_match. Qed.
Lemma check_safe {W} `{SocketAddrs W} `{TcpStreams W} `{TcpReads W} url timeout :
  (forall fd n (w w' : W) b, tcp_read fd n w = (inl b, w') -> (length b <= n)%nat) -> safe (W := W) (check url timeout).
Proof.
  intros Hfit. assert (Hr : forall fd, safe (read_response (W := W) RESPONSE_FUEL fd [])).
  { intros fd w1. destruct (read_response_bounded Hfit RESPONSE_FUEL fd [] w1) as (out & w' & -> & _);
      unfold RESPONSE_FUEL, MAX_RESPONSE_BYTES; cbn [length]; by (done || lia). }
  unfold check, open_stream. pose proof (parse_url_no_panic url) as Hp. destruct (parse_url url) as [u|e|s]; [|done|by destruct (Hp s)].
  frame.
Qed.
Lemma pieces_length {W} `{TcpReads W} fd pieces (w : W) :
  delivers_pieces fd pieces w -> (length pieces <= length (concat pieces))%nat.
Proof.
  revert w. induction pieces as [|p pieces IH]; intros w; cbn [delivers_pieces]; [cbn; lia|].
  intros (w' & Hp & _ & Hd). apply IH in Hd. cbn [concat length]. rewrite length_app. destruct p; [done|]. cbn [length]. lia.
Qed.

(** ** Properties *)

(** C28: The connectivity check ends and never panics, whatever the peer sends;
    and on an HTTP answer with any body that arrives in any pieces and is below
    the 16 KiB limit it says: a portal for a redirect status or a line that
    begins with [location:], be it a header or a line of the body; else the full
    internet for 204, and limited access for any other status. *)
Theorem connectivity_check_verdict {W} `{SocketAddrs W} `{TcpStreams W} `{TcpReads W} url timeout (w : W) :
  (forall fd n (w w' : W) b, tcp_read fd n w = (inl b, w') -> (length b <= n)%nat) ->
  no_panic (check url timeout w).1 /\
  forall u fd w1 w2 w3 w4 n reason headers body pieces,
    parse_url url = Ok u -> open_stream u timeout w = (Ok (Some fd), w1) ->
    tcp_read_timeout fd timeout w1 = (inl tt, w2) -> tcp_write_timeout fd timeout w2 = (inl tt, w3) ->
    tcp_write_all fd (str_bytes (check_request u)) w3 = (inl tt, w4) ->
    is_u16 n -> plain_line reason = true -> forallb plain_line headers = true ->
    concat pieces = http_response n reason headers body ->
    Z.of_nat (length (concat pieces)) < MAX_RESPONSE_BYTES -> delivers_pieces fd pieces w4 ->
    (check url timeout w).1 = Ok (expected_state n (headers ++ lines (from_utf8_lossy body))).
Proof.
  intros Hfit. split; [by apply check_safe|].
  intros u fd w1 w2 w3 w4 n reason headers body pieces Hu Ho H2 H3 H4 Hn Hr Hh Hc Hl Hd. unfold check. rewrite Hu.
  unfold mbind at 1, M_bind at 1. rewrite Ho. unfold finally, mbind, M_bind, io_try, io_match. rewrite H2, H3, H4.
  assert (Hlen : (length pieces < RESPONSE_FUEL)%nat).
  { apply pieces_length in Hd. unfold RESPONSE_FUEL, MAX_RESPONSE_BYTES in *. lia. }
  pose proof (read_response_pieces RESPONSE_FUEL fd pieces [] w4 Hd Hl Hlen) as Hrr.
  destruct (read_response RESPONSE_FUEL fd [] w4) as [r w5]; cbn [fst] in Hrr; subst r. cbn [app]. unfold mret, M_ret. cbn [fst].
  by rewrite Hc, verdict_http.
Qed.

(** A peer that answers 204 in two pieces, with a body. *)
Definition demo_answer : list Z := http_response 204 "No Content" ["Server: mitos"%string] (str_bytes "hello").
Definition demo_resolve : SocketAddrs nat := {| to_socket_addrs _ w := (inl [mkSocketAddr (V4 3405803777) 80], w) |}.
Definition demo_streams : TcpStreams nat := {|
  tcp_connect _ _ w := (inl 3, w); tcp_connect_timeout _ _ _ w := (inl 3, w); tcp_read_timeout _ _ w := (inl tt, w);
  tcp_write_timeout _ _ w := (inl tt, w); tcp_write_all _ _ w := (inl tt, w); tcp_read_to_end _ _ w := (inl [], w); tcp_close _ w := w |}.
Definition demo_reads : TcpReads nat := {|
  tcp_read _ n w := (inl (take n (match w with O => take 10 demo_answer | S O => drop 10 demo_answer | _ => [] end)), S w) |}.
#[local] Existing Instances demo_resolve demo_streams demo_reads.
Lemma connectivity_check_verdict_witness :
  (check (W := nat) "http://connectivity.mitos-os.org/check" 5000000000 0%nat).1 = Ok CsFull.
Proof.
  assert (Hfit : forall fd n (w w' : nat) b, tcp_read fd n w = (inl b, w') -> (length b <= n)%nat).
  { intros fd n w w' b [= <- _]. rewrite length_take. lia. }
  destruct (connectivity_check_verdict "http://connectivity.mitos-os.org/check" 5000000000 0%nat Hfit) as [_ H].
  refine (H (mkParsedUrl "connectivity.mitos-os.org" 80 "/check") 3 0%nat 0%nat 0%nat 0%nat 204 "No Content"
            ["Server: mitos"%string] (str_bytes "hello") [take 10 demo_answer; drop 10 demo_answer] _ _ _ _ _ _ _ _ _ _ _);
    try done; try by_decision.
  exists 1%nat. split_and!; [done|by_decision|]. exists 2%nat. split_and!; [done|by_decision|]. exists 3%nat, (inl []). split; [by_decision|by left].
Defined.
