(* ===== verification/Monitoring.v ===== *)
(** * Monitoring and Ethernet links (monitoring/, ethernet/)

    The health verdict of a device, traffic rates, the signal poll, the
    diagnostic report, and what the driver says about an Ethernet link. *)

From Stdlib Require Import Ascii String SpecFloat.
From S2P Require Import Prelude RustStr IpAddr Sys World Netlink IpLayer Security Device Connection Dns DhcpClient Wpa Ipc F64.

(** ** Health *)

Inductive HealthStatus := Healthy | Degraded | Unhealthy | HealthUnknown.
(** Checked arithmetic on [u64]. *)
Definition u64_add (a b : Z) : outcome Z :=
  if a + b <? 2 ^ 64 then Ok (a + b) else Panic "attempt to add with overflow".
Definition u64_mul (a b : Z) : outcome Z :=
  if a * b <? 2 ^ 64 then Ok (a * b) else Panic "attempt to multiply with overflow".

Definition device_health (device : NetworkDevice) (stats : option DeviceStatistics) : outcome HealthStatus :=
  match dev_state device with
  | Unmanaged | Unavailable => Ok HealthUnknown
  | DsFailed => Ok Unhealthy
  | Connecting | IpConfiguring | Deactivating => Ok Degraded
  | Disconnected => Ok HealthUnknown
  | Activated =>
      if negb (carrier device) then Ok Unhealthy
      else
        match stats with
        | Some s =>
            total ← u64_add (rx_packets s) (tx_packets s);
            e1 ← u64_add (rx_errors s) (tx_errors s);
            e2 ← u64_add e1 (rx_dropped s);
            errors ← u64_add e2 (tx_dropped s);
            degraded ← (if 0 <? total then e ← u64_mul errors 100; Ok (5 <? e / Z.max total 1) else Ok false);
            Ok (if (degraded : bool) then Degraded else Healthy)
        | None => Ok Healthy
        end
  end.

(** ** Rates *)

Record Rates := mkRates { rx_bytes_per_sec : f64; tx_bytes_per_sec : f64 }.
Definition f64_div (a b : f64) : f64 := SFdiv PREC EMAX a b.
(** [f64::max] on numbers *)
Definition f64_max (a b : f64) : f64 := if f64_ltb a b then b else a.
Definition zero_rates : Rates := mkRates (f64_of_Z 0) (f64_of_Z 0).
Definition RateSampler : Type := gmap string (Z * DeviceStatistics).
(** [Duration::as_secs_f64]: the whole seconds and the nanoseconds over 10^9 *)
Definition as_secs_f64 (nanos : Z) : f64 :=
  f64_add (f64_of_Z (nanos / 1000000000)) (f64_div (f64_of_Z (nanos mod 1000000000)) (f64_of_Z 1000000000)).
Definition MIN_ELAPSED : f64 := round_ratio false 1 1000.
Definition rates_between (now prev_time : Z) (prev_stats current : DeviceStatistics) : Rates :=
  let elapsed := f64_max (as_secs_f64 (saturating_sub now prev_time)) MIN_ELAPSED in
  let d := delta prev_stats current in
  mkRates (f64_div (f64_of_Z (rx_bytes d)) elapsed) (f64_div (f64_of_Z (tx_bytes d)) elapsed).

Section Sampling.
Context {W : Type} `{Clock W} `{FileSystem W}.
Definition sample (sampler : RateSampler) (ifname : string) : M W (Rates * RateSampler) :=
  now ← instant_now;
  current ← statistics_read ifname;
  let rates := match sampler !! ifname with
               | Some (prev_time, prev_stats) => rates_between now prev_time prev_stats current
               | None => zero_rates
               end in
  mret (rates, <[ifname := (now, current)]> sampler).
Definition prune_stale (sampler : RateSampler) (max_age : Z) : M W RateSampler :=
  now ← instant_now;
  mret (filter (fun kv : string * (Z * DeviceStatistics) => saturating_sub now kv.2.1 < max_age) sampler).
End Sampling.

(** ** Signal *)

Record SignalInfo := mkSignalInfo { rssi_dbm : option Z; link_speed_mbps : option Z; frequency_mhz : option Z }.
Definition signal_of (poll : gmap string string) : SignalInfo :=
  mkSignalInfo (poll !! "RSSI"%string ≫= parse_int 32) (poll !! "LINKSPEED"%string ≫= parse_int 32)
    (poll !! "FREQUENCY"%string ≫= parse_uint 32).
Definition signal_current {W} `{FileSystem W} `{Entropy W} `{Sockets W} `{Clock W} (ctrl_dir ifname : string) : M W SignalInfo :=
  poll ← with_ctrl ctrl_dir ifname signal_poll; mret (signal_of poll).

(** ** Diagnostics *)

Definition summarize_route (r : Route) : RouteSummary :=
  mkRouteSummary (match destination r with Some (ip, len) => show_ip ip +:+ "/" +:+ dec len | None => "default" end)
    (show_ip <$> rt_gateway r) (oif_index r) (metric r).
Definition summarize_neighbor (n : Neighbor) : NeighborSummary :=
  mkNeighborSummary (show_ip (nb_ip n)) (mac_format <$> nb_mac n) (nb_ifindex n)
    (match nb_state n with Reachable | Permanent => true | _ => false end).
Section Diagnostics.
Context {W : Type} `{Sockets W} `{NlEnv} `{FileSystem W}.
Definition collect (devices : list NetworkDevice) (connectivity : ConnectivityState) : M W DiagnosticReport :=
  r4 ← route_list FamV4;
  r6 ← route_list FamV6;
  dns ← attempt read_current;
  let dns := match dns with inl d => d | inr _ => mkResolvConf [] [] end in
  neighbors ← neighbor_list None;
  mret (mkDiagnosticReport devices (map summarize_route r4) (map summarize_route r6)
    (mkDnsSummary (map show_ip (nameservers dns)) (rc_search dns)) (map summarize_neighbor neighbors) connectivity).
End Diagnostics.

(** ** Ethernet links *)

(** The fields of [struct ethtool_cmd] the daemon reads. *)
Record EthtoolCmd := mkEthtoolCmd { et_speed : Z; et_duplex : Z; et_autoneg : Z; et_speed_hi : Z }.
(** [ioctl(fd, SIOCETHTOOL)] with the interface name of the request: the data
    word of [ETHTOOL_GLINK], and the filled structure of [ETHTOOL_GSET]. *)
Class Ethtool (W : Type) := {
  eth_glink : Z -> list Z -> io W Z;
  eth_gset : Z -> list Z -> io W EthtoolCmd
}.
Record LinkSettings := mkLinkSettings { speed_mbps : option Z; full_duplex : bool; autoneg : bool }.

Definition IFNAMSIZ : nat := 16.
Definition set_ifr_name (ifname : string) : outcome (list Z) :=
  if contains_char NUL ifname then Err (Parse "interface name contains a NUL byte")
  else
    let bytes := str_bytes ifname ++ [0] in
    if bool_decide (IFNAMSIZ < length bytes)%nat then Err (Parse ("interface name '" +:+ ifname +:+ "' too long"))
    else Ok (bytes ++ replicate (IFNAMSIZ - length bytes) 0).
Definition settings_of (cmd : EthtoolCmd) : LinkSettings :=
  let combined_speed := Z.lor (Z.shiftl (et_speed_hi cmd) 16) (et_speed cmd) in
  mkLinkSettings (if (et_speed cmd =? 65535) || (combined_speed =? 0) then None else Some combined_speed)
    (et_duplex cmd =? 1) (et_autoneg cmd =? 1).
Definition describe (settings : LinkSettings) : string :=
  let speed := match speed_mbps settings with Some s => dec s +:+ " Mbps" | None => "unknown speed" end in
  let duplex := if full_duplex settings then "full duplex" else "half duplex" in
  let neg := if autoneg settings then "auto-negotiated" else "fixed" in
  speed +:+ ", " +:+ duplex +:+ " (" +:+ neg +:+ ")".

Section EthernetLinks.
Context {W : Type} `{Sockets W} `{NlEnv} `{Ethtool W}.
Definition ioctl_socket : M W Z := io_try (so_socket SkUdp4).
(** The descriptor is closed after the call, and only then: an error of
    [set_ifr_name] returns with it open. *)
Definition ethtool_call {A} (call : Z -> list Z -> io W A) (what ifname : string) : M W A :=
  fd ← ioctl_socket;
  name ← lift (set_ifr_name ifname);
  r ← io_match (call fd name);
  effect (so_close fd) ;;
  match r with
  | inl a => mret a
  | inr e => throw (Device (what +:+ " on " +:+ ifname +:+ " failed: " +:+ io_err_text e))
  end.
Definition ethtool_carrier (ifname : string) : M W bool :=
  data ← ethtool_call eth_glink "ETHTOOL_GLINK" ifname; mret (negb (data =? 0)).
Definition link_settings (ifname : string) : M W LinkSettings :=
  cmd ← ethtool_call eth_gset "ETHTOOL_GSET" ifname; mret (settings_of cmd).

Definition is_ready (ifname : string) : M W bool :=
  i ← attempt (get_by_name ifname);
  let netlink_carrier := match i with inl i => has_carrier i | inr _ => false end in
  e ← attempt (ethtool_carrier ifname);
  let ethtool_carrier := match e with inl b => b | inr _ => netlink_carrier end in
  mret (netlink_carrier && ethtool_carrier).
Definition describe_link (ifname : string) : M W string :=
  settings ← link_settings ifname; mret (describe settings).
End EthernetLinks.

(** ** Properties *)

Definition counters_below (bound : Z) (s : DeviceStatistics) : Prop :=
  Forall (fun c => 0 <= c < bound) [rx_packets s; tx_packets s; rx_errors s; tx_errors s; rx_dropped s; tx_dropped s].
(** The percentage is rounded down, so a device counts as degraded from six
    percent of errors and drops on, not from five. *)
Theorem health_threshold d s :
  dev_state d = Activated -> carrier d = true -> counters_below (2 ^ 55) s ->
  let total := rx_packets s + tx_packets s in
  let errors := rx_errors s + tx_errors s + rx_dropped s + tx_dropped s in
  device_health d (Some s) = Ok (if bool_decide (0 < total /\ 6 * total <= 100 * errors) then Degraded else Healthy).
Proof.
  intros Hs Hc Hb. unfold counters_below in Hb. rewrite !List.Forall_cons_iff in Hb. destruct Hb as (B1 & B2 & B3 & B4 & B5 & B6 & _).
  change (2 ^ 55) with 36028797018963968 in *. cbn zeta. unfold device_health. rewrite Hs, Hc. cbn [negb].
  unfold u64_add, u64_mul. change (2 ^ 64) with 18446744073709551616.
  repeat (rewrite (proj2 (Z.ltb_lt _ 18446744073709551616)) by lia; cbn [mbind outcome_bind]).
  destruct (Z.ltb_spec 0 (rx_packets s + tx_packets s)) as [Ht|Ht].
  - cbn [mbind outcome_bind]. rewrite Z.max_l by lia.
    case_bool_decide as Hd.
    + rewrite (proj2 (Z.ltb_lt 5 _)); [done|]. apply Z.lt_le_trans with 6; [lia|]. apply Z.div_le_lower_bound; lia.
    + rewrite (proj2 (Z.ltb_ge 5 _)); [done|]. apply Z.lt_succ_r, Z.div_lt_upper_bound; lia.
  - cbn [mbind outcome_bind]. rewrite bool_decide_eq_false_2 by lia. done.
Qed.
Example five_percent_healthy :
  device_health (mkDevice "eth0" 2 DtEthernet Activated None 1500 [] [] true None None)
    (Some (mkStatistics 0 0 500 500 59 0 0 0)) = Ok Healthy.
Proof. reflexivity. Qed.
(** The samples that stay are those younger than the limit. *)
Theorem prune_keeps_fresh {W} `{Clock W} (s s' : RateSampler) age (w w' : W) name t st :
  prune_stale s age w = (Ok s', w') ->
  s' !! name = Some (t, st) <-> s !! name = Some (t, st) /\ saturating_sub (clk_instant w).1 t < age.
Proof.
  unfold prune_stale, mbind, M_bind, instant_now. rewrite observe_run. intros [= <- _]. apply (map_lookup_filter_Some (M := gmap string)).
Qed.
