(* ===== verification/Bluetooth.v ===== *)
(** * Bluetooth (bluetooth/bluetooth.rs, tethering.rs)

    Every operation is one run of [bluetoothctl] or [bt-network] with its
    arguments given as a list, so no shell reads them. *)

From Stdlib Require Import Ascii String.
From S2P Require Import Prelude RustStr IpAddr Sys World Security Device Connection Ipc.

(** [line.splitn(3, ' ')] *)
Definition splitn3 (line : string) : list string :=
  match split_once " " line with
  | None => [line]
  | Some (a, rest) =>
      match split_once " " rest with
      | None => [a; rest]
      | Some (b, c) => [a; b; c]
      end
  end.
(** The address and name of a line of [bluetoothctl devices]. *)
Definition device_line (line : string) : option (string * string) :=
  match splitn3 line with
  | first :: mac :: rest =>
      if String.eqb first "Device" then Some (mac, default mac (head rest)) else None
  | _ => None
  end.
Definition with_info (mac name info : string) : BluetoothDevice :=
  mkBluetooth mac name (contains_str "Paired: yes" info) (contains_str "Connected: yes" info).

Section BluetoothOps.
Context {W : Type} `{Processes W}.

(** [run] of either module: the tool's output, or an error with its words. *)
Definition tool_run (tool unavailable : string) (args : list string) : M W string :=
  output ← io_try_with (fun e => Other (unavailable +:+ io_err_text e)) (run_command tool args);
  if negb (out_success output)
  then throw (Other (tool +:+ " " +:+ join " " args +:+ " failed: " +:+ from_utf8_lossy (out_stderr output)))
  else mret (from_utf8_lossy (out_stdout output)).
Definition bt_run : list string -> M W string := tool_run "bluetoothctl" "failed to run bluetoothctl: ".
Definition power_on : M W unit := bt_run ["power"; "on"]%string ;; mret tt.
Definition power_off : M W unit := bt_run ["power"; "off"]%string ;; mret tt.
Definition start_scan : M W unit := bt_run ["scan"; "on"]%string ;; mret tt.
Definition stop_scan : M W unit := bt_run ["scan"; "off"]%string ;; mret tt.

Fixpoint devices_of_lines (ls : list string) : M W (list BluetoothDevice) :=
  match ls with
  | [] => mret []
  | line :: ls =>
      match device_line line with
      | None => devices_of_lines ls
      | Some (mac, name) =>
          info ← attempt (bt_run ["info"%string; mac]);
          rest ← devices_of_lines ls;
          mret (with_info mac name (match info with inl s => s | inr _ => "" end) :: rest)
      end
  end.
Definition list_devices : M W (list BluetoothDevice) :=
  raw ← bt_run ["devices"%string]; devices_of_lines (lines raw).

Definition on_mac (verb mac : string) : M W unit :=
  lift (validate_mac_address mac) ;; bt_run [verb; mac] ;; mret tt.
Definition bt_pair (mac : string) : M W unit := on_mac "pair" mac.
Definition bt_trust (mac : string) : M W unit := on_mac "trust" mac.
Definition bt_connect (mac : string) : M W unit := on_mac "connect" mac.
Definition bt_disconnect (mac : string) : M W unit := on_mac "disconnect" mac.
Definition bt_remove (mac : string) : M W unit := on_mac "remove" mac.

(** ** Tethering *)
Definition net_run : list string -> M W string :=
  tool_run "bt-network" "failed to run bt-network (is bluez-tools installed?): ".
Definition connect_panu (remote_mac : string) : M W string :=
  out ← net_run ["-c"%string; remote_mac; "nap"%string]; mret (trim out).
Definition panu_disconnect (remote_mac : string) : M W unit := net_run ["-d"%string; remote_mac] ;; mret tt.
Definition start_nap_server (bridge_interface : string) : M W unit := net_run ["-s"%string; "nap"%string; bridge_interface] ;; mret tt.
Definition stop_nap_server : M W unit := net_run ["-S"; "nap"]%string ;; mret tt.
End BluetoothOps.

(** ** Properties *)

(** A line for a device with an address and a name is read back, whatever
    blanks the name has. *)
Lemma device_line_roundtrip mac name :
  contains_char " " mac = false -> device_line ("Device " +:+ mac +:+ " " +:+ name) = Some (mac, name).
Proof.
  intros Hm. unfold device_line, splitn3.
  change ("Device " +:+ mac +:+ " " +:+ name) with ("Device" ++ String " " (mac ++ String " " name))%string.
  rewrite split_once_app by done. by rewrite split_once_app by done.
Qed.
(** A command on a device is run only for an address of the right form. *)
Lemma on_mac_validated {W} `{Processes W} verb mac (w w' : W) r :
  on_mac verb mac w = (r, w') -> r = Ok tt -> validate_mac_address mac = Ok tt.
Proof.
  unfold on_mac, lift, mbind, M_bind. destruct (validate_mac_address mac) as [[]|e|s]; intros E Hr; simplify_eq; done.
Qed.
