(* ===== verification/Sharing.v ===== *)
(** * The access point and connection sharing (wifi/hotspot.rs, sharing/)

    hostapd for an interface, the DHCP server beside it, forwarding and
    masquerading.  The firewall is the state of the caller, so the operations
    that change it run in its monad. *)

From Stdlib Require Import Ascii String.
From S2P Require Import Prelude RustStr IpAddr Dhcp4 DhcpServer Sys Persistence World Netlink IpLayer.
From S2P Require Import DhcpClient Security Firewall Device Connection Dns Store Wpa Wireguard OpenVpn.

(** ** hostapd *)

Record HotspotConfig := mkHotspot {
  hs_interface : string;
  hs_ssid : string;
  hs_passphrase : option string;
  hs_channel : Z;
  hs_hw_mode : string
}.
Definition hostapd_path (ifname : string) : string := "/run/mitos-network/hostapd-" +:+ ifname +:+ ".conf".
Definition config_lines (cfg : HotspotConfig) : list string :=
  ["interface=" +:+ hs_interface cfg; "driver=nl80211"%string; "ssid=" +:+ hs_ssid cfg; "hw_mode=" +:+ hs_hw_mode cfg;
   "channel=" +:+ dec (hs_channel cfg); "ieee80211n=1"%string; "wmm_enabled=1"%string]
  ++ match hs_passphrase cfg with
     | Some pass => ["wpa=2"%string; "wpa_passphrase=" +:+ pass; "wpa_key_mgmt=WPA-PSK"%string; "rsn_pairwise=CCMP"%string]
     | None => ["# open network: no wpa_passphrase configured"%string]
     end.
Definition render_config (cfg : HotspotConfig) : string := foldr (fun l acc => l +:+ EOL +:+ acc) "" (config_lines cfg).

(** [static CHILDREN] *)
Definition HostapdChildren : Type := option (gmap string Z).

Section Hostapd.
Context {W : Type} `{FileSystem W} `{Children W} `{Static HostapdChildren W}.

Definition hostapd_stop (ifname : string) : M W unit :=
  children ← static_get;
  (match (m ← (children : HostapdChildren); m !! ifname) with
   | Some child => static_put (delete ifname <$> children : HostapdChildren) ;; reap child
   | None => mret tt
   end) ;;
  io_ignore (fs_remove (hostapd_path ifname)).

Definition hostapd_start (cfg : HotspotConfig) : M W unit :=
  lift (validate_interface_name (hs_interface cfg)) ;;
  lift (validate_ssid (hs_ssid cfg)) ;;
  (match hs_passphrase cfg with Some p => lift (validate_wpa_passphrase p) | None => mret tt end) ;;
  hostapd_stop (hs_interface cfg) ;;
  let path := hostapd_path (hs_interface cfg) in
  io_try (fs_create_dir_all (path_parent path)) ;;
  io_try (fs_write path "") ;;
  io_try (fs_write path (render_config cfg)) ;;
  child ← io_try_with (fun e => Wifi ("failed to spawn hostapd: " +:+ io_err_text e)) (cp_spawn "hostapd" [path]);
  children ← static_get;
  static_put (Some (<[hs_interface cfg := child]> (default ∅ (children : HostapdChildren))) : HostapdChildren).

Definition hostapd_is_running (ifname : string) : M W bool :=
  children ← static_get;
  mret (match (children : HostapdChildren) with Some m => bool_decide (is_Some (m !! ifname)) | None => false end).
End Hostapd.

(** ** The DHCP server's thread *)

(** The thread that runs [DhcpServer.run] on a socket, and ends once it is told
    to and has been waited for. *)
Class DhcpThreads (W : Type) := {
  dhcpd_spawn : string -> Z -> DhcpServerConfig -> io W Z;
  dhcpd_stop : Z -> W -> W
}.
Section DhcpStart.
Context {W : Type} `{Sockets W} `{DhcpThreads W}.
Definition bound_server_socket (ifname : string) : M W Z :=
  fd ← io_try (so_socket SkUdp4);
  io_ignore (so_setsockopt fd SoBroadcast) ;;
  io_ignore (so_setsockopt fd SoReuseAddr) ;;
  if contains_char NUL ifname then lift (Panic "called `Result::unwrap()` on an `Err` value: NulError")
  else
    io_ignore (so_setsockopt fd (SoBindToDevice ifname)) ;;
    r ← io_match (so_bind fd (AnyPort4 Dhcp4.SERVER_PORT));
    match r with
    | inl _ => mret fd
    | inr e =>
        effect (so_close fd) ;;
        throw (Dhcp ("bind udp/67 on " +:+ ifname +:+ " failed: " +:+ io_err_text e))
    end.
(** The handle is the thread. *)
Definition dhcp_server_start (cfg : DhcpServerConfig) : M W Z :=
  sock ← bound_server_socket (interface cfg);
  dropped_on_error (io_try (so_setsockopt sock (SoRcvTimeout 500000000))) (so_close sock) ;;
  io_try (dhcpd_spawn ("mitos-dhcpd-" +:+ interface cfg) sock cfg).
Definition server_stop (handle : Z) : M W unit := effect (dhcpd_stop handle).
End DhcpStart.

(** ** Sharing *)

Section Sharing.
Context {W : Type} `{FileSystem W} `{Children W} `{Static HostapdChildren W} `{Sockets W} `{NlEnv} `{DhcpThreads W} `{Processes W}.
Abbreviation FM := (M (FirewallState * W)).

Definition set_ipv4_forwarding (enabled : bool) : M W unit :=
  io_try (fs_write "/proc/sys/net/ipv4/ip_forward" (if enabled then "1" else "0")).
Definition nat_enable (lan wan : string) : FM unit :=
  fw_world (set_ipv4_forwarding true) ;; enable_sharing lan wan.
Definition nat_disable (lan wan : string) : FM unit := disable_sharing lan wan.

Record HotspotSession := mkHotspotSession { hss_interface : string; hss_dhcp : option Z; hss_uplink : option string }.
Definition AP_SERVER_IP : Z := ipv4_new 192 168 4 1.
Definition AP_POOL_START : Z := ipv4_new 192 168 4 10.
Definition AP_POOL_END : Z := ipv4_new 192 168 4 200.
Definition AP_PREFIXLEN : Z := 24.
Definition ap_config (interface : string) : DhcpServerConfig :=
  mkServerConfig interface AP_SERVER_IP AP_POOL_START AP_POOL_END AP_PREFIXLEN 3600 [AP_SERVER_IP].

Definition hotspot_start (interface ssid : string) (passphrase uplink : option string) : FM HotspotSession :=
  iface ← fw_world (get_by_name interface);
  fw_world (address_flush (if_index iface)) ;;
  fw_world (address_add (if_index iface) (V4 AP_SERVER_IP) AP_PREFIXLEN) ;;
  fw_world (bring_up (if_index iface)) ;;
  fw_world (hostapd_start (mkHotspot interface ssid passphrase 6 "g")) ;;
  dhcp ← fw_world (dhcp_server_start (ap_config interface));
  assign_zone interface "home" ;;
  (match uplink with Some wan => nat_enable interface wan | None => mret tt end) ;;
  mret (mkHotspotSession interface (Some dhcp) uplink).
Definition hotspot_stop (session : HotspotSession) : FM unit :=
  (match hss_dhcp session with Some dhcp => fw_world (server_stop dhcp) | None => mret tt end) ;;
  fw_world (hostapd_stop (hss_interface session)) ;;
  (match hss_uplink session with Some wan => nat_disable (hss_interface session) wan | None => mret tt end) ;;
  iface ← fw_world (get_by_name (hss_interface session));
  fw_world (address_flush (if_index iface)).

Record SharingSession := mkSharingSession { lan_interface : string; wan_interface : string; sh_dhcp : option Z }.
Definition sharing_start (lan wan : string) (lan_server_ip prefixlen : Z) (pool : Z * Z) : FM SharingSession :=
  iface ← fw_world (get_by_name lan);
  fw_world (address_add (if_index iface) (V4 lan_server_ip) prefixlen) ;;
  fw_world (bring_up (if_index iface)) ;;
  dhcp ← fw_world (dhcp_server_start (mkServerConfig lan lan_server_ip pool.1 pool.2 prefixlen 3600 [lan_server_ip]));
  assign_zone lan "home" ;;
  nat_enable lan wan ;;
  mret (mkSharingSession lan wan (Some dhcp)).
Definition sharing_stop (session : SharingSession) : FM unit :=
  (match sh_dhcp session with Some dhcp => fw_world (server_stop dhcp) | None => mret tt end) ;;
  nat_disable (lan_interface session) (wan_interface session) ;;
  iface ← fw_world (get_by_name (lan_interface session));
  fw_world (address_flush (if_index iface)).
End Sharing.

(** ** The children of hostapd are exactly those in the table *)

(** A static beside a world that knows nothing of it. *)
Record beside (S V : Type) := mkBeside { bs_world : V; bs_static : S }.
Arguments mkBeside {S V}.
Arguments bs_world {S V}.
Arguments bs_static {S V}.
Definition outer {S V A} (c : io V A) : io (beside S V) A := fun w =>
  let '(r, v) := c (bs_world w) in (r, mkBeside v (bs_static w)).
#[export] Instance beside_static {S V} : Static S (beside S V) :=
  {| st_get w := bs_static w; st_put s w := mkBeside (bs_world w) s |}.
#[export] Instance beside_files {S V} `{FileSystem V} : FileSystem (beside S V) := {
  fs_read p := outer (fs_read p);
  fs_read_raw p := outer (fs_read_raw p);
  fs_write p s := outer (fs_write p s);
  fs_rename a b := outer (fs_rename a b);
  fs_remove p := outer (fs_remove p);
  fs_create_dir_all p := outer (fs_create_dir_all p);
  fs_read_dir p := outer (fs_read_dir p);
  fs_mtime p := outer (fs_mtime p);
  fs_chmod p m := outer (fs_chmod p m);
  fs_exists p w := let '(b, v) := fs_exists p (bs_world w) in (b, mkBeside v (bs_static w));
  fs_read_link p := outer (fs_read_link p);
  fs_open p := outer (fs_open p);
  fs_create_new p m := outer (fs_create_new p m);
  fs_create_dir p m := outer (fs_create_dir p m)
}.
#[export] Instance beside_children {S V} `{Children V} : Children (beside S V) := {
  cp_spawn p a := outer (cp_spawn p a); cp_kill p := outer (cp_kill p); cp_wait p := outer (cp_wait p)
}.

(** What may have been done to children, and which are left: hostapd is started
    on a configuration no child has, and a child is stopped by being killed and
    then waited for, whatever the two calls return. *)
Inductive children_left : list sock_event -> list (string * Z) -> Prop :=
| left_none : children_left [] []
| left_started tr l conf c : children_left tr l -> conf ∉ l.*1 -> children_left (tr ++ [EvSpawn c "hostapd" [conf]]) ((conf, c) :: l)
| left_stopped tr l l' conf c killed reaped : children_left tr l -> l ≡ₚ (conf, c) :: l' -> children_left (tr ++ [EvKill c killed; EvWait c reaped]) l'.
(** The table, by the configuration files. *)
Definition table_children (m : HostapdChildren) : list (string * Z) := (fun '(i, c) => (hostapd_path i, c)) <$> map_to_list (default ∅ m).
Lemma hostapd_path_inj i j : hostapd_path i = hostapd_path j -> i = j.
Proof. intros E. apply (str_app_inj_l "/run/mitos-network/hostapd-") in E. by apply str_app_inj_r in E. Qed.
Lemma table_children_free m i : default ∅ (m : HostapdChildren) !! i = None -> hostapd_path i ∉ (table_children m).*1.
Proof.
  intros Hi. unfold table_children. intros ([p c] & E & ([j c'] & [= -> ->] & Hj)%list_elem_of_fmap)%list_elem_of_fmap. cbn in E.
  apply hostapd_path_inj in E as <-. apply elem_of_map_to_list in Hj. congruence.
Qed.

Section HostapdInvariant.
Context {V : Type} `{FileSystem V} `{Children V}.
Abbreviation W := (traced (beside HostapdChildren V)).
Definition hostapd_inv (w : W) : Prop := exists l, children_left w.2 l /\ l ≡ₚ table_children (st_get w).
(** Nothing on the trace and nothing in the table. *)
Definition apart (w : W) : list sock_event * HostapdChildren := (w.2, st_get w).
Lemma apart_eq (w w' : W) : apart w' = apart w -> w'.2 = w.2 /\ (st_get w' : HostapdChildren) = st_get w.
Proof. intros Hk. exact (conj (f_equal fst Hk) (f_equal snd Hk)). Qed.
Lemma apart_inv (w w' : W) : apart w' = apart w -> hostapd_inv w -> hostapd_inv w'.
Proof. intros [Ht Hs]%apart_eq Hw. unfold hostapd_inv. by rewrite Ht, Hs. Qed.
Lemma untraced_apart {A} (c : io V A) : keeps_io apart (untraced (outer c)).
Proof. intros w. unfold untraced, outer, apart. cbn. by destruct (c (bs_world w.1)). Qed.
Hint Resolve untraced_apart : frame.

Lemma hostapd_unlink_inv ifname (w : W) :
  hostapd_inv w -> default ∅ (st_get w : HostapdChildren) !! ifname = None ->
  exists w', io_ignore (fs_remove (hostapd_path ifname)) w = (Ok tt, w') /\ hostapd_inv w'
    /\ default ∅ (st_get w' : HostapdChildren) !! ifname = None.
Proof.
  intros Hi Hn. pose proof (untraced_apart (fs_remove (hostapd_path ifname)) w) as Hk.
  eexists. split; [done|]. split; [exact (apart_inv _ _ Hk Hi)|]. apply apart_eq in Hk as [_ Hs].
  change (default ∅ (st_get (untraced (outer (fs_remove (hostapd_path ifname))) w).2 : HostapdChildren) !! ifname = None). by rewrite Hs.
Qed.
Lemma run_bind {X A B} (m : M X A) (f : A -> M X B) w a w1 : m w = (Ok a, w1) -> (m ≫= f) w = f a w1.
Proof. unfold mbind, M_bind. by intros ->. Qed.
Lemma reap_run c (w : W) :
  exists v killed reaped, reap c w = (Ok tt, (mkBeside v (bs_static w.1), w.2 ++ [EvKill c killed; EvWait c reaped])).
Proof.
  unfold reap, io_ignore, mbind, M_bind. cbn. unfold outer. destruct (cp_kill c (bs_world w.1)) as [r1 v1]. cbn.
  destruct (cp_wait c v1) as [r2 v2]. cbn. eexists _, _, _. by rewrite <- app_assoc.
Qed.
(** Stopping reaps the interface's child, and leaves the interface free. *)
Lemma hostapd_stop_inv ifname (w : W) :
  hostapd_inv w ->
  exists w', hostapd_stop ifname w = (Ok tt, w') /\ hostapd_inv w' /\ default ∅ (st_get w' : HostapdChildren) !! ifname = None.
Proof.
  intros Hw. unfold hostapd_stop. rewrite (run_bind _ _ w (st_get w) w) by done.
  destruct (st_get w ≫= fun m => m !! ifname) as [c|] eqn:Hc.
  - destruct w as [[v [m|]] tr]; [|done]. cbn in Hc.
    destruct (reap_run c (mkBeside v (Some (delete ifname m)), tr)) as (v' & killed & reaped & Hr).
    rewrite (run_bind _ _ _ tt (mkBeside v' (Some (delete ifname m)), tr ++ [EvKill c killed; EvWait c reaped])).
    2:{ cbn [st_get traced_static beside_static bs_static fst mbind option_bind]. rewrite Hc. exact Hr. }
    apply hostapd_unlink_inv; [|apply lookup_delete_eq].
    destruct Hw as (l & Hl & Hp). exists (table_children (Some (delete ifname m))). split; [|done]. cbn in Hl, Hp |- *.
    eapply (left_stopped _ l _ (hostapd_path ifname)); [done|]. rewrite Hp. unfold table_children. cbn.
    by rewrite <- (map_to_list_delete m ifname c Hc).
  - destruct w as [[v m] tr]. rewrite (run_bind _ _ (mkBeside v m, tr) tt (mkBeside v m, tr)).
    + apply hostapd_unlink_inv; [done|]. by destruct m.
    + cbn in Hc |- *. destruct m as [m|]; [|done]. cbn in Hc |- *. by rewrite Hc.
Qed.
Lemma hostapd_spawned_inv cfg (w : W) :
  hostapd_inv w -> default ∅ (st_get w : HostapdChildren) !! hs_interface cfg = None ->
  let c := (child ← io_try_with (fun e => Wifi ("failed to spawn hostapd: " +:+ io_err_text e))
              (cp_spawn "hostapd" [hostapd_path (hs_interface cfg)]);
            children ← static_get;
            static_put (Some (<[hs_interface cfg := child]> (default ∅ (children : HostapdChildren))) : HostapdChildren)) in
  no_panic (c w).1 /\ hostapd_inv (c w).2.
Proof.
  intros Hw Hn. cbn zeta. unfold mbind, M_bind, io_try_with. destruct w as [[v m] tr].
  cbn [cp_spawn traced_children beside_children]. unfold outer. cbn [bs_world bs_static fst snd].
  destruct (cp_spawn "hostapd" _ v) as [[c|e] v1]; cbn [fst snd]; [|done]. split; [done|].
  destruct Hw as (l & Hl & Hp). pose proof (table_children_free m (hs_interface cfg) Hn) as Hf. cbn in Hl, Hp.
  exists ((hostapd_path (hs_interface cfg), c) :: l). unfold static_get, static_put. cbn. split.
  - constructor; [done|]. by rewrite Hp.
  - rewrite Hp. unfold table_children. cbn. by rewrite map_to_list_insert.
Qed.
Lemma hostapd_start_inv cfg (w : W) : hostapd_inv w -> no_panic (hostapd_start cfg w).1 /\ hostapd_inv (hostapd_start cfg w).2.
Proof.
  intros Hw. unfold hostapd_start.
  assert (Hv : forall A (o : outcome unit) (k : M W A), no_panic o ->
    (no_panic (k w).1 /\ hostapd_inv (k w).2) -> no_panic ((lift o ;; k) w).1 /\ hostapd_inv ((lift o ;; k) w).2).
  { intros A o k Ho Hk. unfold lift, mbind, M_bind. destruct o as [[]|e|s]; [done|done|by destruct (Ho s)]. }
  apply Hv; [unfold validate_interface_name; by repeat case_match|]. apply Hv; [unfold validate_ssid; by repeat case_match|].
  assert (Hp : forall k : M W unit, (no_panic (k w).1 /\ hostapd_inv (k w).2) ->
    no_panic (((match hs_passphrase cfg with Some p => lift (validate_wpa_passphrase p) | None => mret tt end) ;; k) w).1
    /\ hostapd_inv (((match hs_passphrase cfg with Some p => lift (validate_wpa_passphrase p) | None => mret tt end) ;; k) w).2).
  { intros k Hk. destruct (hs_passphrase cfg); [|done]. apply Hv; [unfold validate_wpa_passphrase; by repeat case_match|done]. }
  apply Hp. clear Hv Hp. destruct (hostapd_stop_inv (hs_interface cfg) w Hw) as (w1 & Hs & Hi & Hn).
  rewrite !(run_bind _ _ w tt w1 Hs). clear Hs Hw w. revert w1 Hi Hn.
  assert (Hio : forall A (c : io V unit) (k : M W A),
    (forall w, hostapd_inv w -> default ∅ (st_get w : HostapdChildren) !! hs_interface cfg = None -> no_panic (k w).1 /\ hostapd_inv (k w).2) ->
    forall w, hostapd_inv w -> default ∅ (st_get w : HostapdChildren) !! hs_interface cfg = None ->
      no_panic ((io_try (untraced (outer c)) ;; k) w).1 /\ hostapd_inv ((io_try (untraced (outer c)) ;; k) w).2).
  { intros A c k Hk w Hi Hn. pose proof (untraced_apart c w) as Ha. unfold io_try, mbind, M_bind.
    destruct (untraced (outer c) w) as [[[]|e] w1]; cbn [fst snd] in *; [|split; [done|by apply (apart_inv w)]].
    pose proof (apart_eq _ _ Ha) as [_ Hs]. apply Hk; [by apply (apart_inv w)|by rewrite Hs]. }
  apply (Hio unit). apply (Hio unit). apply (Hio unit). intros w Hi Hn. by apply hostapd_spawned_inv.
Qed.

Inductive hostapd_op := OpHostapdStart (cfg : HotspotConfig) | OpHostapdStop (ifname : string).
Definition run_hostapd_op (o : hostapd_op) : M W unit :=
  match o with OpHostapdStart cfg => hostapd_start cfg | OpHostapdStop ifname => hostapd_stop ifname end.
(** The operations in order, whatever each returns. *)
Fixpoint run_hostapd_ops (ops : list hostapd_op) (w : W) : W :=
  match ops with
  | [] => w
  | o :: ops => run_hostapd_ops ops (run_hostapd_op o w).2
  end.
Lemma run_hostapd_ops_inv ops w : hostapd_inv w -> hostapd_inv (run_hostapd_ops ops w).
Proof.
  revert w. induction ops as [|o ops IH]; intros w Hw; [done|]. cbn [run_hostapd_ops]. apply IH. destruct o as [cfg|ifname]; cbn [run_hostapd_op].
  - by apply hostapd_start_inv.
  - destruct (hostapd_stop_inv ifname w Hw) as (w' & -> & Hi & _). done.
Qed.
End HostapdInvariant.

(** ** The text of hostapd's configuration *)

Definition one_line (s : string) : bool := negb (contains_char NEWLINE s).
Lemma split_lines ls :
  forallb one_line ls = true -> split NEWLINE (foldr (fun l acc => l +:+ EOL +:+ acc) "" ls) = ls ++ [""%string].
Proof.
  induction ls as [|l ls IH]; [done|]. cbn [forallb foldr]. intros [Hl Hls]%andb_true_iff.
  change (l +:+ EOL +:+ ?x) with (l ++ String NEWLINE x)%string. unfold split in *. rewrite split_by_app; [by rewrite IH| |done].
  unfold free_of. rewrite <- contains_char_ascii. exact Hl.
Qed.
Lemma interface_one_line name : validate_interface_name name = Ok tt -> one_line name = true.
Proof.
  intros (_ & _ & _ & Hw & _)%validate_interface_name_Ok. unfold one_line. apply negb_true_iff, not_true_iff_false.
  unfold contains_char. rewrite existsb_exists. intros (b & Hb & <-%Z.eqb_eq). apply chars_keep_ascii in Hb; [|done].
  apply not_true_iff_false in Hw. apply Hw, existsb_exists. by exists 10.
Qed.
Lemma dec_one_line n : 0 <= n -> one_line (dec n) = true.
Proof.
  intros Hn. unfold one_line. apply negb_true_iff, not_true_iff_false. unfold contains_char. rewrite existsb_exists.
  intros (b & Hb & <-%Z.eqb_eq). by apply dec_digits in Hb.
Qed.
Lemma one_line_app s t : one_line (s ++ t)%string = one_line s && one_line t.
Proof. unfold one_line. by rewrite contains_char_app, negb_orb. Qed.

(** ** Properties *)

(** C27: Whatever sequence of starts and stops is asked for, on whatever
    interfaces and with whatever failures in between, every hostapd that was
    started is in the table under its interface, or was taken out of it, killed
    and then waited for; the table has no others.  So none is forgotten, none is
    stopped twice, and one is started on an interface only after the one before
    was stopped.  (What [kill] and [wait] return is not looked at, and a process
    that ends by itself stays in the table.) *)
Theorem hostapd_children_tracked {V} `{FileSystem V} `{Children V} (v : V) ops :
  hostapd_inv (run_hostapd_ops ops (mkBeside v None, [])).
Proof. apply run_hostapd_ops_inv. exists []. split; [constructor|]. unfold table_children. cbn. by rewrite map_to_list_empty. Qed.

(** The configuration hostapd is given has the lines the code means it to
    have and no others, for every interface name and network name that passes
    validation and every passphrase without a line break (the one thing
    validation does not refuse). *)
Theorem hostapd_config_lines cfg :
  validate_interface_name (hs_interface cfg) = Ok tt -> validate_ssid (hs_ssid cfg) = Ok tt ->
  one_line (hs_hw_mode cfg) = true -> 0 <= hs_channel cfg -> from_option one_line true (hs_passphrase cfg) = true ->
  split NEWLINE (render_config cfg) = config_lines cfg ++ [""%string].
Proof.
  intros Hi Hs Hm Hc Hp. apply split_lines. unfold config_lines.
  assert (Hs' : one_line (hs_ssid cfg) = true).
  { unfold validate_ssid in Hs. unfold one_line. destruct (contains_char NEWLINE (hs_ssid cfg)); [|done].
    rewrite orb_true_r in Hs. by repeat case_match. }
  rewrite forallb_app. cbn [forallb]. change (?a +:+ ?b) with (a ++ b)%string.
  rewrite !one_line_app, (interface_one_line _ Hi), Hs', Hm, (dec_one_line _ Hc). cbn [andb].
  destruct (hs_passphrase cfg) as [pass|]; cbn [from_option forallb] in *; [|done].
  change ("wpa_passphrase=" +:+ pass) with ("wpa_passphrase=" ++ pass)%string. by rewrite one_line_app, Hp.
Qed.
Definition demo_hotspot : HotspotConfig := mkHotspot "wlan0" "Cafe" (Some "correct horse") 6 "g".
Lemma hostapd_config_lines_witness : split NEWLINE (render_config demo_hotspot) = config_lines demo_hotspot ++ [""%string].
Proof. apply hostapd_config_lines; (done || by_decision). Defined.
(** A passphrase that passes validation and adds a line of its own. *)
Example passphrase_adds_line :
  let pass := ("12345678" ++ String NEWLINE "bridge=br0")%string in
  validate_wpa_passphrase pass = Ok tt
  /\ In "bridge=br0"%string (split NEWLINE (render_config (mkHotspot "wlan0" "Cafe" (Some pass) 6 "g"))).
Proof. vm_compute. split; [done|]. do 9 right. by left. Qed.
