(* ===== verification/Activation.v ===== *)
(** * Activation and deactivation (connection/activation.rs, deactivation.rs,
    connection.rs)

    Turning a profile into a configured interface, and back.  Both change the
    device they are given, also on the way to an error, so they run in the
    monad of the device and the world. *)

From Stdlib Require Import Ascii String.
From S2P Require Import Prelude RustStr IpAddr Dhcp4 Sys Persistence World Netlink IpLayer Routing DhcpClient.
From S2P Require Import Dhcp6 Security Device Connection Dns Wpa Wireguard OpenVpn Logging.

(** ** Runtime state of a connection *)

Inductive ActiveConnectionState := AcActivating | AcActivated | AcDeactivating | AcDeactivated | AcFailed.
#[export] Instance ActiveConnectionState_eq_dec : EqDecision ActiveConnectionState.
Proof. solve_decision. Defined.
Record ActiveConnection := mkActive {
  ac_profile_id : string;
  ac_device_name : string;
  ac_state : ActiveConnectionState;
  ac_since : Z;
  failure_reason : option string
}.
Definition with_ac_state (a : ActiveConnection) (s : ActiveConnectionState) : ActiveConnection :=
  mkActive (ac_profile_id a) (ac_device_name a) s (ac_since a) (failure_reason a).

Definition DHCP_TIMEOUT : Z := secs_to_nanos 30.
Definition CARRIER_TIMEOUT : Z := secs_to_nanos 10.
(** The turns the polling loops get. *)
Class Fuels := { dhcp_fuel : nat; carrier_fuel : nat; wifi_fuel : nat; vpn_fuel : nat }.

(** A part of the world run beside a state. *)
Definition inner {S W A} (c : M W A) : M (S * W) A := fun s => let '(r, w) := c s.2 in (r, (s.1, w)).
Definition state_get {S W} : M (S * W) S := fun s => (Ok s.1, s).
Definition state_modify {S W} (f : S -> S) : M (S * W) unit := fun s => (Ok tt, (f s.1, s.2)).

Definition with_ipv4 (d : NetworkDevice) (l : list string) : NetworkDevice :=
  mkDevice (dev_name d) (dev_index d) (dev_type d) (dev_state d) (mac_address d) (dev_mtu d) l (ipv6_addresses d)
    (carrier d) (driver d) (active_connection d).
Definition with_ipv6 (d : NetworkDevice) (l : list string) : NetworkDevice :=
  mkDevice (dev_name d) (dev_index d) (dev_type d) (dev_state d) (mac_address d) (dev_mtu d) (ipv4_addresses d) l
    (carrier d) (driver d) (active_connection d).
(** [device.index as i32] *)
Definition index_of (d : NetworkDevice) : Z := to_signed 32 (dev_index d).

Section Activation.
Context {W : Type} `{FileSystem W} `{Entropy W} `{Clock W} `{Children W} `{WorkDirs W} `{UnixStreams W} `{Threads W}
  `{Management W} `{Static Sessions W} `{Static ActiveVpns W} `{Sockets W} `{NlEnv} `{SocketAddrs W} `{Toml RawWireGuardConfig}
  `{HostNames W} `{Stderr W} `{Static MinLevel W} `{Codec Lease} `{Codec V6.Lease6} `{Fuels}.
Context {B : Type} `{SecretsBackend B W} (ctrl_dir base_dir : string).
Abbreviation DM := (M (NetworkDevice * W)).

Definition optional_secret (wanted : bool) (secrets : B) (id key : string) : M W (option string) :=
  if wanted then secret_get secrets id key else mret None.
Definition eap_of (wifi : WifiSettings) (key_password : option string) : option EapConfig :=
  if is_enterprise (ws_security wifi)
  then Some (mkEapConfig (eap_identity wifi) (eap_ca_cert_path wifi) (eap_client_cert_path wifi) (eap_private_key_path wifi)
               key_password (eap_method wifi) (eap_phase2 wifi))
  else None.
Definition join_wifi (profile : ConnectionProfile) (ifname : string) (secrets : B) : M W unit :=
  wifi ← lift (ok_or (wifi profile) (Config ("profile '" +:+ profile_id profile +:+ "' has no [wifi] section")));
  passphrase ← (if has_secret wifi then secret_get secrets (profile_id profile) "psk"
                else optional_secret (has_eap_secret wifi) secrets (profile_id profile) "eap-password");
  key_password ← optional_secret (bool_decide (is_Some (eap_private_key_path wifi))) secrets (profile_id profile)
                   "eap-private-key-password";
  wifi_connect wifi_fuel ctrl_dir ifname (ws_ssid wifi) (ws_security wifi) passphrase (eap_of wifi key_password).

(** [for addr in &profile.addresses] *)
Definition add_addresses (index : Z) (addresses : list string) : M W unit :=
  for_each addresses (fun addr =>
    '(ip, prefixlen) ← lift (parse_cidr addr); address_add index ip prefixlen).
Definition apply_static (profile : ConnectionProfile) (index : Z) : M W unit :=
  add_addresses index (addresses profile) ;;
  match profile_gateway profile with
  | Some gw =>
      ip ← lift (ok_or (parse_ip gw) (Config ("invalid gateway '" +:+ gw +:+ "'")));
      default_route_apply index ip 100 PStatic
  | None => mret tt
  end.
(** [if !servers.is_empty() { resolver::apply_static(..)? }] *)
Definition apply_servers (servers : list IpAddr) (search : list string) : M W unit :=
  match servers with [] => mret tt | _ => dns_apply_static servers search end.

Definition apply_dhcp (index : Z) : DM unit :=
  device ← state_get;
  lease ← inner (acquire dhcp_fuel (dev_name device) DHCP_TIMEOUT);
  inner (address_add index (V4 (address lease)) (prefixlen lease)) ;;
  inner (match gateway lease with
         | Some gw => default_route_apply index (V4 gw) 100 PDhcp
         | None => mret tt
         end) ;;
  inner (apply_servers (map V4 (dns_servers lease)) (match domain lease with Some d => [d] | None => [] end)) ;;
  state_modify (fun d => with_ipv4 d [show_ipv4 (address lease) +:+ "/" +:+ dec (prefixlen lease)]) ;;
  inner (save_lease base_dir (dev_name device) lease).

Definition apply_dhcp6 (index : Z) : DM unit :=
  device ← state_get;
  mac ← inner (get_mac (dev_name device));
  lease ← inner (V6.request_stateful_lease (dev_name device) mac DHCP_TIMEOUT);
  inner (address_add index (V6 (V6.l6_address lease)) (V6.l6_prefixlen lease)) ;;
  inner (apply_servers (map V6 (V6.l6_dns_servers lease)) (V6.l6_domain_search lease)) ;;
  state_modify (fun d => with_ipv6 d [show_ipv6 (V6.l6_address lease) +:+ "/" +:+ dec (V6.l6_prefixlen lease)]) ;;
  inner (V6.save_lease6 base_dir (dev_name device) lease).

(** A failure is a warning, not an error. *)
Definition apply_dhcp6_stateless (ifname : string) : M W unit :=
  mac ← attempt (get_mac ifname);
  match mac with
  | inr _ => mret tt
  | inl mac =>
      info ← attempt (V6.request_stateless_info ifname mac DHCP_TIMEOUT);
      match info with
      | inr e => log_warn ("DHCPv6 stateless Information-Request on " +:+ ifname +:+ " failed: " +:+ error_to_string e)
      | inl info =>
          match V6.si_dns_servers info with
          | [] => mret tt
          | servers =>
              r ← attempt (dns_apply_static (map V6 servers) (V6.si_domain_search info));
              match r with
              | inr e => log_warn ("applying DHCPv6 stateless DNS info for " +:+ ifname +:+ " failed: " +:+ error_to_string e)
              | inl _ => mret tt
              end
          end
      end
  end.

(** From the addresses to the resolver. *)
Definition configure_ip (profile : ConnectionProfile) (index : Z) : DM unit :=
  inner (address_flush index) ;;
  (match method profile with
   | AmManual => inner (apply_static profile index)
   | AmAuto => apply_dhcp index
   | AmLinkLocal | AmDisabled => mret tt
   end) ;;
  (match ipv6_method profile with
   | Slaac => mret tt
   | SlaacWithStatelessDhcp => device ← state_get; inner (apply_dhcp6_stateless (dev_name device))
   | Dhcp6Stateful => apply_dhcp6 index
   end) ;;
  match profile_dns profile with
  | [] => mret tt
  | dns => inner (dns_apply_static (omap parse_ip dns) [])
  end.

Definition activated (profile_id : string) (device_name : string) : DM ActiveConnection :=
  state_modify (fun d => with_active (with_state d Activated) (Some profile_id)) ;;
  since ← inner now_secs;
  mret (mkActive profile_id device_name AcActivated since None).

Definition activate (profile : ConnectionProfile) (secrets : B) : DM ActiveConnection :=
  state_modify (fun d => with_state d Connecting) ;;
  device ← state_get;
  let index := index_of device in
  match device_type profile with
  | DtVpn =>
      vpn ← lift (ok_or (vpn profile) (Config ("profile '" +:+ profile_id profile +:+ "' has no [vpn] section")));
      session ← inner (vpn_connect vpn_fuel (vpn_kind vpn) (vpn_config vpn) secrets (profile_id profile));
      activated (profile_id profile) (session_interface session)
  | t =>
      inner (match t with
             | DtWiFi => join_wifi profile (dev_name device) secrets
             | _ => bring_up index ;; wait_for_carrier carrier_fuel index CARRIER_TIMEOUT
             end) ;;
      state_modify (fun d => with_state d IpConfiguring) ;;
      configure_ip profile index ;;
      activated (profile_id profile) (dev_name device)
  end.

(** ** Deactivation *)

(** The [ActiveConnection] is the caller's: its state is that of the result. *)
Definition deactivate : DM unit :=
  state_modify (fun d => with_state d Deactivating) ;;
  device ← state_get;
  (if bool_decide (dev_type device = DtVpn) then inner (vpn_disconnect (dev_name device))
   else
     inner (ignore (DhcpClient.release base_dir (dev_name device))) ;;
     inner (ignore (V6.release_persisted base_dir (dev_name device))) ;;
     inner (address_flush (index_of device)) ;;
     if bool_decide (dev_type device = DtWiFi) then inner (wifi_disconnect ctrl_dir (dev_name device)) else mret tt) ;;
  state_modify (fun d => with_ipv6 (with_ipv4 (with_active (with_state d Disconnected) None) []) []).
(** [active.state] before, after a failure and after a success *)
Definition deactivated_state (r : outcome unit) : ActiveConnectionState :=
  match r with Ok _ => AcDeactivated | _ => AcDeactivating end.
End Activation.

(** ** What happens to the device *)

(** Who the device is: nothing of it ever changes here. *)
Definition identity_of (d : NetworkDevice) : string * Z * DeviceType * option string * Z * bool * option string :=
  (dev_name d, dev_index d, dev_type d, mac_address d, dev_mtu d, carrier d, driver d).
(** What addressing leaves alone. *)
Definition core_of (d : NetworkDevice) := (identity_of d, dev_state d, active_connection d).

Section DeviceFrame.
Context {W : Type}.
Lemma keeps_inner {S X A} (f : S -> X) (c : M W A) : keeps (fun s : S * W => f s.1) (inner c).
Proof. intros [d w]. unfold inner. cbn. by destruct (c w). Qed.
Lemma keeps_state_get {S X} (f : S * W -> X) : keeps f state_get.
Proof. done. Qed.
Lemma keeps_modify {S X} (f : S -> X) g : (forall d, f (g d) = f d) -> keeps (fun s : S * W => f s.1) (state_modify g).
Proof. intros Hg [d w]. apply Hg. Qed.
End DeviceFrame.
#[export] Hint Resolve keeps_inner keeps_state_get : frame.

Section ActivationStates.
Context {W : Type} `{FileSystem W} `{Entropy W} `{Clock W} `{Children W} `{WorkDirs W} `{UnixStreams W} `{Threads W}
  `{Management W} `{Static Sessions W} `{Static ActiveVpns W} `{Sockets W} `{NlEnv} `{SocketAddrs W} `{Toml RawWireGuardConfig}
  `{HostNames W} `{Stderr W} `{Static MinLevel W} `{Codec Lease} `{Codec V6.Lease6} `{Fuels}.
Context {B : Type} `{SecretsBackend B W} (ctrl_dir base_dir : string).

Lemma apply_dhcp_core index : keeps (fun s : NetworkDevice * W => core_of s.1) (apply_dhcp base_dir index).
Proof. unfold apply_dhcp. frame. by apply keeps_modify. Qed.
Lemma apply_dhcp6_core index : keeps (fun s : NetworkDevice * W => core_of s.1) (apply_dhcp6 base_dir index).
Proof. unfold apply_dhcp6. frame. by apply keeps_modify. Qed.
Lemma configure_ip_core p index : keeps (fun s : NetworkDevice * W => core_of s.1) (configure_ip base_dir p index).
Proof. unfold configure_ip. frame; [apply apply_dhcp_core|apply apply_dhcp6_core]. Qed.
(** Any computation over the device and the world, as a relation on devices. *)
Lemma run_core {A} (c : M (NetworkDevice * W) A) d w :
  keeps (fun s => core_of s.1) c -> exists r d' w', c (d, w) = (r, (d', w')) /\ core_of d' = core_of d.
Proof. intros Hc. specialize (Hc (d, w)). destruct (c (d, w)) as [r [d' w']]. by exists r, d', w'. Qed.
Lemma run_inner {S A} (c : M W A) (d : S) w : exists r w', inner c (d, w) = (r, (d, w')) /\ (c w).1 = r.
Proof. unfold inner. cbn. destruct (c w) as [r w']. by exists r, w'. Qed.

(** Where a device is left by an attempt to activate a profile on it. *)
Definition activation_state (p : ConnectionProfile) (d : NetworkDevice) (r : outcome ActiveConnection) (d' : NetworkDevice) : Prop :=
  identity_of d' = identity_of d /\
  match r with
  | Ok a => dev_state d' = Activated /\ active_connection d' = Some (profile_id p)
      /\ ac_profile_id a = profile_id p /\ ac_state a = AcActivated
      /\ (device_type p <> DtVpn -> ac_device_name a = dev_name d)
  | Err _ | Panic _ => active_connection d' = active_connection d
      /\ (dev_state d' = Connecting \/ (device_type p <> DtVpn /\ dev_state d' = IpConfiguring))
  end.

Lemma activated_run id name (d : NetworkDevice) (w : W) :
  exists a w', activated id name (d, w) = (Ok a, (with_active (with_state d Activated) (Some id), w'))
    /\ ac_profile_id a = id /\ ac_device_name a = name /\ ac_state a = AcActivated.
Proof.
  unfold activated, mbind, M_bind, state_modify, inner, now_secs. cbn [fst snd]. rewrite observe_run.
  eexists _, _. split; [done|]. done.
Qed.
(** The branch of every kind of device but a VPN, after the link is there. *)
Lemma wired_state p (link : M W unit) index d (w : W) r d' w' :
  device_type p <> DtVpn ->
  (inner link ;; state_modify (fun d => with_state d IpConfiguring) ;; configure_ip base_dir p index ;;
   activated (profile_id p) (dev_name d)) (with_state d Connecting, w) = (r, (d', w')) ->
  activation_state p d r d'.
Proof.
  intros Ht. unfold mbind at 1, M_bind at 1. destruct (run_inner link (with_state d Connecting) w) as (rl & w1 & -> & _).
  destruct rl as [[]|e|s]; [|intros [= <- <- _]; (split; [done|]; split; [done|by left])..].
  unfold mbind at 1, M_bind at 1, state_modify. cbn [fst snd]. unfold mbind at 1, M_bind at 1.
  destruct (run_core _ (with_state (with_state d Connecting) IpConfiguring) w1 (configure_ip_core p index)) as (rc & d1 & w2 & -> & Hc).
  unfold core_of in Hc. injection Hc as Hi1 Hi2 Hi3 Hi4 Hi5 Hi6 Hi7 Hs Ha. cbn in Hi1, Hi2, Hi3, Hi4, Hi5, Hi6, Hi7, Hs, Ha.
  destruct rc as [[]|e|s].
  - destruct (activated_run (profile_id p) (dev_name d) d1 w2) as (a & w3 & -> & H1' & H2' & H3'). intros [= <- <- _].
    split; [unfold identity_of; cbn; congruence|]. done.
  - intros [= <- <- _]. split; [unfold identity_of; cbn; congruence|]. split; [done|by right].
  - intros [= <- <- _]. split; [unfold identity_of; cbn; congruence|]. split; [done|by right].
Qed.
Lemma activate_state p secrets d (w : W) r d' w' :
  activate ctrl_dir base_dir p secrets (d, w) = (r, (d', w')) -> activation_state p d r d'.
Proof.
  unfold activate. unfold mbind at 1, M_bind at 1, state_modify at 1. cbn [fst snd]. unfold mbind at 1, M_bind at 1, state_get. cbn [fst snd].
  change (dev_name (with_state d Connecting)) with (dev_name d).
  destruct (device_type p) eqn:Et; try (apply wired_state; by rewrite Et).
  unfold mbind at 1, M_bind at 1, lift. destruct (vpn p) as [v|]; cbn [ok_or].
  2:{ intros [= <- <- _]. split; [done|]. split; [done|by left]. }
  unfold mbind at 1, M_bind at 1. destruct (run_inner (vpn_connect vpn_fuel (vpn_kind v) (vpn_config v) secrets (profile_id p))
    (with_state d Connecting) w) as (rv & w1 & -> & _).
  destruct rv as [session|e|s]; [|intros [= <- <- _]; (split; [done|]; split; [done|by left])..].
  destruct (activated_run (profile_id p) (session_interface session) (with_state d Connecting) w1) as (a & w3 & -> & H1' & H2' & H3').
  intros [= <- <- _]. split; [done|]. by rewrite Et.
Qed.

(** Where it is left by an attempt to deactivate it. *)
Definition deactivation_state (d : NetworkDevice) (r : outcome unit) (d' : NetworkDevice) : Prop :=
  identity_of d' = identity_of d /\
  match r with
  | Ok _ => dev_state d' = Disconnected /\ active_connection d' = None /\ ipv4_addresses d' = [] /\ ipv6_addresses d' = []
  | Err _ | Panic _ => dev_state d' = Deactivating /\ active_connection d' = active_connection d
      /\ ipv4_addresses d' = ipv4_addresses d /\ ipv6_addresses d' = ipv6_addresses d
  end.
Lemma deactivate_state d (w : W) r d' w' :
  deactivate ctrl_dir base_dir (d, w) = (r, (d', w')) -> deactivation_state d r d'.
Proof.
  unfold deactivate. unfold mbind at 1, M_bind at 1, state_modify at 1. cbn [fst snd]. unfold mbind at 1, M_bind at 1, state_get. cbn [fst snd].
  unfold mbind at 1, M_bind at 1.
  match goal with |- context [match ?c (with_state d Deactivating, w) with _ => _ end] =>
    assert (Hk : keeps (fun s : NetworkDevice * W => s.1) c) by (frame; apply (keeps_inner (fun d => d)));
    specialize (Hk (with_state d Deactivating, w)); destruct (c (with_state d Deactivating, w)) as [rc [d1 w1]] end.
  cbn [fst snd] in Hk. subst d1. by destruct rc as [[]|e|s]; intros [= <- <- _].
Qed.
End ActivationStates.

(** ** Properties *)

(** Where activation and deactivation leave a device, on every path.  The
    device stays who it is.  A successful activation leaves it [Activated]
    under the profile's id, and the connection says so; a failed one leaves it
    [Connecting], or [IpConfiguring] once the link was up, with the connection
    it had before.  A successful deactivation leaves it [Disconnected], without
    connection or addresses; a failed one leaves it [Deactivating] with both. *)
Theorem activation_device_states {W} `{FileSystem W} `{Entropy W} `{Clock W} `{Children W} `{WorkDirs W} `{UnixStreams W} `{Threads W}
    `{Management W} `{Static Sessions W} `{Static ActiveVpns W} `{Sockets W} `{NlEnv} `{SocketAddrs W} `{Toml RawWireGuardConfig}
    `{HostNames W} `{Stderr W} `{Static MinLevel W} `{Codec Lease} `{Codec V6.Lease6} `{Fuels} {B} `{SecretsBackend B W}
    ctrl_dir base_dir p (secrets : B) d (w : W) :
  (let '(r, (d', _)) := activate ctrl_dir base_dir p secrets (d, w) in activation_state p d r d')
  /\ (let '(r, (d', _)) := deactivate ctrl_dir base_dir (d, w) in deactivation_state d r d').
Proof.
  split.
  - destruct (activate ctrl_dir base_dir p secrets (d, w)) as [r [d' w']] eqn:E. by eapply activate_state.
  - destruct (deactivate ctrl_dir base_dir (d, w)) as [r [d' w']] eqn:E. by eapply deactivate_state.
Qed.
