(* ===== verification/Panics.v ===== *)
(** * Where the daemon can panic

    A panic in a handler ends the manager's thread and with it the daemon.
    [ends P Q c]: whatever the world does, [c] ends with an error, with a value
    in [Q], or with a panic whose message is in [P].  One lemma per operation
    says which panics it can end with; the messages are those of the Rust
    runtime.  A loop of the model that has used up its turns ends with the
    message ["fuel"], which stands for a loop of the source that is still
    running. *)

From Stdlib Require Import Ascii String.
From S2P Require Import Prelude RustStr IpAddr Dhcp4 Sys Persistence World Netlink IpLayer Routing DhcpClient.
From S2P Require Import Dhcp6 Security Firewall Device Connection Ipc Pac Proxy Dns Config Store Wpa.
From S2P Require Import Wireguard OpenVpn Connectivity Monitoring Bluetooth Logging Sharing Activation.

(** ** The calculus *)

Definition FUEL : string := "fuel".
Definition RANGE : string := "range start index out of range for slice".
Definition NEGATE : string := "attempt to negate with overflow".
Definition ADD : string := "attempt to add with overflow".
Definition BOUNDARY : string := "byte index is not a char boundary".
Definition NUL_ERROR : string := "called `Result::unwrap()` on an `Err` value: NulError".

Definition settles {A} (P : string -> Prop) (Q : A -> Prop) (o : outcome A) : Prop :=
  match o with Ok a => Q a | Err _ => True | Panic why => P why end.
Definition ends {W A} (P : string -> Prop) (Q : A -> Prop) (c : M W A) : Prop := forall w, settles P Q (c w).1.
Abbreviation only P c := (ends P (fun _ => True) c).

Section Ends.
Context {W : Type} (P : string -> Prop).
Lemma ends_mono {A} (Q Q' : A -> Prop) (c : M W A) : ends P Q c -> (forall a, Q a -> Q' a) -> ends P Q' c.
Proof. intros Hc HQ w. specialize (Hc w). destruct (c w) as [[a|e|why] w']; cbn in *; auto. Qed.
Lemma ends_bind {A B} (Q : A -> Prop) (R : B -> Prop) (c : M W A) (f : A -> M W B) :
  ends P Q c -> (forall a, Q a -> ends P R (f a)) -> ends P R (c ≫= f).
Proof.
  intros Hc Hf w. specialize (Hc w). unfold mbind, M_bind. destruct (c w) as [[a|e|why] w']; cbn in *; [by apply Hf|done..].
Qed.
Lemma only_bind {A B} (R : B -> Prop) (c : M W A) (f : A -> M W B) :
  only P c -> (forall a, ends P R (f a)) -> ends P R (c ≫= f).
Proof. intros Hc Hf. eapply ends_bind; [exact Hc|]. intros a _. apply Hf. Qed.
Lemma ends_ret {A} (Q : A -> Prop) (a : A) : Q a -> ends P Q (mret a : M W A).
Proof. by intros HQ w. Qed.
Lemma ends_lift {A} (Q : A -> Prop) (o : outcome A) : settles P Q o -> ends P Q (lift o : M W A).
Proof. by intros HQ w. Qed.
Lemma ends_throw {A} (Q : A -> Prop) e : ends P Q (throw e : M W A).
Proof. done. Qed.
Lemma ends_attempt {A} (Q : A + NetworkError -> Prop) (c : M W A) :
  ends P (fun a => Q (inl a)) c -> (forall e, Q (inr e)) -> ends P Q (attempt c).
Proof. intros Hc He w. specialize (Hc w). unfold attempt. destruct (c w) as [[a|e|why] w']; cbn in *; auto. Qed.
Lemma only_ignore {A} (c : M W A) : only P c -> only P (ignore c).
Proof. intros Hc w. specialize (Hc w). unfold ignore. by destruct (c w) as [[a|e|why] w']. Qed.
Lemma ends_finally {A} (Q : A -> Prop) (c : M W A) d : ends P Q c -> ends P Q (finally c d).
Proof. intros Hc w. specialize (Hc w). unfold finally. by destruct (c w). Qed.
Lemma safe_only {A} (c : M W A) : safe c -> only P c.
Proof. intros Hc w. specialize (Hc w). destruct (c w) as [[a|e|why] w']; cbn in *; [done..|by destruct (Hc why)]. Qed.
Lemma only_for_each {A} (l : list A) (g : A -> M W unit) : (forall x, only P (g x)) -> only P (for_each l g).
Proof. intros Hg. induction l as [|x l IH]; cbn; [by apply ends_ret|]. by apply only_bind. Qed.
End Ends.

Section Settles.
Context (P : string -> Prop).
Lemma settles_no_panic {A} (o : outcome A) : no_panic o -> settles P (fun _ => True) o.
Proof. intros Ho. destruct o as [a|e|why]; [done..|by destruct (Ho why)]. Qed.
Lemma settles_ok {A} (o : outcome A) : is_ok o -> settles P (fun _ => True) o.
Proof. by intros [a ->]. Qed.
Lemma settles_bind {A B} (Q : A -> Prop) (R : B -> Prop) (o : outcome A) (f : A -> outcome B) :
  settles P Q o -> (forall a, Q a -> settles P R (f a)) -> settles P R (o ≫= f).
Proof. destruct o as [a|e|why]; cbn; auto. Qed.
Lemma settles_ok_or {A} (o : option A) e : settles P (fun _ => True) (ok_or o e).
Proof. by destruct o. Qed.
Lemma settles_map_err {A} (Q : A -> Prop) f (o : outcome A) : settles P Q o -> settles P Q (map_err f o).
Proof. by destruct o. Qed.
End Settles.

(** Beside a state. *)
Section Beside.
Context {S W : Type} (P : string -> Prop).
Lemma ends_inner {A} (Q : A -> Prop) (c : M W A) : ends P Q c -> ends P Q (inner (S := S) c).
Proof. intros Hc [s w]. specialize (Hc w). unfold inner. cbn. by destruct (c w). Qed.
Lemma only_state_get : only P (state_get (S := S) (W := W)).
Proof. done. Qed.
Lemma only_state_modify f : only P (state_modify (S := S) (W := W) f).
Proof. done. Qed.
End Beside.

(** A prefix length that fits its family. *)
Definition prefix_fits (ip : IpAddr) (prefixlen : Z) : Prop := is_ipv4 ip = true -> prefixlen <= 32.
Lemma parse_cidr_total s : no_panic (parse_cidr s).
Proof. unfold parse_cidr. repeat (apply no_panic_bind; [apply no_panic_ok_or|intros]; repeat case_match; try done). Qed.
Lemma parse_cidr_fits s ip p : parse_cidr s = Ok (ip, p) -> prefix_fits ip p.
Proof. intros (x & y & _ & _ & _ & Hp)%parse_cidr_inv Hv. by rewrite Hv in Hp. Qed.
Lemma settles_parse_cidr P s : settles P (fun r => prefix_fits r.1 r.2) (parse_cidr s).
Proof.
  pose proof (parse_cidr_total s) as Ht. destruct (parse_cidr s) as [[ip p]|e|why] eqn:E; [|done|by destruct (Ht why)].
  by eapply parse_cidr_fits.
Qed.

Create HintDb panics.
#[export] Hint Resolve ends_throw only_state_get only_state_modify settles_ok_or settles_no_panic settles_ok : panics.
#[export] Hint Resolve safe_effect safe_observe safe_io_try safe_io_try_with safe_io_match safe_io_ignore : panics.
#[export] Hint Extern 1 (ends _ _ (observe _)) => apply safe_only, safe_observe : panics.
#[export] Hint Extern 1 (ends _ _ (effect _)) => apply safe_only, safe_effect : panics.
#[export] Hint Extern 1 (ends _ _ (io_try _)) => apply safe_only, safe_io_try : panics.
#[export] Hint Extern 1 (ends _ _ (io_try_with _ _)) => apply safe_only, safe_io_try_with : panics.
#[export] Hint Extern 1 (ends _ _ (io_match _)) => apply safe_only, safe_io_match : panics.
#[export] Hint Extern 1 (ends _ _ (io_ignore _)) => apply safe_only, safe_io_ignore : panics.

(** Along the structure of a body, with a case analysis where it branches. *)
Ltac panics_step :=
  match goal with
  | |- _ => solve [assumption | exact I | auto with panics]
  | |- forall _, ends _ _ _ => intros
  | |- ends _ _ (lift (parse_cidr _) ≫= _) => eapply ends_bind; [apply ends_lift, settles_parse_cidr|intros [? ?] ?]; cbn [fst snd] in *
  | |- ends _ _ (_ ≫= _) => apply only_bind; [|intros]
  | |- ends _ _ (mret _) => apply ends_ret
  | |- ends _ _ (attempt _) => apply ends_attempt; [|intros]
  | |- ends _ _ (ignore _) => apply only_ignore
  | |- ends _ _ (finally _ _) => apply ends_finally
  | |- ends _ _ (for_each _ _) => apply only_for_each; intros
  | |- ends _ _ (inner _) => apply ends_inner
  | |- ends _ _ (lift _) => apply ends_lift
  | |- settles _ _ (_ ≫= _) => eapply (settles_bind _ (fun _ => True)); [|intros ? _]
  | |- settles _ _ (map_err _ _) => apply settles_map_err
  | |- settles _ _ (Ok _) => cbn
  | |- settles _ _ (Err _) => exact I
  | |- ends _ _ (let '(_, _) := _ in _) => case_match_goal
  | |- ends _ _ (match _ with _ => _ end) => case_match_goal
  | |- settles _ _ (match _ with _ => _ end) => case_match_goal
  end.
Ltac panics := repeat panics_step.

(** ** Netlink and the IP layer *)

Section Ip.
Context {W : Type} `{Sockets W} `{NlEnv} (P : string -> Prop) (Hfuel : P FUEL) (Hrange : P RANGE) (Hneg : P NEGATE).

Lemma recv_datagram_panics fuel seq rest out done :
  (length rest < fuel)%nat -> settles P (fun _ => True) (recv_datagram fuel seq rest out done).
Proof using Hrange.
  revert rest out done. induction fuel as [|fuel IH]; intros rest out dn Hf; [lia|]. cbn [recv_datagram].
  case_bool_decide as H4; [|done]. unfold NLMSG_HDRLEN in *.
  destruct (sub_ok rest 0 4) as [lenb ->]; [lia|]. destruct (sub_ok rest 4 6) as [tyb ->]; [lia|].
  destruct (sub_ok rest 6 8) as [flb ->]; [lia|]. destruct (sub_ok rest 8 12) as [sqb ->]; [lia|]. cbn [mbind outcome_bind].
  set (len := Z.to_nat (from_le lenb)). case_bool_decide as Hl; [done|]. case_bool_decide as Hl'; [done|]. cbn [orb].
  destruct (sub_ok rest 16 len) as [body ->]; [lia|]. cbn [mbind outcome_bind].
  destruct (if _ || _ then _ else _) as [out' dn']. unfold slice_from. case_bool_decide as Hs; [|exact Hrange].
  cbn [or_panic mbind outcome_bind]. apply IH. rewrite length_drop. pose proof (align_bounds len). lia.
Qed.
Lemma recv_until_done_panics fuel sock seq out : only P (recv_until_done (W := W) fuel sock seq out).
Proof using Hfuel Hrange.
  revert out. induction fuel as [|fuel IH]; intros out; cbn [recv_until_done]; [by apply ends_lift|]. panics.
  apply recv_datagram_panics. lia.
Qed.
Lemma check_ack_panics body : settles P (fun _ => True) (check_ack strerror body).
Proof using Hneg.
  unfold check_ack. case_bool_decide; [done|]. destruct (sub_ok body 0 4) as [b ->]; [lia|]. cbn [mbind outcome_bind]. by repeat case_match.
Qed.
Lemma check_acks_panics msgs : settles P (fun _ => True) (check_acks msgs).
Proof using Hneg. induction msgs as [|[[t f] body] msgs IH]; cbn [check_acks]; [done|]. panics. apply check_ack_panics. Qed.
Lemma collect_bodies_panics msgs out : settles P (fun _ => True) (collect_bodies msgs out).
Proof using Hneg.
  revert out. induction msgs as [|[[t f] body] msgs IH]; intros out; cbn [collect_bodies]; [done|]. panics. apply check_ack_panics.
Qed.
#[local] Hint Resolve recv_until_done_panics check_acks_panics collect_bodies_panics : panics.
Lemma with_protocol_panics protocol groups : only P (with_protocol (W := W) protocol groups).
Proof. unfold with_protocol. panics. Qed.
Lemma nl_new_panics : only P (nl_new (W := W)).
Proof. apply with_protocol_panics. Qed.
Lemma with_sock_panics {A} (Q : A -> Prop) open (body : NlSocket -> M W A) :
  only P open -> (forall sock, ends P Q (body sock)) -> ends P Q (with_sock open body).
Proof. intros Ho Hb. unfold with_sock. panics. Qed.
Lemma nl_send_panics sock t f payload : only P (nl_send (W := W) sock t f payload).
Proof. unfold nl_send. panics. Qed.
#[local] Hint Resolve with_protocol_panics nl_new_panics nl_send_panics : panics.
Lemma nl_request_panics sock t f payload : only P (nl_request (W := W) sock t f payload).
Proof using Hfuel Hrange Hneg. unfold nl_request. panics. Qed.
Lemma nl_dump_panics sock t payload : only P (nl_dump (W := W) sock t payload).
Proof using Hfuel Hrange Hneg. unfold nl_dump. panics. Qed.
Lemma nl_query_panics sock t f payload : only P (nl_query (W := W) sock t f payload).
Proof using Hfuel Hrange Hneg. unfold nl_query. panics. Qed.
#[local] Hint Resolve nl_request_panics nl_dump_panics nl_query_panics : panics.

Lemma filter_map_out_panics {A B} (f : A -> outcome (option B)) l :
  (forall x, is_ok (f x)) -> settles P (fun _ => True) (filter_map_out f l).
Proof. intros Hf. induction l as [|x l IH]; cbn [filter_map_out]; [done|]. destruct (Hf x) as [r ->]. cbn [mbind outcome_bind]. panics. Qed.
Lemma address_of_reply_ok family index body : is_ok (address_of_reply family index body).
Proof. unfold address_of_reply. destruct (parse_addr_ok body) as [a ->]. cbn. repeat case_match; by eexists. Qed.
Lemma interface_of_reply_ok body : is_ok (interface_of_reply body).
Proof. unfold interface_of_reply. destruct (parse_link_ok body) as [a ->]. by eexists. Qed.
Lemma route_of_reply_ok body : is_ok (route_of_reply body).
Proof. unfold route_of_reply. destruct (parse_route_ok body) as [a ->]. by eexists. Qed.
Lemma neighbor_of_reply_ok family ifindex body : is_ok (neighbor_of_reply family ifindex body).
Proof.
  unfold neighbor_of_reply. case_bool_decide; [by eexists|]. destruct (sub_ok body 4 8) as [? ->]; [lia|]. cbn [mbind outcome_bind].
  case_match; [by eexists|]. destruct (sub_ok body 8 10) as [? ->]; [lia|]. destruct (sub_ok body 12 (length body)) as [ab ->]; [lia|].
  cbn [mbind outcome_bind]. destruct (parse_attrs_ok ab) as [? ->]. cbn [mbind outcome_bind]. repeat case_match; by eexists.
Qed.
Lemma find_family_id_panics name replies : settles P (fun _ => True) (find_family_id name replies).
Proof.
  induction replies as [|body replies IH]; cbn [find_family_id]; [done|]. case_bool_decide; [done|].
  destruct (sub_ok body 4 (length body)) as [ab ->]; [lia|]. cbn [mbind outcome_bind]. destruct (parse_attrs_ok ab) as [? ->].
  cbn [mbind outcome_bind]. by case_match.
Qed.
#[local] Hint Resolve address_of_reply_ok interface_of_reply_ok route_of_reply_ok neighbor_of_reply_ok find_family_id_panics : panics.
#[local] Hint Resolve filter_map_out_panics with_sock_panics : panics.

Lemma address_add_payload_panics index ip p : prefix_fits ip p -> settles P (fun _ => True) (address_add_payload index ip p).
Proof.
  intros Hp. unfold address_add_payload. destruct ip as [a|a]; [|done]. unfold broadcast_address, subnet_mask.
  specialize (Hp eq_refl). destruct (p =? 0); [done|]. destruct (Z.ltb_spec 32 p); [lia|done].
Qed.
Lemma address_add_panics index ip p : prefix_fits ip p -> only P (address_add (W := W) index ip p).
Proof using Hfuel Hrange Hneg. intros Hp. unfold address_add. apply with_sock_panics; [panics|]. intros sock. panics. by apply address_add_payload_panics. Qed.
Lemma address_del_panics index ip p : only P (address_del (W := W) index ip p).
Proof using Hfuel Hrange Hneg. unfold address_del. apply with_sock_panics; panics. Qed.
Lemma address_list_families_panics families index : only P (address_list_families (W := W) families index).
Proof using Hfuel Hrange Hneg.
  induction families as [|family families IH]; cbn [address_list_families]; panics. apply with_sock_panics; panics.
Qed.
#[local] Hint Resolve address_del_panics address_list_families_panics : panics.
Lemma address_flush_panics index : only P (address_flush (W := W) index).
Proof using Hfuel Hrange Hneg. unfold address_flush, address_list. panics. Qed.
Lemma interface_list_panics : only P (interface_list (W := W)).
Proof using Hfuel Hrange Hneg. unfold interface_list. apply with_sock_panics; panics. Qed.
#[local] Hint Resolve interface_list_panics : panics.
Lemma get_by_name_panics name : only P (get_by_name (W := W) name).
Proof using Hfuel Hrange Hneg. unfold get_by_name. panics. Qed.
Lemma get_by_index_panics index : only P (get_by_index (W := W) index).
Proof using Hfuel Hrange Hneg. unfold get_by_index. panics. Qed.
Lemma set_flags_panics index flags change : only P (set_flags (W := W) index flags change).
Proof using Hfuel Hrange Hneg. unfold set_flags. apply with_sock_panics; panics. Qed.
Lemma interface_delete_panics index : only P (interface_delete (W := W) index).
Proof using Hfuel Hrange Hneg. unfold interface_delete. apply with_sock_panics; panics. Qed.
Lemma create_virtual_panics name kind : only P (create_virtual (W := W) name kind).
Proof using Hfuel Hrange Hneg. unfold create_virtual. apply with_sock_panics; panics. Qed.
Lemma route_build_panics r t f : only P (route_build (W := W) r t f).
Proof using Hfuel Hrange Hneg. unfold route_build. apply with_sock_panics; panics. Qed.
Lemma route_list_panics family : only P (route_list (W := W) family).
Proof using Hfuel Hrange Hneg. unfold route_list. apply with_sock_panics; panics. Qed.
#[local] Hint Resolve get_by_name_panics route_build_panics route_list_panics : panics.
Lemma neighbor_list_families_panics families index : only P (neighbor_list_families (W := W) families index).
Proof using Hfuel Hrange Hneg.
  induction families as [|family families IH]; cbn [neighbor_list_families]; panics. apply with_sock_panics; panics.
Qed.
Lemma resolve_family_panics sock name : only P (resolve_family (W := W) sock name).
Proof using Hfuel Hrange Hneg. unfold resolve_family. panics. Qed.
Lemma default_route_apply_panics oif gw m p : only P (default_route_apply (W := W) oif gw m p).
Proof using Hfuel Hrange Hneg. unfold default_route_apply, set_default, route_add, route_del. panics. Qed.
Lemma get_mac_panics ifname : only P (get_mac (W := W) ifname).
Proof using Hfuel Hrange Hneg. unfold get_mac. panics. Qed.
End Ip.
#[export] Hint Resolve with_protocol_panics nl_new_panics nl_send_panics nl_request_panics nl_dump_panics nl_query_panics
  address_add_panics address_del_panics address_list_families_panics address_flush_panics interface_list_panics get_by_name_panics
  get_by_index_panics set_flags_panics interface_delete_panics create_virtual_panics route_build_panics route_list_panics
  neighbor_list_families_panics resolve_family_panics default_route_apply_panics get_mac_panics with_sock_panics : panics.

(** ** Files *)

(** [serde] reports a failure as an error. *)
Class CodecTotal (A : Type) `{Codec A} : Prop := {
  encode_total (v : A) : no_panic (encode v);
  decode_total s : no_panic (decode (A := A) s)
}.
#[export] Hint Resolve encode_total decode_total : panics.
#[export] Hint Extern 0 (CodecTotal _) => apply _ : panics.

Section Files.
Context {W : Type} `{FileSystem W} (P : string -> Prop).
Lemma only_static_get {S} `{Static S W} : only P (static_get (S := S) (W := W)).
Proof. done. Qed.
Lemma only_static_put {S} `{Static S W} (s : S) : only P (static_put (W := W) s).
Proof. done. Qed.
Lemma read_json_panics {A} `{CodecTotal A} path : only P (read_json (W := W) (A := A) path).
Proof. unfold read_json. panics. Qed.
Lemma write_json_panics {A} `{CodecTotal A} path (v : A) : only P (write_json (W := W) path v).
Proof. unfold write_json. panics. Qed.
Lemma db_remove_panics path : only P (db_remove (W := W) path).
Proof. unfold db_remove. panics. Qed.
Lemma list_dir_panics dir ext : only P (list_dir (W := W) dir ext).
Proof. unfold list_dir. panics. Qed.
Lemma parse_optional_panics {A} `{CodecTotal A} path : only P (parse_optional (W := W) (A := A) path).
Proof. unfold parse_optional. panics. Qed.
Lemma write_atomic_panics {A} `{CodecTotal A} path (v : A) : only P (write_atomic (W := W) path v).
Proof. unfold write_atomic. panics. Qed.

(** Validation reports, and never panics. *)
Lemma validate_interface_name_total name : no_panic (validate_interface_name name).
Proof. unfold validate_interface_name. by repeat case_match. Qed.
Lemma validate_identifier_total id : no_panic (validate_identifier id).
Proof. unfold validate_identifier. by repeat case_match. Qed.
Lemma validate_ssid_total id : no_panic (validate_ssid id).
Proof. unfold validate_ssid. by repeat case_match. Qed.
Lemma validate_wpa_passphrase_total id : no_panic (validate_wpa_passphrase id).
Proof. unfold validate_wpa_passphrase. by repeat case_match. Qed.
Lemma validate_quoted_value_total f id : no_panic (validate_quoted_value f id).
Proof. unfold validate_quoted_value. by repeat case_match. Qed.
Lemma validate_mac_address_total id : no_panic (validate_mac_address id).
Proof. unfold validate_mac_address. by repeat case_match. Qed.
Lemma validate_cert_path_total f id : no_panic (validate_cert_path f id).
Proof. unfold validate_cert_path. case_match; [done|]. apply validate_quoted_value_total. Qed.
Lemma validate_eap_method_total id : no_panic (validate_eap_method id).
Proof. unfold validate_eap_method. by repeat case_match. Qed.
Lemma profile_path_total dir id : no_panic (profile_path dir id).
Proof. unfold profile_path. apply no_panic_bind; [apply validate_identifier_total|done]. Qed.
Lemma secret_path_total b owner key : no_panic (secret_path b owner key).
Proof. unfold secret_path. repeat (apply no_panic_bind; [apply validate_identifier_total|intros ? _]). done. Qed.
#[local] Hint Resolve validate_identifier_total secret_path_total profile_path_total read_json_panics write_json_panics
  list_dir_panics parse_optional_panics write_atomic_panics : panics.

Lemma file_get_panics b owner key : only P (file_get (W := W) b owner key).
Proof. unfold file_get. panics. Qed.
Lemma file_set_panics b owner key v : only P (file_set (W := W) b owner key v).
Proof. unfold file_set. panics. Qed.
Lemma remove_matching_panics dir prefix l : only P (remove_matching (W := W) dir prefix l).
Proof. induction l as [|f l IH]; cbn [remove_matching]; panics. Qed.
#[local] Hint Resolve remove_matching_panics : panics.
Lemma file_delete_all_panics b owner : only P (file_delete_all (W := W) b owner).
Proof. unfold file_delete_all. panics. Qed.

Lemma log_panics `{Stderr W} `{Static MinLevel W} level msg : only P (log (W := W) level msg).
Proof. unfold log. apply only_bind; [apply only_static_get|]. panics. Qed.

Section Profiles.
#[local] Hint Resolve log_panics : panics.
Context `{Stderr W} `{Static MinLevel W}.
Context `{Codec ConnectionProfile} {CT : CodecTotal ConnectionProfile}.
Lemma load_each_panics paths out : only P (load_each (W := W) paths out).
Proof using CT.
  revert out. induction paths as [|path paths IH]; intros out; cbn [load_each]; unfold log_warn; panics.
  by destruct (decode_total a why).
Qed.
Lemma load_all_panics dir : only P (load_all (W := W) dir).
Proof using CT. unfold load_all. panics. apply load_each_panics. Qed.
Lemma save_panics dir p : only P (save (W := W) dir p).
Proof using CT. unfold save. panics. Qed.
Lemma delete_profile_panics dir id : only P (delete_profile (W := W) dir id).
Proof. unfold delete_profile. panics. Qed.
Lemma touch_panics dir id : only P (touch (W := W) dir id).
Proof. unfold touch, rewrite_file. panics. Qed.
Lemma recently_used_first_panics dir l : only P (recently_used_first (W := W) dir l).
Proof.
  unfold recently_used_first. panics. induction l as [|p l IH]; cbn [with_mtime]; panics. unfold profile_mtime.
  pose proof (profile_path_total dir (profile_id p)) as Ht. destruct (profile_path _ _) as [path|e|why]; [panics|panics|by destruct (Ht why)].
Qed.
End Profiles.

Lemma try_each_total {A} (f : A -> outcome unit) l : (forall x, no_panic (f x)) -> no_panic (try_each f l).
Proof. intros Hf. induction l as [|x l IH]; cbn [try_each]; [done|]. by apply no_panic_bind. Qed.
Lemma validate_total `{HashOrder} cfg : no_panic (validate cfg).
Proof.
  unfold validate. case_match; [done|]. apply no_panic_bind; [apply try_each_total; intros s; unfold validate_server; by destruct (parse_ip s)|].
  intros _ _. apply no_panic_bind; [|intros _ _; by case_match]. apply try_each_total. intros [name iface]. unfold validate_interface.
  case_match; [done|]. destruct (_ && _); [done|]. apply try_each_total. intros addr. unfold Config.map_err.
  pose proof (parse_cidr_total addr) as Hp. destruct (parse_cidr addr) as [[]|e|why]; [done..|by destruct (Hp why)].
Qed.
Lemma load_panics `{HashOrder} `{CodecTotal TopLevelGeneral} `{CodecTotal TopLevelInterfaces} `{CodecTotal TopLevelDns}
  `{CodecTotal TopLevelWireless} dir : only P (load (W := W) dir).
Proof. unfold load. panics. apply settles_no_panic, validate_total. Qed.
Lemma apply_to_panics path servers search : only P (apply_to (W := W) path servers search).
Proof. unfold apply_to. panics. Qed.
Lemma read_current_panics : only P (read_current (W := W)).
Proof. unfold read_current. panics. Qed.
Lemma audit_record_panics `{AppendFiles W} `{Clock W} l actor action detail : only P (audit_record (W := W) l actor action detail).
Proof. unfold audit_record, ensure_open, now_secs. panics. Qed.
End Files.
#[export] Hint Resolve only_static_get only_static_put read_json_panics write_json_panics db_remove_panics list_dir_panics
  parse_optional_panics write_atomic_panics file_get_panics file_set_panics file_delete_all_panics load_all_panics save_panics
  delete_profile_panics touch_panics recently_used_first_panics load_panics apply_to_panics read_current_panics log_panics
  audit_record_panics : panics.
#[export] Hint Resolve validate_interface_name_total validate_identifier_total validate_ssid_total validate_wpa_passphrase_total
  validate_quoted_value_total validate_mac_address_total validate_cert_path_total validate_eap_method_total parse_cidr_total : panics.

(** ** DHCP *)

(** The prefix length of a mask is at most its 32 bits. *)
Lemma count_ones_fuel_le n z : count_ones_fuel n z <= Z.of_nat n.
Proof. revert z. induction n as [|n IH]; intros z; cbn [count_ones_fuel]; [lia|]. specialize (IH (z / 2)). pose proof (Z.mod_pos_bound z 2). lia. Qed.
Lemma ack_prefixlen_fits ack : ack_prefixlen ack <= 32.
Proof.
  unfold ack_prefixlen. destruct (DhcpServer.addr_option ack OPT_SUBNET_MASK) as [m|]; cbn; [|lia]. apply (count_ones_fuel_le 32 m).
Qed.

Section Dhcp.
Context {W : Type} `{Sockets W} `{Clock W} `{HostNames W} `{FileSystem W} `{NlEnv} (P : string -> Prop)
  (Hfuel : P FUEL) (Hrange : P RANGE) (Hneg : P NEGATE).
Lemma parse_total buf : no_panic (Dhcp4.parse buf).
Proof. intros why. destruct (parse_ok buf) as [p ->]. done. Qed.
#[local] Hint Resolve parse_total : panics.
Lemma random_xid_panics : only P (random_xid (W := W)).
Proof. intros w. unfold random_xid. by destruct (clk_unix w) as [[? ?] ?]. Qed.
Lemma with_udp_panics {A} (Q : A -> Prop) ifname (body : Z -> M W A) :
  (forall fd, ends P Q (body fd)) -> ends P Q (with_udp ifname body).
Proof. intros Hb. unfold with_udp, bound_broadcast_socket. panics. Qed.
Lemma offer_loop_panics fuel fd deadline ifname x mac h : only P (offer_loop (W := W) fuel fd deadline ifname x mac h).
Proof using Hfuel. induction fuel as [|fuel IH]; cbn [offer_loop]; [by apply ends_lift|]. unfold instant_now. panics. Qed.
Lemma request_loop_panics fuel fd deadline ifname x mac r s h : only P (DhcpClient.request_loop (W := W) fuel fd deadline ifname x mac r s h).
Proof using Hfuel. induction fuel as [|fuel IH]; cbn [DhcpClient.request_loop]; [by apply ends_lift|]. unfold instant_now. panics. Qed.
(** A lease names a prefix that fits an IPv4 address. *)
Lemma lease_from_ack_ends ack server : ends P (fun l => prefixlen l <= 32) (lease_from_ack (W := W) ack server).
Proof. unfold lease_from_ack, now_secs. panics. apply ack_prefixlen_fits. Qed.
Lemma acquire_ends fuel ifname timeout : ends P (fun l => prefixlen l <= 32) (acquire (W := W) fuel ifname timeout).
Proof using Hfuel Hrange Hneg.
  unfold acquire. panics. apply with_udp_panics. intros fd. unfold hostname_current, instant_now, exchange. panics.
  - apply random_xid_panics.
  - apply offer_loop_panics.
  - apply request_loop_panics.
  - apply lease_from_ack_ends.
Qed.
Lemma renew_panics fuel ifname lease : only P (DhcpClient.renew (W := W) fuel ifname lease).
Proof using Hfuel Hrange Hneg.
  unfold DhcpClient.renew. panics. apply with_udp_panics. intros fd. unfold instant_now. panics; [apply random_xid_panics|].
  match goal with |- ends _ _ (renew_loop _ _ ?d _ ?x _) => generalize d, x end. intros d x.
  induction fuel as [|fuel IH]; cbn [renew_loop]; [by apply ends_lift|]. unfold instant_now. panics.
  eapply ends_mono; [apply lease_from_ack_ends|done].
Qed.
Lemma release_panics `{CodecTotal Lease} base ifname : only P (DhcpClient.release (W := W) base ifname).
Proof using Hfuel Hrange Hneg.
  unfold DhcpClient.release, load_lease, clear_lease. panics. apply with_udp_panics. panics. apply random_xid_panics.
Qed.

Lemma match_message_total xid buf : no_panic (V6.match_message xid buf).
Proof.
  unfold V6.match_message. case_bool_decide; [done|]. destruct (sub_ok buf 1 4) as [x ->]; [lia|]. cbn [mbind outcome_bind].
  case_match; [done|]. destruct (index_ok buf 0) as [t ->]; [lia|]. destruct (sub_ok buf 4 (length buf)) as [r ->]; [lia|].
  cbn [mbind outcome_bind]. destruct (V6.parse_options_ok r) as [o ->]. done.
Qed.
Lemma stateless_of_reply_total xid buf : no_panic (V6.stateless_of_reply xid buf).
Proof.
  unfold V6.stateless_of_reply. case_bool_decide; [done|]. destruct (index_ok buf 0) as [t ->]; [lia|]. cbn [mbind outcome_bind].
  case_match; [done|]. destruct (sub_ok buf 1 4) as [x ->]; [lia|]. cbn [mbind outcome_bind]. case_match; [done|].
  destruct (sub_ok buf 4 (length buf)) as [r ->]; [lia|]. cbn [mbind outcome_bind]. destruct (V6.parse_options_ok r) as [o ->].
  cbn [mbind outcome_bind]. destruct (V6.parse_dns_and_domain_ok o) as [[dns ds] ->]. done.
Qed.
Lemma find_ia_na_total options : no_panic (V6.find_ia_na options).
Proof. unfold V6.find_ia_na. case_match; [|done]. intros why. by destruct (V6.parse_ia_na_ok l) as [ia ->]. Qed.
Lemma dns_and_domain_total options : no_panic (V6.parse_dns_and_domain options).
Proof. intros why. by destruct (V6.parse_dns_and_domain_ok options) as [r ->]. Qed.
Lemma multicast_dest_total scope : no_panic (V6.multicast_dest scope).
Proof. unfold V6.multicast_dest. apply no_panic_bind; [apply no_panic_ok_or|done]. Qed.
Lemma require_success_total ia : no_panic (V6.require_success ia).
Proof. unfold V6.require_success. by repeat case_match. Qed.
Lemma solicit_options_total options : no_panic (V6.solicit_options options).
Proof.
  unfold V6.solicit_options. apply no_panic_bind; [apply no_panic_ok_or|]. intros sid _. apply no_panic_bind; [apply find_ia_na_total|].
  intros ia _. apply no_panic_bind; [apply no_panic_ok_or|done].
Qed.
#[local] Hint Resolve match_message_total stateless_of_reply_total find_ia_na_total dns_and_domain_total multicast_dest_total
  require_success_total solicit_options_total : panics.
Lemma random_xid3_panics : only P (V6.random_xid3 (W := W)).
Proof. intros w. unfold V6.random_xid3. by destruct (clk_unix w) as [[? ?] ?]. Qed.
#[local] Hint Resolve random_xid3_panics : panics.
Lemma with_client_socket_panics {A} (Q : A -> Prop) timeout (body : Z -> M W A) :
  (forall fd, ends P Q (body fd)) -> ends P Q (V6.with_client_socket timeout body).
Proof. intros Hb. unfold V6.with_client_socket. panics. Qed.
Lemma request_stateless_info_panics ifname mac timeout : only P (V6.request_stateless_info (W := W) ifname mac timeout).
Proof using Hfuel Hrange Hneg. unfold V6.request_stateless_info. panics. apply with_client_socket_panics. panics. Qed.
Lemma lease_from_reply_panics ia sid dns domains : only P (V6.lease_from_reply (W := W) ia sid dns domains).
Proof. unfold V6.lease_from_reply, now_secs. panics. Qed.
#[local] Hint Resolve lease_from_reply_panics : panics.
Lemma request_stateful_lease_panics ifname mac timeout : only P (V6.request_stateful_lease (W := W) ifname mac timeout).
Proof using Hfuel Hrange Hneg.
  unfold V6.request_stateful_lease. panics. apply with_client_socket_panics. intros fd.
  unfold V6.stateful_exchange, V6.elapsed_cs, V6.recv_matching, V6.lease_of_options, instant_now. panics.
Qed.
Lemma release_persisted_panics `{CodecTotal V6.Lease6} base ifname : only P (V6.release_persisted (W := W) base ifname).
Proof using Hfuel Hrange Hneg.
  unfold V6.release_persisted, V6.load_lease6, V6.clear_lease6, V6.release. panics. apply with_client_socket_panics.
  unfold V6.recv_matching. panics.
Qed.
End Dhcp.
#[export] Hint Resolve renew_panics release_panics request_stateless_info_panics request_stateful_lease_panics
  release_persisted_panics : panics.

(** ** Devices and Wi-Fi *)

Section Devices.
Context {W : Type} `{FileSystem W} `{Sockets W} `{Clock W} `{NlEnv} (P : string -> Prop)
  (Hfuel : P FUEL) (Hrange : P RANGE) (Hneg : P NEGATE).
Lemma devices_of_panics addrs ifaces : only P (devices_of (W := W) addrs ifaces).
Proof. induction ifaces as [|i ifaces IH]; cbn [devices_of]; unfold device_of, classify, driver_of; panics. Qed.
#[local] Hint Resolve devices_of_panics : panics.
Lemma refresh_panics old unmanaged : only P (refresh (W := W) old unmanaged).
Proof using Hfuel Hrange Hneg. unfold refresh, scan, address_list. panics. Qed.
Lemma bring_up_panics index : only P (bring_up (W := W) index).
Proof using Hfuel Hrange Hneg. apply set_flags_panics; done. Qed.
Lemma wait_for_carrier_panics fuel index timeout : only P (wait_for_carrier (W := W) fuel index timeout).
Proof using Hfuel Hrange Hneg.
  unfold wait_for_carrier, instant_now. panics. induction fuel as [|fuel IH]; cbn [carrier_loop]; [by apply ends_lift|].
  unfold instant_now. panics.
Qed.
End Devices.
#[export] Hint Resolve refresh_panics bring_up_panics wait_for_carrier_panics : panics.

Section Wifi.
Context {W : Type} `{FileSystem W} `{Entropy W} `{Sockets W} `{Clock W} `{Stderr W} `{Static MinLevel W} (P : string -> Prop).
Lemma dropped_on_error_panics {A} (Q : A -> Prop) (c : M W A) d : ends P Q c -> ends P Q (dropped_on_error c d).
Proof. intros Hc w. specialize (Hc w). unfold dropped_on_error. by destruct (c w) as [[a|e|why] w']. Qed.
#[local] Hint Resolve dropped_on_error_panics : panics.
Lemma raw_request_panics fd cmd : only P (raw_request (W := W) fd cmd).
Proof. unfold raw_request. panics. Qed.
#[local] Hint Resolve raw_request_panics : panics.
Lemma request_ok_panics c cmd : only P (request_ok (W := W) c cmd).
Proof. unfold request_ok, wpa_request. panics. Qed.
#[local] Hint Resolve request_ok_panics : panics.
Lemma random_temp_path_panics prefix suffix : only P (random_temp_path (W := W) prefix suffix).
Proof. unfold random_temp_path, random_suffix. panics. Qed.
#[local] Hint Resolve random_temp_path_panics : panics.
Lemma create_attempts_panics tries create prefix suffix what : only P (create_attempts (W := W) tries create prefix suffix what).
Proof. induction tries as [|n IH]; cbn [create_attempts]; panics. Qed.
Lemma with_ctrl_panics {A} (Q : A -> Prop) dir ifname (body : WpaCtrl -> M W A) :
  (forall c, ends P Q (body c)) -> ends P Q (with_ctrl dir ifname body).
Proof. intros Hb. unfold with_ctrl, wpa_connect. panics. apply dropped_on_error_panics. panics. Qed.
Lemma monitor_attach_panics dir ifname : only P (monitor_attach (W := W) dir ifname).
Proof. unfold monitor_attach. panics; apply dropped_on_error_panics; panics. Qed.
#[local] Hint Resolve monitor_attach_panics : panics.
Lemma set_network_quoted_panics c id key v : only P (set_network_quoted (W := W) c id key v).
Proof. unfold set_network_quoted. panics. Qed.
Lemma list_networks_panics c : only P (list_networks (W := W) c).
Proof. unfold list_networks, wpa_request. panics. Qed.
#[local] Hint Resolve set_network_quoted_panics list_networks_panics : panics.
Lemma last_results_panics dir ifname : only P (last_results (W := W) dir ifname).
Proof. unfold last_results, scan_results_raw, wpa_request. apply with_ctrl_panics. panics. Qed.
Lemma wifi_forget_panics dir ifname ssid : only P (wifi_forget (W := W) dir ifname ssid).
Proof. unfold wifi_forget, remove_network, save_config. apply with_ctrl_panics. panics. Qed.
Lemma wifi_disconnect_panics dir ifname : only P (wifi_disconnect (W := W) dir ifname).
Proof. unfold wifi_disconnect, wpa_disconnect. apply with_ctrl_panics. panics. Qed.
Lemma configure_eap_panics c id ssid eap pass : only P (configure_eap (W := W) c id ssid eap pass).
Proof. unfold configure_eap, set_network_raw, check_cert_readable, log_warn. panics. Qed.
#[local] Hint Resolve configure_eap_panics : panics.

Context (Hfuel : P FUEL).
Lemma wait_for_any_panics fuel m names timeout : only P (wait_for_any (W := W) fuel m names timeout).
Proof using Hfuel.
  unfold wait_for_any, instant_now. panics. induction fuel as [|fuel IH]; cbn [wait_for_any_loop]; [by apply ends_lift|].
  unfold instant_now. panics.
Qed.
Lemma scanner_scan_panics fuel dir ifname : only P (scanner_scan (W := W) fuel dir ifname).
Proof using Hfuel.
  unfold scanner_scan, wpa_scan, scan_results_raw, wpa_request. apply with_ctrl_panics. panics. apply wait_for_any_panics.
Qed.
Lemma wait_for_association_panics fuel c ssid timeout : only P (wait_for_association (W := W) fuel c ssid timeout).
Proof using Hfuel.
  unfold wait_for_association, instant_now. panics. induction fuel as [|fuel IH]; cbn [association_loop]; [by apply ends_lift|].
  unfold wpa_status, wpa_request, instant_now. panics.
Qed.
#[local] Hint Resolve wait_for_association_panics : panics.
Lemma wifi_connect_panics fuel dir ifname ssid security pass eap : only P (wifi_connect (W := W) fuel dir ifname ssid security pass eap).
Proof using Hfuel.
  unfold wifi_connect, remove_network, add_network, set_network_raw, enable_network, select_network, wpa_request. panics.
  apply with_ctrl_panics. panics.
Qed.
End Wifi.
#[export] Hint Resolve dropped_on_error_panics create_attempts_panics last_results_panics wifi_forget_panics wifi_disconnect_panics
  scanner_scan_panics wifi_connect_panics : panics.

(** ** VPN *)

Section Vpn.
Context {W : Type} `{FileSystem W} `{Entropy W} `{Clock W} `{Children W} `{WorkDirs W} `{UnixStreams W} `{Threads W}
  `{Management W} `{Static Sessions W} `{Static ActiveVpns W} `{Sockets W} `{NlEnv} `{SocketAddrs W} `{Toml RawWireGuardConfig}
  (P : string -> Prop) (Hfuel : P FUEL) (Hrange : P RANGE) (Hneg : P NEGATE) (Hspawn : P SPAWN).
Abbreviation B := FileSecretsBackend.

Lemma spawn_thread_panics : only P (spawn_thread (W := W)).
Proof using Hspawn. unfold spawn_thread. panics. Qed.
#[local] Hint Resolve spawn_thread_panics : panics.
Lemma with_error_panics {A} (Q : A -> Prop) f (c : M W A) : ends P Q c -> ends P Q (with_error f c).
Proof. intros Hc w. specialize (Hc w). unfold with_error. by destruct (c w) as [[a|e|why] w']. Qed.
Lemma decode_key_total f b : no_panic (decode_key f b).
Proof. unfold decode_key. apply no_panic_bind; [apply no_panic_ok_or|]. intros l _. by case_match. Qed.
Lemma allowed_loop_total i cidrs out : no_panic (allowed_loop i cidrs out).
Proof.
  revert i out. induction cidrs as [|c cidrs IH]; intros i out; cbn [allowed_loop]; [done|]. apply no_panic_bind; [|intros [ip p] _; apply IH].
  pose proof (parse_cidr_total c) as Ht. intros why. specialize (Ht why). by destruct (parse_cidr c).
Qed.
Lemma device_payload_total cfg k k' e : no_panic (device_payload cfg k k' e).
Proof. unfold device_payload. apply no_panic_bind; [apply allowed_loop_total|done]. Qed.
#[local] Hint Resolve with_error_panics decode_key_total device_payload_total : panics.
Lemma set_crypto_params_panics cfg key : only P (set_crypto_params (W := W) cfg key).
Proof using Hfuel Hrange Hneg.
  unfold set_crypto_params, resolve_endpoint, resolve. panics; apply with_error_panics || idtac; panics.
  all: apply with_sock_panics; panics.
Qed.
Lemma allowed_routes_panics index cidrs : only P (allowed_routes (W := W) index cidrs).
Proof using Hfuel Hrange Hneg.
  unfold allowed_routes, route_add. apply only_for_each. intros x. pose proof (parse_cidr_total x) as Ht. destruct (parse_cidr x) as [[ip p]|e|why]; [panics..|].
  by destruct (Ht why).
Qed.
#[local] Hint Resolve set_crypto_params_panics allowed_routes_panics : panics.
Lemma wireguard_connect_panics config (secrets : B) id : only P (wireguard_connect (W := W) config secrets id).
Proof using Hfuel Hrange Hneg.
  unfold wireguard_connect. cbn [secret_get file_secrets]. panics.
Qed.
Lemma poll_loop_panics {A} fuel (probe : M W (option A)) deadline step timeout :
  only P probe -> no_panic timeout -> only P (poll_loop fuel probe deadline step timeout).
Proof using Hfuel.
  intros Hp Ht. induction fuel as [|fuel IH]; cbn [poll_loop]; [by apply ends_lift|]. unfold instant_now. panics.
Qed.
Lemma reap_panics child : only P (reap (W := W) child).
Proof. unfold reap. panics. Qed.
#[local] Hint Resolve reap_panics : panics.
Lemma give_up_panics {A} (Q : A -> Prop) child workdir e : ends P Q (give_up_session (W := W) child workdir e).
Proof. unfold give_up_session, cleanup_workdir. panics. Qed.
#[local] Hint Resolve give_up_panics : panics.
Lemma background_reader_panics fuel path lines closed r : only P (background_reader (W := W) fuel path lines closed r).
Proof using Hfuel.
  unfold background_reader. panics. revert r. induction lines as [|line lines IH]; intros r; cbn [reader_lines]; panics.
  unfold reader_line, read_ifname_with_retry, instant_now. panics. apply poll_loop_panics; [|done]. unfold ifname_probe. panics.
Qed.
#[local] Hint Resolve background_reader_panics : panics.
Lemma write_userpass_panics (secrets : B) id : only P (write_userpass (W := W) secrets id).
Proof. unfold write_userpass, create_secret_temp_file. cbn [secret_get file_secrets]. panics. Qed.
#[local] Hint Resolve write_userpass_panics : panics.
Lemma start_openvpn_panics fuel config workdir (secrets : B) id l : only P (start_openvpn (W := W) fuel config workdir secrets id l).
Proof using Hfuel Hspawn.
  unfold start_openvpn, cleanup_workdir. panics. unfold accept_with_timeout, instant_now. panics. apply poll_loop_panics; [|done].
  unfold accept_probe. panics.
Qed.
Lemma await_connected_panics fuel workdir id child stream : only P (await_connected (W := W) fuel workdir id child stream).
Proof using Hfuel Hspawn. unfold await_connected. panics. Qed.
#[local] Hint Resolve start_openvpn_panics await_connected_panics : panics.
Lemma openvpn_connect_panics fuel config (secrets : B) id : only P (openvpn_connect (W := W) fuel config secrets id).
Proof using Hfuel Hspawn.
  unfold openvpn_connect, create_secret_temp_dir, write_script, cleanup_workdir. panics. apply dropped_on_error_panics. panics.
Qed.
#[local] Hint Resolve wireguard_connect_panics openvpn_connect_panics : panics.
Lemma vpn_connect_panics fuel kind config (secrets : B) id : only P (vpn_connect (W := W) fuel kind config secrets id).
Proof using Hfuel Hrange Hneg Hspawn. unfold vpn_connect, vpn_track. panics. Qed.
Lemma vpn_disconnect_panics name : only P (vpn_disconnect (W := W) name).
Proof using Hfuel Hrange Hneg.
  unfold vpn_disconnect, vpn_untrack, wireguard_disconnect, openvpn_disconnect. panics.
Qed.
End Vpn.
#[export] Hint Resolve reap_panics vpn_connect_panics vpn_disconnect_panics : panics.

(** ** Probing the connection, reports, bluetooth *)

Section Probes.
Context {W : Type} (P : string -> Prop).
(** Each round of the response loop adds a byte, so its turns are enough. *)
Lemma read_response_panics `{TcpReads W} fuel fd response :
  MAX_RESPONSE_BYTES < Z.of_nat (length response + fuel) -> Z.of_nat (length response) < MAX_RESPONSE_BYTES ->
  only P (read_response (W := W) fuel fd response).
Proof.
  revert response. induction fuel as [|fuel IH]; intros response Hf Hr; [lia|]. cbn [read_response]. panics.
  apply IH; rewrite length_app in *; cbn [length] in *; [lia|]. by apply Z.leb_gt in Heqb.
Qed.
Lemma check_panics `{SocketAddrs W} `{TcpStreams W} `{TcpReads W} url timeout : only P (Connectivity.check (W := W) url timeout).
Proof.
  unfold Connectivity.check, open_stream. pose proof (parse_url_no_panic url) as Hp. destruct (parse_url url) as [u|e|s]; [|done|by destruct (Hp s)].
  panics. apply read_response_panics; unfold RESPONSE_FUEL, MAX_RESPONSE_BYTES; cbn [length]; lia.
Qed.
Lemma tool_run_panics `{Processes W} tool unavailable args : only P (tool_run (W := W) tool unavailable args).
Proof. unfold tool_run. panics. Qed.
#[local] Hint Resolve tool_run_panics : panics.
Lemma list_devices_panics `{Processes W} : only P (list_devices (W := W)).
Proof.
  unfold list_devices, bt_run. panics. generalize (lines a). intros ls. induction ls as [|l ls IH]; cbn [devices_of_lines]; [panics|].
  unfold bt_run. panics.
Qed.
Lemma on_mac_panics `{Processes W} verb mac : only P (on_mac (W := W) verb mac).
Proof. unfold on_mac, bt_run. panics. Qed.
Lemma collect_panics `{Sockets W} `{NlEnv} `{FileSystem W} devices c :
  P FUEL -> P RANGE -> P NEGATE -> only P (collect (W := W) devices c).
Proof. intros. unfold collect, neighbor_list. panics. Qed.
End Probes.
#[export] Hint Resolve check_panics tool_run_panics list_devices_panics on_mac_panics collect_panics : panics.

(** ** The firewall and sharing *)

Section Fire.
Context {W : Type} `{Processes W} (P : string -> Prop) (Hspawn : P SPAWN).
Lemma fw_world_panics {A} (Q : A -> Prop) (c : M W A) : ends P Q c -> ends P Q (fw_world c).
Proof. intros Hc [f w]. specialize (Hc w). unfold fw_world. cbn. by destruct (c w). Qed.
Lemma fw_get_panics : only P (fw_get (W := W)).
Proof. done. Qed.
Lemma fw_put_panics f : only P (fw_put (W := W) f).
Proof. done. Qed.
Lemma fw_apply_panics : only P (fw_apply (W := W)).
Proof using Hspawn. unfold fw_apply. apply only_bind; [done|]. intros f. apply fw_world_panics. unfold nft_apply. panics. Qed.
#[local] Hint Resolve fw_get_panics fw_put_panics fw_apply_panics : panics.
Lemma assign_zone_panics i z : only P (assign_zone (W := W) i z).
Proof using Hspawn. unfold assign_zone. panics. Qed.
#[local] Hint Resolve assign_zone_panics : panics.
Lemma ensure_default_zone_panics i : only P (ensure_default_zone (W := W) i).
Proof using Hspawn. unfold ensure_default_zone. panics. Qed.
Lemma source_ok_total src : no_panic (source_ok src).
Proof.
  unfold source_ok. destruct src as [s|]; [|done]. pose proof (parse_cidr_total s) as Ht. destruct (parse_cidr s) as [r|e|why]; [done..|].
  by destruct (Ht why).
Qed.
#[local] Hint Resolve source_ok_total : panics.
Lemma add_rule_panics r : only P (add_rule (W := W) r).
Proof using Hspawn. unfold add_rule. panics. Qed.
Lemma remove_rule_panics id : only P (remove_rule (W := W) id).
Proof using Hspawn. unfold remove_rule. panics. Qed.
Lemma enable_sharing_panics lan wan : only P (enable_sharing (W := W) lan wan).
Proof using Hspawn. unfold enable_sharing. panics. Qed.
End Fire.
#[export] Hint Resolve assign_zone_panics ensure_default_zone_panics add_rule_panics remove_rule_panics enable_sharing_panics : panics.

Section Hotspot.
Context {W : Type} `{FileSystem W} `{Children W} `{Static HostapdChildren W} `{Sockets W} `{NlEnv} `{DhcpThreads W} `{Processes W}
  (P : string -> Prop) (Hfuel : P FUEL) (Hrange : P RANGE) (Hneg : P NEGATE) (Hnul : P NUL_ERROR) (Hspawn : P SPAWN).
Lemma hostapd_stop_panics ifname : only P (hostapd_stop (W := W) ifname).
Proof. unfold hostapd_stop. panics. Qed.
#[local] Hint Resolve hostapd_stop_panics : panics.
Lemma hostapd_start_panics cfg : only P (hostapd_start (W := W) cfg).
Proof. unfold hostapd_start. panics. Qed.
Lemma dhcp_server_start_panics cfg : only P (dhcp_server_start (W := W) cfg).
Proof using Hnul. unfold dhcp_server_start, bound_server_socket. panics. Qed.
#[local] Hint Resolve fw_world_panics hostapd_start_panics dhcp_server_start_panics : panics.
Lemma hotspot_start_panics i ssid pass uplink : only P (hotspot_start (W := W) i ssid pass uplink).
Proof using Hfuel Hrange Hneg Hnul Hspawn.
  unfold hotspot_start, nat_enable, set_ipv4_forwarding. panics; apply fw_world_panics; panics. apply address_add_panics; [done..|].
  intros _. unfold AP_PREFIXLEN. lia.
Qed.
End Hotspot.
#[export] Hint Resolve hostapd_stop_panics hotspot_start_panics : panics.

(** ** The proxy *)

Lemma split_once_str_shorter p s x y : split_once_str p s = Some (x, y) -> (str_len p + str_len y <= str_len s)%nat.
Proof.
  revert x y. induction s as [|a s IH]; intros x y; cbn [split_once_str].
  - destruct (strip_prefix p "") as [r|] eqn:E; [|done]. intros [= <- <-]. apply strip_prefix_Some in E. rewrite E, str_len_app. lia.
  - destruct (strip_prefix p (String a s)) as [r|] eqn:E.
    + intros [= <- <-]. apply strip_prefix_Some in E. rewrite E, str_len_app. lia.
    + destruct (split_once_str p s) as [[x' y']|]; [|done]. intros [= _ <-]. specialize (IH x' y' eq_refl). unfold str_len in *. cbn. lia.
Qed.
Lemma str_len_bytes_str l : str_len (bytes_str l) = length l.
Proof. unfold str_len. induction l as [|b l IH]; cbn; auto. Qed.
(** A chunked body is read in turns that each take a line break off it. *)
Lemma dechunk_loop_panics P fuel rest out :
  P BOUNDARY -> (str_len rest < fuel)%nat -> settles P (fun _ => True) (dechunk_loop fuel rest out).
Proof.
  intros Hb. revert rest out. induction fuel as [|fuel IH]; intros rest out Hf; [lia|]. cbn [dechunk_loop].
  destruct (split_once_str CRLF rest) as [[line tail]|] eqn:E; [|done]. apply split_once_str_shorter in E. change (str_len CRLF) with 2%nat in E.
  destruct (parse_uint_radix _ _ _) as [size|]; [|done]. case_bool_decide; [done|]. case_bool_decide; [done|].
  destruct (negb _); [exact Hb|]. apply IH.
  assert (Hd : (str_len (default "" (strip_prefix CRLF (bytes_str (drop (Z.to_nat size) (str_bytes tail))))) <= str_len tail)%nat); [|lia].
  destruct (strip_prefix CRLF _) as [r|] eqn:Er; cbn; [|unfold str_len; cbn; lia]. apply strip_prefix_Some in Er.
  assert (Hl : str_len (bytes_str (drop (Z.to_nat size) (str_bytes tail))) = (str_len CRLF + str_len r)%nat) by (by rewrite Er, str_len_app).
  rewrite str_len_bytes_str, length_drop, length_str_bytes in Hl. unfold str_len in *. lia.
Qed.

Section ProxyOps.
Context {W : Type} `{FileSystem W} `{Resolver W} `{Clock W} `{TcpStreams W} `{PacText} `{Codec ProxyConfig} (P : string -> Prop).
Lemma resolve_for_url_panics url : only P (resolve_for_url (W := W) url).
Proof.
  intros [s w]. unfold resolve_for_url. cbn [fst snd]. destruct (mode _); [done..|]. destruct (pac_cache s) as [script|]; [|done].
  match goal with |- context [evaluate ?a ?b ?c w] => pose proof (evaluate_no_panic a b c w) as He; destruct (evaluate a b c w) as [[r|e|why] w'] end;
    [done..|by destruct (He why)].
Qed.
Lemma in_world_panics {A} (Q : A -> Prop) (c : M W A) : ends P Q c -> ends P Q (in_world c).
Proof. intros Hc [s w]. specialize (Hc w). unfold in_world. cbn. by destruct (c w). Qed.
Lemma set_cache_panics c : only P (set_cache (W := W) c).
Proof. done. Qed.
Lemma clear_panics : only P (clear (W := W)).
Proof. unfold clear. apply in_world_panics. panics. Qed.
Lemma check_script_panics script url : only P (check_script (W := W) script url).
Proof.
  intros [s w]. unfold check_script. cbn [fst snd].
  match goal with |- context [evaluate ?a ?b ?c w] => pose proof (evaluate_no_panic a b c w) as He; destruct (evaluate a b c w) as [[r|e|why] w'] end;
    [done..|by destruct (He why)].
Qed.
Lemma parse_http_url_total url : no_panic (parse_http_url url).
Proof.
  unfold parse_http_url. apply no_panic_bind; [apply no_panic_ok_or|]. intros rest _.
  destruct (match split_once "/" rest with Some _ => _ | None => _ end) as [authority path]. apply no_panic_bind.
  - destruct (split_once ":" authority) as [[h p]|]; [|done]. apply no_panic_bind; [apply no_panic_ok_or|done].
  - intros [host port] _. by case_match.
Qed.
Context (Hb : P BOUNDARY).
Lemma http_body_panics raw : settles P (fun _ => True) (http_body raw).
Proof using Hb. unfold http_body. panics. apply dechunk_loop_panics; [done|lia]. Qed.
Lemma pac_fetch_panics url : only P (pac_fetch (W := W) url).
Proof using Hb.
  intros w. unfold pac_fetch. pose proof (parse_http_url_total url) as Ht. destruct (parse_http_url url) as [[[host port] path]|e|why];
    [|done|by destruct (Ht why)].
  destruct (tcp_connect host port w) as [[fd|e] w1]; [|done]. match goal with |- settles _ _ (finally ?c ?d w1).1 => assert (Hc : only P c) end.
  { panics. apply http_body_panics. }
  exact (ends_finally P _ _ _ Hc w1).
Qed.
Lemma apply_inner_panics cfg : only P (apply_inner (W := W) cfg).
Proof using Hb.
  pose proof clear_panics. unfold apply_inner. panics; try apply set_cache_panics; try apply check_script_panics; apply in_world_panics; panics.
  apply pac_fetch_panics.
Qed.
Lemma proxy_apply_panics {CT : CodecTotal ProxyConfig} base cfg : only P (proxy_apply (W := W) base cfg).
Proof using Hb.
  intros s. unfold proxy_apply. assert (Hc : only P (set_active (W := W) cfg ;; apply_inner cfg)).
  { apply only_bind; [done|]. intros _. apply apply_inner_panics. }
  specialize (Hc s). destruct ((set_active cfg ;; apply_inner cfg) s) as [[a|e|why] s1]; [|done|done].
  apply only_ignore, in_world_panics. unfold save_proxy_config. panics.
Qed.
End ProxyOps.
#[export] Hint Resolve resolve_for_url_panics proxy_apply_panics : panics.

(** ** Activation *)

Section Activations.
Context {W : Type} `{FileSystem W} `{Entropy W} `{Clock W} `{Children W} `{WorkDirs W} `{UnixStreams W} `{Threads W}
  `{Management W} `{Static Sessions W} `{Static ActiveVpns W} `{Sockets W} `{NlEnv} `{SocketAddrs W} `{Toml RawWireGuardConfig}
  `{HostNames W} `{Stderr W} `{Static MinLevel W} `{Codec Lease} `{Codec V6.Lease6} `{Fuels}
  {CL : CodecTotal Lease} {CL6 : CodecTotal V6.Lease6}
  (P : string -> Prop) (Hfuel : P FUEL) (Hrange : P RANGE) (Hneg : P NEGATE).
Abbreviation B := FileSecretsBackend.

Lemma join_wifi_panics ctrl profile ifname (secrets : B) : only P (join_wifi (W := W) ctrl profile ifname secrets).
Proof using Hfuel. unfold join_wifi, optional_secret. cbn [secret_get file_secrets]. panics. Qed.
Lemma apply_static_panics profile index : only P (apply_static (W := W) profile index).
Proof using Hfuel Hrange Hneg. unfold apply_static, add_addresses. panics. Qed.
Lemma apply_servers_panics servers search : only P (apply_servers (W := W) servers search).
Proof. unfold apply_servers, dns_apply_static. panics. Qed.
#[local] Hint Resolve join_wifi_panics apply_static_panics apply_servers_panics : panics.
Lemma apply_dhcp_panics base index : only P (apply_dhcp (W := W) base index).
Proof using CL Hfuel Hrange Hneg.
  unfold apply_dhcp, save_lease. apply only_bind; [done|]. intros device.
  eapply ends_bind; [apply ends_inner, acquire_ends; done|]. intros lease Hp. panics. apply address_add_panics; [done..|by intros _].
Qed.
Lemma apply_dhcp6_panics base index : only P (apply_dhcp6 (W := W) base index).
Proof using CL6 Hfuel Hrange Hneg. unfold apply_dhcp6, V6.save_lease6. panics. by apply address_add_panics. Qed.
Lemma apply_dhcp6_stateless_panics ifname : only P (apply_dhcp6_stateless (W := W) ifname).
Proof using Hfuel Hrange Hneg. unfold apply_dhcp6_stateless, dns_apply_static, log_warn. panics. Qed.
#[local] Hint Resolve apply_dhcp_panics apply_dhcp6_panics apply_dhcp6_stateless_panics : panics.
Lemma configure_ip_panics base profile index : only P (configure_ip (W := W) base profile index).
Proof using CL CL6 Hfuel Hrange Hneg. unfold configure_ip, dns_apply_static. panics. Qed.
#[local] Hint Resolve configure_ip_panics : panics.
Lemma activate_panics ctrl base profile (secrets : B) : P SPAWN -> only P (activate (W := W) ctrl base profile secrets).
Proof using CL CL6 Hfuel Hrange Hneg. intros Hspawn. unfold activate, activated, now_secs. panics. Qed.
Lemma deactivate_panics ctrl base : only P (deactivate (W := W) ctrl base).
Proof using CL CL6 Hfuel Hrange Hneg. unfold deactivate. panics. Qed.
End Activations.
#[export] Hint Resolve activate_panics deactivate_panics : panics.
