(* ===== verification/Wp.v ===== *)
(** * Weakest preconditions over a state and any world

    [wp c Q s]: whatever the world does, [c] run from the state [s] ends with
    an outcome and a state that satisfy [Q].  The rules follow the combinators
    of the handlers' monad; the world is only ever seen through what a
    computation over it can yield. *)

From S2P Require Import Prelude Sys Activation.

Section Wp.
Context {S W : Type}.
Definition wp {A} (c : M (S * W) A) (Q : outcome A -> S -> Prop) (s : S) : Prop :=
  forall w, Q (c (s, w)).1 (c (s, w)).2.1.
(** What a computation over the world can end with. *)
Definition yields {A} (c : M W A) (r : outcome A) : Prop := exists w, (c w).1 = r.

Lemma wp_mono {A} (c : M (S * W) A) (Q Q' : outcome A -> S -> Prop) s :
  wp c Q s -> (forall r s', Q r s' -> Q' r s') -> wp c Q' s.
Proof. intros Hc Hq w. apply Hq, Hc. Qed.
Lemma wp_bind {A B} (c : M (S * W) A) (f : A -> M (S * W) B) Q s :
  wp c (fun r s1 => match r with
                    | Ok a => wp (f a) Q s1
                    | Err e => Q (Err e) s1
                    | Panic why => Q (Panic why) s1
                    end) s ->
  wp (c ≫= f) Q s.
Proof.
  intros Hc w. specialize (Hc w). unfold mbind, M_bind. destruct (c (s, w)) as [[a|e|why] [s1 w1]]; cbn in *; [|done..].
  apply Hc.
Qed.
Lemma wp_ret {A} (a : A) (Q : outcome A -> S -> Prop) s : Q (Ok a) s -> wp (mret a) Q s.
Proof. by intros HQ w. Qed.
Lemma wp_lift {A} (o : outcome A) (Q : outcome A -> S -> Prop) s : Q o s -> wp (lift o) Q s.
Proof. by intros HQ w. Qed.
Lemma wp_get (Q : outcome S -> S -> Prop) s : Q (Ok s) s -> wp state_get Q s.
Proof. by intros HQ w. Qed.
Lemma wp_modify f (Q : outcome unit -> S -> Prop) s : Q (Ok tt) (f s) -> wp (state_modify f) Q s.
Proof. by intros HQ w. Qed.
Lemma wp_inner {A} (c : M W A) (Q : outcome A -> S -> Prop) s : (forall r, yields c r -> Q r s) -> wp (inner c) Q s.
Proof.
  intros HQ w. unfold inner. cbn. destruct (c w) as [r w'] eqn:E. cbn. apply HQ. exists w. by rewrite E.
Qed.
Lemma wp_attempt {A} (c : M (S * W) A) (Q : outcome (A + NetworkError) -> S -> Prop) s :
  wp c (fun r s1 => match r with
                    | Ok a => Q (Ok (inl a)) s1
                    | Err e => Q (Ok (inr e)) s1
                    | Panic why => Q (Panic why) s1
                    end) s ->
  wp (attempt c) Q s.
Proof. intros Hc w. specialize (Hc w). unfold attempt. by destruct (c (s, w)) as [[a|e|why] [s1 w1]]. Qed.
Lemma wp_ignore {A} (c : M (S * W) A) (Q : outcome unit -> S -> Prop) s :
  wp c (fun r s1 => match r with Panic why => Q (Panic why) s1 | _ => Q (Ok tt) s1 end) s -> wp (ignore c) Q s.
Proof. intros Hc w. specialize (Hc w). unfold ignore. by destruct (c (s, w)) as [[a|e|why] [s1 w1]]. Qed.

Lemma yields_safe {A} (c : M W A) why : safe c -> ~ yields c (Panic why).
Proof. intros Hc [w Hw]. by destruct (Hc w why). Qed.

(** *** Relations between the state before and after *)

Section Steps.
Context (R : S -> S -> Prop) {PR : PreOrder R}.
(** Every run goes along [R], however it ends. *)
Definition steps {A} (c : M (S * W) A) : Prop := forall s, wp c (fun _ s' => R s s') s.

Lemma steps_bind {A B} (c : M (S * W) A) (f : A -> M (S * W) B) :
  steps c -> (forall a, steps (f a)) -> steps (c ≫= f).
Proof using PR.
  intros Hc Hf s. apply wp_bind. eapply wp_mono; [apply Hc|]. intros r s1 H1. cbn in *. destruct r as [a|e|why]; [|done..].
  eapply wp_mono; [apply Hf|]. intros r' s2 H2. by trans s1.
Qed.
(** A body that reads the state first need only be right on what it reads. *)
Lemma steps_get {A} (f : S -> M (S * W) A) : (forall s, wp (f s) (fun _ s' => R s s') s) -> steps (state_get ≫= f).
Proof. intros Hf s. apply wp_bind, wp_get, Hf. Qed.
Lemma steps_wp {A} (c : M (S * W) A) Q s : steps c -> (forall r s', R s s' -> Q r s') -> wp c Q s.
Proof. intros Hc HQ. eapply wp_mono; [apply Hc|]. intros r s'. apply HQ. Qed.
Lemma steps_refl {A} (c : M (S * W) A) : keeps fst c -> steps c.
Proof using PR. intros Hc s w. rewrite (Hc (s, w)). cbn. reflexivity. Qed.
Lemma steps_ret {A} (a : A) : steps (mret a).
Proof using PR. intros s w. cbn. reflexivity. Qed.
Lemma steps_lift {A} (o : outcome A) : steps (lift o).
Proof using PR. intros s w. cbn. reflexivity. Qed.
Lemma steps_state_get : steps state_get.
Proof using PR. intros s w. cbn. reflexivity. Qed.
Lemma steps_inner {A} (c : M W A) : steps (inner c).
Proof using PR. intros s. apply wp_inner. intros r _. reflexivity. Qed.
Lemma steps_modify f : (forall s, R s (f s)) -> steps (state_modify f).
Proof. intros Hf s. apply wp_modify, Hf. Qed.
Lemma steps_attempt {A} (c : M (S * W) A) : steps c -> steps (attempt c).
Proof. intros Hc s. apply wp_attempt. eapply wp_mono; [apply Hc|]. by intros [] s'. Qed.
Lemma steps_ignore {A} (c : M (S * W) A) : steps c -> steps (ignore c).
Proof. intros Hc s. apply wp_ignore. eapply wp_mono; [apply Hc|]. by intros [] s'. Qed.
Lemma steps_for_each {A} (l : list A) (f : A -> M (S * W) unit) : (forall x, steps (f x)) -> steps (for_each l f).
Proof using PR. intros Hf. induction l as [|x l IH]; cbn; [apply steps_ret|]. by apply steps_bind. Qed.
End Steps.
End Wp.

Create HintDb steps.
#[export] Hint Resolve steps_ret steps_lift steps_state_get steps_inner : steps.
#[export] Hint Extern 0 (PreOrder _) => apply _ : steps.
(** Along the structure of a handler, with a case analysis where it branches. *)
Ltac steps_step :=
  match goal with
  | |- _ => solve [assumption | auto with steps]
  | |- steps _ (_ ≫= _) => apply steps_bind; [apply _| |intros]
  | |- steps _ (attempt _) => apply steps_attempt
  | |- steps _ (ignore _) => apply steps_ignore
  | |- steps _ (for_each _ _) => apply steps_for_each; [apply _|intros]
  | |- steps _ (match ?x with _ => _ end) => destruct x
  end.
Ltac steps := repeat steps_step.
(** One rule of the calculus. *)
Ltac wp_step :=
  match goal with
  | |- wp (_ ≫= _) _ _ => apply wp_bind
  | |- wp (mret _) _ _ => apply wp_ret
  | |- wp (lift _) _ _ => apply wp_lift
  | |- wp state_get _ _ => apply wp_get
  | |- wp (state_modify _) _ _ => apply wp_modify
  | |- wp (attempt _) _ _ => apply wp_attempt
  end; cbn beta iota.
