(* ===== verification/Manager.v ===== *)
(** * The manager (manager/manager.rs, events.rs; the two [OnceLock]s of
    persistence/state.rs and wifi/wifi.rs)

    The one thread that owns all state: it takes commands off a channel, one at
    a time, and answers each.  Its state is a record; every handler runs in the
    monad of that record and the world. *)

From Stdlib Require Import Ascii String.
From S2P Require Import Prelude RustStr IpAddr Dhcp4 Sys Persistence World Netlink IpLayer Routing DhcpClient.
From S2P Require Import Dhcp6 Security Firewall Device Connection Ipc Pac Proxy Dns Config Store Wpa.
From S2P Require Import Wireguard OpenVpn Connectivity Monitoring Bluetooth Logging Sharing Activation.

(** ** What the daemon runs on *)

(** [OnceLock]: the first [set] wins. *)
Record DataDir := mkDataDir { data_dir_cell : option string }.
Record CtrlDir := mkCtrlDir { ctrl_dir_cell : option string }.

(** A [HashMap] gives its entries in an order of its own, which the world
    decides. *)
Class HashIter (W : Type) := { hash_iter {V : Type} : gmap string V -> W -> list (string * V) * W }.
Class HashIterLaws (W : Type) `{HashIter W} := {
  hash_iter_perm {V : Type} (m : gmap string V) w : (hash_iter m w).1 ≡ₚ map_to_list m
}.
(** The clients of the event bus whose receiver is gone when an event is sent. *)
Class Receivers (W : Type) := { rx_gone : W -> gset Z * W }.

(** The formats and the environment of the process. *)
Class Formats := {
  fm_netlink :: NlEnv;
  fm_pac :: PacText;
  fm_wireguard :: Toml RawWireGuardConfig;
  fm_lease :: Codec Lease;
  fm_lease6 :: Codec V6.Lease6;
  fm_proxy :: Codec ProxyConfig;
  fm_profile :: Codec ConnectionProfile;
  fm_general :: Codec TopLevelGeneral;
  fm_interfaces :: Codec TopLevelInterfaces;
  fm_dns :: Codec TopLevelDns;
  fm_wireless :: Codec TopLevelWireless;
  fm_order :: HashOrder;
  fm_fuels :: Fuels
}.
Class Host (W : Type) := {
  host_files :: FileSystem W;
  host_append :: AppendFiles W;
  host_entropy :: Entropy W;
  host_clock :: Clock W;
  host_children :: Children W;
  host_workdirs :: WorkDirs W;
  host_unix :: UnixStreams W;
  host_threads :: Threads W;
  host_dhcp_threads :: DhcpThreads W;
  host_management :: Management W;
  host_processes :: Processes W;
  host_sockets :: Sockets W;
  host_tcp :: TcpStreams W;
  host_tcp_reads :: TcpReads W;
  host_addrs :: SocketAddrs W;
  host_resolver :: Resolver W;
  host_names :: HostNames W;
  host_stderr :: Stderr W;
  host_iter :: HashIter W;
  host_receivers :: Receivers W;
  host_level :: Static MinLevel W;
  host_sessions :: Static Sessions W;
  host_vpns :: Static ActiveVpns W;
  host_hostapd :: Static HostapdChildren W;
  host_proxy :: Static ProxyState W;
  host_data_dir :: Static DataDir W;
  host_ctrl_dir :: Static CtrlDir W
}.

Section Once.
Context {W : Type} `{Host W}.
Definition init_data_dir (dir : string) : M W unit :=
  c ← static_get;
  match data_dir_cell c with None => static_put (mkDataDir (Some dir)) | Some _ => mret tt end.
Definition base_dir : M W string :=
  c ← static_get; mret (default DEFAULT_DATA_DIR (data_dir_cell c)).
Definition init_ctrl_dir (dir : string) : M W unit :=
  c ← static_get;
  match ctrl_dir_cell c with None => static_put (mkCtrlDir (Some dir)) | Some _ => mret tt end.
Definition ctrl_dir : M W string :=
  c ← static_get; mret (default "/run/mitos-network/wpa"%string (ctrl_dir_cell c)).
(** A computation over a static and the world. *)
Definition on_static {S A} `{Static S W} (c : M (S * W) A) : M W A := fun w =>
  let '(r, (s, w')) := c (st_get w, w) in (r, st_put s w').
Definition entries {V} (m : gmap string V) : M W (list (string * V)) := observe (hash_iter m).
End Once.

(** ** The event bus *)

(** Per client, the events sent into its channel. *)
Record EventBus := mkBus { clients : gmap Z (list Event); next_id : Z }.
Definition bus_new : EventBus := mkBus ∅ 0.
Definition bus_register (b : EventBus) : outcome (Z * EventBus) :=
  let id := next_id b in
  next ← u64_add id 1;
  Ok (id, mkBus (<[id := []]> (clients b)) next).
Definition bus_unregister (id : Z) (b : EventBus) : EventBus := mkBus (delete id (clients b)) (next_id b).
(** [retain(|_, tx| tx.send(event.clone()).is_ok())] *)
Definition bus_broadcast (gone : gset Z) (ev : Event) (b : EventBus) : EventBus :=
  mkBus ((fun sent => sent ++ [ev]) <$> filter (fun c => c.1 ∉ gone) (clients b)) (next_id b).

(** ** State *)

Inductive TickKind := TkConnectivity | TkWifiScan | TkLeaseCheck | TkDeviceRefresh.
(** A command, less the channel its answer goes to. *)
Inductive Command :=
| CmdRequest (req : Request) (identity : PeerIdentity)
| CmdRegisterEventClient
| CmdUnregisterEventClient (id : Z)
| CmdHotplug (ev : HotplugEvent)
| CmdTick (kind : TickKind)
| CmdShutdown.
(** What is sent back on that channel. *)
Inductive Reply := RepResponse (r : Response) | RepClient (id : Z).

Record NetworkManager (B : Type) := mkManager {
  mgr_config : NetworkConfig;
  mgr_profiles_dir : string;
  mgr_devices : gmap string NetworkDevice;
  mgr_connections : list ConnectionProfile;
  mgr_active : gmap string ActiveConnection;
  mgr_secrets : B;
  mgr_firewall : FirewallState;
  mgr_dns_registry : DnsServerRegistry;
  mgr_connectivity : ConnectivityState;
  mgr_events : EventBus;
  mgr_audit : AuditLog
}.
Arguments mkManager {B}.
Arguments mgr_config {B}.
Arguments mgr_profiles_dir {B}.
Arguments mgr_devices {B}.
Arguments mgr_connections {B}.
Arguments mgr_active {B}.
Arguments mgr_secrets {B}.
Arguments mgr_firewall {B}.
Arguments mgr_dns_registry {B}.
Arguments mgr_connectivity {B}.
Arguments mgr_events {B}.
Arguments mgr_audit {B}.

Section Setters.
Context {B : Type}.
Implicit Types m : NetworkManager B.
Definition set_config c m := mkManager c (mgr_profiles_dir m) (mgr_devices m) (mgr_connections m) (mgr_active m)
  (mgr_secrets m) (mgr_firewall m) (mgr_dns_registry m) (mgr_connectivity m) (mgr_events m) (mgr_audit m).
Definition set_devices (d : gmap string NetworkDevice) m := mkManager (mgr_config m) (mgr_profiles_dir m) d (mgr_connections m) (mgr_active m)
  (mgr_secrets m) (mgr_firewall m) (mgr_dns_registry m) (mgr_connectivity m) (mgr_events m) (mgr_audit m).
Definition set_connections c m := mkManager (mgr_config m) (mgr_profiles_dir m) (mgr_devices m) c (mgr_active m)
  (mgr_secrets m) (mgr_firewall m) (mgr_dns_registry m) (mgr_connectivity m) (mgr_events m) (mgr_audit m).
Definition set_active_map a m := mkManager (mgr_config m) (mgr_profiles_dir m) (mgr_devices m) (mgr_connections m) a
  (mgr_secrets m) (mgr_firewall m) (mgr_dns_registry m) (mgr_connectivity m) (mgr_events m) (mgr_audit m).
Definition set_firewall f m := mkManager (mgr_config m) (mgr_profiles_dir m) (mgr_devices m) (mgr_connections m)
  (mgr_active m) (mgr_secrets m) f (mgr_dns_registry m) (mgr_connectivity m) (mgr_events m) (mgr_audit m).
Definition set_connectivity c m := mkManager (mgr_config m) (mgr_profiles_dir m) (mgr_devices m) (mgr_connections m)
  (mgr_active m) (mgr_secrets m) (mgr_firewall m) (mgr_dns_registry m) c (mgr_events m) (mgr_audit m).
Definition set_events e m := mkManager (mgr_config m) (mgr_profiles_dir m) (mgr_devices m) (mgr_connections m)
  (mgr_active m) (mgr_secrets m) (mgr_firewall m) (mgr_dns_registry m) (mgr_connectivity m) e (mgr_audit m).
Definition set_audit a m := mkManager (mgr_config m) (mgr_profiles_dir m) (mgr_devices m) (mgr_connections m)
  (mgr_active m) (mgr_secrets m) (mgr_firewall m) (mgr_dns_registry m) (mgr_connectivity m) (mgr_events m) a.
End Setters.

(** [NetworkManager::new] *)
Definition manager_new {W} `{Host W} `{Formats} (config : NetworkConfig) : M W (NetworkManager FileSecretsBackend) :=
  let dir := data_dir (general config) in
  init_data_dir dir ;;
  init_ctrl_dir (ctrl_interface_dir (wireless config)) ;;
  static_put (set_level (log_level (general config))) ;;
  let profiles_dir := path_join dir "profiles" in
  connections ← load_all profiles_dir;
  devices ← refresh ∅ (unmanaged_devices (general config));
  all ← entries devices;
  firewall ← (fun w => let '(r, (f, w')) :=
                for_each (map snd all) (fun dev => ignore (ensure_default_zone (dev_name dev))) (firewall_new, w) in
              (r ≫= (fun _ => Ok f), w'));
  ignore (apply_from_config (dns_config config)) ;;
  base ← base_dir;
  stored ← attempt (load_proxy_config base);
  (match stored with
   | inl (Some proxy_cfg) => ignore (on_static (proxy_apply base proxy_cfg))
   | _ => mret tt
   end) ;;
  mret (mkManager config profiles_dir devices connections ∅ (file_secrets_new dir) firewall ∅ CsUnknown bus_new
          (audit_new (path_join dir "audit.log"))).

(** ** The handlers *)

Definition proxy_mode_debug (m : ProxyMode) : string :=
  match m with PmNone => "None" | PmManual => "Manual" | PmAuto => "Auto" end.
Definition find_profile (id : string) (l : list ConnectionProfile) : option ConnectionProfile :=
  List.find (fun p => String.eqb (profile_id p) id) l.
(** [connections.retain(|p| p.id != id)] *)
Definition without_profile (id : string) (l : list ConnectionProfile) : list ConnectionProfile :=
  retain (fun p => negb (String.eqb (profile_id p) id)) l.

Section Handlers.
Context {W : Type} `{Host W} `{Formats} {B : Type} `{SecretsBackend B W}.
Abbreviation MM := (M (NetworkManager B * W)).

(** Running a part of the state with the world. *)
Definition on_firewall {A} (c : M (FirewallState * W) A) : MM A := fun s =>
  let '(r, (f, w)) := c (mgr_firewall s.1, s.2) in (r, (set_firewall f s.1, w)).
(** [self.devices.get_mut(name)], and what is done to the device *)
Definition on_device {A} (name : string) (c : M (NetworkDevice * W) A) : MM (option A) := fun s =>
  match mgr_devices s.1 !! name with
  | None => (Ok None, s)
  | Some d => let '(r, (d', w)) := c (d, s.2) in
              (r ≫= (fun a => Ok (Some a)), (set_devices (<[name := d']> (mgr_devices s.1)) s.1, w))
  end.
(** [match call() { Ok(a) => .., Err(e) => Response::Error(e.to_string()) }] *)
Definition answer {A} (c : MM A) (ok : A -> MM Response) : MM Response :=
  r ← attempt c;
  match r with
  | inl a => ok a
  | inr e => mret (ResError (error_to_string e))
  end.

Definition all_devices : MM (list NetworkDevice) :=
  m ← state_get; l ← inner (entries (mgr_devices m)); mret (map snd l).
Definition device_names : MM (list string) := l ← all_devices; mret (map dev_name l).
Definition audit (actor action detail : string) : MM unit :=
  m ← state_get;
  log ← inner (audit_record (mgr_audit m) actor action detail);
  state_modify (set_audit log).
Definition broadcast (ev : Event) : MM unit :=
  gone ← inner (observe rx_gone);
  state_modify (fun m => set_events (bus_broadcast gone ev (mgr_events m)) m).
Definition broadcast_state : MM unit :=
  devices ← all_devices;
  m ← state_get;
  broadcast (EvStateChanged (overall_state devices (mgr_connectivity m))).
(** [let _ = self.devices.refresh(..)] *)
Definition refresh_devices : MM unit :=
  m ← state_get;
  r ← attempt (inner (refresh (mgr_devices m) (unmanaged_devices (general (mgr_config m)))));
  match r with inl devices => state_modify (set_devices devices) | inr _ => mret tt end.

(** *** Profiles *)

Definition fits (profile : ConnectionProfile) (d : NetworkDevice) : bool :=
  bool_decide (dev_type d = device_type profile) && bool_decide (active_connection d = None)
  && match interface_name profile with Some n => String.eqb n (dev_name d) | None => true end.
Definition find_device_for_profile (profile : ConnectionProfile) : MM (option string) :=
  l ← all_devices; mret (dev_name <$> List.find (fits profile) l).

Definition activation_attempt (profile : ConnectionProfile) (secrets : B) (ctrl base : string)
  : M (NetworkDevice * W) (DeviceState * ActiveConnection + NetworkError) :=
  r ← attempt (activate ctrl base profile secrets);
  match r with
  | inl active => d ← state_get; mret (inl (dev_state d, active))
  | inr e => state_modify (fun d => with_state d DsFailed) ;; mret (inr e)
  end.
Definition activate_profile (id actor : string) : MM Response :=
  m ← state_get;
  match find_profile id (mgr_connections m) with
  | None => mret (ResError ("no such connection profile '" +:+ id +:+ "'"))
  | Some profile =>
      found ← find_device_for_profile profile;
      match found with
      | None => mret (ResError ("no available " +:+ device_type_name (device_type profile) +:+ " device for '" +:+ id +:+ "'"))
      | Some name =>
          ctrl ← inner ctrl_dir;
          base ← inner base_dir;
          r ← on_device name (activation_attempt profile (mgr_secrets m) ctrl base);
          match r with
          | None => mret (ResError ("device '" +:+ name +:+ "' disappeared"))
          | Some (inl (state, active)) =>
              state_modify (fun m => set_active_map (<[name := active]> (mgr_active m)) m) ;;
              inner (ignore (touch (mgr_profiles_dir m) id)) ;;
              audit actor "connection.activate" (id +:+ " on " +:+ name) ;;
              broadcast (EvDeviceStateChanged name state) ;;
              broadcast (EvConnectionActivated id) ;;
              broadcast_state ;;
              mret ResOk
          | Some (inr e) => mret (ResError ("activation failed: " +:+ error_to_string e))
          end
      end
  end.

Definition deactivate_profile (id actor : string) : MM Response :=
  m ← state_get;
  l ← inner (entries (mgr_active m));
  match List.find (fun e => String.eqb (ac_profile_id e.2) id) l with
  | None => mret (ResError ("connection '" +:+ id +:+ "' is not active"))
  | Some (name, _) =>
      match mgr_active m !! name with
      | None => mret (ResError "internal state inconsistency")
      | Some _ =>
          state_modify (fun m => set_active_map (delete name (mgr_active m)) m) ;;
          ctrl ← inner ctrl_dir;
          base ← inner base_dir;
          r ← on_device name (attempt (deactivate ctrl base));
          match r with
          | None => mret (ResError ("device '" +:+ name +:+ "' disappeared"))
          | Some (inl _) =>
              audit actor "connection.deactivate" (id +:+ " on " +:+ name) ;;
              broadcast (EvConnectionDeactivated id) ;;
              broadcast_state ;;
              mret ResOk
          | Some (inr e) => mret (ResError ("deactivation failed: " +:+ error_to_string e))
          end
      end
  end.

(** *** Autoconnect *)

(** The profile [try_autoconnect] chooses for a device that is ready. *)
Definition choose_profile (device_name : string) (device : NetworkDevice) : MM (option ConnectionProfile) :=
  m ← state_get;
  sorted ← inner (recently_used_first (mgr_profiles_dir m) (mgr_connections m));
  if negb (carrier device) then mret None
  else if bool_decide (dev_type device = DtWiFi) then
    nets ← attempt (inner (last_results (ctrl_interface_dir (wireless (mgr_config m))) device_name));
    mret (select_wifi device sorted (match nets with inl nets => map ssid nets | inr _ => [] end))
  else mret (select device sorted).
Definition ready_to_connect (d : NetworkDevice) : bool :=
  negb (bool_decide (dev_state d = Unmanaged) || bool_decide (is_Some (active_connection d)))
  && (bool_decide (dev_state d = Disconnected) || bool_decide (dev_state d = Unavailable)).
Definition try_autoconnect (name : string) : MM unit :=
  m ← state_get;
  match registry_get (mgr_devices m) name with
  | None => mret tt
  | Some device =>
      if ready_to_connect device then
        chosen ← choose_profile name device;
        match chosen with
        | Some profile => activate_profile (profile_id profile) "system:autoconnect" ;; mret tt
        | None => mret tt
        end
      else mret tt
  end.
Definition try_autoconnect_all : MM unit :=
  names ← device_names; for_each names try_autoconnect.

(** *** Hotplug and timers *)

Definition handle_hotplug (ev : HotplugEvent) : MM unit :=
  (match ev with
   | LinkAdded name =>
       refresh_devices ;;
       on_firewall (ignore (ensure_default_zone name)) ;;
       m ← state_get;
       (match registry_get (mgr_devices m) name with Some dev => broadcast (EvDeviceAdded dev) | None => mret tt end) ;;
       try_autoconnect name
   | LinkRemoved name =>
       state_modify (fun m => set_active_map (delete name (mgr_active m)) m) ;;
       state_modify (fun m => set_devices (registry_remove (mgr_devices m) name) m) ;;
       broadcast (EvDeviceRemoved name)
   | LinkChanged name | AddressChanged name =>
       refresh_devices ;;
       m ← state_get;
       match registry_get (mgr_devices m) name with
       | Some dev => broadcast (EvDeviceStateChanged name (dev_state dev))
       | None => mret tt
       end
   end) ;;
  broadcast_state.

Definition check_connectivity : MM unit :=
  m ← state_get;
  r ← attempt (inner (check (connectivity_check_url (general (mgr_config m))) (secs_to_nanos 5)));
  let new_state := match r with inl s => s | inr _ => CsUnknown end in
  if bool_decide (new_state = mgr_connectivity m) then mret tt
  else
    state_modify (set_connectivity new_state) ;;
    broadcast (EvConnectivityChanged new_state) ;;
    broadcast_state.
(** One entry of [TickKind::LeaseCheck]. *)
Definition renew_lease (name : string) (active : ActiveConnection) : M W unit :=
  if negb (bool_decide (ac_state active = AcActivated)) then mret tt
  else
    base ← base_dir;
    stored ← attempt (load_lease base name);
    match stored with
    | inl (Some lease) =>
        now ← now_secs;
        due ← lift (renewal_time lease);
        if due <=? now then
          renewed ← attempt (renew dhcp_fuel name lease);
          match renewed with
          | inl new_lease => ignore (save_lease base name new_lease)
          | inr _ => mret tt
          end
        else mret tt
    | _ => mret tt
    end.
Definition handle_tick (kind : TickKind) : MM unit :=
  match kind with
  | TkConnectivity => check_connectivity
  | TkWifiScan =>
      devices ← all_devices;
      for_each (map dev_name (List.filter (fun d => bool_decide (dev_type d = DtWiFi)
                                                    && negb (bool_decide (dev_state d = Unmanaged))) devices))
        try_autoconnect
  | TkLeaseCheck =>
      m ← state_get;
      l ← inner (entries (mgr_active m));
      for_each l (fun e => inner (renew_lease e.1 e.2))
  | TkDeviceRefresh => refresh_devices ;; try_autoconnect_all
  end.

(** *** Requests *)

Definition actor_of (identity : PeerIdentity) : string := "uid:" +:+ dec (uid identity).
(** [Ok(()) => { self.audit.record(..); Response::Ok }] *)
Definition audited (c : MM unit) (actor action detail : string) : MM Response :=
  answer c (fun _ => audit actor action detail ;; mret ResOk).
(** [self.connections.retain(..); self.connections.push(profile)] *)
Definition store_profile (profile : ConnectionProfile) : MM unit :=
  state_modify (fun m => set_connections (without_profile (profile_id profile) (mgr_connections m) ++ [profile]) m).
Definition drop_profile (id : string) : MM unit :=
  state_modify (fun m => set_connections (without_profile id (mgr_connections m)) m).
Definition wifi_profile_id (ssid : string) : string := "wifi-" +:+ ssid.
Definition wifi_profile (device ssid : string) (security : SecurityType) : ConnectionProfile :=
  let p := new_wifi (wifi_profile_id ssid) ssid security in
  mkProfile (profile_id p) (profile_name p) (device_type p) (Some device) (method p) (ipv6_method p) (addresses p)
    (profile_gateway p) (profile_dns p) (autoconnect p) (autoconnect_priority p) (metered p) (wifi p) (vpn p).

Definition delete_connection (id actor : string) : MM Response :=
  m ← state_get;
  (if existsb (fun e => String.eqb (ac_profile_id e.2) id) (map_to_list (mgr_active m))
   then deactivate_profile id actor ;; mret tt else mret tt) ;;
  answer (inner (delete_profile (mgr_profiles_dir m) id)) (fun _ =>
    audit actor "connection.delete" id ;;
    drop_profile id ;;
    inner (ignore (secret_delete_all (mgr_secrets m) id)) ;;
    mret ResOk).
Definition connect_wifi (device ssid : string) (security : SecurityType) (passphrase : option string) (actor : string)
  : MM Response :=
  m ← state_get;
  let id := wifi_profile_id ssid in
  answer (match passphrase with
          | Some pass => inner (secret_set (mgr_secrets m) id "psk" pass)
          | None => mret tt
          end) (fun _ =>
    let profile := wifi_profile device ssid security in
    answer (inner (save (mgr_profiles_dir m) profile)) (fun _ =>
      audit actor "wifi.connect" id ;;
      store_profile profile ;;
      activate_profile id actor)).
Definition forget_wifi (device ssid actor : string) : MM Response :=
  m ← state_get;
  let id := wifi_profile_id ssid in
  ctrl ← inner ctrl_dir;
  inner (ignore (wifi_forget ctrl device ssid)) ;;
  inner (ignore (secret_delete_all (mgr_secrets m) id)) ;;
  inner (ignore (delete_profile (mgr_profiles_dir m) id)) ;;
  drop_profile id ;;
  audit actor "wifi.forget" id ;;
  mret ResOk.

Definition remove_firewall_rule (id actor : string) : MM Response := audited (on_firewall (remove_rule id)) actor "firewall.rule.remove" id.
Definition list_bluetooth_devices : MM Response := answer (inner list_devices) (fun devices => mret (ResBluetoothDevices devices)).
Definition bluetooth_power (on : bool) (actor : string) : MM Response :=
  audited (inner (if on then power_on else power_off)) actor "bluetooth.power" (if on then "on" else "off").
Definition bluetooth_scan (on : bool) : MM Response := answer (inner (if on then start_scan else stop_scan)) (fun _ => mret ResOk).
Definition pair_bluetooth (mac actor : string) : MM Response := audited (inner (bt_pair mac)) actor "bluetooth.pair" mac.
Definition trust_bluetooth (mac actor : string) : MM Response := audited (inner (bt_trust mac)) actor "bluetooth.trust" mac.
Definition connect_bluetooth (mac actor : string) : MM Response := audited (inner (bt_connect mac)) actor "bluetooth.connect" mac.
Definition disconnect_bluetooth (mac actor : string) : MM Response := audited (inner (bt_disconnect mac)) actor "bluetooth.disconnect" mac.
Definition remove_bluetooth (mac actor : string) : MM Response := audited (inner (bt_remove mac)) actor "bluetooth.remove" mac.
Definition set_proxy_config (config : ProxyConfig) (actor : string) : MM Response :=
  base ← inner base_dir;
  audited (inner (on_static (proxy_apply base config))) actor "proxy.set" (proxy_mode_debug (mode config)).
Definition get_proxy_config : MM Response := s ← inner static_get; mret (ResProxyConfig (proxy_current s)).
Definition resolve_proxy (url : string) : MM Response :=
  directive ← inner (on_static (resolve_for_url url)); mret (ResProxyResolution directive).
Definition diagnose : MM Response :=
  m ← state_get;
  devices ← all_devices;
  answer (inner (collect devices (mgr_connectivity m))) (fun report => mret (ResDiagnostics report)).
Definition reload (actor : string) : MM Response :=
  answer (inner (load DEFAULT_CONFIG_DIR)) (fun cfg =>
    state_modify (set_config cfg) ;; audit actor "config.reload" "" ;; mret ResOk).
Definition handle_request (req : Request) (identity : PeerIdentity) : MM Response :=
  m ← state_get;
  let actor := actor_of identity in
  match req with
  | GetState => devices ← all_devices; mret (ResState (overall_state devices (mgr_connectivity m)))
  | ListDevices => devices ← all_devices; mret (ResDevices devices)
  | GetDevice name =>
      mret (match registry_get (mgr_devices m) name with
            | Some d => ResDevice d
            | None => ResError ("no such device '" +:+ name +:+ "'")
            end)
  | ListConnections => mret (ResConnections (mgr_connections m))
  | GetConnection id =>
      mret (match find_profile id (mgr_connections m) with
            | Some p => ResConnection p
            | None => ResError ("no such connection '" +:+ id +:+ "'")
            end)
  | AddConnection profile =>
      answer (inner (save (mgr_profiles_dir m) profile)) (fun _ =>
        audit actor "connection.add" (profile_id profile) ;;
        store_profile profile ;;
        mret ResOk)
  | DeleteConnection id => delete_connection id actor
  | ActivateConnection id => activate_profile id actor
  | DeactivateConnection id => deactivate_profile id actor
  | ScanWifi device =>
      answer (inner (scanner_scan wifi_fuel (ctrl_interface_dir (wireless (mgr_config m))) device))
        (fun nets => mret (ResWifiNetworks nets))
  | ListWifiNetworks device =>
      answer (inner (last_results (ctrl_interface_dir (wireless (mgr_config m))) device))
        (fun nets => mret (ResWifiNetworks nets))
  | ConnectWifi device ssid security passphrase => connect_wifi device ssid security passphrase actor
  | ForgetWifi device ssid => forget_wifi device ssid actor
  | StartHotspot device ssid passphrase uplink =>
      answer (on_firewall (hotspot_start device ssid passphrase uplink)) (fun _ =>
        audit actor "hotspot.start" (device +:+ " (" +:+ ssid +:+ ")") ;; mret ResOk)
  | StopHotspot device =>
      inner (hostapd_stop device) ;; audit actor "hotspot.stop" device ;; mret ResOk
  | SetFirewallZone interface zone =>
      audited (on_firewall (assign_zone interface zone)) actor "firewall.zone" (interface +:+ " -> " +:+ zone)
  | AddFirewallRule rule => audited (on_firewall (add_rule rule)) actor "firewall.rule.add" (rule_id rule)
  | RemoveFirewallRule id => remove_firewall_rule id actor
  | ListBluetoothDevices => list_bluetooth_devices
  | BluetoothPower on => bluetooth_power on actor
  | BluetoothScan on => bluetooth_scan on
  | PairBluetooth mac => pair_bluetooth mac actor
  | TrustBluetooth mac => trust_bluetooth mac actor
  | ConnectBluetooth mac => connect_bluetooth mac actor
  | DisconnectBluetooth mac => disconnect_bluetooth mac actor
  | RemoveBluetooth mac => remove_bluetooth mac actor
  | SetProxyConfig config => set_proxy_config config actor
  | GetProxyConfig => get_proxy_config
  | ResolveProxy url => resolve_proxy url
  | GetConnectivity => mret (ResConnectivity (mgr_connectivity m))
  | Diagnose => diagnose
  | Reload => reload actor
  end.

(** *** The command loop *)

Definition handle_command (cmd : Command) : MM (list Reply) :=
  match cmd with
  | CmdRequest req identity => resp ← handle_request req identity; mret [RepResponse resp]
  | CmdRegisterEventClient =>
      m ← state_get;
      '(id, events) ← lift (bus_register (mgr_events m));
      state_modify (set_events events) ;;
      mret [RepClient id]
  | CmdUnregisterEventClient id => state_modify (fun m => set_events (bus_unregister id (mgr_events m)) m) ;; mret []
  | CmdHotplug ev => handle_hotplug ev ;; mret []
  | CmdTick kind => handle_tick kind ;; mret []
  | CmdShutdown => mret []
  end.
(** [for cmd in rx.iter()]: up to the first shutdown, or the end of the
    channel; the replies in the order they are sent. *)
Fixpoint serve (cmds : list Command) : MM (list Reply) :=
  match cmds with
  | [] => mret []
  | CmdShutdown :: _ => mret []
  | cmd :: cmds => sent ← handle_command cmd; rest ← serve cmds; mret (sent ++ rest)
  end.
Definition run (cmds : list Command) : MM (list Reply) :=
  inner (log_info "mitos-network manager started") ;;
  try_autoconnect_all ;;
  replies ← serve cmds;
  inner (log_info "mitos-network manager stopped") ;;
  mret replies.
End Handlers.
(** The arms of [handle_request], laid open. *)
Ltac unfold_request := unfold handle_request, remove_firewall_rule, list_bluetooth_devices, bluetooth_power, bluetooth_scan, pair_bluetooth, trust_bluetooth, connect_bluetooth,
  disconnect_bluetooth, remove_bluetooth, set_proxy_config, get_proxy_config, resolve_proxy, diagnose, reload in *.
