(* ===== verification/ManagerInv.v ===== *)
(** * What the manager keeps true

    An invariant of its state, and how the state may move: both are shown for
    every handler, so they hold after any sequence of commands, whatever the
    outside does. *)

From Stdlib Require Import Ascii String.
From S2P Require Import Prelude RustStr IpAddr Dhcp4 Sys Persistence World Netlink IpLayer Routing DhcpClient.
From S2P Require Import Dhcp6 Security Firewall Device Connection Ipc Pac Proxy Dns Config Store Wpa.
From S2P Require Import Wireguard OpenVpn Connectivity Monitoring Bluetooth Logging Sharing Activation Wp.
From S2P Require Import Manager.

(** ** The invariant *)

(** A device under a connection is active, or was being taken down; an active
    device is under a connection. *)
Definition device_ok (d : NetworkDevice) : Prop :=
  (is_Some (active_connection d) -> dev_state d = Activated \/ dev_state d = Deactivating)
  /\ (dev_state d = Activated -> is_Some (active_connection d)).
Record mgr_ok {B} (m : NetworkManager B) : Prop := {
  (** the registry is keyed by name *)
  mok_devices : map_Forall (fun n d => dev_name d = n /\ device_ok d) (mgr_devices m);
  mok_active : map_Forall (fun _ a => ac_state a = AcActivated) (mgr_active m);
  (** a device and the table of active connections agree *)
  mok_agree n d a id : mgr_devices m !! n = Some d -> mgr_active m !! n = Some a -> active_connection d = Some id ->
    ac_profile_id a = id /\ dev_state d = Activated;
  mok_firewall : fw_ok (mgr_firewall m);
  mok_bus id : is_Some (clients (mgr_events m) !! id) -> id < next_id (mgr_events m)
}.

(** ** How the state may move *)

(** Ids are handed out once; what a client was sent is never taken back. *)
Definition bus_step (b b' : EventBus) : Prop :=
  next_id b <= next_id b' /\
  forall id sent', clients b' !! id = Some sent' -> id < next_id b ->
    exists sent, clients b !! id = Some sent /\ sent `prefix_of` sent'.
(** Writes are only added, each of a line by an actor of [A]; the file is opened
    only to add one. *)
Definition audit_step (A : string -> Prop) (l l' : AuditLog) : Prop :=
  audit_path l' = audit_path l /\ (is_Some (audit_file l) -> is_Some (audit_file l')) /\
  (audit_file l = None -> audit_file l' = None \/ audit_writes l' <> []) /\
  exists new, audit_writes l' = audit_writes l ++ new /\
    Forall (fun e => exists ts actor action detail, A actor /\ e.1 = audit_line ts actor action detail) new.
Record mgr_step {B} (A : string -> Prop) (m m' : NetworkManager B) : Prop := {
  ms_ok : mgr_ok m -> mgr_ok m';
  ms_ids : NoDup (map profile_id (mgr_connections m)) -> NoDup (map profile_id (mgr_connections m'));
  ms_where : mgr_profiles_dir m' = mgr_profiles_dir m /\ mgr_secrets m' = mgr_secrets m;
  ms_bus : bus_step (mgr_events m) (mgr_events m');
  ms_audit : audit_step A (mgr_audit m) (mgr_audit m')
}.

#[export] Instance bus_step_preorder : PreOrder bus_step.
Proof.
  split.
  - intros b. split; [done|]. eauto.
  - intros b1 b2 b3 [H12 C12] [H23 C23]. split; [lia|]. intros id s3 H3 Hid.
    destruct (C23 id s3 H3 ltac:(lia)) as (s2 & H2 & P23). destruct (C12 id s2 H2 Hid) as (s1 & H1 & P12).
    exists s1. split; [done|]. by trans s2.
Qed.
#[export] Instance audit_step_preorder A : PreOrder (audit_step A).
Proof.
  split.
  - intros l. split_and!; [done|done|by left|]. exists []. by rewrite app_nil_r.
  - intros l1 l2 l3 (P12 & O12 & N12 & n12 & E12 & F12) (P23 & O23 & N23 & n23 & E23 & F23). split_and!; [congruence|auto| |].
    { intros H1. destruct (N12 H1) as [H2|H2]; [auto|]. right. rewrite E23. by destruct (audit_writes l2). }
    exists (n12 ++ n23). split; [by rewrite E23, E12, app_assoc|]. by apply Forall_app.
Qed.
#[export] Instance mgr_step_preorder {B} A : PreOrder (mgr_step (B := B) A).
Proof.
  split.
  - intros m. by split.
  - intros m1 m2 m3 [O12 I12 [W12 S12] B12 A12] [O23 I23 [W23 S23] B23 A23].
    split; [by auto|by auto|split; congruence|by trans (mgr_events m2)|by trans (mgr_audit m2)].
Qed.
Lemma mgr_step_weaken {B} (A A' : string -> Prop) (m m' : NetworkManager B) :
  (forall a, A a -> A' a) -> mgr_step A m m' -> mgr_step A' m m'.
Proof.
  intros HA [Hok Hi Hw Hb (Hp & Ho & Hn & new & E & F)]. split; [done..|]. split_and!; [done..|]. exists new. split; [done|].
  eapply List.Forall_impl; [|exact F]. intros line (ts & a & act & det & Ha & ->). eauto 8.
Qed.

(** ** The pieces *)

Lemma NoDup_retain {A} (f : A -> bool) (g : A -> string) l : NoDup (map g l) -> NoDup (map g (retain f l)).
Proof.
  induction l as [|x l IH]; cbn; [done|]. intros [Hx Hl]%list.NoDup_cons. destruct (f x); cbn; [|auto].
  apply list.NoDup_cons. split; [|auto]. rewrite list_elem_of_In, in_map_iff in Hx |- *. intros (y & Hy & [Hin _]%retain_In). eauto.
Qed.
Lemma not_in_without id l : id ∉ map profile_id (without_profile id l).
Proof.
  rewrite list_elem_of_In, in_map_iff. intros (p & Hp & [_ Hf]%retain_In). subst. by rewrite String.eqb_refl in Hf.
Qed.

Section Steps.
Context {W : Type} `{Host W} `{Formats} {B : Type} `{SecretsBackend B W} (A : string -> Prop).
Abbreviation Mgr := (NetworkManager B).
Abbreviation msteps := (steps (W := W) (mgr_step (B := B) A)).

(** Changes outside the invariant. *)
Lemma step_plain (m m' : Mgr) :
  mgr_devices m' = mgr_devices m -> mgr_active m' = mgr_active m -> mgr_firewall m' = mgr_firewall m ->
  mgr_profiles_dir m' = mgr_profiles_dir m -> mgr_secrets m' = mgr_secrets m ->
  (mgr_ok m -> forall id, is_Some (clients (mgr_events m') !! id) -> id < next_id (mgr_events m')) ->
  (NoDup (map profile_id (mgr_connections m)) -> NoDup (map profile_id (mgr_connections m'))) ->
  bus_step (mgr_events m) (mgr_events m') -> audit_step A (mgr_audit m) (mgr_audit m') -> mgr_step A m m'.
Proof.
  intros Ed Ea Ef Ep Es Hb Hi Hbs Ha. split; [|done..]. intros Hok. destruct (Hok) as [Kd Ka Kg Kf Kb].
  split; rewrite ?Ed, ?Ea, ?Ef; eauto.
Qed.
Lemma bus_broadcast_step gone ev b : bus_step b (bus_broadcast gone ev b).
Proof.
  split; [done|]. intros id sent' Hl _. cbn in Hl. rewrite lookup_fmap in Hl.
  destruct (filter _ (clients b) !! id) as [sent|] eqn:E; [|done]. apply map_lookup_filter_Some in E as [E _]. injection Hl as <-.
  exists sent. split; [done|]. by eexists.
Qed.
Lemma broadcast_steps ev : msteps (broadcast (B := B) ev).
Proof.
  unfold broadcast. steps. apply steps_modify. intros m. apply step_plain; try done; cbn.
  - intros Hok id [s Hl]. rewrite lookup_fmap in Hl. apply (mok_bus m Hok).
    destruct (filter _ _ !! id) eqn:E; [|done]. apply map_lookup_filter_Some in E as [E _]. by exists l.
  - apply bus_broadcast_step.
Qed.
Hint Resolve broadcast_steps : steps.
Lemma all_devices_steps : msteps (all_devices (B := B)).
Proof. unfold all_devices. steps. Qed.
Hint Resolve all_devices_steps : steps.
Lemma broadcast_state_steps : msteps (broadcast_state (B := B)).
Proof. unfold broadcast_state. steps. Qed.
Hint Resolve broadcast_state_steps : steps.
Lemma audit_steps actor action detail : A actor -> msteps (audit (B := B) actor action detail).
Proof.
  intros HA. unfold audit. apply steps_get. intros m. wp_step. apply wp_inner. intros r [w Hr].
  destruct (audit_record_ok (mgr_audit m) actor action detail w) as (log & w' & E & Hp & Hd). rewrite E in Hr. cbn in Hr. subst r.
  wp_step. apply step_plain; try done; cbn; [by intros Hok; apply (mok_bus m Hok)|].
  destruct Hd as [(ts & ok & Hf)|[_ ->]]; [|done]. split_and!; [done|by rewrite Hf| |].
  { intros _. right. unfold audit_writes at 1. rewrite Hf. cbn. by destruct (audit_writes (mgr_audit m)). }
  eexists. unfold audit_writes at 1. rewrite Hf. cbn. split; [done|]. constructor; [|done]. eauto 8.
Qed.
Hint Resolve audit_steps : steps.

(** *** The firewall *)

Abbreviation fsteps := (steps (W := W) (fun f f' => fw_ok f -> fw_ok f')).
#[local] Instance fw_ok_preorder : PreOrder (fun f f' => fw_ok f -> fw_ok f').
Proof. split; [by intros f|by intros f g h H1' H2' ?; auto]. Qed.
Lemma on_firewall_steps {X} (c : M (FirewallState * W) X) : fsteps c -> msteps (on_firewall c).
Proof.
  intros Hc m w. unfold on_firewall. cbn. specialize (Hc (mgr_firewall m) w). destruct (c (mgr_firewall m, w)) as [r [f w']].
  cbn in *. split; [|done..]. intros [Kd Ka Kg Kf Kb]. split; cbn; eauto.
Qed.
Lemma fw_world_steps {X} (c : M W X) : fsteps (fw_world c).
Proof. apply steps_inner, _. Qed.
Lemma assign_zone_steps i z : fsteps (assign_zone i z).
Proof. intros f w Hf. exact (assign_zone_ok i z (f, w) Hf). Qed.
Lemma ensure_default_zone_steps i : fsteps (ensure_default_zone i).
Proof. intros f w Hf. exact (ensure_default_zone_ok i (f, w) Hf). Qed.
Lemma add_rule_steps r : fsteps (add_rule r).
Proof. intros f w Hf. exact (add_rule_ok r (f, w) Hf). Qed.
Lemma remove_rule_steps id : fsteps (remove_rule id).
Proof. intros f w Hf. exact (remove_rule_ok id (f, w) Hf). Qed.
Lemma enable_sharing_steps l u : fsteps (enable_sharing l u).
Proof. intros f w Hf. exact (enable_sharing_ok l u (f, w) Hf). Qed.
Hint Resolve on_firewall_steps fw_world_steps assign_zone_steps ensure_default_zone_steps add_rule_steps
  remove_rule_steps enable_sharing_steps : steps.
Lemma hotspot_start_steps i s p u : fsteps (hotspot_start i s p u).
Proof. unfold hotspot_start, nat_enable. steps. Qed.
Hint Resolve hotspot_start_steps : steps.

(** *** Devices *)

Lemma devices_of_fresh addrs ifaces w l w' :
  devices_of (W := W) addrs ifaces w = (Ok l, w') -> Forall (fun d => active_connection d = None /\ dev_state d <> Activated) l.
Proof.
  revert w l w'. induction ifaces as [|i ifaces IH]; intros w l w'; cbn [devices_of]; [by intros [-> _]%mret_Ok|].
  intros (d & w1 & Hd & (ds & w2 & Hds & [-> _]%mret_Ok)%M_bind_Ok)%M_bind_Ok. constructor; [|by eapply IH].
  unfold device_of in Hd. apply M_bind_Ok in Hd as (t & w3 & _ & (drv & w4 & _ & [-> _]%mret_Ok)%M_bind_Ok). cbn.
  split; [done|]. by destruct (is_up i), (has_carrier i).
Qed.
Lemma merge_scan_inv old un l n d' :
  merge_scan old un l !! n = Some d' -> exists d, d ∈ l /\ d' = merge_device old un d /\ dev_name d' = n.
Proof.
  unfold merge_scan. cut (forall acc : registry, fold_left (merge_step old un) l acc !! n = Some d' ->
    acc !! n = Some d' \/ exists d, d ∈ l /\ d' = merge_device old un d /\ dev_name d' = n).
  { intros Hc Hl. by destruct (Hc _ Hl) as [?|?]. }
  induction l as [|x l IH]; intros acc; cbn; [by left|]. intros [Ha|(d & Hd & E & Hn)]%IH.
  - unfold merge_step in Ha. cbv zeta in Ha. unfold registry in Ha. destruct (decide (dev_name (merge_device old un x) = n)) as [<-|Hne].
    + rewrite lookup_insert_eq in Ha. injection Ha as <-. right. exists x. split_and!; [by left|done..].
    + rewrite lookup_insert_ne in Ha by done. by left.
  - right. exists d. split_and!; [by right|done..].
Qed.
(** What is in the registry after a refresh was there before, under the same
    connection, or is new and under none. *)
Lemma refresh_lookup old un w reg w' n d' :
  refresh (W := W) old un w = (Ok reg, w') -> reg !! n = Some d' ->
  dev_name d' = n /\
  ((active_connection d' = None /\ dev_state d' <> Activated)
   \/ exists d, old !! n = Some d /\ active_connection d' = active_connection d /\ dev_state d' = dev_state d).
Proof.
  unfold refresh. intros (l & w1 & Hs & [-> _]%mret_Ok)%M_bind_Ok Hl. apply merge_scan_inv in Hl as (d & Hd & -> & Hn).
  split; [done|]. assert (Hf : active_connection d = None /\ dev_state d <> Activated).
  { unfold scan in Hs. apply M_bind_Ok in Hs as (ifs & w2 & _ & (r & w3 & _ & Hds)%M_bind_Ok).
    apply devices_of_fresh in Hds. by eapply list.Forall_forall in Hds. }
  unfold merge_device in *. destruct (existsb _ un); cbn in *; [left; destruct Hf; by split|].
  destruct (old !! dev_name d) as [e|] eqn:Ee; [|by left]. cbn in *. right. exists e. subst n. by rewrite Ee.
Qed.
Lemma refresh_devices_steps : msteps (refresh_devices (B := B)).
Proof.
  unfold refresh_devices. apply steps_get. intros m. wp_step. wp_step. apply wp_inner. intros r [w Hr].
  destruct r as [reg|e|why]; [|wp_step; reflexivity|reflexivity]. wp_step.
  destruct (refresh _ _ w) as [r w'] eqn:E. cbn in Hr. subst r. split; [|done..]. intros [Kd Ka Kg Kf Kb]. split; cbn; [|done| |done..].
  - intros n d' Hn. destruct (refresh_lookup _ _ _ _ _ _ _ E Hn) as [Hname [[Hno Hst]|(d & Hd & Ha & Hs)]].
    + split; [done|]. unfold device_ok. rewrite Hno. split; [by intros []|done].
    + split; [done|]. destruct (Kd n d Hd) as [_ Hok]. unfold device_ok. by rewrite Ha, Hs.
  - intros n d' a id Hn Hact Hid. destruct (refresh_lookup _ _ _ _ _ _ _ E Hn) as [_ [[Hno _]|(d & Hd & Ha & Hs)]]; [congruence|].
    rewrite Hs. eapply Kg; [done..|]. congruence.
Qed.
Hint Resolve refresh_devices_steps : steps.

Lemma wp_on_device {X} name (c : M (NetworkDevice * W) X) Q (m : Mgr) :
  (mgr_devices m !! name = None -> Q (Ok None) m) ->
  (forall d, mgr_devices m !! name = Some d ->
     wp c (fun r d' => Q (r ≫= (fun a => Ok (Some a))) (set_devices (<[name := d']> (mgr_devices m)) m)) d) ->
  wp (on_device name c) Q m.
Proof.
  intros Hn Hs w. unfold on_device. cbn. destruct (mgr_devices m !! name) as [d|] eqn:E; [|by apply Hn].
  specialize (Hs d eq_refl w). by destruct (c (d, w)) as [r [d' w']].
Qed.

(** *** Activation *)

Lemma activation_attempt_wp p (secrets : B) ctrl base d :
  wp (W := W) (activation_attempt p secrets ctrl base) (fun r d' =>
    identity_of d' = identity_of d /\
    match r with
    | Ok (inl (state, a)) => state = Activated /\ dev_state d' = Activated /\ active_connection d' = Some (profile_id p)
        /\ ac_profile_id a = profile_id p /\ ac_state a = AcActivated /\ (device_type p <> DtVpn -> ac_device_name a = dev_name d)
    | Ok (inr _) => dev_state d' = DsFailed /\ active_connection d' = active_connection d
    | Err _ => False
    | Panic _ => dev_state d' <> Activated /\ active_connection d' = active_connection d
    end) d.
Proof.
  unfold activation_attempt. wp_step. wp_step. intros w. destruct (activate ctrl base p secrets (d, w)) as [r [d' w']] eqn:E.
  apply activate_state in E as [Hi E]. cbn [fst snd]. destruct r as [a|e|why].
  - destruct E as (Hs & Ha & Hpid & Hst & Hdev). wp_step. wp_step. wp_step. by split_and!.
  - wp_step. wp_step. wp_step. split; [done|]. by destruct E.
  - split; [done|]. destruct E as [Ha Hs]. split; [|done]. destruct Hs as [->|[_ ->]]; done.
Qed.
Lemma deactivate_wp ctrl base d :
  wp (W := W) (attempt (deactivate ctrl base)) (fun r d' =>
    identity_of d' = identity_of d /\
    match r with
    | Ok (inl _) => dev_state d' = Disconnected /\ active_connection d' = None /\ ipv4_addresses d' = [] /\ ipv6_addresses d' = []
    | Ok (inr _) | Panic _ => dev_state d' = Deactivating /\ active_connection d' = active_connection d
    | Err _ => False
    end) d.
Proof.
  wp_step. intros w. destruct (deactivate ctrl base (d, w)) as [r [d' w']] eqn:E. apply deactivate_state in E as [Hi E].
  cbn [fst snd]. by destruct r; destruct_and!.
Qed.

(** The device of one name replaced, where the table of active connections
    follows. *)
Lemma step_device (m : Mgr) name d d' act' :
  mgr_devices m !! name = Some d -> identity_of d' = identity_of d -> (mgr_ok m -> device_ok d') ->
  (forall n, n <> name -> act' !! n = mgr_active m !! n) ->
  (mgr_ok m -> forall a, act' !! name = Some a -> ac_state a = AcActivated
     /\ forall id, active_connection d' = Some id -> ac_profile_id a = id /\ dev_state d' = Activated) ->
  mgr_step A m (set_active_map act' (set_devices (<[name := d']> (mgr_devices m)) m)).
Proof.
  intros Hd Hid Hdok Hne Hname. split; [|done..]. intros Hok. destruct (Hok) as [Kd Ka Kg Kf Kb]. specialize (Hdok Hok).
  specialize (Hname Hok). assert (Hn : dev_name d' = dev_name d) by (unfold identity_of in Hid; congruence).
  split; cbn; [| | |done..].
  - apply map_Forall_insert_2; [|done]. split; [|done]. rewrite Hn. by apply Kd.
  - intros n a Ha. destruct (decide (n = name)) as [->|Hx]; [by apply Hname|]. rewrite Hne in Ha by done. by eapply Ka.
  - intros n e a id He Ha Hi. destruct (decide (n = name)) as [->|Hx].
    + rewrite lookup_insert_eq in He. injection He as <-. by apply Hname.
    + rewrite lookup_insert_ne in He by done. rewrite Hne in Ha by done. by eapply Kg.
Qed.
(** The same for a device left without a connection and not active. *)
Lemma step_unconnected (m : Mgr) name d d' :
  mgr_devices m !! name = Some d -> identity_of d' = identity_of d -> (mgr_ok m -> active_connection d' = None) ->
  dev_state d' <> Activated -> mgr_step A m (set_devices (<[name := d']> (mgr_devices m)) m).
Proof.
  intros Hd Hid Hno Hst. apply (step_device m name d d' (mgr_active m) Hd Hid); [|done|].
  - intros Hok. unfold device_ok. rewrite (Hno Hok). split; [by intros []|done].
  - intros Hok a Ha. split; [by eapply (mok_active m Hok)|]. by rewrite (Hno Hok).
Qed.

(** Choosing a device looks at all of them. *)
Lemma wp_all_devices {HL : HashIterLaws W} Q (m : Mgr) :
  (forall l, l ≡ₚ map_to_list (mgr_devices m) -> Q (Ok (map snd l)) m) -> wp all_devices Q m.
Proof.
  intros HQ. unfold all_devices. wp_step. wp_step. wp_step. apply wp_inner. intros r [w Hr]. unfold entries in Hr.
  rewrite observe_run in Hr. cbn in Hr. subst r. wp_step. apply HQ, hash_iter_perm.
Qed.
Lemma find_device_wp {HL : HashIterLaws W} p (m : Mgr) :
  wp (find_device_for_profile p) (fun r m' => m' = m /\
    match r with
    | Ok None => map_Forall (fun _ d => fits p d = false) (mgr_devices m)
    | Ok (Some name) => exists key d, mgr_devices m !! key = Some d /\ fits p d = true /\ name = dev_name d
    | _ => False
    end) m.
Proof.
  unfold find_device_for_profile. wp_step. apply wp_all_devices. intros l Hl. wp_step. split; [done|].
  destruct (List.find (fits p) (map snd l)) as [d|] eqn:E; cbn.
  - apply List.find_some in E as [Hin Hf]. apply in_map_iff in Hin as ([key d'] & <- & Hin). exists key, d'.
    split_and!; [|done..]. apply elem_of_map_to_list. rewrite <- Hl. by apply list_elem_of_In.
  - intros key d Hd. apply elem_of_map_to_list in Hd. rewrite <- Hl in Hd. apply list_elem_of_In in Hd.
    apply (List.find_none _ _ E). apply in_map_iff. by exists (key, d).
Qed.

Lemma activate_profile_steps {HL : HashIterLaws W} id actor : A actor -> msteps (activate_profile (B := B) id actor).
Proof.
  intros HA. unfold activate_profile. apply steps_get. intros m. destruct (find_profile id (mgr_connections m)) as [p|] eqn:Ep;
    [|wp_step; reflexivity].
  wp_step. eapply wp_mono; [apply find_device_wp|]. intros r m1 [-> Hf]. destruct r as [[name|]|e|why]; [|wp_step; reflexivity|done..].
  destruct Hf as (key & d0 & Hd0 & Hfit & ->). wp_step. apply wp_inner. intros r1 _. destruct r1 as [ctrl|e|why]; [|reflexivity..].
  wp_step. apply wp_inner. intros r2 _. destruct r2 as [base|e|why]; [|reflexivity..].
  wp_step. apply wp_on_device; [intros _; wp_step; reflexivity|]. intros d Hd.
  assert (Hno : mgr_ok m -> active_connection d = None).
  { intros [Kd _ _ _ _]. destruct (Kd key d0 Hd0) as [E _]. unfold fits in Hfit.
    apply andb_true_iff in Hfit as [[_ Hno%bool_decide_eq_true]%andb_true_iff _]. congruence. }
  eapply wp_mono; [apply activation_attempt_wp|]. intros r d' [Hid Hr].
  destruct r as [[[state a]|e]|e|why]; cbn; [| |done|].
  - destruct Hr as (-> & Hst & Hac & Hpid & Has & _). wp_step. wp_step. eapply steps_wp.
    2:{ intros r s' Hs'. etransitivity; [|exact Hs']. eapply step_device; [exact Hd|exact Hid| | |].
        - intros _. split; [by left|]. by rewrite Hac.
        - intros n Hn. by apply lookup_insert_ne.
        - intros _ a'. cbn. rewrite lookup_insert_eq. intros [= <-]. split; [done|]. intros id'. rewrite Hac, Hst. by intros [= <-]. }
    steps.
  - destruct Hr as [Hst Hac]. wp_step. eapply step_unconnected; [exact Hd|exact Hid| |by rewrite Hst].
    intros Hok. by rewrite Hac, (Hno Hok).
  - destruct Hr as [Hst Hac]. eapply step_unconnected; [exact Hd|exact Hid| |done]. intros Hok. by rewrite Hac, (Hno Hok).
Qed.
Hint Resolve activate_profile_steps : steps.

Lemma wp_entries {V} (mp : gmap string V) Q (m : Mgr) :
  (forall l, (forall w, (hash_iter mp w).1 = l -> Q (Ok l) m)) -> wp (inner (entries mp)) Q m.
Proof.
  intros HQ. apply wp_inner. intros r [w Hr]. unfold entries in Hr. rewrite observe_run in Hr. cbn in Hr. subst r. by eapply HQ.
Qed.
Lemma step_inactive (m : Mgr) name : mgr_step A m (set_active_map (delete name (mgr_active m)) m).
Proof.
  split; [|done..]. intros [Kd Ka Kg Kf Kb]. split; cbn; [done| | |done..].
  - by apply map_Forall_delete.
  - intros n d a id Hd [_ Ha]%lookup_delete_Some. by eapply Kg.
Qed.
Lemma deactivate_profile_steps id actor : A actor -> msteps (deactivate_profile (B := B) id actor).
Proof.
  intros HA. unfold deactivate_profile. apply steps_get. intros m. wp_step. apply wp_entries. intros l _ _.
  destruct (List.find _ l) as [[name a]|]; [|wp_step; reflexivity].
  destruct (mgr_active m !! name) as [a'|]; [|wp_step; reflexivity].
  wp_step. wp_step. set (m1 := set_active_map _ m). assert (H1' : mgr_step A m m1) by apply step_inactive.
  wp_step. apply wp_inner. intros r1 _. destruct r1 as [ctrl|e|why]; [|exact H1'..].
  wp_step. apply wp_inner. intros r2 _. destruct r2 as [base|e|why]; [|exact H1'..].
  wp_step. apply wp_on_device; [intros _; by wp_step|]. intros d Hd. eapply wp_mono; [apply deactivate_wp|].
  intros r d' [Hid Hr]. assert (H2' : match r with Err _ => True | _ => mgr_step A m (set_devices (<[name := d']> (mgr_devices m1)) m1) end).
  { assert (Hstep : device_ok d' -> mgr_step A m (set_devices (<[name := d']> (mgr_devices m1)) m1)).
    { intros Hdok. apply (step_device m name d d' (delete name (mgr_active m)) Hd Hid); [done| |].
      - intros n Hn. by apply lookup_delete_ne.
      - intros _ a0. by rewrite lookup_delete_eq. }
    destruct r as [[[]|e]|e|why]; [destruct Hr as (Hst & Hac & _)|destruct Hr as [Hst Hac]|done|destruct Hr as [Hst Hac]]; apply Hstep; unfold device_ok; rewrite Hst, ?Hac;
      (split; [|done]); [by intros []|by right..]. }
  destruct r as [[[]|e]|e|why]; cbn; [| by wp_step|done|done].
  eapply steps_wp; [|intros r s' Hs'; etransitivity; [exact H2'|exact Hs']]. steps.
Qed.
Hint Resolve deactivate_profile_steps : steps.

(** *** Requests *)

Lemma store_profile_steps p : msteps (store_profile (B := B) p).
Proof.
  apply steps_modify. intros m. apply step_plain; try done; cbn; [by intros Hok; apply (mok_bus m Hok)|].
  intros Hnd. rewrite map_app. apply list.NoDup_app. split_and!; [by apply NoDup_retain| |by apply NoDup_singleton].
  intros i Hi ->%list_elem_of_singleton. by apply not_in_without in Hi.
Qed.
Lemma drop_profile_steps id : msteps (drop_profile (B := B) id).
Proof.
  apply steps_modify. intros m. apply step_plain; try done; cbn; [by intros Hok; apply (mok_bus m Hok)|]. apply NoDup_retain.
Qed.
Lemma set_config_steps cfg : msteps (state_modify (set_config cfg)).
Proof. apply steps_modify. intros m. apply step_plain; try done; cbn. by intros Hok; apply (mok_bus m Hok). Qed.
Lemma set_connectivity_steps c : msteps (state_modify (set_connectivity c)).
Proof. apply steps_modify. intros m. apply step_plain; try done; cbn. by intros Hok; apply (mok_bus m Hok). Qed.
Hint Resolve store_profile_steps drop_profile_steps set_config_steps set_connectivity_steps : steps.
Lemma answer_steps {X} (c : M (Mgr * W) X) ok : msteps c -> (forall a, msteps (ok a)) -> msteps (answer c ok).
Proof. intros Hc Hok. unfold answer. steps. Qed.
Lemma audited_steps c actor action detail : A actor -> msteps c -> msteps (audited (B := B) c actor action detail).
Proof. intros HA Hc. unfold audited. apply answer_steps; [done|intros _; steps]. Qed.

Ltac request_step := first [steps_step | apply audited_steps; [assumption|] | apply answer_steps; [|intros]].
Lemma delete_connection_steps id actor : A actor -> msteps (delete_connection (B := B) id actor).
Proof. intros HA. unfold delete_connection. repeat request_step. Qed.
Lemma connect_wifi_steps {HL : HashIterLaws W} device ssid security pass actor :
  A actor -> msteps (connect_wifi (B := B) device ssid security pass actor).
Proof. intros HA. unfold connect_wifi. repeat request_step. Qed.
Lemma forget_wifi_steps device ssid actor : A actor -> msteps (forget_wifi (B := B) device ssid actor).
Proof. intros HA. unfold forget_wifi. repeat request_step. Qed.
Hint Resolve delete_connection_steps connect_wifi_steps forget_wifi_steps : steps.
Lemma handle_request_steps {HL : HashIterLaws W} req identity :
  A (actor_of identity) -> msteps (handle_request (B := B) req identity).
Proof. intros HA. unfold_request. repeat request_step. Qed.
Hint Resolve handle_request_steps : steps.

(** *** Events and timers *)

Lemma try_autoconnect_steps {HL : HashIterLaws W} name :
  A "system:autoconnect"%string -> msteps (try_autoconnect (B := B) name).
Proof. intros HA. unfold try_autoconnect, choose_profile. steps. Qed.
Hint Resolve try_autoconnect_steps : steps.
Lemma try_autoconnect_all_steps {HL : HashIterLaws W} :
  A "system:autoconnect"%string -> msteps (try_autoconnect_all (B := B)).
Proof. intros HA. unfold try_autoconnect_all, device_names. steps. Qed.
Hint Resolve try_autoconnect_all_steps : steps.
Lemma link_removed_steps name :
  msteps (state_modify (fun m : Mgr => set_devices (registry_remove (mgr_devices m) name) m)).
Proof.
  apply steps_modify. intros m. unfold registry_remove, registry. split; [|done..]. intros [Kd Ka Kg Kf Kb]. split; cbn; [|done| |done..].
  - by apply map_Forall_delete.
  - intros n d a id [_ Hd]%lookup_delete_Some. by eapply Kg.
Qed.
Lemma inactive_steps name : msteps (state_modify (fun m : Mgr => set_active_map (delete name (mgr_active m)) m)).
Proof. apply steps_modify. intros m. apply step_inactive. Qed.
Hint Resolve link_removed_steps inactive_steps : steps.
Lemma handle_hotplug_steps {HL : HashIterLaws W} ev :
  A "system:autoconnect"%string -> msteps (handle_hotplug (B := B) ev).
Proof. intros HA. unfold handle_hotplug. steps; apply on_firewall_steps; steps. Qed.
Lemma handle_tick_steps {HL : HashIterLaws W} kind :
  A "system:autoconnect"%string -> msteps (handle_tick (B := B) kind).
Proof. intros HA. unfold handle_tick, check_connectivity. steps. Qed.
Hint Resolve handle_hotplug_steps handle_tick_steps : steps.
Lemma bus_register_step b id b' : bus_register b = Ok (id, b') ->
  id = next_id b /\ next_id b' = id + 1 /\ clients b' = <[id := []]> (clients b) /\ bus_step b b'.
Proof.
  unfold bus_register. destruct (u64_add (next_id b) 1) as [n|e|s] eqn:E; cbn; [|done..]. intros [= <- <-]. cbn.
  unfold u64_add in E. destruct (_ <? _) eqn:?; simplify_eq. split_and!; [done..|]. split; [cbn; lia|]. cbn. intros i sent Hl Hi.
  rewrite lookup_insert_ne in Hl by lia. by exists sent.
Qed.
Lemma handle_command_steps {HL : HashIterLaws W} cmd :
  A "system:autoconnect"%string -> (forall req identity, cmd = CmdRequest req identity -> A (actor_of identity)) ->
  msteps (handle_command (B := B) cmd).
Proof.
  intros HA HR. destruct cmd as [req identity| |id|ev|kind|]; cbn [handle_command];
    [steps; by eapply handle_request_steps, HR| |steps|steps..].
  - apply steps_get. intros m. wp_step. wp_step. destruct (bus_register (mgr_events m)) as [[id b]|e|s] eqn:E; [|reflexivity..].
    apply bus_register_step in E as (-> & Hn & Hc & Hb). wp_step. wp_step. wp_step. apply step_plain; try done; cbn.
    intros Hok i. rewrite Hc, Hn. destruct (decide (i = next_id (mgr_events m))) as [->|Hx]; [lia|].
    rewrite lookup_insert_ne by done. intros Hi%(mok_bus m Hok). lia.
  - apply steps_modify. intros m. apply step_plain; try done; cbn.
    + intros Hok i [s [_ Hl]%lookup_delete_Some]. apply (mok_bus m Hok). by exists s.
    + split; [done|]. cbn. intros i s [_ Hl]%lookup_delete_Some _. by exists s.
Qed.
End Steps.

(** ** Runs *)

(** Who may appear in the audit trail of a run. *)
Definition actors (cmds : list Command) (actor : string) : Prop :=
  actor = "system:autoconnect"%string \/ exists req identity, CmdRequest req identity ∈ cmds /\ actor = actor_of identity.

Section Runs.
Context {W : Type} `{Host W} `{Formats} {B : Type} `{SecretsBackend B W} {HL : HashIterLaws W} (A : string -> Prop).
Lemma serve_steps cmds :
  (forall actor, actors cmds actor -> A actor) -> steps (W := W) (mgr_step (B := B) A) (serve cmds).
Proof using HL.
  induction cmds as [|cmd cmds IH]; intros HA; cbn [serve]; [steps|].
  assert (Hrest : forall actor, actors cmds actor -> A actor).
  { intros actor [->|(req & identity & Hin & ->)]; apply HA; [by left|right]. exists req, identity. split; [by right|done]. }
  specialize (IH Hrest).
  assert (Hcmd : steps (W := W) (mgr_step (B := B) A) (handle_command cmd)).
  { apply (handle_command_steps A); [apply HA; by left|]. intros req identity ->. apply HA. right. exists req, identity. split; [by left|done]. }
  destruct cmd; steps.
Qed.
Lemma run_steps cmds :
  (forall actor, actors cmds actor -> A actor) -> steps (W := W) (mgr_step (B := B) A) (run cmds).
Proof using HL.
  intros HA. unfold run. steps; [apply (try_autoconnect_all_steps A), HA; by left|by apply serve_steps].
Qed.
End Runs.

Lemma manager_new_ok {W} `{Host W} `{Formats} config (w : W) m w1 : manager_new config w = (Ok m, w1) -> mgr_ok m.
Proof.
  unfold manager_new. do 4 (intros (? & ? & _ & Hk)%M_bind_Ok; revert Hk).
  intros (devices & w2 & Hd & (all & w3 & _ & (fw & w4 & Hf & Hk)%M_bind_Ok)%M_bind_Ok)%M_bind_Ok.
  do 4 (apply M_bind_Ok in Hk as (? & ? & _ & Hk)). apply mret_Ok in Hk as [-> _]. split; cbn; [|done..| |].
  - intros n d Hn. destruct (refresh_lookup _ _ _ _ _ _ _ Hd Hn) as [Hname [[Hno Hst]|(d0 & Hd0 & _)]]; [|done].
    split; [done|]. unfold device_ok. rewrite Hno. split; [by intros []|done].
  - assert (Hs : steps (W := W) (fun f f' => fw_ok f -> fw_ok f')
      (for_each (map snd all) (fun dev => ignore (ensure_default_zone (dev_name dev))))).
    { pose proof fw_ok_preorder. steps. apply ensure_default_zone_steps. }
    specialize (Hs firewall_new w3 firewall_new_ok). destruct (for_each _ _ (firewall_new, w3)) as [r [f w']]. cbn in Hs.
    injection Hf as Hr _. destruct r as [[]|e|s]; simplify_eq/=. done.
  - by intros id [].
Qed.

(** ** Requests that only look *)

Section Views.
Context {W : Type} `{Host W} `{Formats} {B : Type} `{SecretsBackend B W}.
Abbreviation same := (steps (W := W) (@eq (NetworkManager B))).
Lemma answer_same {X} (c : M (NetworkManager B * W) X) ok : same c -> (forall a, same (ok a)) -> same (answer c ok).
Proof. intros Hc Hok. unfold answer. steps. Qed.
Lemma all_devices_same : same all_devices.
Proof. unfold all_devices. steps. Qed.
Hint Resolve all_devices_same : steps.
Lemma view_request_same req identity : required_capability req = ViewState -> same (handle_request req identity).
Proof.
  intros Hv. unfold_request. apply steps_bind; [apply _|steps|]. intros m.
  destruct req; try discriminate Hv; repeat first [steps_step | apply answer_same; [|intros]].
Qed.
End Views.

(** ** The audit trail of a request *)

Definition line_by (actor line : string) : Prop := exists ts action detail, line = audit_line ts actor action detail.
(** A line was written, unless the file could not be opened. *)
Definition noted (l l' : AuditLog) : Prop :=
  (audit_file l = None /\ audit_file l' = None) \/ (length (audit_writes l) < length (audit_writes l'))%nat.
Definition ok_noted {B} (m : NetworkManager B) (r : outcome Response) (m' : NetworkManager B) : Prop :=
  r = Ok ResOk -> noted (mgr_audit m) (mgr_audit m').

Section Noted.
Context {W : Type} `{Host W} `{Formats} {B : Type} `{SecretsBackend B W}.
Abbreviation Mgr := (NetworkManager B).
Abbreviation grows := (audit_step (fun _ => True)).
Lemma recorded_noted log actor action detail log' : recorded log actor action detail log' -> noted log log'.
Proof.
  intros [_ [(ts & ok & E)|[E ->]]]; [right|by left]. unfold audit_writes at 2. rewrite E. cbn. rewrite length_app. cbn. lia.
Qed.
Lemma noted_after l l1 l2 : noted l l1 -> grows l1 l2 -> noted l l2.
Proof.
  intros Hn (_ & Ho & Hnew & new & E & _). destruct Hn as [[Hl Hl1]|Hn].
  - destruct (Hnew Hl1) as [H2|H2]; [by left|right]. unfold audit_writes at 1. rewrite Hl. cbn. destruct (audit_writes l2); [done|cbn; lia].
  - right. rewrite E, length_app. lia.
Qed.
Lemma noted_before l l1 l2 : grows l l1 -> noted l1 l2 -> noted l l2.
Proof.
  intros (_ & Ho & _ & new & E & _) [[Hl1 Hl2]|Hn].
  - left. split; [|done]. destruct (audit_file l); [|done]. rewrite Hl1 in Ho. by destruct (Ho ltac:(done)).
  - right. rewrite E, length_app in Hn. lia.
Qed.
Lemma audit_wp actor action detail Q (m : Mgr) :
  (forall log, recorded (mgr_audit m) actor action detail log -> Q (Ok tt) (set_audit log m)) ->
  wp (W := W) (audit actor action detail) Q m.
Proof.
  intros HQ. unfold audit. wp_step. wp_step. wp_step. apply wp_inner. intros r [w Hr].
  destruct (audit_record_ok (mgr_audit m) actor action detail w) as (log & w' & E & Hrec). rewrite E in Hr. cbn in Hr. subst r.
  wp_step. by apply HQ.
Qed.
(** Nothing but a record touches the trail. *)
Definition trail_step (m m' : Mgr) : Prop := grows (mgr_audit m) (mgr_audit m').
#[local] Instance trail_step_preorder : PreOrder trail_step.
Proof. unfold trail_step. split; [intros m; reflexivity|]. intros m1 m2 m3 H12 H23. by trans (mgr_audit m2). Qed.
Abbreviation tsteps := (steps (W := W) trail_step).
Lemma trail_steps {X} (c : M (Mgr * W) X) : steps (mgr_step (fun _ => True)) c -> tsteps c.
Proof. intros Hc m. eapply wp_mono; [apply Hc|]. by intros r m' [_ _ _ _ Ha]. Qed.
Lemma on_device_trail {X} name (c : M (NetworkDevice * W) X) : tsteps (on_device name c).
Proof. intros m. apply wp_on_device; [intros _; reflexivity|]. intros d _ w. cbn. unfold trail_step. reflexivity. Qed.
Lemma find_device_trail p : tsteps (find_device_for_profile p).
Proof. unfold find_device_for_profile, all_devices. steps. Qed.
Hint Resolve on_device_trail find_device_trail : steps.

Abbreviation noting m c := (wp (W := W) c (ok_noted (B := B) m)).
(** Up to the record, and past it. *)
Lemma noting_bind {X} (c : M (Mgr * W) X) k (m0 m : Mgr) :
  tsteps c -> trail_step m0 m -> (forall a m', trail_step m0 m' -> noting m0 (k a) m') -> noting m0 (c ≫= k) m.
Proof.
  intros Hc H0' Hk. wp_step. eapply steps_wp; [exact Hc|]. intros r m' Hm. destruct r; [|by intros ?..]. apply Hk. by trans m.
Qed.
Lemma noting_audit actor action detail (k : M (Mgr * W) Response) (m0 m : Mgr) :
  tsteps k -> trail_step m0 m -> noting m0 (audit actor action detail ;; k) m.
Proof.
  intros Hk H0'. wp_step. apply audit_wp. intros log Hrec. cbn. eapply steps_wp; [exact Hk|]. intros r m' Hm _.
  eapply noted_before; [exact H0'|]. eapply noted_after; [by eapply recorded_noted|exact Hm].
Qed.
Lemma noting_ret (r : Response) (m0 m : Mgr) : r <> ResOk -> noting m0 (mret r) m.
Proof. intros Hr. wp_step. by intros [= ->]. Qed.
Lemma noting_answer {X} (c : M (Mgr * W) X) ok (m0 m : Mgr) :
  tsteps c -> trail_step m0 m -> (forall a m', trail_step m0 m' -> noting m0 (ok a) m') -> noting m0 (answer c ok) m.
Proof.
  intros Hc H0' Hok. unfold answer. apply noting_bind; [by apply steps_attempt|done|]. intros [a|e] m' Hm; [by apply Hok|by apply noting_ret].
Qed.
(** The ends of the handlers. *)
Lemma broadcast_trail ev : tsteps (broadcast ev).
Proof. apply trail_steps, broadcast_steps. Qed.
Lemma broadcast_state_trail : tsteps broadcast_state.
Proof. apply trail_steps, broadcast_state_steps. Qed.
Lemma modify_trail f : (forall m : Mgr, mgr_audit (f m) = mgr_audit m) -> tsteps (state_modify f).
Proof. intros Hf. apply steps_modify. intros m. unfold trail_step. by rewrite Hf. Qed.
Lemma on_firewall_trail {X} (c : M (FirewallState * W) X) : tsteps (on_firewall c).
Proof. intros m w. unfold on_firewall, trail_step. cbn. destruct (c _) as [r [f w']]. reflexivity. Qed.
Lemma deactivate_profile_trail id actor : tsteps (deactivate_profile id actor).
Proof. by apply trail_steps, deactivate_profile_steps. Qed.
Hint Resolve broadcast_trail broadcast_state_trail modify_trail on_firewall_trail deactivate_profile_trail : steps.
Lemma audit_trail actor action detail : tsteps (audit actor action detail).
Proof. by apply trail_steps, audit_steps. Qed.
Hint Resolve audit_trail : steps.
Lemma activate_profile_trail id actor : tsteps (activate_profile id actor).
Proof. unfold activate_profile. steps. Qed.
Hint Resolve activate_profile_trail : steps.
Ltac noting_step :=
  match goal with
  | |- _ => assumption
  | |- wp (mret _) _ _ => apply noting_ret; discriminate
  | |- wp (audit _ _ _ ;; _) _ _ => apply noting_audit; [steps|]
  | |- wp (answer _ _) _ _ => apply noting_answer; [steps| |intros]
  | |- wp (_ ≫= _) _ _ => apply noting_bind; [steps| |intros]
  | |- wp (match ?x with _ => _ end) _ _ => destruct x
  end.
Ltac noting := repeat noting_step.

Lemma activate_profile_noted id actor (m0 m : Mgr) : trail_step m0 m -> noting m0 (activate_profile id actor) m.
Proof. intros Hm. unfold activate_profile. noting. Qed.
Lemma deactivate_profile_noted id actor (m0 m : Mgr) : trail_step m0 m -> noting m0 (deactivate_profile id actor) m.
Proof. intros Hm. unfold deactivate_profile. noting. Qed.
Lemma request_noted req identity (m : Mgr) :
  required_capability req <> ViewState -> (forall on, req <> BluetoothScan on) -> noting m (handle_request req identity) m.
Proof.
  intros Hv Hb. unfold_request; unfold audited. apply noting_bind; [steps|reflexivity|]. intros m1 m' Hm.
  destruct req; try done; try (by destruct (Hb on)); unfold delete_connection, connect_wifi, forget_wifi, store_profile, drop_profile; noting;
    try (by apply activate_profile_noted); try (by apply deactivate_profile_noted).
Qed.
End Noted.

(** ** What a request to activate or deactivate does *)

(** Every client still there was sent the events. *)
Definition delivered (evs : list Event) (b b' : EventBus) : Prop :=
  next_id b' = next_id b /\
  forall id sent', clients b' !! id = Some sent' -> exists sent, clients b !! id = Some sent /\ sent' = sent ++ evs.
Lemma delivered_nil b : delivered [] b b.
Proof. split; [done|]. intros id sent Hs. exists sent. by rewrite app_nil_r. Qed.
Lemma delivered_then evs evs' b b1 b2 : delivered evs b b1 -> delivered evs' b1 b2 -> delivered (evs ++ evs') b b2.
Proof.
  intros [N1 D1] [N2 D2]. split; [congruence|]. intros id s2 H2. destruct (D2 id s2 H2) as (s1 & H1 & ->).
  destruct (D1 id s1 H1) as (s0 & H0 & ->). exists s0. by rewrite app_assoc.
Qed.
Lemma bus_broadcast_delivered gone ev b : delivered [ev] b (bus_broadcast gone ev b).
Proof.
  split; [done|]. intros id sent' Hl. cbn in Hl. rewrite lookup_fmap in Hl.
  destruct (filter _ (clients b) !! id) as [sent|] eqn:E; [|done]. apply map_lookup_filter_Some in E as [E _]. injection Hl as <-. eauto.
Qed.

Section Outcomes.
Context {W : Type} `{Host W} `{Formats} {B : Type} `{SecretsBackend B W} {HL : HashIterLaws W}.
Abbreviation Mgr := (NetworkManager B).

Lemma broadcast_wp ev Q (m : Mgr) :
  (forall b, delivered [ev] (mgr_events m) b -> Q (Ok tt) (set_events b m)) -> wp (W := W) (broadcast ev) Q m.
Proof.
  intros HQ. unfold broadcast. wp_step. apply wp_inner. intros r [w Hr]. rewrite observe_run in Hr. cbn in Hr. subst r. wp_step.
  apply HQ, bus_broadcast_delivered.
Qed.
Lemma broadcast_state_wp Q (m : Mgr) :
  (forall st b, delivered [EvStateChanged st] (mgr_events m) b -> Q (Ok tt) (set_events b m)) -> wp (W := W) broadcast_state Q m.
Proof using HL.
  intros HQ. unfold broadcast_state. wp_step. apply wp_all_devices. intros l _. wp_step. wp_step. apply broadcast_wp. intros b. apply HQ.
Qed.

Definition activated_post (id actor : string) (m m' : Mgr) : Prop := exists p name d d' a,
  find_profile id (mgr_connections m) = Some p /\ mgr_devices m !! name = Some d /\ fits p d = true /\
  identity_of d' = identity_of d /\ dev_state d' = Activated /\ active_connection d' = Some id /\
  ac_profile_id a = id /\ ac_state a = AcActivated /\
  mgr_devices m' = <[name := d']> (mgr_devices m) /\ mgr_active m' = <[name := a]> (mgr_active m) /\
  recorded (mgr_audit m) actor "connection.activate" (id +:+ " on " +:+ name) (mgr_audit m') /\
  exists st, delivered [EvDeviceStateChanged name Activated; EvConnectionActivated id; EvStateChanged st]
               (mgr_events m) (mgr_events m').
Definition activate_failed_post (m m' : Mgr) : Prop :=
  mgr_active m' = mgr_active m /\ mgr_audit m' = mgr_audit m /\ mgr_events m' = mgr_events m /\
  (mgr_devices m' = mgr_devices m \/ exists name d d', mgr_devices m !! name = Some d /\ identity_of d' = identity_of d /\
     dev_state d' = DsFailed /\ active_connection d' = None /\ mgr_devices m' = <[name := d']> (mgr_devices m)).
Definition activate_post (id actor : string) (m : Mgr) (r : outcome Response) (m' : Mgr) : Prop :=
  match r with
  | Ok ResOk => activated_post id actor m m'
  | Ok (ResError _) => activate_failed_post m m'
  | Panic _ => True
  | _ => False
  end.
Lemma find_profile_id id l p : find_profile id l = Some p -> profile_id p = id.
Proof. intros [_ E]%List.find_some. by apply String.eqb_eq in E. Qed.
Lemma refused e id actor (m : Mgr) : activate_post id actor m (Ok (ResError e)) m.
Proof. cbn. split_and!; [done..|by left]. Qed.
Lemma touch_safe dir id : safe (W := W) (ignore (touch dir id)).
Proof.
  unfold touch, rewrite_file. frame. intros why. unfold profile_path, validate_identifier. cbn. by repeat case_match.
Qed.
Lemma activate_profile_wp id actor (m : Mgr) : mgr_ok m -> wp (W := W) (activate_profile id actor) (activate_post id actor m) m.
Proof using HL.
  intros Hok. unfold activate_profile. wp_step. wp_step. destruct (find_profile id (mgr_connections m)) as [p|] eqn:Ep; [|wp_step; apply refused].
  wp_step. eapply wp_mono; [apply find_device_wp|]. intros r m1 [-> Hf]. destruct r as [[name|]|e|why]; [|wp_step; apply refused|done..].
  destruct Hf as (key & d0 & Hd0 & Hfit & ->). destruct (mok_devices m Hok key d0 Hd0) as [Hkey _]. cbn in Hkey. subst key.
  wp_step. apply wp_inner. intros r1 [w1 Hr1]. destruct r1 as [ctrl|e|why]; [|by cbn in Hr1|done].
  wp_step. apply wp_inner. intros r2 [w2 Hr2]. destruct r2 as [base|e|why]; [|by cbn in Hr2|done].
  wp_step. apply wp_on_device; [intros _; wp_step; apply refused|]. intros d Hd. rewrite Hd0 in Hd. injection Hd as <-.
  assert (Hno : active_connection d0 = None).
  { unfold fits in Hfit. by apply andb_true_iff in Hfit as [[_ Hno%bool_decide_eq_true]%andb_true_iff _]. }
  eapply wp_mono; [apply activation_attempt_wp|]. intros r d' [Hid Hr]. destruct r as [[[state a]|e]|e|why]; cbn; [| |done|done].
  - destruct Hr as (-> & Hst & Hac & Hpid & Has & _). rewrite (find_profile_id _ _ _ Ep) in Hac, Hpid.
    wp_step. wp_step. wp_step. apply wp_inner. intros r3 [w3 Hr3].
    pose proof (touch_safe (mgr_profiles_dir m) id w3) as Hs. rewrite Hr3 in Hs.
    assert (r3 = Ok tt) as -> by (unfold ignore in Hr3; destruct (touch _ _ w3) as [[[]|e|why] w4]; cbn in Hr3; subst; [done..|by destruct (Hs why)]).
    wp_step. apply audit_wp. intros log Hrec. wp_step. apply broadcast_wp. intros b1 D1. wp_step. apply broadcast_wp. intros b2 D2.
    wp_step. apply broadcast_state_wp. intros st b3 D3. wp_step. cbn in *. exists p, (dev_name d0), d0, d', a.
    split_and!; try done. exists st. pose proof (delivered_then _ _ _ _ _ D1 D2) as D12. exact (delivered_then _ _ _ _ _ D12 D3).
  - destruct Hr as [Hst Hac]. wp_step. cbn. split_and!; [done..|]. right. exists (dev_name d0), d0, d'. split_and!; try done. congruence.
Qed.

Definition deactivated_post (id actor : string) (m m' : Mgr) : Prop := exists name a d d',
  mgr_active m !! name = Some a /\ ac_profile_id a = id /\ mgr_devices m !! name = Some d /\
  identity_of d' = identity_of d /\ dev_state d' = Disconnected /\ active_connection d' = None /\
  mgr_devices m' = <[name := d']> (mgr_devices m) /\ mgr_active m' = delete name (mgr_active m) /\
  recorded (mgr_audit m) actor "connection.deactivate" (id +:+ " on " +:+ name) (mgr_audit m') /\
  exists st, delivered [EvConnectionDeactivated id; EvStateChanged st] (mgr_events m) (mgr_events m').
(** Either nothing was active under the id, or the table forgets the
    connection, although a device that is still there keeps it. *)
Definition deactivate_failed_post (id : string) (m m' : Mgr) : Prop :=
  mgr_audit m' = mgr_audit m /\ mgr_events m' = mgr_events m /\
  ((m' = m /\ map_Forall (fun _ a => ac_profile_id a <> id) (mgr_active m))
   \/ exists name a, mgr_active m !! name = Some a /\ ac_profile_id a = id /\ mgr_active m' = delete name (mgr_active m) /\
        ((mgr_devices m !! name = None /\ mgr_devices m' = mgr_devices m)
         \/ exists d d', mgr_devices m !! name = Some d /\ identity_of d' = identity_of d /\ dev_state d' = Deactivating /\
              active_connection d' = active_connection d /\ mgr_devices m' = <[name := d']> (mgr_devices m))).
Definition deactivate_post (id actor : string) (m : Mgr) (r : outcome Response) (m' : Mgr) : Prop :=
  match r with
  | Ok ResOk => deactivated_post id actor m m'
  | Ok (ResError _) => deactivate_failed_post id m m'
  | Panic _ => True
  | _ => False
  end.
Lemma find_active_wp id Q (m : Mgr) :
  (map_Forall (fun _ a => ac_profile_id a <> id) (mgr_active m) -> Q None) ->
  (forall name a, mgr_active m !! name = Some a -> ac_profile_id a = id -> Q (Some (name, a))) ->
  wp (W := W) (inner (entries (mgr_active m))) (fun r m' => m' = m /\ match r with
    | Ok l => Q (List.find (fun e => String.eqb (ac_profile_id e.2) id) l)
    | _ => False end) m.
Proof using HL.
  intros Hnone Hsome. apply wp_entries. intros l w Hl. split; [done|]. pose proof (hash_iter_perm (mgr_active m) w) as Hp. rewrite Hl in Hp.
  destruct (List.find _ l) as [[name a]|] eqn:E.
  - apply List.find_some in E as [Hin Hid%String.eqb_eq]. apply Hsome; [|done]. apply elem_of_map_to_list. rewrite <- Hp. by apply list_elem_of_In.
  - apply Hnone. intros name a Ha Hid. apply elem_of_map_to_list in Ha. rewrite <- Hp in Ha. apply list_elem_of_In in Ha.
    apply (List.find_none _ _ E) in Ha. cbn in Ha. by rewrite Hid, String.eqb_refl in Ha.
Qed.
Lemma deactivate_profile_wp id actor (m : Mgr) : wp (W := W) (deactivate_profile id actor) (deactivate_post id actor m) m.
Proof using HL.
  unfold deactivate_profile. wp_step. wp_step. wp_step.
  eapply wp_mono; [apply (find_active_wp id (fun o => match o with
    | None => map_Forall (fun _ a => ac_profile_id a <> id) (mgr_active m)
    | Some (name, a) => mgr_active m !! name = Some a /\ ac_profile_id a = id end)); [done|by intros]|].
  intros r m1 [-> Hr]. destruct r as [l|e|why]; [|done..]. destruct (List.find _ l) as [[name a]|].
  2:{ wp_step. cbn. split_and!; [done..|by left]. }
  destruct Hr as [Ha Hid]. rewrite Ha. wp_step. wp_step. wp_step. apply wp_inner. intros r1 [w1 Hr1].
  destruct r1 as [ctrl|e|why]; [|by cbn in Hr1|done]. wp_step. apply wp_inner. intros r2 [w2 Hr2].
  destruct r2 as [base|e|why]; [|by cbn in Hr2|done]. wp_step. apply wp_on_device; cbn.
  { intros Hd. wp_step. cbn. split_and!; [done..|]. right. exists name, a. split_and!; try done. by left. }
  intros d Hd. eapply wp_mono; [apply deactivate_wp|]. intros r d' [Hi Hr]. destruct r as [[[]|e]|e|why]; cbn; [| |done|done].
  - destruct Hr as (Hst & Hac & _). wp_step. apply audit_wp. intros log Hrec. wp_step. apply broadcast_wp. intros b1 D1.
    wp_step. apply broadcast_state_wp. intros st b2 D2. wp_step. cbn in *. exists name, a, d, d'. split_and!; try done.
    exists st. exact (delivered_then _ _ _ _ _ D1 D2).
  - destruct Hr as [Hst Hac]. wp_step. cbn. split_and!; [done..|]. right. exists name, a. split_and!; try done. right. by exists d, d'.
Qed.
End Outcomes.

(** ** The types of the answers *)

Definition failed (r : Response) : Prop := exists e, r = ResError e.
(** What a client gets back for a request. *)
Definition answers {W} `{Host W} {B} (req : Request) (m : NetworkManager B) (w : W) (r : Response) : Prop :=
  match req with
  | GetState => exists l, l ≡ₚ (map_to_list (mgr_devices m)).*2 /\ r = ResState (overall_state l (mgr_connectivity m))
  | ListDevices => exists l, l ≡ₚ (map_to_list (mgr_devices m)).*2 /\ r = ResDevices l
  | GetDevice name => match mgr_devices m !! name with Some d => r = ResDevice d | None => failed r end
  | ListConnections => r = ResConnections (mgr_connections m)
  | GetConnection id => (exists p, In p (mgr_connections m) /\ profile_id p = id /\ r = ResConnection p)
      \/ (Forall (fun p => profile_id p <> id) (mgr_connections m) /\ failed r)
  | GetConnectivity => r = ResConnectivity (mgr_connectivity m)
  | GetProxyConfig => r = ResProxyConfig (active_config (st_get w))
  | ResolveProxy _ => exists s, r = ResProxyResolution s
  | ScanWifi _ | ListWifiNetworks _ => (exists l, r = ResWifiNetworks l) \/ failed r
  | ListBluetoothDevices => (exists l, r = ResBluetoothDevices l) \/ failed r
  | Diagnose => (exists report, r = ResDiagnostics report) \/ failed r
  | _ => r = ResOk \/ failed r
  end.
(** The kind of an answer. *)
Definition answer_kind (req : Request) (r : Response) : Prop :=
  match req, r with
  | GetState, ResState _ | ListDevices, ResDevices _ | (GetDevice _), (ResDevice _ | ResError _) | ListConnections, ResConnections _
  | GetConnection _, (ResConnection _ | ResError _) | (ScanWifi _ | ListWifiNetworks _), (ResWifiNetworks _ | ResError _)
  | ListBluetoothDevices, (ResBluetoothDevices _ | ResError _) | GetProxyConfig, ResProxyConfig _ | ResolveProxy _, ResProxyResolution _
  | GetConnectivity, ResConnectivity _ | Diagnose, (ResDiagnostics _ | ResError _) => True
  | (GetState | ListDevices | GetDevice _ | ListConnections | GetConnection _ | ScanWifi _ | ListWifiNetworks _ | ListBluetoothDevices
    | GetProxyConfig | ResolveProxy _ | GetConnectivity | Diagnose), _ => False
  | _, (ResOk | ResError _) => True
  | _, _ => False
  end.

(** A computation whose errors are all handled. *)
Definition handled {X A} (c : M X A) : Prop := forall x e, (c x).1 <> Err e.
Section Handled.
Context {X : Type}.
Lemma handled_bind {A C} (c : M X A) (k : A -> M X C) : handled c -> (forall a, handled (k a)) -> handled (c ≫= k).
Proof. intros Hc Hk x e. unfold mbind, M_bind. specialize (Hc x e). destruct (c x) as [[a|e'|why] x']; [apply Hk|naive_solver|done]. Qed.
Lemma handled_ret {A} (a : A) : handled (mret a : M X A).
Proof. done. Qed.
Lemma handled_attempt {A} (c : M X A) : handled (attempt c).
Proof. intros x e. unfold attempt. by destruct (c x) as [[a|e'|why] x']. Qed.
Lemma handled_ignore {A} (c : M X A) : handled (ignore c).
Proof. intros x e. unfold ignore. by destruct (c x) as [[a|e'|why] x']. Qed.
Lemma handled_observe {A} (f : X -> A * X) : handled (observe f).
Proof. intros x e. by rewrite observe_run. Qed.
Lemma handled_io_ignore {A} (c : io X A) : handled (io_ignore c).
Proof. done. Qed.
Lemma handled_io_match {A} (c : io X A) : handled (io_match c).
Proof. intros x e. unfold io_match. by destruct (c x). Qed.
Lemma handled_static_get {S} `{Static S X} : handled (static_get : M X S).
Proof. done. Qed.
Lemma handled_static_put {S} `{Static S X} (s : S) : handled (static_put s).
Proof. done. Qed.
End Handled.
Lemma handled_inner {S X A} (c : M X A) : handled c -> handled (inner (S := S) c).
Proof. intros Hc [s x] e. unfold inner. specialize (Hc x e). cbn. by destruct (c x). Qed.
Lemma handled_state_get {S X} : handled (state_get (S := S) (W := X)).
Proof. done. Qed.
Lemma handled_modify {S X} f : handled (state_modify (S := S) (W := X) f).
Proof. done. Qed.
Create HintDb handled.
#[export] Hint Resolve handled_ret handled_attempt handled_ignore handled_observe handled_io_ignore handled_io_match handled_static_get handled_static_put
  handled_inner handled_state_get handled_modify : handled.
Ltac handled :=
  repeat match goal with
  | |- _ => solve [auto with handled]
  | |- handled (_ ≫= _) => apply handled_bind; [|intros]
  | |- handled (inner _) => apply handled_inner
  | |- handled (match ?x with _ => _ end) => destruct x
  end.

Section Answers.
Context {W : Type} `{Host W} `{Formats} {B : Type} `{SecretsBackend B W}.
Abbreviation MM := (M (NetworkManager B * W)).
Lemma audit_handled actor action detail : handled (audit (B := B) (W := W) actor action detail).
Proof. unfold audit, audit_record, now_secs. handled. Qed.
Lemma broadcast_handled ev : handled (broadcast (B := B) (W := W) ev).
Proof. unfold broadcast. handled. Qed.
Lemma all_devices_handled : handled (all_devices (B := B) (W := W)).
Proof. unfold all_devices, entries. handled. Qed.
Hint Resolve audit_handled broadcast_handled all_devices_handled : handled.
Lemma broadcast_state_handled : handled (broadcast_state (B := B) (W := W)).
Proof. unfold broadcast_state. handled. Qed.
Lemma find_device_handled p : handled (find_device_for_profile (B := B) (W := W) p).
Proof. unfold find_device_for_profile. handled. Qed.
Lemma base_dir_handled : handled (base_dir (W := W)).
Proof. done. Qed.
Lemma ctrl_dir_handled : handled (ctrl_dir (W := W)).
Proof. done. Qed.
Lemma on_device_handled {A} name (c : M (NetworkDevice * W) A) : handled c -> handled (on_device (B := B) name c).
Proof.
  intros Hc [m w] e. unfold on_device. cbn. destruct (mgr_devices m !! name) as [d|]; [|done]. specialize (Hc (d, w)).
  destruct (c (d, w)) as [[a|e'|why] [d' w']]; cbn in *; [done|naive_solver|done].
Qed.
Lemma activation_attempt_handled p (secrets : B) ctrl base : handled (activation_attempt (W := W) p secrets ctrl base).
Proof. unfold activation_attempt. handled. Qed.
Lemma hostapd_stop_handled i : handled (hostapd_stop (W := W) i).
Proof. unfold hostapd_stop, reap. handled. Qed.
Lemma resolve_handled url : handled (on_static (W := W) (resolve_for_url url)).
Proof.
  intros w e. unfold on_static, resolve_for_url. cbn. repeat case_match; by simplify_eq/=.
Qed.
Hint Resolve broadcast_state_handled find_device_handled base_dir_handled ctrl_dir_handled on_device_handled activation_attempt_handled
  hostapd_stop_handled resolve_handled : handled.

(** Ends in a response of [P], or not at all. *)
Definition replies (P : Response -> Prop) (c : MM Response) : Prop :=
  forall s, match (c s).1 with Ok r => P r | Err _ => False | Panic _ => True end.
Lemma replies_ret (P : Response -> Prop) r : P r -> replies P (mret r).
Proof. by intros Hr s. Qed.
Lemma replies_bind {X} (P : Response -> Prop) (c : MM X) k : handled c -> (forall a, replies P (k a)) -> replies P (c ≫= k).
Proof.
  intros Hc Hk s. specialize (Hc s). unfold mbind, M_bind. destruct (c s) as [[a|e|why] s']; cbn in *; [apply Hk|naive_solver|done].
Qed.
Lemma replies_answer {X} (P : Response -> Prop) (c : MM X) ok :
  (forall e, P (ResError e)) -> (forall a, replies P (ok a)) -> replies P (answer c ok).
Proof. intros He Hok. unfold answer. apply replies_bind; [apply handled_attempt|]. intros [a|e]; [apply Hok|by apply replies_ret]. Qed.
Ltac replies :=
  repeat match goal with
  | |- replies _ (mret _) => apply replies_ret
  | |- replies _ (answer _ _) => apply replies_answer; [|intros]
  | |- replies _ (_ ≫= _) => apply replies_bind; [solve [handled]|intros]
  | |- replies _ (match ?x with _ => _ end) => destruct x
  end; cbn; try done.
(** The handlers that answer with a plain success. *)
Definition plain (r : Response) : Prop := match r with ResOk | ResError _ => True | _ => False end.
Lemma activate_plain id actor : replies plain (activate_profile id actor).
Proof. unfold activate_profile. replies. Qed.
Lemma deactivate_plain id actor : replies plain (deactivate_profile id actor).
Proof. unfold deactivate_profile, entries. replies. Qed.
Lemma deactivate_handled id actor : handled (deactivate_profile (B := B) (W := W) id actor).
Proof. intros s e He. pose proof (deactivate_plain id actor s) as Hd. by rewrite He in Hd. Qed.
Hint Resolve deactivate_handled : handled.
Lemma replies_mono (P Q : Response -> Prop) c : (forall r, P r -> Q r) -> replies P c -> replies Q c.
Proof. intros HPQ Hc s. specialize (Hc s). destruct (c s) as [[r|e|why] s']; cbn in *; auto. Qed.
Lemma handle_request_kind req identity : replies (answer_kind req) (handle_request req identity).
Proof.
  unfold_request; unfold audited. apply replies_bind; [done|]. intros m.
  destruct req; unfold delete_connection, connect_wifi, forget_wifi, drop_profile, store_profile; replies;
    try (eapply replies_mono; [|first [apply activate_plain|apply deactivate_plain]]; by intros []);
    by repeat case_match.
Qed.
Lemma find_profile_spec id l :
  match find_profile id l with
  | Some p => In p l /\ profile_id p = id
  | None => Forall (fun p => profile_id p <> id) l
  end.
Proof.
  unfold find_profile. destruct (List.find _ l) as [p|] eqn:E.
  - apply find_some in E as [Hi He]. split; [done|]. by apply String.eqb_eq in He.
  - apply List.Forall_forall. intros p Hp He. pose proof (find_none _ _ E p Hp) as Hn. cbn in Hn. by rewrite He, String.eqb_refl in Hn.
Qed.
Lemma handle_request_answers {HL : HashIterLaws W} req identity (m : NetworkManager B) w r s' :
  handle_request req identity (m, w) = (Ok r, s') -> answers req m w r.
Proof.
  intros Hr. pose proof (handle_request_kind req identity (m, w)) as Hk. rewrite Hr in Hk. cbn in Hk.
  assert (Hdev : forall l s, all_devices (m, w) = (Ok l, s) -> l ≡ₚ (map_to_list (mgr_devices m)).*2).
  { intros l s. unfold all_devices, entries, mbind, M_bind, inner, observe. cbn. pose proof (hash_iter_perm (mgr_devices m) w) as Hp.
    destruct (hash_iter (mgr_devices m) w) as [es w']. cbn in *. intros [= <- _]. by apply fmap_Permutation. }
  unfold failed. destruct req; cbn [answers answer_kind] in *; try (destruct r; unfold failed; by eauto).
  - change (handle_request GetState identity (m, w)) with ((devices ← all_devices; mret (ResState (overall_state devices (mgr_connectivity m)))) (m, w)) in Hr.
    apply M_bind_Ok in Hr as (l & s1 & Hl & [-> _]%mret_Ok). eauto.
  - change (handle_request ListDevices identity (m, w)) with ((devices ← all_devices; mret (ResDevices devices)) (m, w)) in Hr.
    apply M_bind_Ok in Hr as (l & s1 & Hl & [-> _]%mret_Ok). eauto.
  - change (handle_request (GetDevice name) identity (m, w)) with (mret (M := M (NetworkManager B * W)) (match mgr_devices m !! name with
      | Some d => ResDevice d | None => ResError ("no such device '" +:+ name +:+ "'") end) (m, w)) in Hr.
    apply mret_Ok in Hr as [-> _]. destruct (mgr_devices m !! name); unfold failed; eauto.
  - by injection Hr as <- _.
  - change (handle_request (GetConnection id) identity (m, w)) with (mret (M := M (NetworkManager B * W)) (match find_profile id (mgr_connections m) with
      | Some p => ResConnection p | None => ResError ("no such connection '" +:+ id +:+ "'") end) (m, w)) in Hr.
    apply mret_Ok in Hr as [-> _]. pose proof (find_profile_spec id (mgr_connections m)) as Hf. unfold failed.
    destruct (find_profile id (mgr_connections m)) as [p|]; [left; exists p; destruct Hf; auto|right; eauto].
  - by injection Hr as <- _.
  - by injection Hr as <- _.
Qed.
End Answers.

(** ** A host to run on *)

(** The files, sockets, clock and tools of the simulated world; everything else
    fails, and the statics are not kept. *)
Definition refused_io {A} : io sim A := fun w => (inr would_block, w).
Definition forgets {S} (s : S) : Static S sim := {| st_get _ := s; st_put _ w := w |}.
Definition sim_host : Host sim := {|
  host_files := sim_fs;
  host_append := {| ap_open _ w := (inl tt, w);
    ap_write p text w := (inl tt, with_files (<[p := default ""%string (sim_files w !! p) +:+ text]> (sim_files w)) w) |};
  host_entropy := sim_entropy;
  host_clock := sim_clock;
  host_children := {| cp_spawn _ _ := refused_io; cp_kill _ := refused_io; cp_wait _ := refused_io |};
  host_workdirs := {| fs_is_file _ w := (false, w); fs_remove_dir_all _ := refused_io |};
  host_unix := {| us_bind _ := refused_io; us_nonblocking _ _ := refused_io; us_accept _ := refused_io;
                  us_write _ _ := refused_io; us_try_clone _ := refused_io; us_close _ w := w |};
  host_threads := {| thread_starts w := (true, w); spawn_remove_after _ _ w := w |};
  host_dhcp_threads := {| dhcpd_spawn _ _ _ := refused_io; dhcpd_stop _ w := w |};
  host_management := {| mg_lines _ _ w := (([], true), w) |};
  host_processes := sim_processes;
  host_sockets := sim_sockets;
  host_tcp := {| tcp_connect _ _ := refused_io; tcp_connect_timeout _ _ _ := refused_io; tcp_read_timeout _ _ := refused_io;
                 tcp_write_timeout _ _ := refused_io; tcp_write_all _ _ := refused_io; tcp_read_to_end _ _ := refused_io;
                 tcp_close _ w := w |};
  host_tcp_reads := {| tcp_read _ _ := refused_io |};
  host_addrs := {| to_socket_addrs _ := refused_io |};
  host_resolver := {| rs_lookup _ := refused_io; rs_local_ip := refused_io |};
  host_names := sim_hostnames;
  host_stderr := {| eprint _ w := w |};
  host_iter := {| hash_iter V m w := (map_to_list m, w) |};
  host_receivers := {| rx_gone w := (∅, w) |};
  host_level := forgets min_level_default;
  host_sessions := forgets None;
  host_vpns := forgets None;
  host_hostapd := forgets None;
  host_proxy := forgets (mkProxyState None None);
  host_data_dir := forgets (mkDataDir None);
  host_ctrl_dir := forgets (mkCtrlDir None)
|}.
Definition sim_formats : Formats := {|
  fm_netlink := demo_nl_env;
  fm_pac := ascii_text;
  fm_wireguard := {| toml_from_str _ := inr ""%string |};
  fm_lease := no_codec Lease;
  fm_lease6 := no_codec V6.Lease6;
  fm_proxy := no_codec ProxyConfig;
  fm_profile := demo_codec;
  fm_general := no_codec _;
  fm_interfaces := no_codec _;
  fm_dns := no_codec _;
  fm_wireless := no_codec _;
  fm_order := list_order;
  fm_fuels := {| dhcp_fuel := 10; carrier_fuel := 10; wifi_fuel := 10; vpn_fuel := 10 |}
|}.
#[local] Existing Instances sim_host sim_formats.
#[local] Instance sim_iter_laws : HashIterLaws sim.
Proof. constructor. done. Qed.
(** A kernel without interfaces: two empty dumps. *)
Definition no_interfaces : sim := sim_start [inl (enc_wires [demo_done]); inl (enc_wires [demo_done])].
(** A manager with one Ethernet device, under a connection. *)
Definition demo_manager (state : DeviceState) (active : gmap string ActiveConnection) : NetworkManager FileSecretsBackend :=
  mkManager default_config "/var/lib/mitos/profiles" {["eth0"%string := with_active (demo_device "eth0" state) (Some "office"%string)]} []
    active demo_secrets firewall_new ∅ CsUnknown bus_new (mkAuditLog "/var/lib/mitos/audit.log" (Some [])).
Definition office : ActiveConnection := mkActive "office" "eth0" AcActivated 0 None.

(** ** Properties *)

(** C2: The manager's invariant.  From a successful start, after any sequence of
    requests, hotplug events and ticks, however the outside behaves and
    whatever the run ends in: the registry is keyed by name; an active device
    is under a connection, and a device under one is active or was being taken
    down; every entry of the active table is activated, and agrees with its
    device where both are there; the firewall keeps its own invariant; and the
    ids of the event clients are below the next one to be handed out. *)
Theorem manager_invariant {W} `{Host W} `{Formats} {HL : HashIterLaws W} config cmds (w w1 : W) m :
  manager_new config w = (Ok m, w1) -> mgr_ok m /\ mgr_ok (run cmds (m, w1)).2.1.
Proof.
  intros Hn. assert (Hok : mgr_ok m) by by eapply manager_new_ok. split; [done|].
  apply (ms_ok (actors cmds) m); [|done]. by apply (run_steps (actors cmds) cmds).
Qed.
Definition demo_run : list Command :=
  [CmdRegisterEventClient; CmdTick TkDeviceRefresh; CmdHotplug (LinkAdded "eth0");
   CmdRequest (SetFirewallZone "eth0" "home") (mkPeer 0 0 1); CmdRequest (StopHotspot "wlan0") (mkPeer 1000 1000 1)].
Definition demo_started : NetworkManager FileSecretsBackend * sim :=
  match manager_new default_config no_interfaces with
  | (Ok m, w) => (m, w)
  | (_, w) => (demo_manager Activated ∅, w)
  end.
Lemma manager_invariant_witness :
  manager_new default_config no_interfaces = (Ok demo_started.1, demo_started.2)
  /\ mgr_ok (run demo_run (demo_started.1, demo_started.2)).2.1
  /\ length (audit_writes (mgr_audit (run demo_run demo_started).2.1)) = 2%nat.
Proof.
  assert (Hs : manager_new default_config no_interfaces = (Ok demo_started.1, demo_started.2)) by (vm_compute; reflexivity).
  split; [exact Hs|]. split; [|vm_compute; reflexivity].
  exact (proj2 (manager_invariant default_config demo_run no_interfaces demo_started.2 demo_started.1 Hs)).
Defined.

(** What a run leaves behind.  Over any sequence of commands the audit trail
    only grows, by lines that name a peer who sent a request in the run, or the
    autoconnect; its file and the profile directory stay; client ids are never
    reused, and what a client was sent is never taken back; and profile ids
    stay distinct. *)
Theorem manager_run_trail {W} `{Host W} `{Formats} {B} `{SecretsBackend B W} {HL : HashIterLaws W} cmds (m : NetworkManager B) (w : W) :
  let m' := (run cmds (m, w)).2.1 in
  audit_step (actors cmds) (mgr_audit m) (mgr_audit m') /\ bus_step (mgr_events m) (mgr_events m')
  /\ mgr_profiles_dir m' = mgr_profiles_dir m
  /\ (NoDup (map profile_id (mgr_connections m)) -> NoDup (map profile_id (mgr_connections m'))).
Proof.
  cbv zeta. destruct (run_steps (actors cmds) cmds (fun _ Ha => Ha) m w) as [_ Hi [Hd _] Hb Ha]. done.
Qed.
Lemma manager_run_trail_witness :
  audit_step (actors demo_run) (mgr_audit demo_started.1) (mgr_audit (run demo_run (demo_started.1, demo_started.2)).2.1)
  /\ next_id (mgr_events (run demo_run demo_started).2.1) = 1.
Proof.
  split; [|vm_compute; reflexivity]. destruct (manager_run_trail demo_run demo_started.1 demo_started.2) as [Ha _]. exact Ha.
Defined.

(** C14: Every change a peer is told of was put on record.  When a request that
    needs more than the right to look, other than one to start or stop a
    Bluetooth scan, is answered with a plain success and the audit file is open,
    at least one write was made to it, and each is of a line that names the uid
    of the peer that asked.  Whether a write succeeds is not looked at; one that
    does puts its line at the end of the file. *)
Theorem request_audited {W} `{Host W} `{Formats} {B} `{SecretsBackend B W} {HL : HashIterLaws W} `{!AppendLaws W}
    req identity (m m' : NetworkManager B) (w w' : W) :
  required_capability req <> ViewState -> (forall on, req <> BluetoothScan on) -> is_Some (audit_file (mgr_audit m)) ->
  handle_request req identity (m, w) = (Ok ResOk, (m', w')) ->
  (exists new, new <> [] /\ audit_writes (mgr_audit m') = audit_writes (mgr_audit m) ++ new /\ Forall (line_by (actor_of identity)) new.*1)
  /\ forall log actor action detail (v : W), is_Some (audit_file log) -> exists log' v' ts ok, let line := audit_line ts actor action detail in
       audit_record log actor action detail v = (Ok log', v') /\ audit_file log' = Some (audit_writes log ++ [(line, ok)])
       /\ (ok = true -> file_text v' (audit_path log) = file_text v (audit_path log) +:+ line).
Proof.
  intros Hv Hb [f Hf] Hr. split; [|apply audit_record_appends].
  pose proof (request_noted req identity m Hv Hb w) as Hn. rewrite Hr in Hn. cbn in Hn. specialize (Hn eq_refl).
  pose proof (handle_request_steps (eq (actor_of identity)) req identity eq_refl m w) as [_ _ _ _ Ha]. rewrite Hr in Ha. cbn in Ha.
  destruct Ha as (_ & _ & _ & new & E & F). exists new. split_and!; [|done|].
  - intros ->. destruct Hn as [[Hno _]|Hn]; [congruence|]. rewrite E, app_nil_r in Hn. lia.
  - apply Forall_fmap. eapply List.Forall_impl; [|exact F]. intros line (ts & a & action & detail & <- & E'). by exists ts, action, detail.
Qed.
#[local] Instance sim_append_laws : AppendLaws sim.
Proof. refine {| file_text w p := default ""%string (sim_files w !! p) |}; intros; cbn; [by rewrite lookup_insert_eq|done]. Defined.
Lemma request_audited_witness :
  exists m' w', handle_request (StopHotspot "wlan0") (mkPeer 1000 1000 1) (demo_manager Activated ∅, sim_start []) = (Ok ResOk, (m', w'))
    /\ exists new, new <> [] /\ audit_writes (mgr_audit m') = [] ++ new /\ Forall (line_by (actor_of (mkPeer 1000 1000 1))) new.*1.
Proof.
  eexists _, _. split; [vm_compute; reflexivity|].
  eapply (request_audited (StopHotspot "wlan0") (mkPeer 1000 1000 1) (demo_manager Activated ∅) _ (sim_start []) _).
  - discriminate.
  - discriminate.
  - eexists. reflexivity.
  - vm_compute. reflexivity.
Defined.

Lemma demo_manager_ok : mgr_ok (demo_manager Activated {["eth0"%string := office]}).
Proof.
  split; cbn; [| | |apply firewall_new_ok|by intros id []].
  - apply map_Forall_singleton. split; [done|]. split; [by left|by eexists].
  - by apply map_Forall_singleton.
  - intros n d a id [<- <-]%lookup_singleton_Some [_ <-]%lookup_singleton_Some [= <-]. done.
Qed.

(** When flushing the addresses fails, the device is left with a connection the
    table has forgotten: it cannot be deactivated again, and neither a profile
    nor autoconnect will use it. *)
Definition stranded_run : NetworkManager FileSecretsBackend * sim :=
  (handle_request (DeactivateConnection "office") (mkPeer 0 0 1)
     (demo_manager Activated {["eth0"%string := office]}, sim_start [])).2.
Example failed_deactivation_strands :
  mgr_active stranded_run.1 = ∅
  /\ (handle_request (DeactivateConnection "office") (mkPeer 0 0 1) stranded_run).1
     = Ok (ResError "connection 'office' is not active")
  /\ match mgr_devices stranded_run.1 !! "eth0"%string with
     | Some d => active_connection d = Some "office"%string /\ ready_to_connect d = false
                 /\ forall p, fits p d = false
     | None => False
     end.
Proof.
  split; [vm_compute; reflexivity|]. split; [vm_compute; reflexivity|].
  set (d := mgr_devices stranded_run.1 !! "eth0"%string). assert (Hd : d = Some (with_active (demo_device "eth0" Deactivating) (Some "office"%string)))
    by (vm_compute; reflexivity). rewrite Hd. split_and!; [done..|]. intros p. unfold fits. cbn. by rewrite andb_false_r.
Qed.
(** A profile chosen for one device may be activated on another, even one that
    is not managed. *)
Example unmanaged_device_fits :
  exists p d, dev_state d = Unmanaged /\ carrier d = false /\ ready_to_connect d = false /\ fits p d = true.
Proof.
  exists (mkProfile "office" "office" DtEthernet None AmAuto Slaac [] None [] true 0 false None None),
    (mkDevice "docker0" 3 DtEthernet Unmanaged None 1500 [] [] false None None). done.
Qed.

(** C25: Every request gets its own answer.  Whatever the world does, a request that
    is answered gets the kind of answer the protocol has for it: a question about
    the manager's own state the value it has there (the devices in some order, a
    device or a profile by its name and an error where there is none, the
    profiles, the connectivity, the proxy in force), a scan or a report its
    results or an error, and a request for a change a plain success or an error. *)
Theorem request_answer_types {W} `{Host W} `{Formats} {B} `{SecretsBackend B W} {HL : HashIterLaws W} req identity (m : NetworkManager B) (w : W) :
  match (handle_request req identity (m, w)).1 with Ok r => answers req m w r | Err _ => False | Panic _ => True end.
Proof.
  pose proof (handle_request_kind req identity (m, w)) as Hk. destruct (handle_request req identity (m, w)) as [[r|e|why] s'] eqn:E; [|done..].
  cbn. by eapply handle_request_answers.
Qed.
Lemma request_answer_types_witness :
  match (handle_request (GetDevice "eth0") (mkPeer 1000 1000 1) (demo_manager Activated ∅, sim_start [])).1 with
  | Ok r => r = ResDevice (with_active (demo_device "eth0" Activated) (Some "office"%string)) | _ => False end.
Proof.
  pose proof (request_answer_types (GetDevice "eth0") (mkPeer 1000 1000 1) (demo_manager Activated ∅) (sim_start [])) as Ha.
  exact Ha.
Defined.
