(* ===== verification/ManagerPanics.v ===== *)
(** * What can panic the manager

    The panics each command of the manager can end with, proved over all its
    handlers with the lemmas of [Panics]. *)

From Stdlib Require Import Ascii String.
From S2P Require Import Prelude RustStr IpAddr Dhcp4 Sys Persistence World Netlink IpLayer DhcpClient.
From S2P Require Import Dhcp6 Security Firewall Device Connection Ipc Pac Proxy Dns Config Store Wpa.
From S2P Require Import Wireguard OpenVpn Connectivity Monitoring Bluetooth Logging Sharing Activation Wp Manager ManagerInv Panics.

(** The formats report their failures as errors. *)
Class FormatsTotal `{Formats} : Prop := {
  total_lease :: CodecTotal Lease;
  total_lease6 :: CodecTotal V6.Lease6;
  total_proxy :: CodecTotal ProxyConfig;
  total_profile :: CodecTotal ConnectionProfile;
  total_general :: CodecTotal TopLevelGeneral;
  total_interfaces :: CodecTotal TopLevelInterfaces;
  total_dns :: CodecTotal TopLevelDns;
  total_wireless :: CodecTotal TopLevelWireless
}.

(** What talking to the kernel over netlink can panic with: an answer that does
    not end, a message whose length is not a multiple of four at the end of a
    datagram, and the one error number that has no negation. *)
Definition netlink_panics : list string := [FUEL; RANGE; NEGATE].
(** Bringing a connection up may start an OpenVPN session and its threads. *)
Definition activation_panics : list string := SPAWN :: netlink_panics.
Definition request_panics (req : Request) : list string :=
  match req with
  | ActivateConnection _ | ConnectWifi _ _ _ _ => activation_panics
  | DeactivateConnection _ | DeleteConnection _ | Diagnose => netlink_panics
  | StartHotspot _ _ _ _ => NUL_ERROR :: activation_panics
  | SetFirewallZone _ _ | AddFirewallRule _ | RemoveFirewallRule _ => [SPAWN]
  | ScanWifi _ => [FUEL]
  | SetProxyConfig _ => [BOUNDARY]
  | _ => []
  end.
Definition tick_panics (kind : TickKind) : list string :=
  match kind with
  | TkConnectivity => []
  | TkLeaseCheck => TIME :: netlink_panics
  | TkWifiScan | TkDeviceRefresh => activation_panics
  end.
Definition command_panics (cmd : Command) : list string :=
  match cmd with
  | CmdRequest req _ => request_panics req
  | CmdRegisterEventClient => [ADD]
  | CmdHotplug _ => activation_panics
  | CmdTick kind => tick_panics kind
  | CmdUnregisterEventClient _ | CmdShutdown => []
  end.

Section Handlers.
Context {W : Type} `{Host W} `{Formats} {FT : FormatsTotal}.
Abbreviation B := FileSecretsBackend.
Abbreviation MM := (M (NetworkManager B * W)).

Section Free.
Context (P : string -> Prop).
Lemma on_static_panics {S A} `{Static S W} (Q : A -> Prop) (c : M (S * W) A) : ends P Q c -> ends P Q (on_static c).
Proof. intros Hc w. specialize (Hc (st_get w, w)). unfold on_static. by destruct (c (st_get w, w)) as [r [s w']]. Qed.
Lemma on_firewall_panics {A} (Q : A -> Prop) (c : M (FirewallState * W) A) : ends P Q c -> ends P Q (on_firewall c : MM A).
Proof. intros Hc [m w]. specialize (Hc (mgr_firewall m, w)). unfold on_firewall. cbn. by destruct (c _) as [r [f w']]. Qed.
Lemma on_device_panics {A} name (c : M (NetworkDevice * W) A) : only P c -> only P (on_device name c : MM (option A)).
Proof.
  intros Hc [m w]. unfold on_device. cbn. destruct (mgr_devices m !! name) as [d|]; [|done]. specialize (Hc (d, w)).
  by destruct (c (d, w)) as [[a|e|why] [d' w']].
Qed.
Lemma answer_panics {A} (c : MM A) ok : only P c -> (forall a, only P (ok a)) -> only P (answer c ok).
Proof. intros Hc Ho. unfold answer. panics. Qed.
Lemma all_devices_panics : only P (all_devices : MM _).
Proof. unfold all_devices, entries. panics. Qed.
#[local] Hint Resolve all_devices_panics : panics.
Lemma audit_panics actor action detail : only P (audit actor action detail : MM unit).
Proof. unfold audit. panics. Qed.
Lemma broadcast_panics ev : only P (broadcast ev : MM unit).
Proof. unfold broadcast. panics. Qed.
#[local] Hint Resolve audit_panics broadcast_panics : panics.
Lemma broadcast_state_panics : only P (broadcast_state : MM unit).
Proof. unfold broadcast_state. panics. Qed.
Lemma audited_panics (c : MM unit) actor action detail : only P c -> only P (audited c actor action detail).
Proof. intros Hc. unfold audited. apply answer_panics; panics. Qed.
Lemma forget_wifi_panics device ssid actor : only P (forget_wifi device ssid actor : MM Response).
Proof. unfold forget_wifi, ctrl_dir, drop_profile. cbn [secret_delete_all file_secrets]. panics. Qed.
Lemma bus_register_panics b : P ADD -> settles P (fun _ => True) (bus_register b).
Proof. intros HA. unfold bus_register, u64_add. by case_match. Qed.
End Free.
#[local] Hint Resolve all_devices_panics audit_panics broadcast_panics broadcast_state_panics forget_wifi_panics : panics.

Section Netlink.
Context (P : string -> Prop) (Hfuel : P FUEL) (Hrange : P RANGE) (Hneg : P NEGATE) (Hspawn : P SPAWN).
Lemma refresh_devices_panics : only P (refresh_devices : MM unit).
Proof using Hfuel Hrange Hneg. unfold refresh_devices. panics. Qed.
Lemma activate_profile_panics id actor : only P (activate_profile id actor : MM Response).
Proof using FT Hfuel Hrange Hneg Hspawn.
  unfold activate_profile, find_device_for_profile, ctrl_dir, base_dir. panics. apply on_device_panics. unfold activation_attempt. panics.
Qed.
Lemma deactivate_profile_panics id actor : only P (deactivate_profile id actor : MM Response).
Proof using FT Hfuel Hrange Hneg.
  unfold deactivate_profile, entries, ctrl_dir, base_dir. panics. apply on_device_panics. panics.
Qed.
#[local] Hint Resolve refresh_devices_panics activate_profile_panics deactivate_profile_panics : panics.
Lemma try_autoconnect_panics name : only P (try_autoconnect name : MM unit).
Proof using FT Hfuel Hrange Hneg Hspawn. unfold try_autoconnect, choose_profile. panics. Qed.
#[local] Hint Resolve try_autoconnect_panics : panics.
Lemma handle_hotplug_panics ev : only P (handle_hotplug ev : MM unit).
Proof using FT Hfuel Hrange Hneg Hspawn. unfold handle_hotplug. panics. apply on_firewall_panics. panics. Qed.
Lemma time_add_panics t secs : P TIME -> settles P (fun _ => True) (time_add t secs).
Proof. intros HT. unfold time_add. by case_match. Qed.
Lemma renewal_time_panics lease : P TIME -> settles P (fun _ => True) (renewal_time lease).
Proof.
  intros HT. unfold renewal_time, obtained_at. pose proof (time_add_panics UNIX_EPOCH (obtained_at_unix lease) HT) as Ho.
  destruct (time_add UNIX_EPOCH _) as [t|e|why]; [by apply time_add_panics|done..].
Qed.
Lemma renew_lease_panics name active : P TIME -> only P (renew_lease (W := W) name active).
Proof using FT Hfuel Hrange Hneg.
  intros HT. unfold renew_lease, base_dir, load_lease, save_lease, now_secs. panics. apply renewal_time_panics, HT.
Qed.
#[local] Hint Resolve renew_lease_panics : panics.
Lemma lease_check_panics : P TIME -> only P (handle_tick TkLeaseCheck : MM unit).
Proof using FT Hfuel Hrange Hneg. intros HT. unfold handle_tick, entries. panics. Qed.
Lemma other_tick_panics kind : kind <> TkLeaseCheck -> only P (handle_tick kind : MM unit).
Proof using FT Hfuel Hrange Hneg Hspawn.
  intros Hk. unfold handle_tick, check_connectivity, try_autoconnect_all, device_names, entries. destruct kind; [panics..|done|panics].
Qed.
Lemma delete_connection_panics id actor : only P (delete_connection id actor : MM Response).
Proof using FT Hfuel Hrange Hneg.
  unfold delete_connection, drop_profile. cbn [secret_delete_all file_secrets]. panics. apply answer_panics; panics.
Qed.
Lemma connect_wifi_panics device ssid security pass actor : only P (connect_wifi device ssid security pass actor : MM Response).
Proof using FT Hfuel Hrange Hneg Hspawn.
  unfold connect_wifi, store_profile. cbn [secret_set file_secrets]. panics. apply answer_panics; [panics|]. intros _. apply answer_panics; panics.
Qed.
End Netlink.
#[local] Hint Resolve activate_profile_panics deactivate_profile_panics delete_connection_panics connect_wifi_panics : panics.

Lemma handle_request_panics req identity : only (fun why => In why (request_panics req)) (handle_request req identity : MM Response).
Proof using FT.
  unfold_request; unfold base_dir, store_profile, bt_pair, bt_trust, bt_connect, bt_disconnect, bt_remove, power_on, power_off, start_scan, stop_scan, bt_run.
  destruct req; cbn [request_panics activation_panics netlink_panics]; set (P := fun why : string => In why _);
    try (assert (Hfuel : P FUEL) by (cbn; tauto)); try (assert (Hrange : P RANGE) by (cbn; tauto));
    try (assert (Hneg : P NEGATE) by (cbn; tauto)); try (assert (Hnul : P NUL_ERROR) by (cbn; tauto));
    try (assert (Hb : P BOUNDARY) by (cbn; tauto)); try (assert (Hspawn : P SPAWN) by (cbn; tauto)); clearbody P; panics.
  all: try apply answer_panics; try apply audited_panics; try apply on_firewall_panics; try apply ends_inner; try apply on_static_panics; panics.
Qed.
Lemma handle_command_panics cmd : only (fun why => In why (command_panics cmd)) (handle_command cmd : MM (list Reply)).
Proof using FT.
  destruct cmd as [req id| |id|ev|kind|]; cbn [handle_command command_panics].
  - apply only_bind; [apply handle_request_panics|]. panics.
  - panics. apply bus_register_panics. by left.
  - panics.
  - apply only_bind; [|panics]. apply handle_hotplug_panics; cbn; tauto.
  - apply only_bind; [|panics]. destruct kind; [unfold handle_tick, check_connectivity; panics|apply other_tick_panics; [cbn; tauto..|done]|
      apply lease_check_panics; cbn; tauto|apply other_tick_panics; [cbn; tauto..|done]].
  - panics.
Qed.
(** The panics a run can end with: those of its start and of its commands. *)
Definition run_panics (cmds : list Command) : list string := activation_panics ++ concat (map command_panics cmds).
Lemma ends_weaken {A} (P P' : string -> Prop) (Q : A -> Prop) (c : MM A) : ends P Q c -> (forall why, P why -> P' why) -> ends P' Q c.
Proof. intros Hc HP s. specialize (Hc s). destruct (c s) as [[a|e|why] s']; cbn in *; auto. Qed.
Lemma serve_panics cmds : only (fun why => In why (concat (map command_panics cmds))) (serve cmds : MM (list Reply)).
Proof using FT.
  induction cmds as [|cmd cmds IH]; [by apply ends_ret|].
  assert (Hs : only (fun why => In why (concat (map command_panics (cmd :: cmds)))) (sent ← handle_command cmd; rest ← serve cmds; mret (sent ++ rest) : MM _)).
  { cbn [map concat]. apply only_bind; [|intros sent; apply only_bind; [|panics]].
    - eapply ends_weaken; [apply handle_command_panics|]. intros why Hw. cbn. apply in_app_iff. by left.
    - eapply ends_weaken; [exact IH|]. intros why Hw. cbn. apply in_app_iff. by right. }
  destruct cmd; try exact Hs. by apply ends_ret.
Qed.
End Handlers.

(** ** Properties *)

(** C10: The manager panics only where it is known to.  Whatever the state and the
    world, a command ends without a panic but for those [command_panics] lists
    for it: the netlink ones where the handler talks to the kernel, a thread that
    cannot be made where it feeds [nft] or starts OpenVPN, the time of a lease
    read from disk that is out of range, the unwrap of the hotspot's interface
    name, the slice of a chunked PAC script, and the overflow of the client
    counter; [FUEL] among them stands for a loop that is still running.  A run
    panics only with those of its commands or, at its start, with those of
    bringing up connections; and no request that only looks can panic the
    manager, but a report, which reads the routes.  (Printing to a closed
    standard error, a poisoned lock and running out of stack or memory are not
    in the model.) *)
Theorem manager_panics {W} `{Host W} `{Formats} `{!FormatsTotal} (m : NetworkManager FileSecretsBackend) (w : W) :
  (forall cmd why, (handle_command cmd (m, w)).1 = Panic why -> In why (command_panics cmd))
  /\ (forall cmds why, (run cmds (m, w)).1 = Panic why -> In why (run_panics cmds))
  /\ (forall req identity, required_capability req = ViewState -> req <> Diagnose -> no_panic (handle_request req identity (m, w)).1).
Proof.
  split_and!.
  - intros cmd why Hp. pose proof (handle_command_panics cmd (m, w)) as Hc. by rewrite Hp in Hc.
  - intros cmds why Hp. assert (Hc : only (fun why => In why (run_panics cmds)) (run cmds : M (NetworkManager FileSecretsBackend * W) _)).
    { unfold run, run_panics, log_info. apply only_bind; [panics|]. intros _. apply only_bind; [|intros _; apply only_bind; [|panics]].
      - unfold try_autoconnect_all, device_names, all_devices, entries. panics. apply try_autoconnect_panics; cbn; tauto.
      - eapply ends_weaken; [apply serve_panics|]. intros why' Hw. cbn. tauto. }
    specialize (Hc (m, w)). by rewrite Hp in Hc.
  - intros req identity Hv Hd why Hp. pose proof (handle_request_panics req identity (m, w)) as Hc. rewrite Hp in Hc. by destruct req.
Qed.
(** A kernel that answers with a message of 17 bytes panics a report. *)
#[local] Existing Instances sim_host sim_formats.
#[local] Instance sim_formats_total : FormatsTotal.
Proof. split; split; intros; cbn; repeat case_match; done. Qed.
Definition odd_kernel : sim := sim_start [inl unaligned_datagram].
Lemma manager_panics_witness :
  (handle_request Diagnose (mkPeer 1000 1000 1) (demo_manager Activated ∅, odd_kernel)).1 = Panic RANGE /\ In RANGE (request_panics Diagnose)
  /\ no_panic (handle_request GetState (mkPeer 1000 1000 1) (demo_manager Activated ∅, odd_kernel)).1.
Proof.
  assert (Hp : (handle_command (CmdRequest Diagnose (mkPeer 1000 1000 1)) (demo_manager Activated ∅, odd_kernel)).1 = Panic RANGE)
    by (vm_compute; reflexivity).
  pose proof (manager_panics (demo_manager Activated ∅) odd_kernel) as (Hc & _ & Hv).
  split; [vm_compute; reflexivity|]. split; [exact (Hc _ _ Hp)|]. apply Hv; [reflexivity|discriminate].
Defined.
(** The other entries of the table are met too. *)
Example negate_met strerror : check_ack strerror (to_le 4 (2 ^ 31)) = Panic NEGATE.
Proof. reflexivity. Qed.
Example add_met : bus_register (mkBus ∅ (2 ^ 64 - 1)) = Panic ADD.
Proof. reflexivity. Qed.
(** A lease whose times are beyond what [SystemTime] can hold. *)
Example time_met : renewal_time (mkLease 0 0 None [] None 0 0 (2 ^ 63)) = Panic TIME.
Proof. vm_compute. reflexivity. Qed.
(** A machine that can make no thread. *)
Definition no_threads : Processes sim := {| run_command := run_command; run_fed _ _ _ w := (FedNoThread, w) |}.
Example spawn_met : (nft_apply (H := no_threads) "" (sim_start [])).1 = Panic SPAWN.
Proof. vm_compute. reflexivity. Qed.
(** A chunk of one byte out of a two-byte character. *)
Example boundary_met :
  http_body (str_bytes ("HTTP/1.1 200 OK" +:+ CRLF +:+ "Transfer-Encoding: chunked" +:+ CRLF +:+ CRLF +:+ "1" +:+ CRLF) ++ [195; 169]) = Panic BOUNDARY.
Proof. vm_compute. reflexivity. Qed.
