(* ===== verification/Daemon.v ===== *)
(** * The daemon around the manager (main.rs, manager/scheduler.rs,
    ipc/server.rs [handle_connection], ipc/permissions.rs, device/discovery.rs
    [spawn_monitor])

    The sources of commands: connections, timers, the hotplug relay and the
    signal watcher; and the composition of a connection with the manager
    behind its channel. *)

From Stdlib Require Import Ascii String.
From S2P Require Import Prelude RustStr IpAddr Sys Persistence World Netlink IpLayer Security Firewall Device.
From S2P Require Import Connection Ipc Config Logging Activation Wp Manager ManagerInv.

(** ** The channel to the manager *)

(** [Sender<Command>::send]: [false] once the manager is gone. *)
Class CommandSender (W : Type) := { tx_send : Command -> W -> bool * W }.

(** ** Timers *)

(** [spawn_tick]'s thread, for so many turns: whether it is still running. *)
Fixpoint tick_thread {W} `{CommandSender W} `{Clock W} (n : nat) (interval : Z) (kind : TickKind) : M W bool :=
  match n with
  | O => mret true
  | S n =>
      effect (clk_sleep interval) ;;
      sent ← observe (tx_send (CmdTick kind));
      if (sent : bool) then tick_thread n interval kind else mret false
  end.
Record Timer := mkTimer { timer_interval : Z; timer_kind : TickKind; timer_thread : string }.
(** [scheduler::start] *)
Definition scheduler_start (connectivity_interval wifi_scan_interval : Z) : list Timer :=
  [mkTimer connectivity_interval TkConnectivity "mitos-net-sched-conn";
   mkTimer wifi_scan_interval TkWifiScan "mitos-net-sched-wifi";
   mkTimer (secs_to_nanos 30) TkLeaseCheck "mitos-net-sched-lease";
   mkTimer (secs_to_nanos 5) TkDeviceRefresh "mitos-net-sched-refresh"].
(** The intervals [main] gives it. *)
Definition connectivity_interval (cfg : NetworkConfig) : Z :=
  secs_to_nanos (Z.max (connectivity_check_interval_secs (general cfg)) 5).
Definition wifi_scan_interval (cfg : NetworkConfig) : Z := secs_to_nanos (Z.max (scan_interval_secs (wireless cfg)) 10).

(** ** Hotplug *)

Section Hotplug.
Context {W : Type} `{Sockets W} `{NlEnv} `{CommandSender W} `{Stderr W} `{Static MinLevel W}.
Definition monitor_groups : Z := Z.lor (Z.lor RTMGRP_LINK RTMGRP_IPV4_IFADDR) RTMGRP_IPV6_IFADDR.
(** [for ev in events], through the relay of [main]: [false] when the manager
    is gone. *)
Fixpoint forward_events (events : list RawEvent) : M W bool :=
  match events with
  | [] => mret true
  | ev :: events =>
      sent ← observe (tx_send (CmdHotplug (hotplug_of ev)));
      if (sent : bool) then forward_events events else mret false
  end.
Fixpoint monitor_thread (n : nat) (sock : NlSocket) : M W bool :=
  match n with
  | O => mret true
  | S n =>
      r ← attempt (monitor_recv sock);
      match r with
      | inl events => go ← forward_events events; if (go : bool) then monitor_thread n sock else mret false
      | inr e => log_error ("hotplug monitor recv error: " +:+ error_to_string e) ;; monitor_thread n sock
      end
  end.
End Hotplug.

(** ** The signal watcher *)

(** [loop { sleep(200ms); if SHUTDOWN_REQUESTED { send(Shutdown); return } }]:
    the flag is what the world shows at each turn. *)
Class Signals (W : Type) := { shutdown_requested : W -> bool * W }.
Fixpoint watch_signals {W} `{Signals W} `{CommandSender W} `{Clock W} (n : nat) : M W bool :=
  match n with
  | O => mret true
  | S n =>
      effect (clk_sleep 200000000) ;;
      stop ← observe shutdown_requested;
      if (stop : bool) then observe (tx_send CmdShutdown) ;; mret false else watch_signals n
  end.

(** ** The command line of the daemon *)

Inductive daemon_args :=
| DaRun (config_dir : string)
| DaVersion
| DaHelp
| DaMissing                        (** exit 2: [--config-dir] without a path *)
| DaUnknown (arg : string).        (** exit 2 *)
Fixpoint daemon_parse (config_dir : string) (args : list string) : daemon_args :=
  match args with
  | [] => DaRun config_dir
  | arg :: rest =>
      if String.eqb arg "--config-dir" then
        match rest with v :: rest => daemon_parse v rest | [] => DaMissing end
      else if String.eqb arg "--version" then DaVersion
      else if String.eqb arg "--help" then DaHelp
      else DaUnknown arg
  end.
Definition daemon_main_args (args : list string) : daemon_args := daemon_parse DEFAULT_CONFIG_DIR args.

(** ** One connection *)

(** [RegisterEventClient] and its answer. *)
Inductive registration := RegGone | RegNoReply | RegClient (id : Z).
Class EventChannel (W : Type) := {
  ev_register : W -> registration * W;
  ev_unregister : Z -> W -> W
}.
(** The accepted socket: [SO_PEERCRED], the second handle, and the thread that
    writes events. *)
Class PeerSocket (W : Type) := {
  so_peercred : io W PeerIdentity;
  ps_try_clone : io W unit;
  ps_spawn_events : Z -> W -> W;
  ps_join_events : W -> W
}.
Section Connection.
Context {W : Type} `{PeerSocket W} `{EventChannel W} `{ByteStream W} `{Clock W} `{ManagerChannel W} `{Accounts}
        `{Serde Request} `{Serde ServerMessage}.
Definition peer_identity : M W PeerIdentity :=
  io_try_with (fun e => Other ("SO_PEERCRED failed: " +:+ io_err_text e)) so_peercred.
Definition register_client : M W Z :=
  r ← observe ev_register;
  match r with
  | RegGone => throw (Other "manager thread is gone")
  | RegNoReply => throw (Other "manager did not reply to registration")
  | RegClient id => mret id
  end.
(** Up to [n] requests; the loop ends by an error, after which the client is
    unregistered. *)
Definition handle_connection (n : nat) : M W window :=
  identity ← peer_identity;
  io_try ps_try_clone ;;
  client_id ← register_client;
  effect (ps_spawn_events client_id) ;;
  r ← attempt (request_loop n identity);
  match r with
  | inl running => mret running
  | inr e => effect (ev_unregister client_id) ;; effect ps_join_events ;; throw e
  end.
End Connection.

(** ** A connection in front of the manager *)

(** The connection's socket, the manager's state while its thread lives, and
    the manager's own world. *)
Record served (V B W : Type) := mkServed { sv_conn : V; sv_manager : NetworkManager B; sv_alive : bool; sv_world : W }.
Arguments mkServed {V B W}.
Arguments sv_conn {V B W}.
Arguments sv_manager {V B W}.
Arguments sv_alive {V B W}.
Arguments sv_world {V B W}.

Section Served.
Context {V : Type} `{PeerSocket V} `{ByteStream V} `{Clock V} {W : Type} `{Host W} `{Formats} {B : Type} `{SecretsBackend B W}.
Abbreviation Sv := (served V B W).
Definition on_conn {A} (c : io V A) : io Sv A := fun s =>
  let '(r, v) := c (sv_conn s) in (r, mkServed v (sv_manager s) (sv_alive s) (sv_world s)).
Definition with_conn (v : V) (s : Sv) : Sv := mkServed v (sv_manager s) (sv_alive s) (sv_world s).
#[export] Instance served_stream : ByteStream Sv := {
  st_read_exact n := on_conn (st_read_exact n); st_write_all b := on_conn (st_write_all b); st_flush := on_conn st_flush
}.
#[export] Instance served_clock : Clock Sv := {
  clk_instant s := let '(t, v) := clk_instant (sv_conn s) in (t, with_conn v s);
  clk_unix s := let '(t, v) := clk_unix (sv_conn s) in (t, with_conn v s);
  clk_pid s := clk_pid (sv_conn s);
  clk_sleep d s := with_conn (clk_sleep d (sv_conn s)) s
}.
#[export] Instance served_peer : PeerSocket Sv := {
  so_peercred := on_conn so_peercred;
  ps_try_clone := on_conn ps_try_clone;
  ps_spawn_events id s := with_conn (ps_spawn_events id (sv_conn s)) s;
  ps_join_events s := with_conn (ps_join_events (sv_conn s)) s
}.
(** One command through the channel: a panic ends the manager's thread. *)
Definition deliver (cmd : Command) (s : Sv) : option (list Reply) * Sv :=
  match handle_command cmd (sv_manager s, sv_world s) with
  | (Ok replies, (m, w)) => (Some replies, mkServed (sv_conn s) m true w)
  | (_, (m, w)) => (None, mkServed (sv_conn s) m false w)
  end.
#[export] Instance served_manager : ManagerChannel Sv := {
  mgr_request req identity s :=
    if sv_alive s then
      match deliver (CmdRequest req identity) s with
      | (Some [RepResponse r], s) => (MgrReply r, s)
      | (_, s) => (MgrNoReply, s)
      end
    else (MgrGone, s)
}.
#[export] Instance served_events : EventChannel Sv := {
  ev_register s :=
    if sv_alive s then
      match deliver CmdRegisterEventClient s with
      | (Some [RepClient id], s) => (RegClient id, s)
      | (_, s) => (RegNoReply, s)
      end
    else (RegGone, s);
  ev_unregister id s := if sv_alive s then (deliver (CmdUnregisterEventClient id) s).2 else s
}.
End Served.

(** Neither root nor in the privileged group. *)
Definition unprivileged `{Accounts} (p : PeerIdentity) : Prop := is_root p = false /\ in_group p PRIVILEGED_GROUP = false.
Lemma unprivileged_views `{Accounts} p c : unprivileged p -> check p c = Ok tt -> c = ViewState.
Proof.
  intros [Hr Hg] Hc. apply dec_stable. intros Hne. unfold check in Hc. rewrite Hr, Hg in Hc. by destruct c.
Qed.

Section Harmless.
Context {V : Type} `{PeerSocket V} `{ByteStream V} `{Clock V} {W : Type} `{Host W} `{Formats} {B : Type} `{SecretsBackend B W}
  `{Accounts} `{Serde Request} `{Serde ServerMessage}.
Abbreviation Sv := (served V B W).
Lemma deliver_manager cmd (s : Sv) : sv_manager (deliver cmd s).2 = (handle_command cmd (sv_manager s, sv_world s)).2.1.
Proof. unfold deliver. by destruct (handle_command cmd _) as [[a|e|why] [m w]]. Qed.
Lemma mgr_request_manager req identity (s : Sv) :
  required_capability req = ViewState -> sv_manager (mgr_request req identity s).2 = sv_manager s.
Proof.
  intros Hv. cbn -[deliver]. destruct (sv_alive s); [|done].
  assert (Hd : sv_manager (deliver (CmdRequest req identity) s).2 = sv_manager s).
  { rewrite deliver_manager. cbn. symmetry. apply (steps_bind (W := W) eq); [|steps].
    exact (view_request_same req identity Hv). }
  by destruct (deliver (CmdRequest req identity) s) as [[[|[r|c] [|]]|] s'].
Qed.
(** Requests of a peer without privileges, for any number of turns. *)
Lemma unprivileged_loop n identity (s : Sv) :
  unprivileged identity -> sv_manager (request_loop n identity s).2 = sv_manager s.
Proof.
  intros Hp. apply (request_loop_keeps (fun s' : Sv => sv_manager s' = sv_manager s) identity); [|done].
  split; intros; cbn -[mgr_request] in *.
  - unfold on_conn. by destruct (st_read_exact n0 (sv_conn w)).
  - unfold on_conn. by destruct (st_write_all b (sv_conn w)).
  - unfold on_conn. by destruct (st_flush (sv_conn w)).
  - by destruct (clk_instant (sv_conn w)).
  - done.
  - rewrite mgr_request_manager; [done|]. by eapply unprivileged_views.
Qed.
Lemma ev_register_run (s : Sv) :
  match ev_register s with
  | (RegClient id, s') => sv_alive s' = true /\ exists b, bus_register (mgr_events (sv_manager s)) = Ok (id, b)
      /\ sv_manager s' = set_events b (sv_manager s)
  | (_, s') => sv_manager s' = sv_manager s
  end.
Proof.
  cbn. destruct (sv_alive s); [|done]. unfold deliver, handle_command, mbind, M_bind, state_get, lift, state_modify. cbn.
  destruct (bus_register (mgr_events (sv_manager s))) as [[id b]|e|why] eqn:E; cbn; [|done..]. split; [done|]. by exists b.
Qed.
End Harmless.

(** ** Properties *)

(** C1: A peer without privileges can only look.  Whatever a connection of a
    peer that is neither root nor in the privileged group sends, for any number
    of requests, the manager's configuration, devices, profiles, connections,
    firewall, connectivity and audit trail are as they were; and once the
    connection has ended, so are the clients of the event bus. *)
Theorem unprivileged_connection {V} `{PeerSocket V} `{ByteStream V} `{Clock V} {W} `{Host W} `{Formats} {B} `{SecretsBackend B W}
    `{Accounts} `{Serde Request} `{Serde ServerMessage} n identity (s : served V B W) :
  (so_peercred (sv_conn s)).1 = inl identity -> unprivileged identity ->
  let '(r, s') := handle_connection n s in
  set_events (mgr_events (sv_manager s)) (sv_manager s') = sv_manager s
  /\ match r with
     | Err _ => mgr_ok (sv_manager s) -> sv_alive s' = true ->
         clients (mgr_events (sv_manager s')) = clients (mgr_events (sv_manager s))
     | _ => True
     end.
Proof.
  intros Hid Hp. assert (Hrefl : forall m : NetworkManager B, set_events (mgr_events m) m = m) by by intros [].
  assert (Hset : forall (m : NetworkManager B) b, set_events (mgr_events m) (set_events b m) = m) by by intros [].
  unfold handle_connection. unfold mbind at 1, M_bind at 1, peer_identity, io_try_with. cbn [so_peercred served_peer]. unfold on_conn at 1.
  destruct (so_peercred (sv_conn s)) as [r0 v0]. cbn in Hid. subst r0. unfold mbind at 1, M_bind at 1, io_try. cbn [ps_try_clone served_peer].
  unfold on_conn at 1. cbn [sv_conn]. destruct (ps_try_clone v0) as [[[]|e] v1]; [|by split; [apply Hrefl|]].
  set (s1 := mkServed v1 _ _ _). unfold mbind at 1, M_bind at 1, register_client, mbind at 1, M_bind at 1. rewrite observe_run.
  pose proof (ev_register_run s1) as Hr. destruct (ev_register s1) as [[| |id] s2]; cbn [fst snd];
    [split; [rewrite Hr; apply Hrefl|intros _ _; by rewrite Hr]..|].
  destruct Hr as (Hal & b & Hb & Hm2). unfold mret, M_ret. unfold mbind at 1, M_bind at 1, effect at 1. set (s3 := ps_spawn_events id s2).
  assert (Hm3 : sv_manager s3 = set_events b (sv_manager s)) by exact Hm2.
  unfold mbind at 1, M_bind at 1, attempt. pose proof (unprivileged_loop n identity s3 Hp) as Hl.
  destruct (request_loop n identity s3) as [[win|e|why] s4]; cbn [fst snd] in Hl; rewrite Hm3 in Hl; [split; [rewrite Hl; apply Hset|done]| |split; [rewrite Hl; apply Hset|done]].
  unfold mbind, M_bind, effect, throw. cbn -[deliver]. destruct (sv_alive s4) eqn:Ha; [|split; [rewrite Hl; apply Hset|by rewrite Ha]].
  rewrite deliver_manager. cbn. rewrite Hl. cbn. split; [by destruct (sv_manager s)|]. intros Hok _.
  change (delete id (clients b) = clients (mgr_events (sv_manager s))).
  apply bus_register_step in Hb as (-> & _ & -> & _). apply delete_insert_id. change (sv_manager s1) with (sv_manager s).
  destruct (clients _ !! _) eqn:E; [|done]. pose proof (mok_bus _ Hok (next_id (mgr_events (sv_manager s))) ltac:(by eexists)). lia.
Qed.
(** An ordinary user's connection asks for the state and then for a reload. *)
Definition user_socket : PeerSocket conn := {|
  so_peercred w := (inl (mkPeer 1000 1000 1), w);
  ps_try_clone w := (inl tt, w);
  ps_spawn_events _ w := w;
  ps_join_events w := w
|}.
#[local] Existing Instances user_socket conn_stream conn_clock no_accounts demo_request_serde demo_message_serde sim_host sim_formats.
Definition demo_served : served conn FileSecretsBackend sim :=
  mkServed demo_conn (demo_manager Activated {["eth0"%string := office]}) true (sim_start []).
Lemma unprivileged_connection_witness :
  unprivileged (mkPeer 1000 1000 1) /\
  let '(r, s') := handle_connection 3 demo_served in
  set_events (mgr_events (sv_manager demo_served)) (sv_manager s') = sv_manager demo_served.
Proof.
  assert (Hu : unprivileged (mkPeer 1000 1000 1)) by (split; reflexivity). split; [exact Hu|].
  pose proof (unprivileged_connection 3 (mkPeer 1000 1000 1) demo_served eq_refl Hu) as Hc.
  destruct (handle_connection 3 demo_served) as [r s']. exact (proj1 Hc).
Defined.

(** ** Timers and arguments *)

(** Whatever the configuration says, no timer is faster than five seconds. *)
Lemma timers_slow cfg :
  Forall (fun t => secs_to_nanos 5 <= timer_interval t) (scheduler_start (connectivity_interval cfg) (wifi_scan_interval cfg)).
Proof. unfold scheduler_start, connectivity_interval, wifi_scan_interval, secs_to_nanos. repeat (apply Forall_cons_2; [cbn [timer_interval]; lia|]). apply Forall_nil_2. Qed.
(** A timer's thread that has sent [n] ticks has slept [n] intervals. *)
Lemma tick_thread_slow {W} `{CommandSender W} `{Clock W} (time : W -> Z) n interval kind (w w' : W) :
  (forall d w, time w + d <= time (clk_sleep d w)) -> (forall c w, time w <= time (tx_send c w).2) ->
  tick_thread n interval kind w = (Ok true, w') -> time w + Z.of_nat n * interval <= time w'.
Proof.
  intros Hs Hc. revert w. induction n as [|n IH]; intros w; cbn [tick_thread]; [intros [_ ->]%mret_Ok; lia|].
  intros (u & w1 & [= <- <-] & (sent & w2 & Ho & Hk)%M_bind_Ok)%M_bind_Ok. rewrite observe_run in Ho. injection Ho as Ho <-.
  destruct sent; [|by apply mret_Ok in Hk as [? _]]. apply IH in Hk. pose proof (Hs interval w).
  pose proof (Hc (CmdTick kind) (clk_sleep interval w)). lia.
Qed.
Lemma last_from {A} (v d : A) l : List.last (v :: l) d = List.last l v.
Proof. revert v d. induction l as [|x l IH]; intros v d; [done|]. change (List.last (x :: l) d = List.last (x :: l) v). by rewrite !IH. Qed.
(** The daemon runs exactly when every argument is a configuration directory;
    the last one counts. *)
Lemma daemon_args_run d args c :
  daemon_parse d args = DaRun c <->
  exists dirs, args = concat (map (fun v => ["--config-dir"%string; v]) dirs) /\ c = List.last dirs d.
Proof.
  split.
  - revert d. induction args as [args IH] using (induction_ltof1 _ (@length string)). intros d.
    destruct args as [|a rest]; cbn [daemon_parse]; [intros [= <-]; by exists []|].
    destruct (String.eqb_spec a "--config-dir") as [->|_]; [|by repeat case_match].
    destruct rest as [|v rest]; [done|]. intros Hp. apply IH in Hp as (dirs & -> & ->); [|unfold ltof; cbn; lia].
    exists (v :: dirs). split; [done|]. by rewrite last_from.
  - intros (dirs & -> & ->). revert d. induction dirs as [|v dirs IH]; intros d; [done|]. rewrite last_from. apply IH.
Qed.
