(* ===== verification/Serve.v ===== *)
(** * Serving (ipc/server.rs [serve], main.rs [main], manager/scheduler.rs
    [start], device/discovery.rs [spawn_monitor])

    The listening socket, the accept loop with its cap, and the start of the
    daemon: from the words of its command line to the threads that feed the
    manager. *)

From Stdlib Require Import Ascii String.
From S2P Require Import Prelude RustStr IpAddr Sys Persistence World Netlink IpLayer Security Firewall Device.
From S2P Require Import Connection Ipc Config Wpa Logging Activation Wp Manager ManagerInv Daemon.

(** ** The accept loop *)

Definition CONNECTION_STACK_SIZE : Z := 256 * 1024.
(** The slots of [active_connections], and the thread that serves a stream:
    its name and the size of its stack. *)
Class ConnThreads (W : Type) := {
  slot_claim : W -> Z * W;                         (** [fetch_add(1)]: the count before *)
  slot_release : W -> W;                           (** [fetch_sub(1)] *)
  spawn_conn : string -> Z -> Z -> io W unit
}.

Section Serve.
Context {W : Type} `{FileSystem W} `{UnixStreams W} `{ConnThreads W} `{Stderr W} `{Static MinLevel W}.

(** Up to the first [accept]. *)
Definition serve_bind (socket_path : string) : M W Z :=
  io_try (fs_create_dir_all (path_parent socket_path)) ;;
  io_ignore (fs_remove socket_path) ;;
  listener ← io_try (us_bind socket_path);
  dropped_on_error (io_try (fs_chmod socket_path 438)) (us_close listener) ;;
  log_info ("listening on " +:+ socket_path) ;;
  mret listener.
(** One turn of [for stream in listener.incoming()]. *)
Definition accept_turn (listener : Z) : M W unit :=
  r ← io_match (us_accept listener);
  match r with
  | inr e => log_warn ("accept() failed: " +:+ io_err_text e)
  | inl stream =>
      prior ← observe slot_claim;
      if MAX_CONNECTIONS <=? prior then
        effect slot_release ;;
        log_warn "IPC connection cap reached, refusing a new connection" ;;
        effect (us_close stream)
      else
        spawned ← io_match (spawn_conn "mitos-net-ipc-conn" CONNECTION_STACK_SIZE stream);
        match spawned with
        | inl _ => mret tt
        | inr e =>
            effect (us_close stream) ;;            (** dropped with the closure *)
            effect slot_release ;;
            log_warn ("failed to spawn connection handler: " +:+ io_err_text e)
        end
  end.
(** [n] turns of a loop that never ends. *)
Fixpoint accept_loop (n : nat) (listener : Z) : M W unit :=
  match n with
  | O => mret tt
  | S n => accept_turn listener ;; accept_loop n listener
  end.
Definition ipc_serve (n : nat) (socket_path : string) : M W unit :=
  listener ← serve_bind socket_path; accept_loop n listener.
(** The server's thread in [main]: the status it ends the process with, if it does. *)
Definition ipc_thread (n : nat) (socket_path : string) : M W (option Z) :=
  r ← attempt (ipc_serve n socket_path);
  match r with
  | inl _ => mret None
  | inr e => effect (eprint ("IPC server exited: " +:+ error_to_string e)) ;; mret (Some 1)
  end.
End Serve.
(** The thread of a connection, for [n] requests: whether it is still running.
    Its slot is given back when it ends, by an error or a panic. *)
Definition conn_thread {W} `{PeerSocket W} `{EventChannel W} `{ByteStream W} `{Clock W} `{ManagerChannel W} `{Accounts} `{Serde Request} `{Serde ServerMessage}
    `{ConnThreads W} `{Stderr W} `{Static MinLevel W} (n : nat) : M W bool := fun w =>
  match handle_connection n w with
  | (Ok _, w) => (Ok true, w)
  | (Err e, w) => finally (log_debug ("connection closed: " +:+ error_to_string e) ;; mret false) slot_release w
  | (Panic why, w) => (Panic why, slot_release w)
  end.
(** The relay's thread: hotplug events become commands until the manager is gone. *)
Fixpoint relay_hotplug {W} `{CommandSender W} (events : list HotplugEvent) : M W unit :=
  match events with
  | [] => mret tt
  | ev :: events => sent ← observe (tx_send (CmdHotplug ev)); if (sent : bool) then relay_hotplug events else mret tt
  end.

(** *** The loop follows the protocol of the slots *)

(** A handler that ends, whatever the accept loop is at. *)
Inductive handler_end : accept_state -> accept_state -> Prop :=
| handler_end_at a h p : handler_end (mkAccept a (S h) p) (mkAccept (fetch_sub a) h p).
(** What the accept loop shares with the handlers, seen in the world: between
    any two operations, and within one, handlers may end. *)
Class AcceptView (W : Type) `{UnixStreams W} `{ConnThreads W} `{Stderr W} `{Static MinLevel W} := {
  accept_view : W -> accept_state;
  view_accept l w : rtc handler_end (accept_view w) (accept_view (us_accept l w).2);
  view_close s w : rtc handler_end (accept_view w) (accept_view (us_close s w));
  view_eprint line w : rtc handler_end (accept_view w) (accept_view (eprint line w));
  view_claim w a h :
    accept_view w = mkAccept a h Accepting ->
    exists a' h', rtc handler_end (mkAccept a h Accepting) (mkAccept a' h' Accepting)
      /\ (slot_claim w).1 = a'
      /\ rtc handler_end (mkAccept (fetch_add a') h' (Claimed a')) (accept_view (slot_claim w).2);
  view_release w a h prior :
    accept_view w = mkAccept a h (Claimed prior) ->
    exists a' h', rtc handler_end (mkAccept a h (Claimed prior)) (mkAccept a' h' (Claimed prior))
      /\ rtc handler_end (mkAccept (fetch_sub a') h' Accepting) (accept_view (slot_release w));
  view_spawn w name size s a h prior :
    accept_view w = mkAccept a h (Claimed prior) ->
    match spawn_conn name size s w with
    | (inl _, w') => exists a' h', rtc handler_end (mkAccept a h (Claimed prior)) (mkAccept a' h' (Claimed prior))
        /\ rtc handler_end (mkAccept a' (S h') Accepting) (accept_view w')
    | (inr _, w') => rtc handler_end (accept_view w) (accept_view w')
    end
}.

Section Slots.
Context {W : Type} `{FileSystem W} `{AcceptView W}.
Lemma handler_ends_steps s s' : rtc handler_end s s' -> rtc accept_step s s' /\ phase s' = phase s.
Proof.
  induction 1 as [s|s1 s2 s3 Hs _ [IH1 IH2]]; [done|]. destruct Hs. split; [|by rewrite IH2].
  eapply rtc_l; [constructor|exact IH1].
Qed.
Lemma view_eta s : s = mkAccept (active s) (handlers s) (phase s).
Proof. by destruct s. Qed.
Lemma log_view level msg (w : W) :
  (log level msg w).1 = Ok tt /\ rtc handler_end (accept_view w) (accept_view (log level msg w).2).
Proof.
  unfold log, mbind, M_bind, static_get. destruct (log_line _ level msg) as [line|]; cbn; [|done]. split; [done|]. apply view_eprint.
Qed.
(** From waiting to waiting. *)
Definition turned (w w' : W) : Prop := rtc accept_step (accept_view w) (accept_view w') /\ phase (accept_view w') = phase (accept_view w).
Lemma turned_ends w w' : rtc handler_end (accept_view w) (accept_view w') -> turned w w'.
Proof. apply handler_ends_steps. Qed.
Lemma turned_trans w1 w2 w3 : turned w1 w2 -> turned w2 w3 -> turned w1 w3.
Proof. intros [A1 B1] [A2 B2]. split; [by etrans|congruence]. Qed.
Lemma claim_walk w : phase (accept_view w) = Accepting ->
  rtc accept_step (accept_view w) (accept_view (slot_claim w).2) /\ phase (accept_view (slot_claim w).2) = Claimed (slot_claim w).1.
Proof.
  intros Hp. rewrite (view_eta (accept_view w)), Hp. destruct (view_claim w _ _ (eq_trans (view_eta _) (f_equal _ Hp))) as (a' & h' & H1' & Hc & H2').
  apply handler_ends_steps in H1' as [W1 _], H2' as [W2 Hph]. split; [|by rewrite Hph, Hc].
  etrans; [exact W1|]. eapply rtc_l; [apply accept_claim|exact W2].
Qed.
(** A slot given back, after a refusal or a failed spawn. *)
Lemma release_walk w prior : phase (accept_view w) = Claimed prior ->
  rtc accept_step (accept_view w) (accept_view (slot_release w)) /\ phase (accept_view (slot_release w)) = Accepting.
Proof.
  intros Hp. rewrite (view_eta (accept_view w)), Hp. destruct (view_release w _ _ prior (eq_trans (view_eta _) (f_equal _ Hp))) as (a' & h' & H1' & H2').
  apply handler_ends_steps in H1' as [W1 _], H2' as [W2 Hph]. split; [|done]. etrans; [exact W1|]. eapply rtc_l; [|exact W2].
  destruct (Z_lt_le_dec prior MAX_CONNECTIONS); [by eapply accept_spawn_failed|by eapply accept_refuse].
Qed.
Lemma spawn_walk w name size stream prior : phase (accept_view w) = Claimed prior -> prior < MAX_CONNECTIONS ->
  rtc accept_step (accept_view w) (accept_view (spawn_conn name size stream w).2)
  /\ phase (accept_view (spawn_conn name size stream w).2)
     = match (spawn_conn name size stream w).1 with inl _ => Accepting | inr _ => Claimed prior end.
Proof.
  intros Hp Hlt. pose proof (view_spawn w name size stream _ _ prior (eq_trans (view_eta _) (f_equal _ Hp))) as Hs.
  destruct (spawn_conn name size stream w) as [[u|e] w']; cbn [fst snd]; [|rewrite <- Hp; by apply turned_ends].
  destruct Hs as (a' & h' & H1' & H2'). apply handler_ends_steps in H1' as [W1 _], H2' as [W2 Hph]. split; [|done].
  rewrite (view_eta (accept_view w)), Hp. etrans; [exact W1|]. eapply rtc_l; [by eapply accept_spawn|exact W2].
Qed.
Lemma log_turned level msg w : exists w', log level msg w = (Ok tt, w') /\ turned w w'.
Proof. destruct (log_view level msg w) as [Hr Hv]. destruct (log level msg w) as [r w']. cbn in *. subst. exists w'. split; [done|by apply turned_ends]. Qed.

(** Each turn is a walk of [accept_step] from waiting to waiting, and ends. *)
Lemma accept_turn_walk l (w : W) :
  phase (accept_view w) = Accepting -> exists w', accept_turn l w = (Ok tt, w') /\ turned w w'.
Proof.
  intros Hp. unfold accept_turn, mbind at 1, M_bind at 1, io_match at 1.
  pose proof (turned_ends w _ (view_accept l w)) as T1. destruct (us_accept l w) as [[stream|e] w1]; cbn [snd] in T1.
  2:{ destruct (log_turned LWarn ("accept() failed: " +:+ io_err_text e) w1) as (w' & Hl & T2). exists w'. split; [exact Hl|by eapply turned_trans]. }
  destruct T1 as [W1 P1]. rewrite Hp in P1. unfold mbind at 1, M_bind at 1. rewrite observe_run. destruct (claim_walk w1 P1) as [W2 P2].
  destruct (slot_claim w1) as [prior w2]. cbn [fst snd] in *. destruct (Z.leb_spec MAX_CONNECTIONS prior) as [Hge|Hlt].
  - unfold mbind at 1, M_bind at 1, effect at 1. destruct (release_walk w2 _ P2) as [W3 P3].
    unfold mbind at 1, M_bind at 1, log_warn. destruct (log_turned LWarn "IPC connection cap reached, refusing a new connection" (slot_release w2)) as (w4 & -> & T4).
    eexists. split; [reflexivity|]. destruct (turned_trans _ _ _ T4 (turned_ends w4 _ (view_close stream w4))) as [W5 P5].
    split; [by repeat (etrans; [eassumption|])|congruence].
  - unfold mbind at 1, M_bind at 1, io_match at 1. destruct (spawn_walk w2 "mitos-net-ipc-conn" CONNECTION_STACK_SIZE stream prior P2 Hlt) as [W3 P3].
    destruct (spawn_conn _ _ stream w2) as [[u|e] w3]; cbn [fst snd] in *.
    + exists w3. split; [done|]. split; [by repeat (etrans; [eassumption|])|congruence].
    + unfold mbind at 1, M_bind at 1, effect at 1. destruct (turned_ends w3 _ (view_close stream w3)) as [Wc Pc]. rewrite P3 in Pc.
      unfold mbind at 1, M_bind at 1, effect at 1. destruct (release_walk _ _ Pc) as [W4 P4].
      destruct (log_turned LWarn ("failed to spawn connection handler: " +:+ io_err_text e) (slot_release (us_close stream w3))) as (w5 & Hl & [W5 P5]).
      exists w5. split; [exact Hl|]. split; [by repeat (etrans; [eassumption|])|congruence].
Qed.
Lemma accept_loop_walk n l (w : W) :
  phase (accept_view w) = Accepting -> exists w', accept_loop n l w = (Ok tt, w') /\ turned w w'.
Proof.
  revert w. induction n as [|n IH]; intros w Hp; cbn [accept_loop]; [by exists w|]. unfold mbind, M_bind.
  destruct (accept_turn_walk l w Hp) as (w1 & -> & T1). destruct (IH w1) as (w2 & -> & T2); [destruct T1; congruence|].
  exists w2. split; [done|by eapply turned_trans].
Qed.
(** The server ends the process exactly when it cannot listen. *)
Lemma ipc_thread_ends `{FileSystem W} n path (w : W) : phase (accept_view w) = Accepting ->
  (forall l w', serve_bind path w = (Ok l, w') -> accept_view w' = accept_view w) ->
  match serve_bind path w with
  | (Ok _, w') => exists w'', ipc_thread n path w = (Ok None, w'') /\ turned w' w''
  | (Err e, w') => ipc_thread n path w = (Ok (Some 1), eprint ("IPC server exited: " +:+ error_to_string e) w')
  | (Panic _, _) => True
  end.
Proof.
  intros Hp Hb. unfold ipc_thread, ipc_serve. unfold mbind, M_bind, attempt.
  destruct (serve_bind path w) as [[l|e|why] w'] eqn:E; [|done..].
  destruct (accept_loop_walk n l w') as (w'' & -> & Ht); [by rewrite (Hb l w')|]. by exists w''.
Qed.
End Slots.
(** The manager is sent the events in order, up to one it no longer takes. *)
Lemma relay_hotplug_order {W} `{CommandSender W} (sent : W -> list Command) events (w : W) :
  (forall c w, sent (tx_send c w).2 = sent w ++ if (tx_send c w).1 then [c] else []) ->
  exists w' l, relay_hotplug events w = (Ok tt, w') /\ l `prefix_of` map CmdHotplug events /\ sent w' = sent w ++ l.
Proof.
  intros Hs. revert w. induction events as [|ev events IH]; intros w; cbn [relay_hotplug].
  - exists w, []. rewrite app_nil_r. by split_and!.
  - unfold mbind, M_bind. rewrite observe_run. specialize (Hs (CmdHotplug ev) w). destruct (tx_send (CmdHotplug ev) w) as [[] w1]; cbn in Hs |- *.
    + destruct (IH w1) as (w' & l & -> & Hl & E). exists w', (CmdHotplug ev :: l). rewrite E, Hs, <- app_assoc. split_and!; [done|by apply prefix_cons|done].
    + exists w1, []. split_and!; [done|apply prefix_nil|done].
Qed.

(** ** Starting the daemon *)

(** The threads [main] spawns. *)
Inductive thread :=
| ThIpcServer (socket_path : string)
| ThMonitor (sock : NlSocket)
| ThRelay
| ThTimer (t : Timer)
| ThSignals.
(** [std::thread::Builder::spawn], [println!] and [libc::signal]. *)
Class MainThread (W : Type) := {
  th_spawn : thread -> io W unit;
  con_print : string -> W -> W;
  sig_install : W -> W
}.
(** What [main] comes to: an exit status, or a manager about to run. *)
Inductive started :=
| DaemonExit (code : Z)
| DaemonUp (manager : NetworkManager FileSecretsBackend).

Section Main.
Context {W : Type} `{Host W} `{Formats} `{MainThread W} (version : string).

Definition print_usage : M W unit :=
  effect (con_print ("mitos-network " +:+ version)) ;;
  effect (con_print "Usage: mitos-network [--config-dir <path>] [--version] [--help]").
(** [std::thread::spawn] and [.expect(..)] *)
Definition spawn_or_panic (t : thread) (why : string) : M W unit :=
  r ← io_match (th_spawn t);
  match r with inl _ => mret tt | inr _ => lift (Panic why) end.
(** [discovery::spawn_monitor]: the socket goes to the thread. *)
Definition spawn_monitor : M W unit :=
  sock ← monitor_new monitor_groups;
  dropped_on_error (io_try (th_spawn (ThMonitor sock))) (so_close (nl_fd sock)).
Definition start_hotplug : M W unit :=
  r ← attempt spawn_monitor;
  match r with
  | inl _ => spawn_or_panic ThRelay "failed to spawn thread"
  | inr e => log_warn ("could not start hotplug monitor: " +:+ error_to_string e)
  end.
Definition start_threads (cfg : NetworkConfig) : M W unit :=
  spawn_or_panic (ThIpcServer (socket_path (general cfg))) "failed to spawn thread" ;;
  start_hotplug ;;
  for_each (scheduler_start (connectivity_interval cfg) (wifi_scan_interval cfg))
    (fun t => spawn_or_panic (ThTimer t) "failed to spawn scheduler thread") ;;
  spawn_or_panic ThSignals "failed to spawn thread".
Definition daemon_start (config_dir : string) : M W started :=
  r ← attempt (load config_dir);
  match r with
  | inr e =>
      effect (eprint ("failed to load configuration from " +:+ config_dir +:+ ": " +:+ error_to_string e)) ;;
      mret (DaemonExit 1)
  | inl cfg =>
      effect sig_install ;;
      r ← attempt (manager_new cfg);
      match r with
      | inr e =>
          effect (eprint ("failed to initialize network manager: " +:+ error_to_string e)) ;;
          mret (DaemonExit 1)
      | inl manager => start_threads cfg ;; mret (DaemonUp manager)
      end
  end.
Definition daemon_main (args : list string) : M W started :=
  match daemon_main_args args with
  | DaMissing => effect (eprint "--config-dir requires a path argument") ;; mret (DaemonExit 2)
  | DaUnknown arg => effect (eprint ("unrecognized argument: " +:+ arg)) ;; print_usage ;; mret (DaemonExit 2)
  | DaVersion => effect (con_print ("mitos-network " +:+ version)) ;; mret (DaemonExit 0)
  | DaHelp => print_usage ;; mret (DaemonExit 0)
  | DaRun config_dir => daemon_start config_dir
  end.
(** [main], with the commands its threads send. *)
Definition daemon (args : list string) (cmds : list Command) : M W Z :=
  r ← daemon_main args;
  match r with
  | DaemonExit code => mret code
  | DaemonUp manager => fun w =>
      match run cmds (manager, w) with
      | (Ok _, (_, w)) => (Ok 0, w)
      | (Err e, (_, w)) => (Err e, w)
      | (Panic why, (_, w)) => (Panic why, w)
      end
  end.
End Main.

(** *** What is up when the daemon is up *)

(** The threads spawned so far. *)
Class SpawnLaws (W : Type) `{MainThread W} `{Sockets W} `{Stderr W} := {
  spawned : W -> list thread;
  spawned_th t w : spawned (th_spawn t w).2 = spawned w ++ match (th_spawn t w).1 with inl _ => [t] | inr _ => [] end;
  spawned_socket k w : spawned (so_socket k w).2 = spawned w;
  spawned_bind fd a w : spawned (so_bind fd a w).2 = spawned w;
  spawned_close fd w : spawned (so_close fd w) = spawned w;
  spawned_eprint line w : spawned (eprint line w) = spawned w
}.
Section Boot.
Context {W : Type} `{Host W} `{Formats} `{MainThread W} {SL : SpawnLaws W}.

Lemma keeps_log level msg : Sys.keeps spawned (log (W := W) level msg).
Proof. unfold log. apply keeps_bind; [done|]. intros min. case_match; [|frame]. apply keeps_effect. intros. apply spawned_eprint. Qed.
Lemma keeps_monitor_new groups : Sys.keeps spawned (monitor_new (W := W) groups).
Proof.
  unfold monitor_new, with_groups, with_protocol. frame; rewrite ?spawned_close; try done; intros w; [apply spawned_socket|apply spawned_bind].
Qed.
Lemma spawn_or_panic_Ok t why (w w' : W) : spawn_or_panic t why w = (Ok tt, w') -> spawned w' = spawned w ++ [t].
Proof.
  unfold spawn_or_panic, mbind, M_bind, io_match. pose proof (spawned_th t w) as Ht. destruct (th_spawn t w) as [[u|e] w1]; [|done].
  intros [= <-]. exact Ht.
Qed.
(** The threads of the hotplug monitor, when it could be started. *)
Definition hotplug_threads (l : list thread) : Prop := l = [] \/ exists sock, l = [ThMonitor sock; ThRelay].
Lemma spawn_monitor_spawned (w : W) :
  match spawn_monitor w with
  | (Ok _, w') => exists sock, spawned w' = spawned w ++ [ThMonitor sock]
  | (_, w') => spawned w' = spawned w
  end.
Proof.
  unfold spawn_monitor, mbind, M_bind. pose proof (keeps_monitor_new monitor_groups w) as Hm.
  destruct (monitor_new monitor_groups w) as [[sock|e|why] w1]; cbn in Hm; [|done..]. unfold dropped_on_error, io_try.
  pose proof (spawned_th (ThMonitor sock) w1) as Ht. destruct (th_spawn _ w1) as [[u|e] w2]; cbn in *.
  - exists sock. by rewrite Ht, Hm.
  - by rewrite spawned_close, Ht, app_nil_r.
Qed.
Lemma start_hotplug_spawned (w w' : W) : start_hotplug w = (Ok tt, w') -> exists l, hotplug_threads l /\ spawned w' = spawned w ++ l.
Proof.
  unfold start_hotplug, mbind at 1, M_bind at 1, attempt. pose proof (spawn_monitor_spawned w) as Hm.
  destruct (spawn_monitor w) as [[u|e|why] w1]; [| |done].
  - destruct Hm as [sock Hm]. intros Hs%spawn_or_panic_Ok. exists [ThMonitor sock; ThRelay]. split; [right; by exists sock|]. by rewrite Hs, Hm, <- app_assoc.
  - unfold log_warn. intros Hl. exists []. split; [by left|]. rewrite app_nil_r, <- Hm. pose proof (keeps_log LWarn ("could not start hotplug monitor: " +:+ error_to_string e) w1) as Hk.
    by rewrite Hl in Hk.
Qed.
Lemma spawn_timers l (w w' : W) :
  for_each l (fun t => spawn_or_panic (ThTimer t) "failed to spawn scheduler thread") w = (Ok tt, w') ->
  spawned w' = spawned w ++ map ThTimer l.
Proof.
  revert w. induction l as [|t l IH]; intros w; cbn [for_each map]; [intros [_ ->]%mret_Ok; by rewrite app_nil_r|].
  intros ([] & w1 & Ht%spawn_or_panic_Ok & Hl%IH)%M_bind_Ok. by rewrite Hl, Ht, <- app_assoc.
Qed.
Definition daemon_threads (cfg : NetworkConfig) (hot : list thread) : list thread :=
  ThIpcServer (socket_path (general cfg)) :: hot
  ++ map ThTimer (scheduler_start (connectivity_interval cfg) (wifi_scan_interval cfg)) ++ [ThSignals].
Lemma start_threads_spawned cfg (w w' : W) :
  start_threads cfg w = (Ok tt, w') -> exists hot, hotplug_threads hot /\ spawned w' = spawned w ++ daemon_threads cfg hot.
Proof.
  unfold start_threads. intros ([] & w1 & H1'%spawn_or_panic_Ok & ([] & w2 & (hot & Hh & H2')%start_hotplug_spawned & ([] & w3 & H3'%spawn_timers & H4'%spawn_or_panic_Ok)%M_bind_Ok)%M_bind_Ok)%M_bind_Ok.
  exists hot. split; [done|]. unfold daemon_threads. rewrite H4', H3', H2', H1'. by rewrite <- !app_assoc.
Qed.
(** No error escapes: a thread that cannot be spawned is a panic or a warning. *)
Definition no_error {A} (c : M W A) : Prop := forall w e, (c w).1 <> Err e.
Lemma no_error_bind {A A'} (c : M W A) (f : A -> M W A') : no_error c -> (forall a, no_error (f a)) -> no_error (c ≫= f).
Proof. intros Hc Hf w e. specialize (Hc w). unfold mbind, M_bind. destruct (c w) as [[a|e'|why] w1]; [apply Hf|by destruct (Hc e')|done]. Qed.
Lemma spawn_or_panic_no_error t why : no_error (spawn_or_panic (W := W) t why).
Proof. intros w e. unfold spawn_or_panic, mbind, M_bind, io_match. by destruct (th_spawn t w) as [[u|e'] w1]. Qed.
Lemma start_threads_no_error cfg : no_error (start_threads (W := W) cfg).
Proof.
  pose proof spawn_or_panic_no_error as Hs. unfold start_threads. apply no_error_bind; [apply Hs|]. intros _. apply no_error_bind.
  - unfold start_hotplug. apply no_error_bind.
    + intros w e. unfold attempt. by destruct (spawn_monitor w) as [[]].
    + intros [u|e]; [apply Hs|]. intros w e'. unfold log_warn, log, mbind, M_bind, static_get. by destruct (log_line _ _ _).
  - intros _. apply no_error_bind; [|intros _; apply Hs]. generalize (scheduler_start (connectivity_interval cfg) (wifi_scan_interval cfg)).
    intros l. induction l as [|t l IH]; cbn [for_each]; [done|]. by apply no_error_bind.
Qed.
Lemma manager_new_config config (w : W) m w1 : manager_new config w = (Ok m, w1) -> mgr_config m = config.
Proof. unfold manager_new. intros Hk. do 11 (apply M_bind_Ok in Hk as (? & ? & _ & Hk)). by apply mret_Ok in Hk as [-> _]. Qed.
Lemma load_valid dir (w w' : W) cfg : load dir w = (Ok cfg, w') -> valid_config cfg.
Proof.
  unfold load. intros Hl. do 4 (apply M_bind_Ok in Hl as (? & ? & _ & Hl)). apply M_bind_Ok in Hl as ([] & w1 & Hv & Hl).
  apply mret_Ok in Hl as [-> _]. unfold lift in Hv. injection Hv as Hv _. by apply validate_Ok in Hv.
Qed.
End Boot.

(** ** Properties *)

(** C18: The accept loop keeps to its cap.  Started with no handler, whatever
    connections arrive, fail or end in between, the loop's turns all return, its
    operations on the shared counter are a walk of [accept_step], so at most
    128 handlers live whenever it waits, the counter is their number, and no
    slot leaks. *)
Theorem accept_loop_cap {W} `{AcceptView W} n listener (w : W) :
  accept_view w = accept_start ->
  exists w', accept_loop n listener w = (Ok tt, w') /\ accept_reachable (accept_view w')
    /\ phase (accept_view w') = Accepting
    /\ Z.of_nat (handlers (accept_view w')) <= MAX_CONNECTIONS
    /\ active (accept_view w') = Z.of_nat (handlers (accept_view w')).
Proof.
  intros Hs. destruct (accept_loop_walk n listener w) as (w' & Hl & [Hw Hp]); [by rewrite Hs|]. exists w'. rewrite Hs in Hw, Hp.
  split; [done|]. split; [exact Hw|]. split; [done|]. pose proof (accept_reachable_ok _ Hw) as [Hc Ha]. rewrite Hp in Ha. done.
Qed.
(** A door where every second accept lets a handler end first. *)
Record door := mkDoor { door_state : accept_state; door_turn : bool }.
Definition door_leave (s : accept_state) : accept_state :=
  match handlers s with S h => mkAccept (fetch_sub (active s)) h (phase s) | O => s end.
Lemma door_leave_end s : rtc handler_end s (door_leave s).
Proof. destruct s as [a [|h] p]; [done|]. cbn. apply rtc_once. constructor. Qed.
#[local] Instance door_streams : UnixStreams door := {
  us_bind _ w := (inl 3, w); us_nonblocking _ _ w := (inl tt, w);
  us_accept _ w := (inl 7, mkDoor (if door_turn w then door_leave (door_state w) else door_state w) (negb (door_turn w)));
  us_write _ _ w := (inl tt, w); us_try_clone s w := (inl s, w); us_close _ w := w
}.
#[local] Instance door_threads : ConnThreads door := {
  slot_claim w := let s := door_state w in (active s, mkDoor (mkAccept (fetch_add (active s)) (handlers s) (Claimed (active s))) (door_turn w));
  slot_release w := let s := door_state w in mkDoor (mkAccept (fetch_sub (active s)) (handlers s) Accepting) (door_turn w);
  spawn_conn _ _ _ w := let s := door_state w in (inl tt, mkDoor (mkAccept (active s) (S (handlers s)) Accepting) (door_turn w))
}.
#[local] Instance door_stderr : Stderr door := { eprint _ w := w }.
#[local] Instance door_level : Static MinLevel door := { st_get _ := min_level_default; st_put _ w := w }.
#[local] Instance door_view : AcceptView door.
Proof.
  refine {| accept_view := door_state |}; try done.
  - intros l w. cbn. destruct (door_turn w); [apply door_leave_end|done].
  - intros w a h E. exists a, h. cbn. by rewrite E.
  - intros w a h p E. exists a, h. cbn. by rewrite E.
  - intros w name size s a h p E. exists a, h. cbn. by rewrite E.
Defined.
Lemma accept_loop_cap_witness :
  exists w', accept_loop 200 3 (mkDoor accept_start false) = (Ok tt, w') /\ Z.of_nat (handlers (accept_view w')) <= MAX_CONNECTIONS
    /\ handlers (accept_view w') = 100%nat.
Proof.
  assert (Hs : accept_view (mkDoor accept_start false) = accept_start) by reflexivity.
  destruct (accept_loop_cap 200 3 (mkDoor accept_start false) Hs) as (w' & Hl & _ & _ & Hc & _).
  exists w'. split; [exact Hl|]. split; [exact Hc|].
  assert (E : handlers (accept_view (accept_loop 200 3 (mkDoor accept_start false)).2) = 100%nat) by (vm_compute; reflexivity).
  rewrite Hl in E. exact E.
Defined.

(** C17: How the daemon starts.  It comes up only when every word of its command
    line names a configuration directory, with the configuration of the last one,
    which is valid; its manager then satisfies the invariant, and exactly the
    threads of [daemon_threads] have been spawned: the IPC server on the
    configured socket, the hotplug monitor with its relay or neither, the four
    timers and the signal watcher.  Otherwise the exit status says why: 2 for a
    bad command line, 1 for a configuration or manager that failed, 0 for a
    question about the version or the usage; an error never escapes. *)
Theorem daemon_boot {W} `{Host W} `{Formats} `{MainThread W} `{!SpawnLaws W} version args (w : W) :
  match daemon_main version args w with
  | (Ok (DaemonUp m), w') => exists dirs cfg w1 w2 hot,
      args = concat (map (fun v => ["--config-dir"%string; v]) dirs)
      /\ load (List.last dirs DEFAULT_CONFIG_DIR) w = (Ok cfg, w1) /\ valid_config cfg
      /\ manager_new cfg (sig_install w1) = (Ok m, w2) /\ mgr_config m = cfg /\ mgr_ok m
      /\ hotplug_threads hot /\ spawned w' = spawned w2 ++ daemon_threads cfg hot
  | (Ok (DaemonExit code), _) =>
      match daemon_main_args args with
      | DaMissing | DaUnknown _ => code = 2
      | DaVersion | DaHelp => code = 0
      | DaRun dir => code = 1 /\ ((exists e, (load dir w).1 = Err e)
                                  \/ exists cfg w1 e, load dir w = (Ok cfg, w1) /\ (manager_new cfg (sig_install w1)).1 = Err e)
      end
  | (Err _, _) => False
  | (Panic _, _) => True
  end.
Proof.
  unfold daemon_main. destruct (daemon_main_args args) as [dir| | | |arg] eqn:Ea; try done.
  unfold daemon_start, mbind at 1, M_bind at 1, attempt at 1. destruct (load dir w) as [[cfg|e|why] w1] eqn:El; [| |done].
  2:{ cbn. split; [done|]. left. by exists e. }
  unfold mbind at 1, M_bind at 1, effect at 1. unfold mbind at 1, M_bind at 1, attempt at 1.
  destruct (manager_new cfg (sig_install w1)) as [[m|e|why] w2] eqn:Em; [| |done].
  2:{ cbn. split; [done|]. right. exists cfg, w1, e. by rewrite Em. }
  unfold mbind at 1, M_bind at 1. destruct (start_threads cfg w2) as [[[]|e|why] w3] eqn:Et; [|exfalso|done].
  - cbn. apply daemon_args_run in Ea as (dirs & -> & ->). apply start_threads_spawned in Et as (hot & Hh & Hs).
    exists dirs, cfg, w1, w2, hot. split_and!; [done|done|by eapply load_valid|done|by eapply manager_new_config|by eapply manager_new_ok|done..].
  - by eapply (start_threads_no_error cfg w2 e); rewrite Et.
Qed.
(** The simulated host, with the threads in its trace. *)
#[local] Existing Instances sim_host sim_formats.
Definition kind_code (k : TickKind) : Z := match k with TkConnectivity => 0 | TkWifiScan => 1 | TkLeaseCheck => 2 | TkDeviceRefresh => 3 end.
Definition kind_of (z : Z) : TickKind := if z =? 0 then TkConnectivity else if z =? 1 then TkWifiScan else if z =? 2 then TkLeaseCheck else TkDeviceRefresh.
Definition thread_code (t : thread) : list Z :=
  match t with
  | ThIpcServer p => 1 :: str_bytes p
  | ThMonitor s => [2; nl_fd s; nl_seq s]
  | ThRelay => [3]
  | ThTimer t => 4 :: timer_interval t :: kind_code (timer_kind t) :: str_bytes (timer_thread t)
  | ThSignals => [5]
  end.
Definition thread_of (l : list Z) : option thread :=
  match l with
  | 1 :: p => Some (ThIpcServer (bytes_str p))
  | [2; fd; seq] => Some (ThMonitor (mkNlSocket fd seq))
  | [3] => Some ThRelay
  | 4 :: i :: k :: n => Some (ThTimer (mkTimer i (kind_of k) (bytes_str n)))
  | [5] => Some ThSignals
  | _ => None
  end.
Lemma thread_of_code t : thread_of (thread_code t) = Some t.
Proof. destruct t as [p|[fd seq]| |[i k n]|]; cbn; rewrite ?bytes_str_bytes; try done. by destruct k. Qed.
#[local] Instance sim_main : MainThread sim := {
  th_spawn t w := (inl tt, mkSim (sim_files w) (sim_inbox w) (sim_sent w ++ [(thread_code t, Dest6 0 0 0)]) (sim_open w)
    (sim_next_fd w) (sim_time w) (sim_tick w) (sim_commands w));
  con_print _ w := w;
  sig_install w := w
}.
#[local] Instance sim_spawn_laws : SpawnLaws sim.
Proof.
  refine {| spawned w := omap (fun e : list Z * dest_addr => match e.2 with Dest6 0 0 0 => thread_of e.1 | _ => None end) (sim_sent w) |}; try done.
  intros t w. cbn. rewrite omap_app. cbn. by rewrite thread_of_code.
Defined.
Definition booted : started * sim :=
  match daemon_main "0.1.0" ["--config-dir"; "/etc/net"]%string no_interfaces with (Ok s, w) => (s, w) | (_, w) => (DaemonExit 1, w) end.
Lemma daemon_boot_witness :
  exists m, booted.1 = DaemonUp m /\ mgr_ok m /\ length (spawned booted.2) = 8%nat.
Proof.
  pose proof (daemon_boot "0.1.0" ["--config-dir"; "/etc/net"]%string no_interfaces) as Hb.
  assert (E : (fun s => match s with DaemonUp _ => true | _ => false end) booted.1 = true) by (vm_compute; reflexivity).
  assert (E2 : daemon_main "0.1.0" ["--config-dir"; "/etc/net"]%string no_interfaces = (Ok booted.1, booted.2)) by (vm_compute; reflexivity).
  rewrite E2 in Hb. assert (El : length (spawned booted.2) = 8%nat) by (vm_compute; reflexivity).
  destruct booted as [[code|m] w']; [discriminate E|]. destruct Hb as (_ & _ & _ & _ & _ & _ & _ & _ & _ & _ & Hok & _).
  exists m. split; [reflexivity|]. split; [exact Hok|exact El].
Defined.
