(* ===== verification/System.v ===== *)
(** * The daemon as a system of threads (main.rs, ipc/server.rs
    [handle_connection] and [request_loop], manager/scheduler.rs)

    The manager's thread takes commands off one queue; connection threads,
    timers, the hotplug relay and the signal watcher put them there, and a
    connection waits for the answer to its own.  Here the threads interleave at
    every send, receive and handled command.  The slots of [Serve] bound how
    many connections there are; this model allows any number. *)

From Stdlib Require Import Ascii String.
From S2P Require Import Prelude RustStr IpAddr Sys Persistence World Netlink IpLayer Security Firewall Device.
From S2P Require Import Connection Ipc Config Logging Activation Wp Manager ManagerInv Daemon.

(** ** State *)

(** Where a connection's thread is. *)
Inductive conn_phase :=
| CpAccepted                               (** before it registers for events *)
| CpRegistering                            (** waiting for its client id *)
| CpReading (client : Z)                   (** in [read_message] *)
| CpWaiting (client : Z) (req : Request)   (** waiting for the manager's response *)
| CpEnded (client : option Z).             (** its loop is over; events may still be forwarded *)
(** A connection: its peer, what was written to it (by its own thread and by
    the one that forwards events, under one lock), the requests read from it,
    and how many events were forwarded. *)
Record connection := mkConnection {
  c_identity : PeerIdentity;
  c_phase : conn_phase;
  c_out : list ServerMessage;
  c_asked : list Request;
  c_events : nat
}.
(** A command in the queue, with the connection that waits for its answer. *)
Definition queued : Type := option nat * Command.
(** A command the manager has handled, with its answers. *)
Record log_entry := mkHandled { h_from : option nat; h_cmd : Command; h_replies : list Reply }.

Record system (B W : Type) := mkSystem {
  sys_queue : list queued;
  sys_alive : bool;                        (** the manager's thread runs *)
  sys_mgr : NetworkManager B;
  sys_world : W;
  sys_answers : gmap nat Reply;            (** answers not yet taken *)
  sys_channels : gmap Z (list Event);      (** what each client's channel was sent *)
  sys_conns : gmap nat connection;
  sys_log : list log_entry
}.
Arguments mkSystem {B W}.
Arguments sys_queue {B W}.
Arguments sys_alive {B W}.
Arguments sys_mgr {B W}.
Arguments sys_world {B W}.
Arguments sys_answers {B W}.
Arguments sys_channels {B W}.
Arguments sys_conns {B W}.
Arguments sys_log {B W}.

Definition conn_client (p : conn_phase) : option Z :=
  match p with CpReading id | CpWaiting id _ => Some id | CpEnded client => client | _ => None end.
Definition with_phase (c : connection) (p : conn_phase) : connection :=
  mkConnection (c_identity c) p (c_out c) (c_asked c) (c_events c).
(** A response is written, and the loop reads on. *)
Definition responded (c : connection) (client : Z) (r : Response) : connection :=
  mkConnection (c_identity c) (CpReading client) (c_out c ++ [SmResponse r]) (c_asked c) (c_events c).
(** A request is read. *)
Definition asks (c : connection) (p : conn_phase) (req : Request) : connection :=
  mkConnection (c_identity c) p (c_out c) (c_asked c ++ [req]) (c_events c).
Definition forwarded (c : connection) (ev : Event) : connection :=
  mkConnection (c_identity c) (c_phase c) (c_out c ++ [SmEvent ev]) (c_asked c) (S (c_events c)).

Section Steps.
Context {W : Type} `{Host W} `{Formats} {B : Type} `{SecretsBackend B W} `{Accounts}.
Abbreviation Sys := (system B W).
Implicit Types s : Sys.

Definition set_conn s (n : nat) (c : connection) : Sys :=
  mkSystem (sys_queue s) (sys_alive s) (sys_mgr s) (sys_world s) (sys_answers s) (sys_channels s)
    (<[n := c]> (sys_conns s)) (sys_log s).
(** [Sender::send]: lost once the receiver is gone. *)
Definition send s (q : queued) : Sys :=
  mkSystem (if sys_alive s then sys_queue s ++ [q] else sys_queue s) (sys_alive s) (sys_mgr s) (sys_world s) (sys_answers s) (sys_channels s)
    (sys_conns s) (sys_log s).
Definition take_answer s (n : nat) : Sys :=
  mkSystem (sys_queue s) (sys_alive s) (sys_mgr s) (sys_world s) (delete n (sys_answers s)) (sys_channels s)
    (sys_conns s) (sys_log s).
(** The manager's thread ends, which ends the process: its receiver and every
    waiting answer channel are dropped.  Its state and the world are not
    followed further. *)
Definition stopped s : Sys :=
  mkSystem [] false (sys_mgr s) (sys_world s) (sys_answers s) (sys_channels s) (sys_conns s) (sys_log s).
Definition answer_to (from : option nat) (replies : list Reply) (m : gmap nat Reply) : gmap nat Reply :=
  match from, replies with Some n, [r] => <[n := r]> m | _, _ => m end.
Definition managed s (from : option nat) (cmd : Command) (rest : list queued) (replies : list Reply) m w : Sys :=
  mkSystem rest true m w (answer_to from replies (sys_answers s)) (clients (mgr_events m) ∪ sys_channels s)
    (sys_conns s) (sys_log s ++ [mkHandled from cmd replies]).

(** The manager's thread. *)
Inductive manager_step : Sys -> Sys -> Prop :=
| ms_handle s from cmd rest replies m w :
    sys_alive s = true -> sys_queue s = (from, cmd) :: rest -> cmd <> CmdShutdown ->
    handle_command cmd (sys_mgr s, sys_world s) = (Ok replies, (m, w)) ->
    manager_step s (managed s from cmd rest replies m w)
| ms_shutdown s from rest :
    sys_alive s = true -> sys_queue s = (from, CmdShutdown) :: rest -> manager_step s (stopped s)
| ms_panic s from cmd rest r m w :
    sys_alive s = true -> sys_queue s = (from, cmd) :: rest -> cmd <> CmdShutdown ->
    handle_command cmd (sys_mgr s, sys_world s) = (r, (m, w)) -> (forall a, r <> Ok a) ->
    manager_step s (stopped s).

(** The thread of the connection [n], and the one that forwards its events.
    What the throttle adds is a delay before a step. *)
Inductive conn_step (n : nat) : Sys -> Sys -> Prop :=
| cs_register s c :
    sys_conns s !! n = Some c -> c_phase c = CpAccepted -> sys_alive s = true ->
    conn_step n s (send (set_conn s n (with_phase c CpRegistering)) (Some n, CmdRegisterEventClient))
| cs_refused s c :                         (** no identity, no descriptor, or no manager *)
    sys_conns s !! n = Some c -> c_phase c = CpAccepted ->
    conn_step n s (set_conn s n (with_phase c (CpEnded None)))
| cs_registered s c id :
    sys_conns s !! n = Some c -> c_phase c = CpRegistering -> sys_answers s !! n = Some (RepClient id) ->
    conn_step n s (take_answer (set_conn s n (with_phase c (CpReading id))) n)
| cs_unregistered s c :
    sys_conns s !! n = Some c -> c_phase c = CpRegistering -> sys_answers s !! n = None -> sys_alive s = false ->
    conn_step n s (set_conn s n (with_phase c (CpEnded None)))
| cs_request s c id req :
    sys_conns s !! n = Some c -> c_phase c = CpReading id -> check (c_identity c) (required_capability req) = Ok tt ->
    sys_alive s = true ->
    conn_step n s (send (set_conn s n (asks c (CpWaiting id req) req)) (Some n, CmdRequest req (c_identity c)))
| cs_request_gone s c id req :
    sys_conns s !! n = Some c -> c_phase c = CpReading id -> check (c_identity c) (required_capability req) = Ok tt ->
    sys_alive s = false ->
    conn_step n s (set_conn s n (asks c (CpEnded (Some id)) req))
| cs_denied s c id req e :
    sys_conns s !! n = Some c -> c_phase c = CpReading id -> check (c_identity c) (required_capability req) = Err e ->
    conn_step n s (set_conn s n (responded (asks c (CpReading id) req) id (ResError (error_to_string e))))
| cs_response s c id req r :
    sys_conns s !! n = Some c -> c_phase c = CpWaiting id req -> sys_answers s !! n = Some (RepResponse r) ->
    conn_step n s (take_answer (set_conn s n (responded c id r)) n)
| cs_no_response s c id req :
    sys_conns s !! n = Some c -> c_phase c = CpWaiting id req -> sys_answers s !! n = None -> sys_alive s = false ->
    conn_step n s (set_conn s n (responded c id (ResError "manager did not reply")))
| cs_denied_unwritten s c id req e :       (** the refusal cannot be written *)
    sys_conns s !! n = Some c -> c_phase c = CpReading id -> check (c_identity c) (required_capability req) = Err e ->
    conn_step n s (send (set_conn s n (asks c (CpEnded (Some id)) req)) (None, CmdUnregisterEventClient id))
| cs_unwritten s c id req :                (** the response, if there is one, cannot be written *)
    sys_conns s !! n = Some c -> c_phase c = CpWaiting id req -> is_Some (sys_answers s !! n) \/ sys_alive s = false ->
    conn_step n s (send (take_answer (set_conn s n (with_phase c (CpEnded (Some id)))) n) (None, CmdUnregisterEventClient id))
| cs_event s c id sent ev :
    sys_conns s !! n = Some c -> conn_client (c_phase c) = Some id -> sys_channels s !! id = Some sent ->
    sent !! c_events c = Some ev ->
    conn_step n s (set_conn s n (forwarded c ev))
| cs_hangup s c id :
    sys_conns s !! n = Some c -> c_phase c = CpReading id ->
    conn_step n s (send (set_conn s n (with_phase c (CpEnded (Some id)))) (None, CmdUnregisterEventClient id)).

(** The other sources of commands, and new connections. *)
Inductive source_step : Sys -> Sys -> Prop :=
| so_accept s n identity :
    sys_conns s !! n = None -> source_step s (set_conn s n (mkConnection identity CpAccepted [] [] 0))
| so_tick s kind : source_step s (send s (None, CmdTick kind))
| so_hotplug s ev : source_step s (send s (None, CmdHotplug ev))
| so_signal s : source_step s (send s (None, CmdShutdown)).

Inductive sys_step : Sys -> Sys -> Prop :=
| step_manager s s' : manager_step s s' -> sys_step s s'
| step_conn n s s' : conn_step n s s' -> sys_step s s'
| step_source s s' : source_step s s' -> sys_step s s'.
(** [run] at its loop, with a manager that has tried to connect what it can. *)
Definition sys_start (m : NetworkManager B) (w : W) : Sys := mkSystem [] true m w ∅ (clients (mgr_events m)) ∅ [].
Definition sys_reachable (m : NetworkManager B) (w : W) : Sys -> Prop := rtc sys_step (sys_start m w).

(** *** The manager is sequential *)

Lemma serve_snoc cmds cmd st replies st' sent m w :
  (CmdShutdown ∉ cmds) -> cmd <> CmdShutdown ->
  serve cmds st = (Ok replies, st') -> handle_command cmd st' = (Ok sent, (m, w)) ->
  serve (B := B) (cmds ++ [cmd]) st = (Ok (replies ++ sent), (m, w)).
Proof.
  intros Hns Hc. revert st replies. induction cmds as [|c cmds IH]; intros st replies Hs Hh; cbn [app].
  - cbn in Hs. injection Hs as <- <-. assert (E : serve [cmd] st = (sent ← handle_command cmd; rest ← mret []; mret (sent ++ rest)) st) by (by destruct cmd).
    rewrite E. unfold mbind, M_bind, mret, M_ret. rewrite Hh. by rewrite app_nil_r.
  - apply list.not_elem_of_cons in Hns as [Hcs Hns]. assert (E : forall l, serve (c :: l) st = (sent ← handle_command c; rest ← serve l; mret (sent ++ rest)) st) by (by destruct c).
    rewrite E in Hs |- *. unfold mbind, M_bind in *. destruct (handle_command c st) as [[a|e|why] st1]; [|done..].
    destruct (serve cmds st1) as [[b|e|why] st2] eqn:Es; [|done..]. injection Hs as <- <-. rewrite (IH Hns st1 b Es Hh). unfold mret, M_ret. by rewrite app_assoc.
Qed.
Definition log_cmds (l : list log_entry) : list Command := map h_cmd l.
Definition sequential (m0 : NetworkManager B) (w0 : W) s : Prop :=
  (CmdShutdown ∉ log_cmds (sys_log s)) /\
  serve (log_cmds (sys_log s)) (m0, w0) = (Ok (concat (map h_replies (sys_log s))), (sys_mgr s, sys_world s)).
Lemma conn_step_manager n s s' : conn_step n s s' ->
  sys_log s' = sys_log s /\ sys_mgr s' = sys_mgr s /\ sys_world s' = sys_world s /\ sys_alive s' = sys_alive s /\ sys_channels s' = sys_channels s.
Proof. by destruct 1. Qed.
Lemma source_step_manager s s' : source_step s s' ->
  sys_log s' = sys_log s /\ sys_mgr s' = sys_mgr s /\ sys_world s' = sys_world s /\ sys_alive s' = sys_alive s /\ sys_channels s' = sys_channels s.
Proof. by destruct 1. Qed.
Lemma sequential_step m0 w0 s s' : sys_step s s' -> sequential m0 w0 s -> sequential m0 w0 s'.
Proof.
  intros Hs [Hn Hq]. destruct Hs as [s s' Hm|n s s' Hc|s s' Hc].
  - destruct Hm as [s from cmd rest replies m w Ha Hqe Hcs Hh|s from rest Ha Hqe|s from cmd rest r m w Ha Hqe Hcs Hh Hr]; [|by split..].
    unfold sequential, log_cmds in *. cbn. rewrite !map_app, concat_app. cbn. rewrite app_nil_r. split.
    + rewrite elem_of_app, list_elem_of_singleton. intros [Hi|Hi]; [by apply Hn|by apply Hcs].
    + by eapply serve_snoc.
  - destruct (conn_step_manager _ _ _ Hc) as (E1 & E2 & E3 & _). unfold sequential. rewrite E1, E2, E3. by split.
  - destruct (source_step_manager _ _ Hc) as (E1 & E2 & E3 & _). unfold sequential. rewrite E1, E2, E3. by split.
Qed.
Lemma reachable_sequential m0 w0 s : sys_reachable m0 w0 s -> sequential m0 w0 s.
Proof.
  intros Hr. unfold sys_reachable in Hr. assert (H0' : sequential m0 w0 (sys_start m0 w0)).
  { split; [cbn; by apply list.not_elem_of_nil|done]. }
  revert H0'. induction Hr as [|x y z Hs _ IH]; [done|]. intros Hx. by eapply IH, sequential_step.
Qed.

(** *** What a connection is told *)

Definition from_conn (n : nat) (q : queued) : bool := bool_decide (q.1 = Some n).
Definition pending s (n : nat) : list queued := List.filter (from_conn n) (sys_queue s).
(** The requests of the connection the manager has answered, in order. *)
Definition request_of (n : nat) (h : log_entry) : option (Request * PeerIdentity * Response) :=
  match h_cmd h, h_replies h with
  | CmdRequest req identity, [RepResponse r] => if bool_decide (h_from h = Some n) then Some (req, identity, r) else None
  | _, _ => None
  end.
Definition requests_of (n : nat) (l : list log_entry) : list (Request * PeerIdentity * Response) := omap (request_of n) l.
Definition response_of (m : ServerMessage) : option Response := match m with SmResponse r => Some r | SmEvent _ => None end.
Definition responses (c : connection) : list Response := omap response_of (c_out c).

(** The responses a peer got, for the requests it sent: in order, a request it
    had no right to is refused without the manager, any other gets the answer
    the manager gave to this very request, or is told that there was none. *)
Inductive answered (i : PeerIdentity) : list (Request * PeerIdentity * Response) -> list Request -> list Response -> Prop :=
| answered_nil : answered i [] [] []
| answered_denied l q rs req e :
    answered i l q rs -> check i (required_capability req) = Err e ->
    answered i l (q ++ [req]) (rs ++ [ResError (error_to_string e)])
| answered_handled l q rs req r :
    answered i l q rs -> check i (required_capability req) = Ok tt ->
    answered i (l ++ [(req, i, r)]) (q ++ [req]) (rs ++ [r])
| answered_lost l q rs req :
    answered i l q rs -> check i (required_capability req) = Ok tt ->
    answered i l (q ++ [req]) (rs ++ [ResError "manager did not reply"]).

(** What is on its way for the connection: the command in the queue, the answer
    to take, or nothing any more. *)
Inductive awaiting (alive : bool) (cmd : queued) (pend : list queued) (ans : option Reply) (got : Reply -> Prop) (none : Prop) : Prop :=
| aw_queued : alive = true -> pend = [cmd] -> ans = None -> none -> awaiting alive cmd pend ans got none
| aw_answered r : pend = [] -> ans = Some r -> got r -> awaiting alive cmd pend ans got none
| aw_dropped : pend = [] -> ans = None -> alive = false -> none -> awaiting alive cmd pend ans got none.

(** A connection that has ended: what it asked last may not have been answered,
    whether or not the manager handled it. *)
Inductive unanswered (i : PeerIdentity) (l : list (Request * PeerIdentity * Response)) (asked : list Request) (rs : list Response) : Prop :=
| un_none : answered i l asked rs -> unanswered i l asked rs
| un_last q req : asked = q ++ [req] -> answered i l q rs -> unanswered i l asked rs
| un_handled q req l' r :
    asked = q ++ [req] -> l = l' ++ [(req, i, r)] -> check i (required_capability req) = Ok tt ->
    answered i l' q rs -> unanswered i l asked rs.

Definition conn_inv (n : nat) (alive : bool) (pend : list queued) (ans : option Reply)
    (l : list (Request * PeerIdentity * Response)) (oc : option connection) : Prop :=
  match oc with
  | None => pend = [] /\ ans = None /\ l = []
  | Some c =>
      match c_phase c with
      | CpAccepted => pend = [] /\ ans = None /\ answered (c_identity c) l (c_asked c) (responses c)
      | CpRegistering =>
          awaiting alive (Some n, CmdRegisterEventClient) pend ans (fun r => exists id, r = RepClient id) True
          /\ answered (c_identity c) l (c_asked c) (responses c)
      | CpReading _ => pend = [] /\ ans = None /\ answered (c_identity c) l (c_asked c) (responses c)
      | CpWaiting _ req => exists q, c_asked c = q ++ [req] /\ check (c_identity c) (required_capability req) = Ok tt /\
          awaiting alive (Some n, CmdRequest req (c_identity c)) pend ans
            (fun r => exists res l', r = RepResponse res /\ l = l' ++ [(req, c_identity c, res)] /\ answered (c_identity c) l' q (responses c))
            (answered (c_identity c) l q (responses c))
      | CpEnded _ => pend = [] /\ ans = None /\ unanswered (c_identity c) l (c_asked c) (responses c)
      end
  end.
Definition conns_inv s : Prop := forall n,
  conn_inv n (sys_alive s) (pending s n) (sys_answers s !! n) (requests_of n (sys_log s)) (sys_conns s !! n).

(** The kinds of answers the manager gives. *)
Definition expected (cmd : Command) (replies : list Reply) : Prop :=
  match cmd with
  | CmdRequest _ _ => exists r, replies = [RepResponse r]
  | CmdRegisterEventClient => exists id, replies = [RepClient id]
  | _ => replies = []
  end.
Lemma handle_command_expected cmd st replies st' : handle_command (B := B) cmd st = (Ok replies, st') -> expected cmd replies.
Proof.
  destruct cmd as [req i| |id|ev|kind|]; cbn [handle_command expected].
  - intros (r & s1 & _ & [-> _]%mret_Ok)%M_bind_Ok. by exists r.
  - intros (m & s1 & _ & ([id events] & s2 & _ & (u & s3 & _ & [-> _]%mret_Ok)%M_bind_Ok)%M_bind_Ok)%M_bind_Ok. by exists id.
  - by intros (u & s1 & _ & [-> _]%mret_Ok)%M_bind_Ok.
  - by intros (u & s1 & _ & [-> _]%mret_Ok)%M_bind_Ok.
  - by intros (u & s1 & _ & [-> _]%mret_Ok)%M_bind_Ok.
  - by intros [-> _]%mret_Ok.
Qed.

Lemma conn_inv_handled n cmd p ans l oc replies :
  expected cmd replies -> conn_inv n true ((Some n, cmd) :: p) ans l oc ->
  conn_inv n true p (answer_to (Some n) replies (from_option (fun r => {[n := r]}) ∅ ans) !! n)
    (l ++ option_list (request_of n (mkHandled (Some n) cmd replies))) oc.
Proof.
  intros He Hi. unfold conn_inv in *. destruct oc as [c|]; [|by destruct Hi]. destruct (c_phase c) as [| |id|id req|cl] eqn:Ep.
  - by destruct Hi.
  - destruct Hi as [[_ [= -> ->] -> _|r [=]|[=]] Ha]. destruct He as [id ->]. cbn. rewrite lookup_insert_eq, app_nil_r. split; [|done].
    eapply aw_answered; [done|done|by exists id].
  - by destruct Hi.
  - destruct Hi as (q & Hq & Hc & [_ [= -> ->] -> Ha|r [=]|[=]]). destruct He as [r ->]. cbn. rewrite lookup_insert_eq.
    exists q. split; [done|]. split; [done|]. eapply aw_answered; [done|done|]. exists r, l. rewrite bool_decide_eq_true_2 by done. by split.
  - by destruct Hi.
Qed.
Lemma conn_inv_stopped n pend ans l oc : conn_inv n true pend ans l oc -> conn_inv n false [] ans l oc.
Proof.
  unfold conn_inv. destruct oc as [c|]; [|by intros (_ & ? & ?)]. destruct (c_phase c) as [| |id|id req|cl].
  - by intros (_ & ? & ?).
  - intros [[_ _ -> _|r _ -> Hr|_ -> [=]] Ha]; (split; [|done]); [by apply aw_dropped|by eapply aw_answered].
  - by intros (_ & ? & ?).
  - intros (q & Hq & Hc & [_ _ -> Ha|r _ -> Hr|_ _ [=]]); exists q; (split; [done|split; [done|]]); [by apply aw_dropped|by eapply aw_answered].
  - by intros (_ & ? & ?).
Qed.
Lemma answer_to_ne from replies m n : from <> Some n -> answer_to from replies m !! n = m !! n.
Proof.
  intros Hn. unfold answer_to. destruct from as [k|]; [|done]. repeat case_match; try done. apply lookup_insert_ne. congruence.
Qed.
Lemma conns_inv_manager s s' : manager_step s s' -> conns_inv s -> conns_inv s'.
Proof.
  intros [s0 from cmd rest replies m w Ha Hq Hcs Hh|s0 from rest Ha Hq|s0 from cmd rest r m w Ha Hq Hcs Hh Hr] Hinv n; specialize (Hinv n).
  - apply handle_command_expected in Hh. unfold pending in *. cbn -[answer_to]. rewrite Ha, Hq in Hinv. cbn [List.filter] in Hinv.
    unfold requests_of in *. rewrite omap_app. destruct (from_conn n (from, cmd)) eqn:Ef.
    + apply bool_decide_eq_true in Ef. cbn in Ef. subst from. eapply conn_inv_handled in Hinv; [|exact Hh].
      replace (answer_to (Some n) replies (sys_answers s0) !! n)
        with (answer_to (Some n) replies (from_option (fun r => {[n := r]}) ∅ (sys_answers s0 !! n)) !! n);
        [by destruct (request_of n (mkHandled (Some n) cmd replies)) eqn:E; cbn in *; rewrite E|].
      unfold answer_to. destruct replies as [|r [|r' rs]]; [|by rewrite !lookup_insert_eq|];
        (destruct (sys_answers s0 !! n); cbn; [by rewrite lookup_singleton_eq|done]).
    + apply bool_decide_eq_false in Ef. cbn in Ef. rewrite answer_to_ne by done.
      assert (E : request_of n (mkHandled from cmd replies) = None).
      { unfold request_of. cbn. destruct cmd; try done. destruct replies as [|[] []]; try done. by rewrite bool_decide_eq_false_2. }
      cbn. rewrite E. by rewrite app_nil_r.
  - cbn. rewrite Ha in Hinv. by eapply conn_inv_stopped.
  - cbn. rewrite Ha in Hinv. by eapply conn_inv_stopped.
Qed.

Lemma pending_send s q n : pending (send s q) n = pending s n ++ (if sys_alive s && from_conn n q then [q] else []).
Proof.
  unfold pending, send. cbn. destruct (sys_alive s); cbn; [|by rewrite app_nil_r]. rewrite filter_app. cbn. by destruct (from_conn n q).
Qed.
Lemma pending_other s q n : q.1 <> Some n -> pending (send s q) n = pending s n.
Proof.
  intros Hq. rewrite pending_send. unfold from_conn. rewrite bool_decide_eq_false_2 by done. rewrite andb_false_r. by rewrite app_nil_r.
Qed.
Lemma pending_own s n cmd : sys_alive s = true -> pending (send s (Some n, cmd)) n = pending s n ++ [(Some n, cmd)].
Proof. intros Ha. rewrite pending_send, Ha. unfold from_conn. by rewrite bool_decide_eq_true_2. Qed.
Lemma pending_unregister s id n : pending (send s (None, CmdUnregisterEventClient id)) n = pending s n.
Proof. by apply pending_other. Qed.
(** A connection's step leaves the others alone. *)
Lemma conn_step_other n s s' k : conn_step n s s' -> k <> n ->
  sys_conns s' !! k = sys_conns s !! k /\ sys_answers s' !! k = sys_answers s !! k /\ pending s' k = pending s k.
Proof.
  intros Hs Hk. destruct Hs; cbn [sys_conns sys_answers send set_conn take_answer]; rewrite ?lookup_insert_ne, ?lookup_delete_ne by done; (split; [done|]); (split; [done|]);
    rewrite ?pending_other by (cbn; congruence); done.
Qed.
Lemma responses_snoc c id r : responses (responded c id r) = responses c ++ [r].
Proof. unfold responses. cbn. by rewrite omap_app. Qed.
Lemma responses_event c ev : responses (forwarded c ev) = responses c.
Proof. unfold responses. cbn. by rewrite omap_app, app_nil_r. Qed.
Lemma conn_inv_event n alive pend ans l c ev : conn_inv n alive pend ans l (Some c) -> conn_inv n alive pend ans l (Some (forwarded c ev)).
Proof. unfold conn_inv. rewrite responses_event. by destruct c. Qed.
Lemma conns_inv_conn n s s' : conn_step n s s' -> conns_inv s -> conns_inv s'.
Proof.
  intros Hs Hinv k. destruct (conn_step_manager _ _ _ Hs) as (El & _ & _ & Ea & _). rewrite El, Ea.
  destruct (decide (k = n)) as [->|Hk]; [|by destruct (conn_step_other _ _ _ k Hs Hk) as (-> & -> & ->)].
  specialize (Hinv n). clear El Ea.
  destruct Hs as [s c Hc Hp Ha|s c Hc Hp|s c id Hc Hp Hr|s c Hc Hp Hr Ha|s c id req Hc Hp Hch Ha|s c id req Hc Hp Hch Ha|s c id req e Hc Hp Hch
                 |s c id req r Hc Hp Hr|s c id req Hc Hp Hr Ha|s c id req e Hc Hp Hch|s c id req Hc Hp Hr|s c id sent ev Hc Hcl Hch Hev|s c id Hc Hp];
    rewrite Hc in Hinv; rewrite ?pending_unregister; cbn [sys_conns sys_answers send set_conn take_answer sys_alive];
    rewrite ?lookup_insert_eq, ?lookup_delete_eq; try (apply conn_inv_event; exact Hinv); unfold conn_inv in Hinv |- *; rewrite Hp in Hinv; cbn [with_phase c_phase c_identity c_asked asks responded];
    rewrite ?responses_snoc.
  - destruct Hinv as (Hpe & Hans & Hd). rewrite pending_own by done. change (pending (set_conn s n _) n) with (pending s n). rewrite Hpe. split; [|done]. by apply aw_queued.
  - destruct Hinv as (Hpe & Hans & Hd). split_and!; [done..|by apply un_none].
  - destruct Hinv as [[_ _ E _|r Hpe _ _|_ E _ _] Hd]; [congruence| |congruence]. done.
  - destruct Hinv as [[E _ _ _|r _ E _|Hpe E _ _] Hd]; [congruence|congruence|]. split_and!; [done..|by apply un_none].
  - destruct Hinv as (Hpe & Hans & Hd). rewrite pending_own by done. change (pending (set_conn s n _) n) with (pending s n). rewrite Hpe.
    exists (c_asked c). split_and!; [done..|by apply aw_queued].
  - destruct Hinv as (Hpe & Hans & Hd). split_and!; [done..|by eapply un_last].
  - destruct Hinv as (Hpe & Hans & Hd). split_and!; [done..|by apply answered_denied].
  - destruct Hinv as (q & Hq & Hch & [_ _ E _|r' Hpe E (res & l' & -> & El & Hd)|_ E _ _]); [congruence| |congruence].
    rewrite Hr in E. injection E as <-. split; [done|]. split; [done|]. rewrite El, Hq. by apply answered_handled.
  - destruct Hinv as (q & Hq & Hch & [E _ _ _|r' _ E _|Hpe _ _ Hd]); [congruence|congruence|]. split; [done|]. split; [done|].
    rewrite Hq. by apply answered_lost.
  - destruct Hinv as (Hpe & Hans & Hd). split_and!; [done..|by eapply un_last].
  - destruct Hinv as (q & Hq & Hch & [E _ E' _|r' Hpe E (res & l' & -> & El & Hd)|Hpe _ _ Hd]).
    + destruct Hr as [[r Hr]|Hr]; congruence.
    + split_and!; [done..|by eapply un_handled].
    + split_and!; [done..|by eapply un_last].
  - destruct Hinv as (Hpe & Hans & Hd). split_and!; [done..|by apply un_none].
Qed.
Lemma conns_inv_source s s' : source_step s s' -> conns_inv s -> conns_inv s'.
Proof.
  intros Hs Hinv k. destruct Hs as [s n identity Hn|s kind|s ev|s]; [|rewrite pending_other by done; exact (Hinv k)..].
  specialize (Hinv k). cbn [sys_conns set_conn sys_log sys_answers]. destruct (decide (k = n)) as [->|Hk]; [|by rewrite lookup_insert_ne]. rewrite lookup_insert_eq. rewrite Hn in Hinv.
  destruct Hinv as (Hpe & Hans & El). rewrite El. split; [done|]. split; [done|]. apply answered_nil.
Qed.
Lemma reachable_conns m0 w0 s : sys_reachable m0 w0 s -> conns_inv s.
Proof.
  intros Hr. unfold sys_reachable in Hr. assert (H0' : conns_inv (sys_start m0 w0)) by (intros n; by cbn).
  revert H0'. induction Hr as [|x y z Hs _ IH]; [done|]. intros Hx. apply IH.
  destruct Hs; [by eapply conns_inv_manager|by eapply conns_inv_conn|by eapply conns_inv_source].
Qed.

(** *** Who asked *)

Definition authorised s (q : queued) : Prop :=
  match q.2 with
  | CmdRequest req identity => exists n c, q.1 = Some n /\ sys_conns s !! n = Some c /\ c_identity c = identity
                                 /\ check identity (required_capability req) = Ok tt
  | _ => True
  end.
Definition handled_queued (h : log_entry) : queued := (h_from h, h_cmd h).
Definition auth_inv s : Prop := Forall (authorised s) (sys_queue s) /\ Forall (authorised s) (map handled_queued (sys_log s)).
(** Connections stay, and keep their peer. *)
Definition conns_stay s s' : Prop := forall n c, sys_conns s !! n = Some c -> exists c', sys_conns s' !! n = Some c' /\ c_identity c' = c_identity c.
Lemma sys_step_conns s s' : sys_step s s' -> conns_stay s s'.
Proof.
  intros Hs k c Hk. destruct Hs as [s s' []|n s s' Hc|s s' Hc]; cbn; try by exists c.
  - destruct Hc; cbn; (destruct (decide (k = n)) as [->|Hn]; [rewrite lookup_insert_eq; eexists; split; [done|]; simplify_eq; by cbn|rewrite lookup_insert_ne by done; by exists c]).
  - destruct Hc as [s n i Hn| | |]; cbn; try by exists c. rewrite lookup_insert_ne; [by exists c|congruence].
Qed.
Lemma authorised_stay s s' q : conns_stay s s' -> authorised s q -> authorised s' q.
Proof.
  intros Hst. unfold authorised. destruct q as [from [req i| | | | |]]; cbn; try done. intros (n & c & -> & Hc & <- & Hch).
  destruct (Hst n c Hc) as (c' & Hc' & Hi). exists n, c'. by rewrite Hi.
Qed.
Lemma auth_inv_step s s' : sys_step s s' -> auth_inv s -> auth_inv s'.
Proof.
  intros Hs [Hq Hl]. pose proof (sys_step_conns _ _ Hs) as Hst.
  assert (Hq' : Forall (authorised s') (sys_queue s)) by (eapply List.Forall_impl; [intros q; by apply authorised_stay|exact Hq]).
  assert (Hl' : Forall (authorised s') (map handled_queued (sys_log s))) by (eapply List.Forall_impl; [intros q; by apply authorised_stay|exact Hl]).
  clear Hq Hl Hst. destruct Hs as [s s' Hm|n s s' Hc|s s' Hc].
  - destruct Hm as [s from cmd rest replies m w Ha Hqe Hcs Hh|s from rest Ha Hqe|s from cmd rest r m w Ha Hqe Hcs Hh Hr]; [|by split..].
    unfold auth_inv. cbn. rewrite map_app. rewrite Hqe in Hq'. apply Forall_cons_1 in Hq' as [Hf Hrest]. split; [done|].
    apply Forall_app. split; [done|]. by apply Forall_singleton.
  - assert (Hsend : forall q, authorised s' q -> Forall (authorised s') (if sys_alive s then sys_queue s ++ [q] else sys_queue s)).
    { intros q Hq. destruct (sys_alive s); [|done]. apply Forall_app. split; [done|]. by apply Forall_singleton. }
    destruct Hc; unfold auth_inv; cbn in *; (split; [|done]); try done; apply Hsend; try done. cbn. eexists n, _. rewrite lookup_insert_eq. by split_and!.
  - assert (Hsend : forall q, authorised s' q -> Forall (authorised s') (if sys_alive s then sys_queue s ++ [q] else sys_queue s)).
    { intros q Hq. destruct (sys_alive s); [|done]. apply Forall_app. split; [done|]. by apply Forall_singleton. }
    destruct Hc; unfold auth_inv; cbn in *; (split; [|done]); try done; by apply Hsend.
Qed.
Lemma reachable_auth m0 w0 s : sys_reachable m0 w0 s -> auth_inv s.
Proof.
  intros Hr. unfold sys_reachable in Hr. assert (H0' : auth_inv (sys_start m0 w0)) by (split; constructor).
  revert H0'. induction Hr as [|x y z Hs _ IH]; [done|]. intros Hx. by eapply IH, auth_inv_step.
Qed.
(** The state a handled command found, and left. *)
Lemma serve_split l1 c l2 st replies st' :
  (CmdShutdown ∉ l1) -> c <> CmdShutdown -> serve (B := B) (l1 ++ c :: l2) st = (Ok replies, st') ->
  exists r1 st1 r2 st2, serve l1 st = (Ok r1, st1) /\ handle_command c st1 = (Ok r2, st2).
Proof.
  intros Hn Hc. revert st replies st'. induction l1 as [|c1 l1 IH]; intros st replies st'; cbn [app].
  - assert (E : serve (c :: l2) st = (sent ← handle_command c; rest ← serve l2; mret (sent ++ rest)) st) by (by destruct c). rewrite E.
    intros (sent & st2 & Hh & _)%M_bind_Ok. exists [], st, sent, st2. by split.
  - apply list.not_elem_of_cons in Hn as [Hc1 Hn].
    assert (E : forall l, serve (c1 :: l) st = (sent ← handle_command c1; rest ← serve l; mret (sent ++ rest)) st) by (by destruct c1). rewrite E.
    intros (sent & st1 & Hh & (rest & st2 & Hs & _)%M_bind_Ok)%M_bind_Ok. destruct (IH Hn st1 rest st2 Hs) as (r1 & st3 & r2 & st4 & H1' & H2').
    exists (sent ++ r1), st3, r2, st4. split; [|done]. rewrite E. unfold mbind, M_bind. by rewrite Hh, H1'.
Qed.

(** *** Events *)

Context {HL : HashIterLaws W}.
Definition event_msg (m : ServerMessage) : option Event := match m with SmEvent e => Some e | SmResponse _ => None end.
Definition events (c : connection) : list Event := omap event_msg (c_out c).
Definition channel s (id : Z) : list Event := default [] (sys_channels s !! id).
Definition channels_inv s : Prop :=
  mgr_ok (sys_mgr s)
  /\ (forall id sent, clients (mgr_events (sys_mgr s)) !! id = Some sent -> sys_channels s !! id = Some sent)
  /\ (forall id, is_Some (sys_channels s !! id) -> id < next_id (mgr_events (sys_mgr s))).
(** A connection has forwarded the first events of one channel, its own. *)
Definition events_ok s (c : connection) : Prop :=
  exists id, events c = take (c_events c) (channel s id) /\ (c_events c <= length (channel s id))%nat
    /\ match conn_client (c_phase c) with Some id' => id' = id | None => c_events c = 0%nat end.
Lemma handle_command_moves cmd m (w : W) : mgr_step (B := B) (fun _ => True) m (handle_command cmd (m, w)).2.1.
Proof using HL. by apply (handle_command_steps (fun _ => True)). Qed.
Lemma channels_inv_manager s s' : manager_step s s' -> channels_inv s ->
  channels_inv s' /\ forall id, channel s id `prefix_of` channel s' id.
Proof using HL.
  intros Hm (Hok & Hcl & Hlt). destruct Hm as [s from cmd rest replies m w Ha Hq Hcs Hh|s from rest Ha Hq|s from cmd rest r m w Ha Hq Hcs Hh Hr];
    [|by split..].
  pose proof (handle_command_moves cmd (sys_mgr s) (sys_world s)) as Hmv. rewrite Hh in Hmv. cbn in Hmv.
  destruct Hmv as [Hok' _ _ [Hnx Hb] _]. specialize (Hok' Hok). unfold channels_inv, channel. cbn. split; [split; [done|split]|].
  - intros id sent Hl. by apply lookup_union_Some_l.
  - intros id [sent [Hl|[_ Hl]]%lookup_union_Some_raw]; [apply (mok_bus m Hok'); by eexists|]. assert (id < next_id (mgr_events (sys_mgr s))) by (apply Hlt; by eexists). lia.
  - intros id. destruct (sys_channels s !! id) as [sent|] eqn:Es; cbn; [|apply prefix_nil].
    destruct (clients (mgr_events m) !! id) as [sent'|] eqn:El.
    + rewrite (lookup_union_Some_l _ _ _ _ El). cbn. destruct (Hb id sent' El) as (sent0 & H0' & Hp); [apply Hlt; by eexists|].
      rewrite (Hcl _ _ H0') in Es. by simplify_eq.
    + rewrite lookup_union_r by done. by rewrite Es.
Qed.
Lemma events_ok_grow s s' c : (forall id, channel s id `prefix_of` channel s' id) -> events_ok s c -> events_ok s' c.
Proof.
  intros Hp (id & He & Hl & Hi). exists id. destruct (Hp id) as [more Hm]. rewrite Hm. split; [|split; [rewrite length_app; lia|done]].
  by rewrite take_app_le.
Qed.
Definition events_inv s : Prop := channels_inv s /\ forall n c, sys_conns s !! n = Some c -> events_ok s c.
Lemma events_responded c id r : events (responded c id r) = events c.
Proof. unfold events. cbn. by rewrite omap_app, app_nil_r. Qed.
Lemma events_forwarded c ev : events (forwarded c ev) = events c ++ [ev].
Proof. unfold events. cbn. by rewrite omap_app. Qed.
Lemma events_inv_conn n s s' : conn_step n s s' -> events_inv s -> events_inv s'.
Proof.
  intros Hs [Hch Hev]. destruct (conn_step_manager _ _ _ Hs) as (_ & Em & _ & _ & Ec). split; [unfold channels_inv; by rewrite Em, Ec|].
  intros k ck Hk. assert (Hc : forall id, channel s' id = channel s id) by (intros id; unfold channel; by rewrite Ec).
  destruct (decide (k = n)) as [->|Hkn].
  2:{ destruct (conn_step_other _ _ _ k Hs Hkn) as (E & _). rewrite E in Hk. apply (events_ok_grow s); [intros id; by rewrite Hc|by apply (Hev k)]. }
  clear Em Ec.
  destruct Hs as [s c Hn Hp Ha|s c Hn Hp|s c id Hn Hp Hr|s c Hn Hp Hr Ha|s c id req Hn Hp Hck Ha|s c id req Hn Hp Hck Ha|s c id req e Hn Hp Hck
                 |s c id req r Hn Hp Hr|s c id req Hn Hp Hr Ha|s c id req e Hn Hp Hck|s c id req Hn Hp Hr|s c id sent ev Hn Hcl Hs Hsent|s c id Hn Hp];
    cbn in Hk; rewrite lookup_insert_eq in Hk; injection Hk as <-; destruct (Hev n c Hn) as (id0 & He & Hl & Hi);
    try (rewrite Hp in Hi; cbn in Hi); try (exists id0; rewrite Hc; rewrite ?events_responded; cbn; by split_and!).
  - exists id. rewrite Hc. unfold events in *. cbn. rewrite He, Hi. split_and!; [done|lia|done].
  - rewrite Hcl in Hi. subst id0. assert (Hch' : channel s id = sent) by (unfold channel; by rewrite Hs).
    exists id. rewrite Hc, events_forwarded, He, Hch'. cbn. rewrite Hcl. split_and!; [by erewrite take_S_r|by eapply lookup_lt_Some|done].
Qed.
Lemma events_inv_step s s' : sys_step s s' -> events_inv s -> events_inv s'.
Proof using HL.
  intros Hs Hinv. destruct Hs as [s s' Hm|n s s' Hc|s s' Hc]; [|by eapply events_inv_conn|].
  - destruct Hinv as [Hch Hev]. destruct (channels_inv_manager _ _ Hm Hch) as [Hch' Hp]. split; [done|]. intros n c Hc.
    eapply events_ok_grow; [exact Hp|]. apply (Hev n). by destruct Hm.
  - destruct Hinv as [Hch Hev]. destruct Hc as [s n i Hn|s kind|s ev|s]; [|by split..]. split; [done|]. intros k c Hk. cbn in Hk.
    destruct (decide (k = n)) as [->|Hkn]; [|rewrite lookup_insert_ne in Hk by done; by apply (Hev k)]. rewrite lookup_insert_eq in Hk. injection Hk as <-.
    exists 0. cbn. split_and!; [done|lia|done].
Qed.
Lemma reachable_events m0 w0 s : mgr_ok m0 -> sys_reachable m0 w0 s -> events_inv s.
Proof using HL.
  intros Hok Hr. unfold sys_reachable in Hr. assert (H0' : events_inv (sys_start m0 w0)).
  { split; [|by intros n c Hn]. split; [done|]. split; [done|]. apply (mok_bus m0 Hok). }
  revert H0'. induction Hr as [|x y z Hs _ IH]; [done|]. intros Hx. by eapply IH, events_inv_step.
Qed.

(** *** Runs, and the manager's turns *)

Definition other_step s s' : Prop := source_step s s' \/ exists n, conn_step n s s'.
(** A run in which the manager's thread takes [k] steps. *)
Inductive turns : nat -> Sys -> Sys -> Prop :=
| turns_done s : turns 0 s s
| turns_manager k s s' s'' : manager_step s s' -> turns k s' s'' -> turns (S k) s s''
| turns_other k s s' s'' : other_step s s' -> turns k s' s'' -> turns k s s''.
Lemma other_step_sys s s' : other_step s s' -> sys_step s s'.
Proof. intros [Hs|[n Hs]]; [by apply step_source|by eapply step_conn]. Qed.
Lemma turns_reachable m w k s s' : sys_reachable m w s -> turns k s s' -> sys_reachable m w s'.
Proof.
  intros Hr Ht. induction Ht as [|k s s' s'' Hs _ IH|k s s' s'' Hs _ IH]; [done|apply IH; eapply rtc_r; [done|]..].
  - by apply step_manager.
  - by apply other_step_sys.
Qed.
Lemma send_queue s q : exists more, sys_queue (send s q) = sys_queue s ++ more.
Proof. unfold send. cbn. destruct (sys_alive s); [by eexists|]. exists []. by rewrite app_nil_r. Qed.
(** Only the manager's thread takes commands off the queue, and logs them. *)
Lemma other_step_queue s s' : other_step s s' ->
  sys_log s' = sys_log s /\ sys_alive s' = sys_alive s /\ exists more, sys_queue s' = sys_queue s ++ more.
Proof.
  intros [Hs|[n Hs]].
  - destruct (source_step_manager _ _ Hs) as (El & _ & _ & Ea & _). split_and!; [done..|].
    destruct Hs as [s n i Hn|s kind|s ev|s]; try exact (send_queue _ _); exists []; by rewrite app_nil_r.
  - destruct (conn_step_manager _ _ _ Hs) as (El & _ & _ & Ea & _). split_and!; [done..|].
    destruct Hs; try exact (send_queue _ _); exists []; by rewrite app_nil_r.
Qed.
Lemma turns_stopped k s s' : turns k s s' -> sys_alive s = false -> sys_alive s' = false.
Proof.
  induction 1 as [|k s s' s'' Hs _ IH|k s s' s'' Hs _ IH]; [done| |].
  - intros Ha. destruct Hs; congruence.
  - intros Ha. apply IH. destruct (other_step_queue _ _ Hs) as (_ & -> & _). done.
Qed.
Lemma turns_log k s s' : turns k s s' -> exists l, sys_log s' = sys_log s ++ l.
Proof.
  induction 1 as [s|k s s' s'' Hs _ [l IH]|k s s' s'' Hs _ [l IH]]; [by exists []; rewrite app_nil_r| |].
  - rewrite IH. destruct Hs as [s from cmd rest replies m w Ha Hq Hcs Hh| |]; cbn; [|by exists l..]. eexists. by rewrite <- app_assoc.
  - rewrite IH. destruct (other_step_queue _ _ Hs) as (-> & _). by exists l.
Qed.
(** First in, first out: a command behind [q1] has been handled, and [q1] before
    it, once the manager's thread has taken more steps than [q1] is long. *)
Lemma turns_fifo k s s' q1 x q2 :
  turns k s s' -> sys_queue s = q1 ++ x :: q2 -> (length q1 < k)%nat -> sys_alive s' = true ->
  exists l1 h l2, sys_log s' = sys_log s ++ l1 ++ h :: l2 /\ map handled_queued l1 = q1 /\ handled_queued h = x /\ expected (h_cmd h) (h_replies h).
Proof.
  intros Ht. revert q1 q2. induction Ht as [s|k s s' s'' Hs Ht IH|k s s' s'' Hs Ht IH]; intros q1 q2 Hq Hk Ha; [lia| |].
  - destruct Hs as [s from cmd rest replies m w Ha' Hq' Hcs Hh|s from rest Ha' Hq'|s from cmd rest r m w Ha' Hq' Hcs Hh Hr];
      [|by rewrite (turns_stopped _ _ _ Ht eq_refl) in Ha..].
    rewrite Hq' in Hq. destruct q1 as [|y q1]; injection Hq as Hx Hrest.
    + destruct (turns_log _ _ _ Ht) as [l El]. cbn in El. eexists [], _, l. rewrite El. cbn. rewrite <- app_assoc. split; [done|]. split; [done|].
      split; [done|]. by eapply handle_command_expected.
    + destruct (IH q1 q2) as (l1 & h & l2 & El & E1 & Eh & He); [done|cbn in Hk; lia|done|]. cbn in El.
      eexists (_ :: l1), h, l2. rewrite El. cbn. rewrite <- !app_assoc, E1. split; [done|]. by subst y.
  - destruct (other_step_queue _ _ Hs) as (El & _ & more & Eq). rewrite Hq, <- app_assoc in Eq. rewrite <- El. by apply (IH q1 (q2 ++ more)).
Qed.
Definition is_shutdown (cmd : Command) : bool := match cmd with CmdShutdown => true | _ => false end.

(** *** What a connection waits for *)

Lemma requests_of_app n l1 l2 : requests_of n (l1 ++ l2) = requests_of n l1 ++ requests_of n l2.
Proof. apply omap_app. Qed.
Lemma requests_of_others n l : List.filter (from_conn n) (map handled_queued l) = [] -> requests_of n l = [].
Proof.
  induction l as [|h l IH]; [done|]. cbn [map List.filter]. destruct (from_conn n (handled_queued h)) eqn:E; [done|]. intros Hl.
  cbn. assert (Hn : request_of n h = None). { unfold request_of. repeat case_match; try done. apply bool_decide_eq_false in E. by case_bool_decide. }
  rewrite Hn. by apply IH.
Qed.
Lemma filter_one {A} (f : A -> bool) l x : List.filter f l = [x] -> exists l1 l2, l = l1 ++ x :: l2 /\ List.filter f l1 = [].
Proof.
  induction l as [|y l IH]; [done|]. cbn [List.filter]. destruct (f y) eqn:E.
  - intros [= -> _]. by exists [], l.
  - intros (l1 & l2 & -> & Hl)%IH. exists (y :: l1), l2. split; [done|]. cbn [List.filter]. by rewrite E.
Qed.
(** Before its answer comes, a waiting connection's request is in the queue. *)
Lemma waiting_queued m w s n c id req :
  sys_reachable m w s -> sys_conns s !! n = Some c -> c_phase c = CpWaiting id req -> sys_alive s = true -> sys_answers s !! n = None ->
  exists q1 q2, sys_queue s = q1 ++ (Some n, CmdRequest req (c_identity c)) :: q2 /\ List.filter (from_conn n) q1 = [].
Proof.
  intros Hr Hc Hp Ha Hn. pose proof (reachable_conns _ _ _ Hr n) as Hi. rewrite Hc, Hn, Ha in Hi. unfold conn_inv in Hi. rewrite Hp in Hi.
  destruct Hi as (q & _ & _ & [_ Hpe _ _|r _ [=]|_ _ [=]]). by apply filter_one.
Qed.
(** The state in which a logged command was handled. *)
Lemma log_split m w s l1 h l2 :
  sys_reachable m w s -> sys_log s = l1 ++ h :: l2 ->
  exists r1 st r2 st', serve (log_cmds l1) (m, w) = (Ok r1, st) /\ handle_command (h_cmd h) st = (Ok r2, st').
Proof.
  intros Hr El. destruct (reachable_sequential _ _ _ Hr) as [Hn Hs]. rewrite El in Hn, Hs. unfold log_cmds in *. rewrite map_app in Hn, Hs. cbn [map] in Hn, Hs.
  eapply serve_split; [| |exact Hs].
  - intros Hi. apply Hn. apply elem_of_app. by left.
  - intros Hi. apply Hn. rewrite <- Hi. apply elem_of_app. right. apply elem_of_cons. by left.
Qed.
Lemma view_request_manager req i (m m' : NetworkManager B) (w w' : W) r :
  required_capability req = ViewState -> handle_command (CmdRequest req i) (m, w) = (r, (m', w')) -> m' = m.
Proof.
  intros Hv Hh. assert (Hs : (handle_command (CmdRequest req i) (m, w)).2.1 = m).
  { cbn. symmetry. apply (steps_bind (W := W) eq); [exact (view_request_same req i Hv)|steps]. }
  by rewrite Hh in Hs.
Qed.

(** *** An executable scheduler *)

Inductive action :=
| AcAccept (n : nat) (identity : PeerIdentity)
| AcTick (kind : TickKind)
| AcManager
| AcRegister (n : nat)
| AcRequest (n : nat) (req : Request)
| AcTake (n : nat)                         (** the answer to what the connection waits for *)
| AcForward (n : nat)
| AcHangup (n : nat).
Definition perform (a : action) s : option Sys :=
  match a with
  | AcAccept n identity => match sys_conns s !! n with None => Some (set_conn s n (mkConnection identity CpAccepted [] [] 0)) | Some _ => None end
  | AcTick kind => Some (send s (None, CmdTick kind))
  | AcManager =>
      match sys_alive s, sys_queue s with
      | true, (from, cmd) :: rest =>
          if is_shutdown cmd then Some (stopped s)
          else match handle_command cmd (sys_mgr s, sys_world s) with
               | (Ok replies, (m, w)) => Some (managed s from cmd rest replies m w)
               | _ => Some (stopped s)
               end
      | _, _ => None
      end
  | AcRegister n => c ← sys_conns s !! n;
      match c_phase c, sys_alive s with
      | CpAccepted, true => Some (send (set_conn s n (with_phase c CpRegistering)) (Some n, CmdRegisterEventClient))
      | _, _ => None
      end
  | AcRequest n req => c ← sys_conns s !! n;
      match c_phase c, check (c_identity c) (required_capability req), sys_alive s with
      | CpReading id, Ok tt, true => Some (send (set_conn s n (asks c (CpWaiting id req) req)) (Some n, CmdRequest req (c_identity c)))
      | CpReading id, Err e, _ => Some (set_conn s n (responded (asks c (CpReading id) req) id (ResError (error_to_string e))))
      | _, _, _ => None
      end
  | AcTake n => c ← sys_conns s !! n;
      match c_phase c, sys_answers s !! n with
      | CpRegistering, Some (RepClient id) => Some (take_answer (set_conn s n (with_phase c (CpReading id))) n)
      | CpWaiting id _, Some (RepResponse r) => Some (take_answer (set_conn s n (responded c id r)) n)
      | _, _ => None
      end
  | AcForward n => c ← sys_conns s !! n; id ← conn_client (c_phase c); sent ← sys_channels s !! id; ev ← sent !! c_events c;
      Some (set_conn s n (forwarded c ev))
  | AcHangup n => c ← sys_conns s !! n;
      match c_phase c with
      | CpReading id => Some (send (set_conn s n (with_phase c (CpEnded (Some id)))) (None, CmdUnregisterEventClient id))
      | _ => None
      end
  end.
Fixpoint schedule (l : list action) s : option Sys :=
  match l with [] => Some s | a :: l => s' ← perform a s; schedule l s' end.
Lemma perform_step a s s' : perform a s = Some s' -> if a is AcManager then manager_step s s' else other_step s s'.
Proof.
  destruct a as [n i|kind| |n|n req|n|n|n]; cbn [perform].
  - destruct (sys_conns s !! n) eqn:E; [done|]. intros [= <-]. left. by apply so_accept.
  - intros [= <-]. left. apply so_tick.
  - destruct (sys_alive s) eqn:Ea; [|done]. destruct (sys_queue s) as [|[from cmd] rest] eqn:Eq; [done|].
    destruct (is_shutdown cmd) eqn:Es; [intros [= <-]; destruct cmd; try done; by eapply ms_shutdown|].
    assert (Hc : cmd <> CmdShutdown) by (by intros ->).
    destruct (handle_command cmd (sys_mgr s, sys_world s)) as [[replies|e|why] [m w]] eqn:Eh; intros [= <-];
      [by eapply ms_handle|by eapply ms_panic..].
  - intros (c & Hc & Hk)%bind_Some. destruct (c_phase c) eqn:Ep; try done. destruct (sys_alive s) eqn:Ea; [|done]. injection Hk as <-. right. exists n. by apply cs_register.
  - intros (c & Hc & Hk)%bind_Some. destruct (c_phase c) eqn:Ep; try done. destruct (check _ _) as [[]|e|why] eqn:Ech; [|injection Hk as <-; right; exists n; by eapply cs_denied|done].
    destruct (sys_alive s) eqn:Ea; [|done]. injection Hk as <-. right. exists n. by eapply cs_request.
  - intros (c & Hc & Hk)%bind_Some. destruct (c_phase c) eqn:Ep; try done; destruct (sys_answers s !! n) as [[]|] eqn:Ea; try done; injection Hk as <-; right; exists n;
      [by eapply cs_registered|by eapply cs_response].
  - intros (c & Hc & (id & Hid & (sent & Hs & (ev & He & [= <-])%bind_Some)%bind_Some)%bind_Some)%bind_Some. right. exists n. by eapply cs_event.
  - intros (c & Hc & Hk)%bind_Some. destruct (c_phase c) eqn:Ep; try done. injection Hk as <-. right. exists n. by eapply cs_hangup.
Qed.
Definition manager_turns (l : list action) : nat := length (List.filter (fun a => match a with AcManager => true | _ => false end) l).
Lemma schedule_turns l s s' : schedule l s = Some s' -> turns (manager_turns l) s s'.
Proof.
  revert s. induction l as [|a l IH]; intros s; cbn [schedule]; [intros [= <-]; apply turns_done|].
  intros (s1 & Hp%perform_step & Hs%IH)%bind_Some. unfold manager_turns in *. destruct a; cbn; try (by eapply turns_other). by eapply turns_manager.
Qed.
Lemma schedule_reachable l m w s : schedule l (sys_start m w) = Some s -> sys_reachable m w s.
Proof. intros Hs. eapply turns_reachable; [apply rtc_refl|by eapply schedule_turns]. Qed.
End Steps.

(** ** Properties *)

(** C5: The threads of the daemon act as one sequential manager.  In every
    interleaving of connections, timers, hotplug events and signals the manager
    is in the state that [serve] reaches on the commands it has handled, in that
    order, and its invariant holds; every request among them was sent by a
    connection of the peer it names, which holds the capability the request
    needs. *)
Theorem system_linearizes {W} `{Host W} `{Formats} {B} `{SecretsBackend B W} `{Accounts} {HL : HashIterLaws W}
    (m : NetworkManager B) (w : W) (s : system B W) :
  mgr_ok m -> sys_reachable m w s ->
  serve (map h_cmd (sys_log s)) (m, w) = (Ok (concat (map h_replies (sys_log s))), (sys_mgr s, sys_world s))
  /\ mgr_ok (sys_mgr s)
  /\ forall h req identity, h ∈ sys_log s -> h_cmd h = CmdRequest req identity ->
       exists n c, h_from h = Some n /\ sys_conns s !! n = Some c /\ c_identity c = identity /\ check identity (required_capability req) = Ok tt.
Proof.
  intros Hok Hr. destruct (reachable_sequential _ _ _ Hr) as [_ Hs]. destruct (reachable_events _ _ _ Hok Hr) as [(Hm & _) _].
  destruct (reachable_auth _ _ _ Hr) as [_ Ha]. split; [exact Hs|]. split; [exact Hm|]. intros h req i Hh Hc.
  assert (Hq : authorised s (handled_queued h)). { eapply List.Forall_forall; [exact Ha|]. apply list_elem_of_In, list_elem_of_fmap_2, Hh. }
  unfold authorised, handled_queued in Hq. cbn in Hq. by rewrite Hc in Hq.
Qed.

(** C6: A peer is told the truth, in order.  In every interleaving the responses
    written to a connection are, one for each request it sent and in that order,
    the refusal of a request it has no right to, the manager's own answer to
    this very request, or the word that the manager did not reply; only the
    last request of a connection that waits or has ended may lack one.  The
    events written to it are the first of those sent to its own channel, in
    order, none lost and none twice. *)
Theorem system_answers {W} `{Host W} `{Formats} {B} `{SecretsBackend B W} `{Accounts} {HL : HashIterLaws W}
    (m : NetworkManager B) (w : W) (s : system B W) n c :
  mgr_ok m -> sys_reachable m w s -> sys_conns s !! n = Some c ->
  let told := answered (c_identity c) in
  let log := requests_of n (sys_log s) in
  match c_phase c with
  | CpAccepted | CpRegistering | CpReading _ => told log (c_asked c) (responses c)
  | CpWaiting _ req => exists q, c_asked c = q ++ [req] /\
      (told log q (responses c) \/ exists l r, log = l ++ [(req, c_identity c, r)] /\ sys_answers s !! n = Some (RepResponse r) /\ told l q (responses c))
  | CpEnded _ => unanswered (c_identity c) log (c_asked c) (responses c)
  end
  /\ exists id, events c `prefix_of` channel s id /\ forall id', conn_client (c_phase c) = Some id' -> id' = id.
Proof.
  intros Hok Hr Hc. split.
  - pose proof (reachable_conns _ _ _ Hr n) as Hi. rewrite Hc in Hi. unfold conn_inv in Hi.
    destruct (c_phase c) as [| |id|id req|cl]; [by destruct Hi as (_ & _ & ?)|by destruct Hi|by destruct Hi as (_ & _ & ?)| |by destruct Hi as (_ & _ & ?)].
    destruct Hi as (q & Hq & _ & [_ _ _ Ha|r _ E (res & l & -> & El & Ha)|_ _ _ Ha]); exists q; (split; [done|]); [by left| |by left]. right. by exists l, res.
  - destruct (reachable_events _ _ _ Hok Hr) as [_ He]. destruct (He n c Hc) as (id & -> & _ & Hi). exists id. split; [apply prefix_take|].
    intros id' E. by rewrite E in Hi.
Qed.

(** C8: Whoever else is connected, a peer without privileges changes nothing:
    in every interleaving, a request of a peer that is neither root nor in the
    privileged group found the manager in some state and left it in the same. *)
Theorem system_unprivileged {W} `{Host W} `{Formats} {B} `{SecretsBackend B W} `{Accounts}
    (m : NetworkManager B) (w : W) (s : system B W) l1 h l2 req identity :
  sys_reachable m w s -> sys_log s = l1 ++ h :: l2 -> h_cmd h = CmdRequest req identity -> unprivileged identity ->
  exists m' w1 w2 r1 r2, serve (map h_cmd l1) (m, w) = (Ok r1, (m', w1)) /\ serve (map h_cmd (l1 ++ [h])) (m, w) = (Ok r2, (m', w2)).
Proof.
  intros Hr El Hc Hu. destruct (log_split _ _ _ _ _ _ Hr El) as (r1 & [m1 w1] & r2 & [m2 w2] & Hs & Hh).
  destruct (reachable_auth _ _ _ Hr) as [_ Ha]. rewrite El, map_app in Ha. apply Forall_app in Ha as [_ [Ha _]%Forall_cons_1].
  unfold authorised, handled_queued in Ha. cbn in Ha. rewrite Hc in Ha. destruct Ha as (n & c & _ & _ & _ & Hck).
  apply unprivileged_views in Hck; [|done]. rewrite Hc in Hh. pose proof (view_request_manager _ _ _ _ _ _ _ Hck Hh) as ->.
  destruct (reachable_sequential _ _ _ Hr) as [Hn _]. rewrite El in Hn. unfold log_cmds in Hn. rewrite map_app in Hn.
  exists m1, w1, w2, r1, (r1 ++ r2). split; [done|]. rewrite map_app. cbn [map]. rewrite Hc. eapply serve_snoc; [|done|exact Hs|exact Hh].
  intros Hi. apply Hn. apply elem_of_app. by left.
Qed.

(** C7: Commands are taken in turn.  While a connection waits for an answer that is
    not there yet and the manager's thread runs, its request is in the queue
    behind no other of its own; and once that thread has finished as many
    commands as are before it and one more, whatever the other threads sent
    meanwhile, it has answered this request before any later one of the
    connection, or has stopped.  (How long a command takes, or whether one that
    is blocked on the outside ever ends, is not said.) *)
Theorem system_in_turn {W} `{Host W} `{Formats} {B} `{SecretsBackend B W} `{Accounts}
    (m : NetworkManager B) (w : W) (s : system B W) n c id req :
  sys_reachable m w s -> sys_conns s !! n = Some c -> c_phase c = CpWaiting id req -> sys_alive s = true -> sys_answers s !! n = None ->
  exists before after, sys_queue s = before ++ (Some n, CmdRequest req (c_identity c)) :: after
    /\ List.Forall (fun q => q.1 <> Some n) before
    /\ forall k s', turns k s s' -> (length before < k)%nat ->
         sys_alive s' = false \/ exists r more, requests_of n (sys_log s') = requests_of n (sys_log s) ++ (req, c_identity c, r) :: more.
Proof.
  intros Hr Hc Hp Ha Hn. destruct (waiting_queued _ _ _ _ _ _ _ Hr Hc Hp Ha Hn) as (q1 & q2 & Hq & Hf). exists q1, q2.
  split; [exact Hq|]. split.
  { apply List.Forall_forall. intros q Hi E. assert (Hin : In q (List.filter (from_conn n) q1)); [|by rewrite Hf in Hin].
    apply filter_In. split; [exact Hi|]. unfold from_conn. rewrite E. by rewrite bool_decide_eq_true_2. }
  intros k s' Ht Hk. destruct (sys_alive s') eqn:Ea; [|by left]. right.
  destruct (turns_fifo _ _ _ _ _ _ Ht Hq Hk Ea) as (l1 & h & l2 & El & E1 & Eh & He).
  rewrite El, !requests_of_app, (requests_of_others n l1) by (by rewrite E1). cbn [app]. destruct h as [from cmd replies]. unfold handled_queued in Eh. cbn in Eh, He. injection Eh as -> ->.
  destruct He as [r ->]. exists r, (requests_of n l2). cbn. by rewrite bool_decide_eq_true_2.
Qed.

(** Two peers at once: an ordinary user, who is refused a reload and asks for
    the state, and root, who stops a hotspot in between; a connectivity check
    sends both an event. *)
#[local] Existing Instances sim_host sim_formats no_accounts sim_iter_laws.
Definition user : PeerIdentity := mkPeer 1000 1000 1.
Definition root : PeerIdentity := mkPeer 0 0 2.
Definition busy : list action :=
  [AcAccept 0 user; AcAccept 1 root; AcRegister 1; AcRegister 0; AcManager; AcManager; AcTake 0; AcTake 1;
   AcTick TkConnectivity; AcRequest 0 Reload; AcManager; AcForward 0; AcRequest 1 (StopHotspot "wlan0"); AcRequest 0 GetState].
Definition rest_of_busy : list action := [AcManager; AcTick TkLeaseCheck; AcForward 0; AcTake 1; AcManager].
Definition sys_run (l : list action) : system FileSecretsBackend sim :=
  default (sys_start demo_started.1 demo_started.2) (schedule l (sys_start demo_started.1 demo_started.2)).
Lemma demo_started_ok : mgr_ok demo_started.1.
Proof.
  assert (Hs : manager_new default_config no_interfaces = (Ok demo_started.1, demo_started.2)) by (vm_compute; reflexivity).
  by eapply manager_new_ok.
Qed.
Lemma sys_run_reachable l : sys_reachable demo_started.1 demo_started.2 (sys_run l).
Proof.
  unfold sys_run. destruct (schedule l _) as [s|] eqn:E; [|apply rtc_refl]. by eapply schedule_reachable.
Qed.
Lemma system_linearizes_witness :
  mgr_ok (sys_mgr (sys_run (busy ++ rest_of_busy))) /\ length (sys_log (sys_run (busy ++ rest_of_busy))) = 5%nat.
Proof.
  split; [|vm_compute; reflexivity].
  exact (proj1 (proj2 (system_linearizes _ _ _ demo_started_ok (sys_run_reachable (busy ++ rest_of_busy))))).
Defined.
(** The user's connection while it waits for the state. *)
Definition user_waits : connection :=
  mkConnection user (CpWaiting 1 GetState)
    [SmResponse (ResError "permission denied: uid 1000 lacks Admin"); SmEvent (EvConnectivityChanged CsNone)] [Reload; GetState] 1.
Lemma system_answers_witness :
  sys_conns (sys_run busy) !! 0%nat = Some user_waits
  /\ exists id, [EvConnectivityChanged CsNone] `prefix_of` channel (sys_run busy) id /\ id = 1.
Proof.
  assert (Hc : sys_conns (sys_run busy) !! 0%nat = Some user_waits) by (vm_compute; reflexivity). split; [exact Hc|].
  destruct (system_answers _ _ _ 0 user_waits demo_started_ok (sys_run_reachable busy) Hc) as (_ & id & Hp & Hi).
  exists id. split; [exact Hp|]. symmetry. apply Hi. reflexivity.
Defined.
Lemma system_unprivileged_witness :
  exists l1 h, sys_log (sys_run (busy ++ rest_of_busy)) = l1 ++ [h] /\ h_cmd h = CmdRequest GetState user
  /\ exists m' w1 w2 r1 r2, serve (map h_cmd l1) demo_started = (Ok r1, (m', w1)) /\ serve (map h_cmd (l1 ++ [h])) demo_started = (Ok r2, (m', w2)).
Proof.
  set (log := sys_log (sys_run (busy ++ rest_of_busy))).
  assert (El : log = take 4 log ++ default (mkHandled None CmdShutdown []) (log !! 4%nat) :: []) by (vm_compute; reflexivity).
  eexists _, _. split; [exact El|]. assert (Hc : h_cmd (default (mkHandled None CmdShutdown []) (log !! 4%nat)) = CmdRequest GetState user) by (vm_compute; reflexivity).
  split; [exact Hc|]. assert (Hu : unprivileged user) by (split; reflexivity).
  pose proof (system_unprivileged demo_started.1 demo_started.2 _ _ _ _ _ _ (sys_run_reachable (busy ++ rest_of_busy)) El Hc Hu) as Hs.
  rewrite <- surjective_pairing in Hs. exact Hs.
Defined.
Lemma system_in_turn_witness :
  exists r, requests_of 0 (sys_log (sys_run (busy ++ rest_of_busy))) = [(GetState, user, r)].
Proof.
  assert (Hc : sys_conns (sys_run busy) !! 0%nat = Some user_waits) by (vm_compute; reflexivity).
  assert (Ha : sys_alive (sys_run busy) = true) by (vm_compute; reflexivity).
  assert (Hn : sys_answers (sys_run busy) !! 0%nat = None) by (vm_compute; reflexivity).
  destruct (system_in_turn _ _ _ 0 user_waits 1 GetState (sys_run_reachable busy) Hc eq_refl Ha Hn) as (before & after & Hq & _ & Ht).
  assert (Hlen : length (sys_queue (sys_run busy)) = 2%nat) by (vm_compute; reflexivity). rewrite Hq, length_app in Hlen. cbn in Hlen.
  assert (Hs : schedule rest_of_busy (sys_run busy) = Some (sys_run (busy ++ rest_of_busy))) by (vm_compute; reflexivity).
  destruct (Ht 2%nat _ (schedule_turns _ _ _ Hs) ltac:(lia)) as [Hd|(r & more & E)].
  - assert (Ha' : sys_alive (sys_run (busy ++ rest_of_busy)) = true) by (vm_compute; reflexivity). rewrite Ha' in Hd. discriminate Hd.
  - exists r. assert (E0 : requests_of 0 (sys_log (sys_run busy)) = []) by (vm_compute; reflexivity). rewrite E0 in E.
    assert (El : length (requests_of 0 (sys_log (sys_run (busy ++ rest_of_busy)))) = 1%nat) by (vm_compute; reflexivity).
    rewrite E in El |- *. destruct more as [|x more]; [reflexivity|discriminate El].
Defined.
