(* ===== verification/Footprint.v ===== *)
(** * What the daemon touches

    [within R c]: every run of [c], however it ends, takes the world from one
    state to another along [R].  A [Frame] says which calls on the outside go
    along [R]: a call that writes a file, makes a directory or starts a program
    needs the permission for that path or program.  [Paths] lists the
    permissions the daemon needs, and one lemma per operation shows that they
    are enough.  Whatever [R] is, then, the daemon goes along it: in [Restart]
    it keeps the profile files, in [Confine] it records what was touched. *)

From Stdlib Require Import Ascii String.
From S2P Require Import Prelude RustStr IpAddr Dhcp4 Sys Persistence World Netlink IpLayer Routing DhcpClient.
From S2P Require Import Dhcp6 Security Firewall Device Connection Ipc Pac Proxy Dns Config Store ProfileStore Wpa.
From S2P Require Import Wireguard OpenVpn Connectivity Monitoring Bluetooth Logging Sharing Activation Manager Panics.

(** ** The calculus *)

(** For computations, operations of the outside and observations alike. *)
Definition within {S X} (R : S -> S -> Prop) (c : S -> X * S) : Prop := forall s, R s (c s).2.
Definition moves {S} (R : S -> S -> Prop) (d : S -> S) : Prop := forall s, R s (d s).
(** The values a computation can end with. *)
Abbreviation gives Q c := (ends (fun _ => True) Q c).
(** A relation on the world, seen beside a state. *)
Definition outside {S W} (R : W -> W -> Prop) (s s' : S * W) : Prop := R s.2 s'.2.
#[export] Instance outside_preorder {S W} (R : W -> W -> Prop) {PR : PreOrder R} : PreOrder (outside (S := S) R).
Proof. split; [intros s; unfold outside; reflexivity|]. intros s1 s2 s3 H1 H2. unfold outside in *. by trans s2.2. Qed.
Lemma within_run {S X} (R : S -> S -> Prop) (c : S -> X * S) s x s' : within R c -> c s = (x, s') -> R s s'.
Proof. intros Hc E. specialize (Hc s). by rewrite E in Hc. Qed.

Section Within.
Context {W : Type} (R : W -> W -> Prop) {PR : PreOrder R}.
Lemma within_bind {A B} (c : M W A) (f : A -> M W B) : within R c -> (forall a, within R (f a)) -> within R (c ≫= f).
Proof using PR.
  intros Hc Hf w. specialize (Hc w). unfold mbind, M_bind. destruct (c w) as [[a|e|why] w']; cbn in *; [|done..]. trans w'; [done|apply Hf].
Qed.
Lemma within_bind_gives {A B} (Q : A -> Prop) (c : M W A) (f : A -> M W B) :
  gives Q c -> within R c -> (forall a, Q a -> within R (f a)) -> within R (c ≫= f).
Proof using PR.
  intros Hq Hc Hf w. specialize (Hc w). specialize (Hq w). unfold mbind, M_bind. destruct (c w) as [[a|e|why] w']; cbn in *; [|done..].
  trans w'; [done|by apply Hf].
Qed.
Lemma within_ret {A} (a : A) : within R (mret a : M W A).
Proof using PR. intros w. cbn. reflexivity. Qed.
Lemma within_lift {A} (o : outcome A) : within R (lift o : M W A).
Proof using PR. intros w. cbn. reflexivity. Qed.
Lemma within_lift_bind {A B} (o : outcome A) (f : A -> M W B) : (forall a, o = Ok a -> within R (f a)) -> within R (lift o ≫= f).
Proof using PR. intros Hf w. unfold mbind, M_bind, lift. destruct o as [a|e|why]; [by apply Hf|cbn; reflexivity..]. Qed.
Lemma gives_lift_bind {A B} (Q : B -> Prop) (o : outcome A) (f : A -> M W B) : (forall a, o = Ok a -> gives Q (f a)) -> gives Q (lift o ≫= f).
Proof. intros Hf w. unfold mbind, M_bind, lift. destruct o as [a|e|why]; [by apply Hf|done..]. Qed.
Lemma within_throw {A} e : within R (throw e : M W A).
Proof using PR. intros w. cbn. reflexivity. Qed.
Lemma within_attempt {A} (c : M W A) : within R c -> within R (attempt c).
Proof. intros Hc w. specialize (Hc w). unfold attempt. by destruct (c w) as [[a|e|why] w']. Qed.
Lemma within_ignore {A} (c : M W A) : within R c -> within R (ignore c).
Proof. intros Hc w. specialize (Hc w). unfold ignore. by destruct (c w) as [[a|e|why] w']. Qed.
Lemma within_finally {A} (c : M W A) d : within R c -> moves R d -> within R (finally c d).
Proof using PR. intros Hc Hd w. specialize (Hc w). unfold finally. destruct (c w) as [r w']. cbn in *. trans w'; [done|apply Hd]. Qed.
Lemma within_dropped {A} (c : M W A) d : within R c -> moves R d -> within R (dropped_on_error c d).
Proof using PR.
  intros Hc Hd w. specialize (Hc w). unfold dropped_on_error. destruct (c w) as [[a|e|why] w']; cbn in *; [done|trans w'; [done|apply Hd]..].
Qed.
Lemma within_with_error {A} f (c : M W A) : within R c -> within R (with_error f c).
Proof. intros Hc w. specialize (Hc w). unfold with_error. by destruct (c w) as [[a|e|why] w']. Qed.
Lemma within_effect d : moves R d -> within R (effect d).
Proof. intros Hd w. apply Hd. Qed.
Lemma within_observe {A} (o : W -> A * W) : within R o -> within R (observe o).
Proof. intros Ho w. rewrite observe_run. apply Ho. Qed.
Lemma within_io_try {A} (c : io W A) : within R c -> within R (io_try c).
Proof. intros Hc w. specialize (Hc w). unfold io_try. by destruct (c w) as [[a|e] w']. Qed.
Lemma within_io_try_with {A} g (c : io W A) : within R c -> within R (io_try_with g c).
Proof. intros Hc w. specialize (Hc w). unfold io_try_with. by destruct (c w) as [[a|e] w']. Qed.
Lemma within_io_match {A} (c : io W A) : within R c -> within R (io_match c).
Proof. intros Hc w. specialize (Hc w). unfold io_match. by destruct (c w) as [[a|e] w']. Qed.
Lemma within_io_ignore {A} (c : io W A) : within R c -> within R (io_ignore c).
Proof. intros Hc w. apply Hc. Qed.
Lemma within_for_each {A} (l : list A) (g : A -> M W unit) : (forall x, within R (g x)) -> within R (for_each l g).
Proof using PR. intros Hg. induction l as [|x l IH]; cbn; [apply within_ret|]. by apply within_bind. Qed.
Lemma within_static_get {S} `{Static S W} : within R (static_get (S := S) (W := W)).
Proof using PR. intros w. cbn. reflexivity. Qed.

(** Beside a state. *)
Context {S : Type}.
Lemma within_inner {A} (c : M W A) : within R c -> within (outside R) (inner (S := S) c).
Proof. intros Hc [s w]. specialize (Hc w). unfold inner, outside. cbn. by destruct (c w). Qed.
Lemma within_state_get : within (outside R) (state_get (S := S) (W := W)).
Proof using PR. intros s. unfold outside. cbn. reflexivity. Qed.
Lemma within_state_modify f : within (outside R) (state_modify (S := S) (W := W) f).
Proof using PR. intros s. unfold outside. cbn. reflexivity. Qed.
End Within.

(** ** Permissions *)

Record permissions := mkPermissions {
  may_write : string -> Prop;
  may_remove : string -> Prop;
  may_mkdir : string -> Prop;
  may_run : string -> Prop;
  (** the directory of an OpenVPN session *)
  may_sweep : string -> Prop;
  (** the data directory *)
  is_base : string -> Prop
}.
Definition sessions_swept (ok : permissions) (sessions : Sessions) : Prop :=
  match sessions with Some m => map_Forall (fun _ s => may_sweep ok (ses_workdir s)) m | None => True end.
(** The names in a directory hold no slash. *)
Definition plain_names {E} (r : list string + E) : Prop :=
  match r with inl l => forall f, In f l -> contains_char "/" f = false | inr _ => True end.

Lemma read_dir_names {W} `{FileSystem W} {FL : FileSystemLaws W} d : gives plain_names (io_match (fs_read_dir (W := W) d)).
Proof. intros w. unfold io_match. pose proof (law_read_dir d w) as Hl. by destruct (fs_read_dir d w) as [[l|e] w']; cbn; [destruct Hl|]. Qed.

(** Random bytes are bytes. *)
Definition bytes_given {E} (r : list Z + E) : Prop := match r with inl l => bytes_ok l | inr _ => True end.

(** The calls on the outside that go along [R]. *)
Class Frame {W} `{Host W} (R : W -> W -> Prop) (inv : W -> Prop) (ok : permissions) : Prop := {
  fr_preorder :: PreOrder R;
  fr_instant : within R clk_instant;
  fr_unix : within R clk_unix;
  fr_sleep d : moves R (clk_sleep d);
  fr_socket k : within R (so_socket k);
  fr_setsockopt fd o : within R (so_setsockopt fd o);
  fr_bind fd a : (forall p, a = UnixPath p -> may_write ok p) -> within R (so_bind fd a);
  fr_connect fd a : within R (so_connect fd a);
  fr_close fd : moves R (so_close fd);
  fr_send fd b d : within R (so_send fd b d);
  fr_recv fd n : within R (so_recv fd n);
  fr_tcp_connect host port : within R (tcp_connect host port);
  fr_tcp_connect_timeout ip port t : within R (tcp_connect_timeout ip port t);
  fr_tcp_read_timeout fd t : within R (tcp_read_timeout fd t);
  fr_tcp_write_timeout fd t : within R (tcp_write_timeout fd t);
  fr_tcp_write_all fd b : within R (tcp_write_all fd b);
  fr_tcp_read_to_end fd n : within R (tcp_read_to_end fd n);
  fr_tcp_close fd : moves R (tcp_close fd);
  fr_tcp_read fd n : within R (tcp_read fd n);
  fr_addrs s : within R (to_socket_addrs s);
  fr_lookup h : within R (rs_lookup h);
  fr_local_ip : within R rs_local_ip;
  fr_rand n : within R (rand_bytes n);
  fr_bytes n : gives bytes_given (io_match (rand_bytes (W := W) n));
  fr_run prog args : may_run ok prog -> within R (run_command prog args);
  fr_fed prog args input : may_run ok prog -> within R (run_fed prog args input);
  fr_thread_starts : within R thread_starts;
  fr_spawn prog args : may_run ok prog -> within R (cp_spawn prog args);
  fr_kill pid : within R (cp_kill pid);
  fr_wait pid : within R (cp_wait pid);
  fr_is_file p : within R (fs_is_file p);
  fr_remove_dir p : may_sweep ok p -> within R (fs_remove_dir_all p);
  fr_us_bind p : may_write ok p -> within R (us_bind p);
  fr_us_nonblocking fd b : within R (us_nonblocking fd b);
  fr_us_accept fd : within R (us_accept fd);
  fr_us_write fd s : within R (us_write fd s);
  fr_us_clone fd : within R (us_try_clone fd);
  fr_us_close fd : moves R (us_close fd);
  fr_remove_after d p : may_remove ok p -> moves R (spawn_remove_after d p);
  fr_dhcpd_spawn i fd cfg : within R (dhcpd_spawn i fd cfg);
  fr_mgmt fd t : within R (mg_lines fd t);
  fr_gethostname n : within R (sys_gethostname n);
  fr_eprint line : moves R (eprint line);
  fr_ap_open p : may_write ok p -> within R (ap_open p);
  fr_ap_write p s : may_write ok p -> within R (ap_write p s);
  fr_iter {V : Type} (m : gmap string V) : within R (hash_iter m);
  fr_gone : within R rx_gone;
  fr_level s : within R (static_put (s : MinLevel));
  fr_vpns s : within R (static_put (s : ActiveVpns));
  fr_hostapd s : within R (static_put (s : HostapdChildren));
  fr_proxy s : moves R (st_put (s : ProxyState));
  fr_ctrl_dir s : within R (static_put (s : CtrlDir));
  fr_sessions s : sessions_swept ok s -> within R (static_put (s : Sessions));
  (** [R] is about worlds in [inv], and stays there *)
  fr_from w w' : (inv w -> R w w') -> R w w';
  fr_stays w w' : R w w' -> inv w -> inv w';
  fr_inv_sessions w : inv w -> sessions_swept ok (st_get w);
  fr_inv_base w : inv w -> is_base ok (default DEFAULT_DATA_DIR (data_dir_cell (st_get w)));
  fr_read p : within R (fs_read p);
  fr_read_raw p : within R (fs_read_raw p);
  fr_read_dir p : within R (fs_read_dir p);
  fr_names p : gives plain_names (io_match (fs_read_dir (W := W) p));
  fr_open p : within R (fs_open p);
  fr_mtime p : within R (fs_mtime p);
  fr_exists p : within R (fs_exists p);
  fr_read_link p : within R (fs_read_link p);
  fr_write p s : may_write ok p -> within R (fs_write p s);
  fr_rename a b : may_write ok a -> may_write ok b -> within R (fs_rename a b);
  fr_remove p : may_remove ok p -> within R (fs_remove p);
  fr_create_new p m : may_write ok p -> within R (fs_create_new p m);
  fr_create_dir p m : may_sweep ok p -> within R (fs_create_dir p m);
  fr_mkdir p : may_mkdir ok p -> within R (fs_create_dir_all p);
  fr_chmod p m : may_write ok p \/ may_mkdir ok p -> within R (fs_chmod p m)
}.

(** The paths and programs the daemon uses. *)
Definition temp_path (temp prefix r suffix : string) : string := path_join temp (prefix +:+ "-" +:+ r +:+ "." +:+ suffix).
Definition TEMP_SUFFIXES : list string := ["sock"; "auth"]%string.
Definition WORK_FILES : list string := ["up.sh"; "down.sh"; "mgmt.sock"]%string.
Definition TMP_EXTENSIONS : list string := ["json.tmp"; "toml.tmp"; "tmp"; "mitos-tmp"]%string.
Definition PROGRAMS : list string := ["nft"; "hostapd"; "openvpn"; "bluetoothctl"]%string.
Definition IP_FORWARD : string := "/proc/sys/net/ipv4/ip_forward".
Definition mitos_prefix (prefix : string) : Prop := starts_with "mitos-" prefix = true /\ contains_char "/" prefix = false.
Class Paths {W} `{Host W} (ok : permissions) : Prop := {
  pt_lease base ifname : is_base ok base -> may_write ok (lease_path base ifname);
  pt_lease6 base ifname : is_base ok base -> may_write ok (lease6_path base ifname);
  pt_proxy base : is_base ok base -> may_write ok (proxy_config_path base);
  pt_resolv : may_write ok DEFAULT_RESOLV_CONF;
  pt_script : may_write ok PROFILE_SCRIPT_PATH;
  pt_forward : may_write ok IP_FORWARD;
  pt_hostapd ifname : validate_interface_name ifname = Ok tt -> may_write ok (hostapd_path ifname);
  pt_hostapd_remove ifname : may_remove ok (hostapd_path ifname);
  pt_temp prefix r suffix : mitos_prefix prefix -> contains_char "/" r = false -> In suffix TEMP_SUFFIXES ->
    may_write ok (temp_path (env_temp_dir (W := W)) prefix r suffix);
  pt_workdir r : contains_char "/" r = false -> may_sweep ok (temp_path (env_temp_dir (W := W)) "mitos-ovpn" r "d");
  pt_work_file d name : may_sweep ok d -> In name WORK_FILES -> may_write ok (path_join d name);
  pt_tmp p ext : may_write ok p -> In ext TMP_EXTENSIONS -> may_write ok (with_extension p ext);
  pt_remove p : may_write ok p -> may_remove ok p;
  pt_parent p : may_write ok p -> may_mkdir ok (path_parent p);
  pt_program prog : In prog PROGRAMS -> may_run ok prog
}.

Lemma interface_plain name : validate_interface_name name = Ok tt -> contains_char "/" name = false.
Proof. unfold validate_interface_name. destruct (_ || _); [done|]. by destruct (contains_char "/" name). Qed.
Lemma interface_prefix prefix name : mitos_prefix prefix -> validate_interface_name name = Ok tt -> mitos_prefix (prefix +:+ name).
Proof.
  intros [Hs Hp] Hv%interface_plain. split; [|by rewrite contains_char_app, Hp, Hv]. apply starts_with_spec in Hs as [r ->].
  apply starts_with_spec. exists (r +:+ name). by rewrite str_app_assoc.
Qed.
Lemma hex_no_slash b : bytes_ok b -> contains_char "/" (foldr (fun x acc => hex2 x +:+ acc) "" b) = false.
Proof.
  assert (Hall : forallb (fun x => negb (contains_char "/" (hex2 x))) (seqZ 0 256) = true) by (vm_compute; reflexivity). rewrite forallb_forall in Hall.
  induction 1 as [|x b Hx Hb IH]; [done|]. cbn [foldr]. rewrite contains_char_app, IH, orb_false_r. apply negb_true_iff, Hall, list_elem_of_In, elem_of_seqZ.
  unfold is_u8 in Hx. lia.
Qed.
Lemma app_nonempty (x y : string) : y <> "" -> x +:+ y <> "".
Proof. intros Hy E. apply Hy, str_bytes_inj. apply (f_equal str_bytes) in E. rewrite str_bytes_app in E. by apply app_eq_nil in E as [_ E]. Qed.
(** The end of a path made of its parts. *)
Ltac path_end :=
  unfold lease_path, lease6_path, proxy_config_path, hostapd_path, temp_path, PROFILE_SCRIPT_PATH, DEFAULT_RESOLV_CONF, IP_FORWARD;
  repeat match goal with
  | |- context [last_byte (with_extension ?p ?e)] => rewrite (with_extension_last p e) by (solve [repeat apply app_nonempty; done])
  | |- context [last_byte (path_join ?b ?l)] => rewrite (path_join_last b l) by (solve [repeat apply app_nonempty; done])
  | |- context [last_byte (?x +:+ ?y)] => rewrite (last_byte_app x y) by (solve [repeat apply app_nonempty; done])
  end.

(** ** Automation *)

Create HintDb footprint discriminated.
#[export] Hint Constants Opaque : footprint.
#[export] Hint Resolve within_ret within_lift within_throw within_static_get within_state_get within_state_modify : footprint.
#[export] Hint Extern 0 (PreOrder _) => apply _ : footprint.
#[export] Hint Extern 0 (Frame _ _ _) => first [eassumption | typeclasses eauto] : footprint.
#[export] Hint Extern 0 (Paths _) => first [eassumption | typeclasses eauto] : footprint.
(** A short list that names its member. *)
#[export] Hint Extern 0 (In _ _) => cbv; tauto : footprint.
#[export] Hint Resolve pt_lease pt_lease6 pt_proxy pt_resolv pt_script pt_hostapd pt_hostapd_remove pt_work_file pt_tmp pt_remove pt_parent pt_program : footprint.
#[export] Hint Extern 1 (may_write _ "/proc/sys/net/ipv4/ip_forward") => eapply pt_forward : footprint.
#[export] Hint Extern 1 (may_write _ _ \/ may_mkdir _ _) => solve [left; eauto with footprint nocore | right; eauto with footprint nocore] : footprint.
#[export] Hint Extern 2 (forall p, _ = UnixPath p -> may_write _ p) => intros ? [= <-] : footprint.
#[export] Hint Extern 2 (forall p, _ = UnixPath p -> may_write _ p) => intros ? [=] : footprint.
#[export] Hint Resolve fr_instant fr_unix fr_sleep fr_socket fr_setsockopt fr_bind fr_connect fr_close fr_send fr_recv fr_tcp_connect
  fr_tcp_connect_timeout fr_tcp_read_timeout fr_tcp_write_timeout fr_tcp_write_all fr_tcp_read_to_end fr_tcp_close fr_tcp_read fr_addrs
  fr_lookup fr_local_ip fr_rand fr_run fr_fed fr_thread_starts fr_spawn fr_kill fr_wait fr_is_file fr_remove_dir fr_us_bind fr_us_nonblocking fr_us_accept fr_us_write
  fr_us_clone fr_us_close fr_remove_after fr_dhcpd_spawn fr_mgmt fr_gethostname fr_eprint fr_ap_open fr_ap_write fr_iter fr_gone fr_level fr_vpns
  fr_hostapd fr_ctrl_dir fr_sessions fr_read fr_read_raw fr_read_dir fr_open fr_mtime fr_exists fr_read_link fr_write fr_rename fr_remove
  fr_create_new fr_create_dir fr_mkdir fr_chmod : footprint.

Ltac footprint_step :=
  match goal with
  | |- _ => solve [assumption | eauto with footprint nocore]
  | |- forall _, within _ _ => intros
  | |- within _ (_ ≫= _) => apply within_bind; [apply _| |intros]
  | |- within _ (attempt _) => apply within_attempt
  | |- within _ (ignore _) => apply within_ignore
  | |- within _ (finally _ _) => apply within_finally; [apply _| |]
  | |- within _ (dropped_on_error _ _) => apply within_dropped; [apply _| |]
  | |- within _ (with_error _ _) => apply within_with_error
  | |- within _ (io_try _) => apply within_io_try
  | |- within _ (io_try_with _ _) => apply within_io_try_with
  | |- within _ (io_match _) => apply within_io_match
  | |- within _ (io_ignore _) => apply within_io_ignore
  | |- within _ (effect _) => apply within_effect
  | |- within _ (observe _) => apply within_observe
  | |- within _ (static_put _) => solve [eapply fr_vpns; eassumption | eapply fr_hostapd; eassumption]
  | |- within _ (for_each _ _) => apply within_for_each; [apply _|intros]
  | |- within (outside _) (inner _) => apply within_inner
  | |- within _ (let '(_, _) := _ in _) => case_match_goal
  | |- within _ (match _ with _ => _ end) => case_match_goal
  end.
Ltac footprint := repeat footprint_step.

Section Operations.
Context {W : Type} `{Host W} `{Formats} (R : W -> W -> Prop) (inv : W -> Prop) (ok : permissions) {FR : Frame R inv ok} {PT : Paths (W := W) ok}.
Abbreviation calm c := (within R c).
Abbreviation B := FileSecretsBackend.

(** *** Netlink and the IP layer *)

Lemma recv_until_done_calm fuel sock seq out : calm (recv_until_done (W := W) fuel sock seq out).
Proof using FR PT. revert out. induction fuel as [|fuel IH]; intros out; cbn [recv_until_done]; footprint. Qed.
Lemma with_protocol_calm protocol groups : calm (with_protocol (W := W) protocol groups).
Proof using FR PT. unfold with_protocol. footprint. Qed.
#[local] Hint Resolve recv_until_done_calm with_protocol_calm : footprint.
Lemma nl_new_calm : calm (nl_new (W := W)).
Proof using FR PT. apply with_protocol_calm. Qed.
Lemma with_sock_calm {A} open (body : NlSocket -> M W A) : calm open -> (forall sock, calm (body sock)) -> calm (with_sock open body).
Proof using FR PT. intros Ho Hb. unfold with_sock. footprint. Qed.
Lemma nl_send_calm sock t f payload : calm (nl_send (W := W) sock t f payload).
Proof using FR PT. unfold nl_send. footprint. Qed.
#[local] Hint Resolve nl_new_calm nl_send_calm : footprint.
Lemma nl_request_calm sock t f payload : calm (nl_request (W := W) sock t f payload).
Proof using FR PT. unfold nl_request. footprint. Qed.
Lemma nl_dump_calm sock t payload : calm (nl_dump (W := W) sock t payload).
Proof using FR PT. unfold nl_dump. footprint. Qed.
Lemma nl_query_calm sock t f payload : calm (nl_query (W := W) sock t f payload).
Proof using FR PT. unfold nl_query. footprint. Qed.
#[local] Hint Resolve nl_request_calm nl_dump_calm nl_query_calm : footprint.
#[local] Hint Extern 1 (within _ (with_sock _ _)) => apply with_sock_calm : footprint.
Ltac on_sock := repeat (footprint; try (apply with_sock_calm; footprint)).

Lemma address_add_calm index ip p : calm (address_add (W := W) index ip p).
Proof using FR PT. unfold address_add. on_sock. Qed.
Lemma address_del_calm index ip p : calm (address_del (W := W) index ip p).
Proof using FR PT. unfold address_del. on_sock. Qed.
Lemma address_list_families_calm families index : calm (address_list_families (W := W) families index).
Proof using FR PT. induction families as [|family families IH]; cbn [address_list_families]; on_sock. Qed.
#[local] Hint Resolve address_add_calm address_del_calm address_list_families_calm : footprint.
Lemma address_flush_calm index : calm (address_flush (W := W) index).
Proof using FR PT. unfold address_flush, address_list. footprint. Qed.
Lemma interface_list_calm : calm (interface_list (W := W)).
Proof using FR PT. unfold interface_list. on_sock. Qed.
#[local] Hint Resolve address_flush_calm interface_list_calm : footprint.
Lemma get_by_name_calm name : calm (get_by_name (W := W) name).
Proof using FR PT. unfold get_by_name. footprint. Qed.
Lemma get_by_index_calm index : calm (get_by_index (W := W) index).
Proof using FR PT. unfold get_by_index. footprint. Qed.
Lemma set_flags_calm index flags change : calm (set_flags (W := W) index flags change).
Proof using FR PT. unfold set_flags. on_sock. Qed.
Lemma interface_delete_calm index : calm (interface_delete (W := W) index).
Proof using FR PT. unfold interface_delete. on_sock. Qed.
Lemma create_virtual_calm name kind : calm (create_virtual (W := W) name kind).
Proof using FR PT. unfold create_virtual. on_sock. Qed.
Lemma route_build_calm r t f : calm (route_build (W := W) r t f).
Proof using FR PT. unfold route_build. on_sock. Qed.
Lemma route_list_calm family : calm (route_list (W := W) family).
Proof using FR PT. unfold route_list. on_sock. Qed.
#[local] Hint Resolve get_by_name_calm get_by_index_calm set_flags_calm interface_delete_calm create_virtual_calm route_build_calm route_list_calm : footprint.
Lemma neighbor_list_families_calm families index : calm (neighbor_list_families (W := W) families index).
Proof using FR PT. induction families as [|family families IH]; cbn [neighbor_list_families]; on_sock. Qed.
Lemma resolve_family_calm sock name : calm (resolve_family (W := W) sock name).
Proof using FR PT. unfold resolve_family. footprint. Qed.
Lemma default_route_apply_calm oif gw m p : calm (default_route_apply (W := W) oif gw m p).
Proof using FR PT. unfold default_route_apply, set_default, route_add, route_del. footprint. Qed.
Lemma get_mac_calm ifname : calm (get_mac (W := W) ifname).
Proof using FR PT. unfold get_mac. footprint. Qed.
#[local] Hint Resolve neighbor_list_families_calm resolve_family_calm default_route_apply_calm get_mac_calm : footprint.

(** *** Files *)

Lemma read_json_calm {A} `{Codec A} path : calm (read_json (W := W) (A := A) path).
Proof using FR PT. unfold read_json. footprint. Qed.
Lemma write_json_calm {A} `{Codec A} path (v : A) : may_write ok path -> calm (write_json (W := W) path v).
Proof using FR PT. intros Hp. unfold write_json. footprint. Qed.
Lemma db_remove_calm path : may_write ok path -> calm (db_remove (W := W) path).
Proof using FR PT. intros Hp. unfold db_remove. footprint. Qed.
Lemma list_dir_calm d ext : calm (list_dir (W := W) d ext).
Proof using FR PT. unfold list_dir. footprint. Qed.
Lemma parse_optional_calm {A} `{Codec A} path : calm (parse_optional (W := W) (A := A) path).
Proof using FR PT. unfold parse_optional. footprint. Qed.
#[local] Hint Resolve read_json_calm write_json_calm db_remove_calm list_dir_calm parse_optional_calm : footprint.
Lemma log_calm level msg : calm (log (W := W) level msg).
Proof using FR PT. unfold log. footprint. Qed.
#[local] Hint Resolve log_calm : footprint.
Lemma load_calm d : calm (load (W := W) d).
Proof using FR PT. unfold load. footprint. Qed.
Lemma apply_to_calm path servers search : may_write ok path -> calm (apply_to (W := W) path servers search).
Proof using FR PT. intros Hp. unfold apply_to. footprint. Qed.
Lemma read_current_calm : calm (read_current (W := W)).
Proof using FR PT. unfold read_current. footprint. Qed.
Lemma now_secs_calm : calm (now_secs (W := W)).
Proof using FR PT.
  unfold now_secs. apply within_observe. intros w. pose proof (fr_unix (R := R) w) as Hu.
  by destruct (clk_unix w) as [[s n] w'].
Qed.
#[local] Hint Resolve load_calm apply_to_calm read_current_calm now_secs_calm : footprint.
Lemma audit_record_calm l actor action detail : may_write ok (audit_path l) -> calm (audit_record (W := W) l actor action detail).
Proof using FR PT.
  intros Hp. unfold audit_record. apply (within_bind_gives _ (fun r => match r with inl l' => audit_path l' = audit_path l | inr _ => True end)).
  - apply ends_attempt; [|done]. unfold ensure_open. destruct (audit_file l); [by apply ends_ret|]. panics.
  - unfold ensure_open. footprint.
  - intros [l'|e] Hl; [|footprint]. rewrite Hl. footprint.
Qed.
Lemma dns_apply_static_calm servers search : calm (dns_apply_static (W := W) servers search).
Proof using FR PT. unfold dns_apply_static. footprint. Qed.
#[local] Hint Resolve audit_record_calm dns_apply_static_calm : footprint.
(** *** Secrets *)

Definition secrets_ok (b : B) : Prop :=
  may_mkdir ok (secrets_dir b) /\ forall f, contains_char "/" f = false -> may_write ok (path_join (secrets_dir b) f).
Lemma file_get_calm (b : B) owner key : calm (file_get (W := W) b owner key).
Proof using FR PT. unfold file_get. footprint. Qed.
Lemma secret_path_ok b owner key : secrets_ok b -> settles (fun _ => True) (may_write ok) (secret_path b owner key).
Proof.
  intros [_ Hb]. destruct (secret_path b owner key) as [path|e|why] eqn:E; cbn; [|done..]. revert E. unfold secret_path.
  intros ([] & (_ & _ & Ho)%validate_identifier_Ok & ([] & (_ & _ & Hk)%validate_identifier_Ok & [= <-])%outcome_bind_Ok)%outcome_bind_Ok.
  apply Hb. rewrite !contains_char_app. by rewrite !(forallb_no_char identifier_char) by done.
Qed.
Lemma file_set_calm (b : B) owner key v : secrets_ok b -> calm (file_set (W := W) b owner key v).
Proof using FR PT.
  intros Hb. unfold file_set. eapply within_bind_gives; [apply _|by apply ends_lift, secret_path_ok|footprint|]. destruct Hb as [Hm Hb]. intros path Hp.
  assert (may_write ok (with_extension path "tmp")) by (apply (pt_tmp (W := W)); [done|cbv; tauto]). footprint.
Qed.
Lemma remove_matching_calm (b : B) prefix l : secrets_ok b -> (forall f, In f l -> contains_char "/" f = false) ->
  calm (remove_matching (W := W) (secrets_dir b) prefix l).
Proof using FR PT.
  intros Hb. induction l as [|f l IH]; intros Hl; cbn [remove_matching]; [footprint|]. assert (may_write ok (path_join (secrets_dir b) f)).
  { apply Hb, Hl. by left. }
  assert (calm (remove_matching (secrets_dir b) prefix l)) by (apply IH; intros g Hg; apply Hl; by right). footprint.
Qed.
Lemma file_delete_all_calm (b : B) owner : secrets_ok b -> calm (file_delete_all (W := W) b owner).
Proof using FR PT.
  intros Hb. unfold file_delete_all. apply within_bind; [apply _|footprint|]. intros _. eapply within_bind_gives; [apply _|by apply (fr_names (R := R))|footprint|].
  intros [l|e] Hl; [by apply remove_matching_calm|footprint].
Qed.
#[local] Hint Resolve file_get_calm file_set_calm file_delete_all_calm : footprint.

(** *** DHCP *)

Lemma hostname_current_calm : calm (hostname_current (W := W)).
Proof using FR PT. unfold hostname_current. footprint. Qed.
Lemma random_xid_calm : calm (random_xid (W := W)).
Proof using FR PT.
  intros w. unfold random_xid. pose proof (fr_unix (R := R) w) as Hu. by destruct (clk_unix w) as [[s n] w'].
Qed.
Lemma instant_now_calm : calm (instant_now (W := W)).
Proof using FR PT. unfold instant_now. footprint. Qed.
#[local] Hint Resolve hostname_current_calm random_xid_calm instant_now_calm : footprint.
Lemma with_udp_calm {A} ifname (body : Z -> M W A) : (forall fd, calm (body fd)) -> calm (with_udp ifname body).
Proof using FR PT. intros Hb. unfold with_udp, bound_broadcast_socket. footprint. Qed.
Lemma offer_loop_calm fuel fd deadline ifname x mac h : calm (offer_loop (W := W) fuel fd deadline ifname x mac h).
Proof using FR PT. induction fuel as [|fuel IH]; cbn [offer_loop]; footprint. Qed.
Lemma request_loop_calm fuel fd deadline ifname x mac r s h : calm (DhcpClient.request_loop (W := W) fuel fd deadline ifname x mac r s h).
Proof using FR PT. induction fuel as [|fuel IH]; cbn [DhcpClient.request_loop]; footprint. Qed.
Lemma lease_from_ack_calm ack server : calm (lease_from_ack (W := W) ack server).
Proof using FR PT. unfold lease_from_ack. footprint. Qed.
#[local] Hint Resolve offer_loop_calm request_loop_calm lease_from_ack_calm : footprint.
Lemma acquire_calm fuel ifname timeout : calm (acquire (W := W) fuel ifname timeout).
Proof using FR PT. unfold acquire. footprint. apply with_udp_calm. intros fd. unfold exchange. footprint. Qed.
Lemma renew_loop_calm fuel fd deadline ifname x mac : calm (renew_loop (W := W) fuel fd deadline ifname x mac).
Proof using FR PT. induction fuel as [|fuel IH]; cbn [renew_loop]; footprint. Qed.
#[local] Hint Resolve acquire_calm renew_loop_calm : footprint.
Lemma renew_calm fuel ifname lease : calm (DhcpClient.renew (W := W) fuel ifname lease).
Proof using FR PT. unfold DhcpClient.renew. footprint. apply with_udp_calm. footprint. Qed.
Lemma release_calm base ifname : is_base ok base -> calm (DhcpClient.release (W := W) base ifname).
Proof using FR PT. intros Hb. unfold DhcpClient.release, load_lease, clear_lease. footprint. apply with_udp_calm. footprint. Qed.
#[local] Hint Resolve renew_calm release_calm : footprint.
Lemma random_xid3_calm : calm (V6.random_xid3 (W := W)).
Proof using FR PT.
  intros w. unfold V6.random_xid3. pose proof (fr_unix (R := R) w) as Hu. by destruct (clk_unix w) as [[s n] w'].
Qed.
#[local] Hint Resolve random_xid3_calm : footprint.
Lemma with_client_socket_calm {A} timeout (body : Z -> M W A) : (forall fd, calm (body fd)) -> calm (V6.with_client_socket timeout body).
Proof using FR PT. intros Hb. unfold V6.with_client_socket. footprint. Qed.
Lemma request_stateless_info_calm ifname mac timeout : calm (V6.request_stateless_info (W := W) ifname mac timeout).
Proof using FR PT. unfold V6.request_stateless_info. footprint. apply with_client_socket_calm. footprint. Qed.
Lemma lease_from_reply_calm ia sid dns domains : calm (V6.lease_from_reply (W := W) ia sid dns domains).
Proof using FR PT. unfold V6.lease_from_reply. footprint. Qed.
#[local] Hint Resolve lease_from_reply_calm : footprint.
Lemma request_stateful_lease_calm ifname mac timeout : calm (V6.request_stateful_lease (W := W) ifname mac timeout).
Proof using FR PT.
  unfold V6.request_stateful_lease. footprint. apply with_client_socket_calm. intros fd.
  unfold V6.stateful_exchange, V6.elapsed_cs, V6.recv_matching, V6.lease_of_options. footprint.
Qed.
Lemma release_persisted_calm base ifname : is_base ok base -> calm (V6.release_persisted (W := W) base ifname).
Proof using FR PT.
  intros Hb. unfold V6.release_persisted, V6.load_lease6, V6.clear_lease6, V6.release. footprint. apply with_client_socket_calm.
  unfold V6.recv_matching. footprint.
Qed.
#[local] Hint Resolve request_stateless_info_calm request_stateful_lease_calm release_persisted_calm : footprint.

(** *** Devices *)

Lemma devices_of_calm addrs ifaces : calm (devices_of (W := W) addrs ifaces).
Proof using FR PT. induction ifaces as [|i ifaces IH]; cbn [devices_of]; unfold device_of, classify, driver_of; footprint. Qed.
#[local] Hint Resolve devices_of_calm : footprint.
Lemma refresh_calm old unmanaged : calm (refresh (W := W) old unmanaged).
Proof using FR PT. unfold refresh, scan, address_list. footprint. Qed.
Lemma bring_up_calm index : calm (bring_up (W := W) index).
Proof using FR PT. apply set_flags_calm. Qed.
Lemma carrier_loop_calm fuel index deadline timeout : calm (carrier_loop (W := W) fuel index deadline timeout).
Proof using FR PT. induction fuel as [|fuel IH]; cbn [carrier_loop]; footprint. Qed.
#[local] Hint Resolve refresh_calm bring_up_calm carrier_loop_calm : footprint.
Lemma wait_for_carrier_calm fuel index timeout : calm (wait_for_carrier (W := W) fuel index timeout).
Proof using FR PT. unfold wait_for_carrier. footprint. Qed.
#[local] Hint Resolve wait_for_carrier_calm : footprint.
(** *** Wi-Fi *)

Definition is_temp (prefix suffix path : string) : Prop :=
  exists r, contains_char "/" r = false /\ path = temp_path (env_temp_dir (W := W)) prefix r suffix.
Lemma random_suffix_gives : gives (fun r => contains_char "/" r = false) (random_suffix (W := W)).
Proof using FR.
  intros w. pose proof (fr_bytes (R := R) 16 w) as Hb. unfold random_suffix, io_try_with, io_match, mbind, M_bind in *.
  destruct (rand_bytes 16 w) as [[b|e] w']; cbn in *; [|done]. by apply hex_no_slash.
Qed.
Lemma random_temp_path_gives prefix suffix : gives (is_temp prefix suffix) (random_temp_path (W := W) prefix suffix).
Proof using FR. unfold random_temp_path. eapply ends_bind; [apply random_suffix_gives|]. intros r Hr. apply ends_ret. by exists r. Qed.
Lemma random_temp_path_calm prefix suffix : calm (random_temp_path (W := W) prefix suffix).
Proof using FR PT. unfold random_temp_path, random_suffix. footprint. Qed.
Lemma temp_ok prefix suffix path : mitos_prefix prefix -> In suffix TEMP_SUFFIXES -> is_temp prefix suffix path -> may_write ok path.
Proof using PT. intros Hp Hs (r & Hr & ->). by apply pt_temp. Qed.
Lemma temp_path_gives prefix suffix : mitos_prefix prefix -> In suffix TEMP_SUFFIXES -> gives (may_write ok) (random_temp_path (W := W) prefix suffix).
Proof using FR PT. intros Hp Hs. eapply ends_mono; [apply random_temp_path_gives|]. intros path. by apply temp_ok. Qed.
(** A temporary path is used where it may be written. *)
Lemma with_temp_path_calm {A} prefix suffix (f : string -> M W A) : mitos_prefix prefix -> In suffix TEMP_SUFFIXES ->
  (forall path, may_write ok path -> calm (f path)) -> calm (random_temp_path prefix suffix ≫= f).
Proof using FR PT. intros Hp Hs Hf. eapply within_bind_gives; [apply _|by apply temp_path_gives|apply random_temp_path_calm|done]. Qed.
Lemma unix_bind_calm path : may_write ok path -> calm (unix_bind (W := W) path).
Proof using FR PT.
  intros Hp w. unfold unix_bind. pose proof (fr_socket (R := R) SkUnixDatagram w) as Hs. destruct (so_socket SkUnixDatagram w) as [[fd|e] w1]; [|done].
  pose proof (fr_bind (R := R) fd (UnixPath path) ltac:(by intros ? [= <-]) w1) as Hb. cbn in Hs. destruct (so_bind fd (UnixPath path) w1) as [[[]|e] w2]; cbn in *.
  - by trans w1.
  - trans w1; [done|]. trans w2; [done|]. by apply (fr_close (R := R)).
Qed.
#[local] Hint Resolve unix_bind_calm : footprint.
Lemma raw_request_calm fd cmd : calm (raw_request (W := W) fd cmd).
Proof using FR PT. unfold raw_request. footprint. Qed.
#[local] Hint Resolve raw_request_calm : footprint.
Lemma request_ok_calm c cmd : calm (request_ok (W := W) c cmd).
Proof using FR PT. unfold request_ok, wpa_request. footprint. Qed.
#[local] Hint Resolve request_ok_calm : footprint.
Lemma close_after_calm fd (c : io W unit) : calm c -> moves R (fun w => so_close fd (c w).2).
Proof using FR PT. intros Hc w. trans (c w).2; [apply Hc|by apply (fr_close (R := R))]. Qed.
Lemma with_ctrl_calm {A} d ifname (body : WpaCtrl -> M W A) : (forall c, calm (body c)) -> calm (with_ctrl d ifname body).
Proof using FR PT.
  intros Hb. unfold with_ctrl. eapply (within_bind_gives _ (fun c => may_write ok (client_path c))).
  - unfold wpa_connect. apply gives_lift_bind. intros [] Hv. eapply ends_bind; [apply temp_path_gives; [by apply interface_prefix|cbv; tauto]|]. intros path Hp. panics.
    apply dropped_on_error_panics. panics.
  - unfold wpa_connect. apply (within_lift_bind R). intros [] Hv. apply with_temp_path_calm; [by apply interface_prefix|cbv; tauto|]. intros path Hp. footprint.
  - intros c Hc. apply within_finally; [apply _|apply Hb|]. apply close_after_calm. footprint.
Qed.
Lemma monitor_drop_calm m : may_write ok (mon_path m) -> moves R (monitor_drop m).
Proof using FR PT.
  intros Hm w. unfold monitor_drop. trans (raw_request (mon_fd m) "DETACH" w).2; [apply raw_request_calm|]. apply (close_after_calm (mon_fd m)). footprint.
Qed.
#[local] Hint Resolve monitor_drop_calm : footprint.
Lemma monitor_attach_calm d ifname : calm (monitor_attach (W := W) d ifname).
Proof using FR PT.
  unfold monitor_attach. apply (within_lift_bind R). intros [] Hv. apply with_temp_path_calm; [by apply interface_prefix|cbv; tauto|]. intros path Hp. footprint.
Qed.
Lemma monitor_attach_gives d ifname : gives (fun m => may_write ok (mon_path m)) (monitor_attach (W := W) d ifname).
Proof using FR PT.
  unfold monitor_attach. apply gives_lift_bind. intros [] Hv. eapply ends_bind; [apply temp_path_gives; [by apply interface_prefix|cbv; tauto]|]. intros path Hp. panics.
  apply dropped_on_error_panics. panics. apply raw_request_panics.
Qed.
Lemma set_network_quoted_calm c id key v : calm (set_network_quoted (W := W) c id key v).
Proof using FR PT. unfold set_network_quoted. footprint. Qed.
Lemma list_networks_calm c : calm (list_networks (W := W) c).
Proof using FR PT. unfold list_networks, wpa_request. footprint. Qed.
#[local] Hint Resolve monitor_attach_calm set_network_quoted_calm list_networks_calm : footprint.
Lemma last_results_calm d ifname : calm (last_results (W := W) d ifname).
Proof using FR PT. unfold last_results, scan_results_raw, wpa_request. apply with_ctrl_calm. footprint. Qed.
Lemma wifi_forget_calm d ifname ssid : calm (wifi_forget (W := W) d ifname ssid).
Proof using FR PT. unfold wifi_forget, remove_network, save_config. apply with_ctrl_calm. footprint. Qed.
Lemma wifi_disconnect_calm d ifname : calm (wifi_disconnect (W := W) d ifname).
Proof using FR PT. unfold wifi_disconnect, wpa_disconnect. apply with_ctrl_calm. footprint. Qed.
Lemma configure_eap_calm c id ssid eap pass : calm (configure_eap (W := W) c id ssid eap pass).
Proof using FR PT. unfold configure_eap, set_network_raw, check_cert_readable, log_warn. footprint. Qed.
#[local] Hint Resolve last_results_calm wifi_forget_calm wifi_disconnect_calm configure_eap_calm : footprint.
Lemma wait_for_any_calm fuel m names timeout : calm (wait_for_any (W := W) fuel m names timeout).
Proof using FR PT.
  unfold wait_for_any. footprint. induction fuel as [|fuel IH]; cbn [wait_for_any_loop]; footprint.
Qed.
#[local] Hint Resolve wait_for_any_calm : footprint.
Lemma scanner_scan_calm fuel d ifname : calm (scanner_scan (W := W) fuel d ifname).
Proof using FR PT.
  unfold scanner_scan, wpa_scan, scan_results_raw, wpa_request. apply with_ctrl_calm. intros c.
  eapply within_bind_gives; [apply _|apply (ends_attempt _ (fun r => match r with inl m => may_write ok (mon_path m) | inr _ => True end)); [apply monitor_attach_gives|done]|footprint|].
  intros [m|e] Hm; footprint.
Qed.
#[local] Hint Resolve scanner_scan_calm : footprint.
Lemma wait_for_association_calm fuel c ssid timeout : calm (wait_for_association (W := W) fuel c ssid timeout).
Proof using FR PT.
  unfold wait_for_association. footprint. induction fuel as [|fuel IH]; cbn [association_loop]; unfold wpa_status, wpa_request; footprint.
Qed.
#[local] Hint Resolve wait_for_association_calm : footprint.
Lemma wifi_connect_calm fuel d ifname ssid security pass eap : calm (wifi_connect (W := W) fuel d ifname ssid security pass eap).
Proof using FR PT.
  unfold wifi_connect, remove_network, add_network, set_network_raw, enable_network, select_network, wpa_request. footprint.
  apply with_ctrl_calm. footprint.
Qed.
#[local] Hint Resolve wifi_connect_calm : footprint.
(** *** VPN *)

Lemma create_attempts_gives tries create prefix suffix what (Q : string -> Prop) :
  gives Q (random_temp_path (W := W) prefix suffix) -> gives Q (create_attempts (W := W) tries create prefix suffix what).
Proof.
  intros Hq. induction tries as [|n IH]; cbn [create_attempts]; [panics|]. eapply ends_bind; [exact Hq|]. intros path Hp. panics.
Qed.
Lemma create_attempts_off tries create prefix suffix what (Q : string -> Prop) :
  gives Q (random_temp_path (W := W) prefix suffix) -> (forall path, Q path -> calm (create path)) -> calm (create_attempts (W := W) tries create prefix suffix what).
Proof using FR PT.
  intros Hq Hc. induction tries as [|n IH]; cbn [create_attempts]; [footprint|].
  eapply within_bind_gives; [apply _|exact Hq|apply random_temp_path_calm|]. intros path Hp%Hc. footprint.
Qed.
Lemma temp_dir_gives : gives (may_sweep ok) (create_secret_temp_dir (W := W) "mitos-ovpn").
Proof using FR PT. apply create_attempts_gives. eapply ends_mono; [apply random_temp_path_gives|]. intros path (r & Hr & ->). by apply pt_workdir. Qed.
Lemma temp_dir_calm : calm (create_secret_temp_dir (W := W) "mitos-ovpn").
Proof using FR PT.
  eapply create_attempts_off; [apply random_temp_path_gives|]. intros path (r & Hr & ->). by apply (fr_create_dir (R := R)), pt_workdir.
Qed.
Lemma temp_file_gives : gives (may_write ok) (create_secret_temp_file (W := W) "mitos-ovpn" "auth").
Proof using FR PT. apply create_attempts_gives, temp_path_gives; [done|cbv; tauto]. Qed.
Lemma temp_file_calm : calm (create_secret_temp_file (W := W) "mitos-ovpn" "auth").
Proof using FR PT. eapply create_attempts_off; [apply temp_path_gives; [done|cbv; tauto]|footprint]. Qed.
#[local] Hint Resolve temp_dir_calm temp_file_calm : footprint.

Lemma get_sessions_calm {A} (k : Sessions -> M W A) : (forall s, sessions_swept ok s -> calm (k s)) -> calm (static_get ≫= k).
Proof using FR. intros Hk w. apply (fr_from (R := R)). intros Hw. exact (Hk _ (fr_inv_sessions _ Hw) w). Qed.
Lemma base_dir_calm {A} (k : string -> M W A) : (forall base, is_base ok base -> calm (k base)) -> calm (base_dir ≫= k).
Proof using FR. intros Hk w. apply (fr_from (R := R)). intros Hw. exact (Hk _ (fr_inv_base _ Hw) w). Qed.
Lemma poll_loop_calm {A} fuel (probe : M W (option A)) deadline step timeout : calm probe -> calm (poll_loop fuel probe deadline step timeout).
Proof using FR PT. intros Hp. induction fuel as [|fuel IH]; cbn [poll_loop]; footprint. Qed.
#[local] Hint Resolve poll_loop_calm : footprint.
Lemma reap_calm child : calm (reap (W := W) child).
Proof using FR PT. unfold reap. footprint. Qed.
#[local] Hint Resolve reap_calm : footprint.
Lemma cleanup_workdir_calm workdir : may_sweep ok workdir -> calm (cleanup_workdir (W := W) workdir).
Proof using FR PT. intros Hw. unfold cleanup_workdir. footprint. Qed.
#[local] Hint Resolve cleanup_workdir_calm : footprint.
Lemma give_up_calm {A} child workdir e : may_sweep ok workdir -> calm (give_up_session (W := W) (A := A) child workdir e).
Proof using FR PT. intros Hw. unfold give_up_session. footprint. Qed.
#[local] Hint Resolve give_up_calm : footprint.
Lemma reader_lines_calm fuel path lines r : calm (reader_lines (W := W) fuel path lines r).
Proof using FR PT.
  revert r. induction lines as [|line lines IH]; intros r; cbn [reader_lines]; unfold reader_line, read_ifname_with_retry, ifname_probe; footprint.
  all: apply poll_loop_calm; footprint.
Qed.
Lemma background_reader_calm fuel path lines closed r : calm (background_reader (W := W) fuel path lines closed r).
Proof using FR PT. pose proof reader_lines_calm. unfold background_reader. footprint. Qed.
#[local] Hint Resolve background_reader_calm : footprint.
Lemma write_userpass_gives (secrets : B) id :
  gives (fun r => match r with Some path => may_write ok path | None => True end) (write_userpass (W := W) secrets id).
Proof using FR PT.
  unfold write_userpass. cbn [secret_get file_secrets]. apply only_bind; [panics|]. intros [user|]; (apply only_bind; [panics|intros [pass|]]); [|panics..].
  eapply ends_bind; [apply temp_file_gives|]. intros path Hp. panics.
Qed.
Lemma write_userpass_off (secrets : B) id : calm (write_userpass (W := W) secrets id).
Proof using FR PT.
  unfold write_userpass. cbn [secret_get file_secrets]. apply within_bind; [apply _|footprint|]. intros [user|]; [|footprint].
  apply within_bind; [apply _|footprint|]. intros [pass|]; [|footprint]. eapply within_bind_gives; [apply _|apply temp_file_gives|footprint|].
  intros path Hp. footprint.
Qed.
Lemma spawn_thread_calm : calm (spawn_thread (W := W)).
Proof using FR PT. unfold spawn_thread. footprint. Qed.
#[local] Hint Resolve spawn_thread_calm : footprint.
Lemma start_openvpn_calm fuel config workdir (secrets : B) id l : may_sweep ok workdir -> calm (start_openvpn (W := W) fuel config workdir secrets id l).
Proof using FR PT.
  intros Hw. unfold start_openvpn. eapply within_bind_gives; [apply _|apply write_userpass_gives|apply write_userpass_off|]. intros up Hup.
  unfold accept_with_timeout, accept_probe. footprint. apply poll_loop_calm. footprint.
Qed.
Lemma await_connected_calm fuel workdir id child stream : may_sweep ok workdir -> calm (await_connected (W := W) fuel workdir id child stream).
Proof using FR PT. intros Hw. unfold await_connected. footprint. Qed.
#[local] Hint Resolve start_openvpn_calm await_connected_calm : footprint.
Lemma track_session_calm name child stream workdir status : may_sweep ok workdir ->
  calm (sessions ← static_get; static_put (W := W) (Some (<[name := mkSession child stream workdir status]> (default ∅ sessions)) : Sessions) ;;
        mret (mkVpnSession name OpenVpn)).
Proof using FR PT.
  intros Hw. apply get_sessions_calm. intros sessions Hs. footprint. apply (fr_sessions (R := R)). cbn. apply map_Forall_insert_2; [done|]. by destruct sessions.
Qed.
Lemma openvpn_connect_calm fuel config (secrets : B) id : calm (openvpn_connect (W := W) fuel config secrets id).
Proof using FR PT.
  unfold openvpn_connect, write_script. apply within_bind; [apply _|footprint|]. intros [|]; cbn [negb]; [|footprint].
  eapply within_bind_gives; [apply _|apply temp_dir_gives|footprint|]. cbv beta. intros workdir Hw. pose proof track_session_calm. footprint.
Qed.
Lemma openvpn_disconnect_calm name : calm (openvpn_disconnect (W := W) name).
Proof using FR PT.
  unfold openvpn_disconnect. apply get_sessions_calm. intros [m|] Hs; cbn; [|footprint]. destruct (m !! name) as [session|] eqn:E; [|footprint].
  assert (may_sweep ok (ses_workdir session)) by exact (Hs _ _ E). apply within_bind; [apply _| |intros; footprint]. apply (fr_sessions (R := R)). cbn.
  by apply map_Forall_delete.
Qed.
#[local] Hint Resolve openvpn_connect_calm openvpn_disconnect_calm : footprint.
Lemma set_crypto_params_calm cfg key : calm (set_crypto_params (W := W) cfg key).
Proof using FR PT. unfold set_crypto_params, resolve_endpoint, resolve. on_sock. Qed.
Lemma allowed_routes_calm index cidrs : calm (allowed_routes (W := W) index cidrs).
Proof using FR PT. unfold allowed_routes, route_add. footprint. Qed.
#[local] Hint Resolve set_crypto_params_calm allowed_routes_calm : footprint.
Lemma wireguard_connect_calm config (secrets : B) id : calm (wireguard_connect (W := W) config secrets id).
Proof using FR PT. unfold wireguard_connect. cbn [secret_get file_secrets]. footprint. Qed.
#[local] Hint Resolve wireguard_connect_calm : footprint.
Lemma vpn_connect_calm fuel kind config (secrets : B) id : calm (vpn_connect (W := W) fuel kind config secrets id).
Proof using FR PT. unfold vpn_connect, vpn_track. footprint. Qed.
Lemma vpn_disconnect_calm name : calm (vpn_disconnect (W := W) name).
Proof using FR PT. unfold vpn_disconnect, vpn_untrack, wireguard_disconnect. footprint. Qed.
#[local] Hint Resolve vpn_connect_calm vpn_disconnect_calm : footprint.

(** *** Probes, reports, bluetooth *)

Lemma read_response_calm fuel fd response : calm (read_response (W := W) fuel fd response).
Proof using FR PT. revert response. induction fuel as [|fuel IH]; intros response; cbn [read_response]; footprint. Qed.
#[local] Hint Resolve read_response_calm : footprint.
Lemma check_calm url timeout : calm (Connectivity.check (W := W) url timeout).
Proof using FR PT. unfold Connectivity.check, open_stream. footprint. Qed.
Lemma tool_run_calm tool unavailable args : In tool PROGRAMS -> calm (tool_run (W := W) tool unavailable args).
Proof using FR PT. intros Ht. unfold tool_run. footprint. Qed.
#[local] Hint Resolve tool_run_calm : footprint.
Lemma devices_of_lines_calm ls : calm (devices_of_lines (W := W) ls).
Proof using FR PT. induction ls as [|l ls IH]; cbn [devices_of_lines]; unfold bt_run; footprint. Qed.
#[local] Hint Resolve devices_of_lines_calm : footprint.
Lemma list_devices_calm : calm (list_devices (W := W)).
Proof using FR PT. unfold list_devices, bt_run. footprint. Qed.
Lemma on_mac_calm verb mac : calm (on_mac (W := W) verb mac).
Proof using FR PT. unfold on_mac, bt_run. footprint. Qed.
Lemma collect_calm devices c : calm (collect (W := W) devices c).
Proof using FR PT. unfold collect, neighbor_list. footprint. Qed.
#[local] Hint Resolve check_calm list_devices_calm on_mac_calm collect_calm : footprint.

(** *** The firewall and the hotspot *)

Abbreviation calm_beside c := (within (outside R) c).
Lemma fw_world_calm {A} (c : M W A) : calm c -> calm_beside (fw_world c).
Proof. intros Hc [f w]. specialize (Hc w). unfold fw_world, outside. cbn. by destruct (c w). Qed.
Lemma fw_get_calm : calm_beside (fw_get (W := W)).
Proof using FR. intros s. unfold outside. cbn. reflexivity. Qed.
Lemma fw_put_calm f : calm_beside (fw_put (W := W) f).
Proof using FR. intros s. unfold outside. cbn. reflexivity. Qed.
#[local] Hint Resolve fw_world_calm fw_get_calm fw_put_calm : footprint.
Lemma fw_apply_calm : calm_beside (fw_apply (W := W)).
Proof using FR PT. unfold fw_apply. footprint. apply fw_world_calm. unfold nft_apply. footprint. Qed.
#[local] Hint Resolve fw_apply_calm : footprint.
Lemma assign_zone_calm i z : calm_beside (assign_zone (W := W) i z).
Proof using FR PT. unfold assign_zone. footprint. Qed.
#[local] Hint Resolve assign_zone_calm : footprint.
Lemma ensure_default_zone_calm i : calm_beside (ensure_default_zone (W := W) i).
Proof using FR PT. unfold ensure_default_zone. footprint. Qed.
Lemma add_rule_calm r : calm_beside (add_rule (W := W) r).
Proof using FR PT. unfold add_rule. footprint. Qed.
Lemma remove_rule_calm id : calm_beside (remove_rule (W := W) id).
Proof using FR PT. unfold remove_rule. footprint. Qed.
Lemma enable_sharing_calm lan wan : calm_beside (enable_sharing (W := W) lan wan).
Proof using FR PT. unfold enable_sharing. footprint. Qed.
#[local] Hint Resolve ensure_default_zone_calm add_rule_calm remove_rule_calm enable_sharing_calm : footprint.
Lemma hostapd_stop_calm ifname : calm (hostapd_stop (W := W) ifname).
Proof using FR PT. unfold hostapd_stop. footprint. Qed.
#[local] Hint Resolve hostapd_stop_calm : footprint.
Lemma hostapd_start_calm cfg : calm (hostapd_start (W := W) cfg).
Proof using FR PT.
  unfold hostapd_start. apply (within_lift_bind R). intros [] Hv. footprint.
Qed.
Lemma dhcp_server_start_calm cfg : calm (dhcp_server_start (W := W) cfg).
Proof using FR PT. unfold dhcp_server_start, bound_server_socket. footprint. Qed.
#[local] Hint Resolve hostapd_start_calm dhcp_server_start_calm : footprint.
Lemma hotspot_start_calm i ssid pass uplink : calm_beside (hotspot_start (W := W) i ssid pass uplink).
Proof using FR PT. unfold hotspot_start, nat_enable, set_ipv4_forwarding. footprint. apply fw_world_calm. footprint. Qed.
#[local] Hint Resolve hotspot_start_calm : footprint.

(** *** The proxy *)

Lemma call_builtin_calm name args : calm (call_builtin (W := W) name args).
Proof using FR PT. unfold call_builtin, resolve_host, my_ip_address, now_unix_days_and_secs. footprint. Qed.
#[local] Hint Resolve call_builtin_calm : footprint.
Section Script.
Variable callf : string -> list Value -> M W Value.
Hypothesis Hcall : forall n a, calm (callf n a).
Lemma eval_calm e sc : calm (eval callf e sc).
Proof using FR PT Hcall.
  apply (Expr_full_ind (fun e => calm (eval callf e sc))); intros; try (cbn [eval]; footprint).
  - induction H1 as [|x l Hx _ IH]; footprint.
  - split_and!; cbn [eval]; footprint.
Qed.
#[local] Hint Resolve eval_calm : footprint.
Lemma eval_opt_calm e sc : calm (eval_opt callf e sc).
Proof using FR PT Hcall. unfold eval_opt. footprint. Qed.
#[local] Hint Resolve eval_opt_calm : footprint.
Lemma exec_stmt_calm s sc : calm (exec_stmt callf s sc).
Proof using FR PT Hcall.
  revert sc. induction s as [| | |c a b Ha Hb|] using Stmt_full_ind; intros sc; cbn [exec_stmt]; footprint.
  - revert sc. induction Ha as [|s l Hs _ IH]; intros sc; footprint; apply Hs || apply IH.
  - revert sc. induction Hb as [|s l Hs _ IH]; intros sc; footprint; apply Hs || apply IH.
Qed.
#[local] Hint Resolve exec_stmt_calm : footprint.
Lemma exec_block_calm l sc : calm (exec_block callf l sc).
Proof using FR PT Hcall. revert sc. induction l as [|s l IH]; intros sc; cbn [exec_block]; footprint. Qed.
End Script.
Lemma call_calm fuel fns name args depth : calm (call (W := W) fuel fns name args depth).
Proof using FR PT.
  revert name args depth. induction fuel as [|fuel IH]; intros name args depth; cbn [call]; footprint. apply exec_block_calm. auto.
Qed.
#[local] Hint Resolve call_calm : footprint.
Lemma evaluate_calm script url host : calm (evaluate (W := W) script url host).
Proof using FR PT.
  unfold evaluate, run_program. footprint. generalize (∅ : scope). induction (globals a) as [|s l IH]; intros sc; cbn [exec_globals]; footprint.
  apply exec_stmt_calm. footprint.
Qed.
Lemma pac_fetch_calm url : calm (pac_fetch (W := W) url).
Proof using FR PT.
  intros w. unfold pac_fetch. destruct (parse_http_url url) as [[[host port] path]|e|why]; [|by reflexivity..].
  pose proof (fr_tcp_connect (R := R) host port w) as Hc. destruct (tcp_connect host port w) as [[fd|e] w1]; [|done]. cbn in Hc.
  trans w1; [done|]. match goal with |- R w1 (finally ?c ?d w1).2 => assert (Hb : calm (finally c d)) by footprint end. apply Hb.
Qed.
#[local] Hint Resolve evaluate_calm pac_fetch_calm : footprint.
Lemma in_world_calm {A} (c : M W A) : calm c -> calm_beside (in_world c).
Proof. intros Hc [s w]. specialize (Hc w). unfold in_world, outside. cbn. by destruct (c w). Qed.
Lemma set_cache_calm c : calm_beside (set_cache (W := W) c).
Proof using FR. intros s. unfold outside. cbn. reflexivity. Qed.
Lemma set_active_calm c : calm_beside (set_active (W := W) c).
Proof using FR. intros s. unfold outside. cbn. reflexivity. Qed.
Lemma check_script_calm script url : calm_beside (check_script (W := W) script url).
Proof using FR PT.
  intros [s w]. unfold check_script, outside. cbn [fst snd]. pose proof (evaluate_calm script "http://example.com/" "example.com" w) as He.
  by destruct (evaluate _ _ _ w) as [[r|e|why] w'].
Qed.
Lemma resolve_for_url_calm url : calm_beside (resolve_for_url (W := W) url).
Proof using FR PT.
  intros [s w]. unfold resolve_for_url, outside. cbn [fst snd]. destruct (mode _); [by reflexivity..|]. destruct (pac_cache s) as [script|]; [|by reflexivity].
  pose proof (evaluate_calm script url (default "" (extract_host url)) w) as He. by destruct (evaluate _ _ _ w) as [[r|e|why] w'].
Qed.
#[local] Hint Resolve set_cache_calm set_active_calm check_script_calm resolve_for_url_calm : footprint.
Lemma clear_calm : calm_beside (clear (W := W)).
Proof using FR PT. unfold clear. apply in_world_calm. footprint. Qed.
#[local] Hint Resolve clear_calm : footprint.
Lemma apply_inner_calm cfg : calm_beside (apply_inner (W := W) cfg).
Proof using FR PT. unfold apply_inner. footprint; apply in_world_calm; footprint. Qed.
Lemma proxy_apply_calm base cfg : is_base ok base -> calm_beside (proxy_apply (W := W) base cfg).
Proof using FR PT.
  intros Hbase s. unfold proxy_apply. assert (Hc : calm_beside (set_active (W := W) cfg ;; apply_inner cfg)).
  { pose proof apply_inner_calm. footprint. }
  specialize (Hc s). destruct ((set_active cfg ;; apply_inner cfg) s) as [[a|e|why] s1]; [|done|done]. cbn in Hc. trans s1; [done|].
  assert (Hi : calm_beside (ignore (in_world (save_proxy_config (W := W) base cfg)))); [|apply Hi].
  apply within_ignore, in_world_calm. unfold save_proxy_config. footprint.
Qed.
#[local] Hint Resolve proxy_apply_calm : footprint.
Lemma on_proxy_calm {A} (c : M (ProxyState * W) A) : calm_beside c -> calm (on_static (S := ProxyState) c).
Proof using FR PT.
  intros Hc w. specialize (Hc (st_get w, w)). unfold on_static, outside in *. destruct (c (st_get w, w)) as [r [s w']]. cbn in *. trans w'; [done|].
  by apply (fr_proxy (R := R)).
Qed.

(** *** Activation *)

Lemma join_wifi_calm ctrl profile ifname (secrets : B) : calm (join_wifi (W := W) ctrl profile ifname secrets).
Proof using FR PT. unfold join_wifi, optional_secret. cbn [secret_get file_secrets]. footprint. Qed.
Lemma apply_static_calm profile index : calm (apply_static (W := W) profile index).
Proof using FR PT. unfold apply_static, add_addresses. footprint. Qed.
Lemma apply_servers_calm servers search : calm (apply_servers (W := W) servers search).
Proof using FR PT. unfold apply_servers. footprint. Qed.
#[local] Hint Resolve join_wifi_calm apply_static_calm apply_servers_calm : footprint.
Lemma apply_dhcp_calm base index : is_base ok base -> calm_beside (apply_dhcp (W := W) base index).
Proof using FR PT. intros Hb. unfold apply_dhcp, save_lease. footprint. Qed.
Lemma apply_dhcp6_calm base index : is_base ok base -> calm_beside (apply_dhcp6 (W := W) base index).
Proof using FR PT. intros Hb. unfold apply_dhcp6, V6.save_lease6. footprint. Qed.
Lemma apply_dhcp6_stateless_calm ifname : calm (apply_dhcp6_stateless (W := W) ifname).
Proof using FR PT. unfold apply_dhcp6_stateless, log_warn. footprint. Qed.
#[local] Hint Resolve apply_dhcp_calm apply_dhcp6_calm apply_dhcp6_stateless_calm : footprint.
Lemma configure_ip_calm base profile index : is_base ok base -> calm_beside (configure_ip (W := W) base profile index).
Proof using FR PT. intros Hb. unfold configure_ip. footprint. Qed.
#[local] Hint Resolve configure_ip_calm : footprint.
Lemma activate_calm ctrl base profile (secrets : B) : is_base ok base -> calm_beside (activate (W := W) ctrl base profile secrets).
Proof using FR PT. intros Hb. unfold activate, activated. footprint. Qed.
Lemma deactivate_calm ctrl base : is_base ok base -> calm_beside (deactivate (W := W) ctrl base).
Proof using FR PT. intros Hb. unfold deactivate. footprint. Qed.
End Operations.
#[export] Hint Resolve log_calm load_calm read_json_calm write_json_calm list_dir_calm now_secs_calm audit_record_calm dns_apply_static_calm
  apply_to_calm file_set_calm file_delete_all_calm renew_calm refresh_calm last_results_calm wifi_forget_calm scanner_scan_calm check_calm
  tool_run_calm list_devices_calm on_mac_calm collect_calm assign_zone_calm ensure_default_zone_calm add_rule_calm remove_rule_calm
  hostapd_stop_calm hotspot_start_calm resolve_for_url_calm proxy_apply_calm on_proxy_calm activate_calm deactivate_calm : footprint.
