(* ===== verification/ManagerFrame.v ===== *)
(** * What the manager's commands touch

    The handlers of the manager on top of [Footprint]: a command that is not
    about profiles goes along the frame's relation and leaves the manager's
    profile list, where it keeps its files, and where its secrets are. *)

From Stdlib Require Import Ascii String.
From S2P Require Import Prelude RustStr IpAddr Dhcp4 Sys Persistence World Netlink IpLayer Routing DhcpClient.
From S2P Require Import Dhcp6 Security Firewall Device Connection Ipc Pac Proxy Dns Config Store ProfileStore Wpa.
From S2P Require Import Wireguard OpenVpn Connectivity Monitoring Bluetooth Logging Sharing Activation Manager ManagerInv Panics Footprint.

Definition profiles_dir (config : NetworkConfig) : string := path_join (data_dir (general config)) "profiles".
(** Where the manager writes: its profiles, its audit trail and its secrets. *)
Definition settled (ok : permissions) (dir : string) (m : NetworkManager FileSecretsBackend) : Prop :=
  mgr_profiles_dir m = dir /\ may_write ok (audit_path (mgr_audit m)) /\ secrets_ok ok (mgr_secrets m).
Definition quiet {W} (R : W -> W -> Prop) (inv : W -> Prop) (ok : permissions) (dir : string) (s s' : NetworkManager FileSecretsBackend * W) : Prop :=
  settled ok dir s.1 -> inv s.2 -> settled ok dir s'.1 /\ mgr_connections s'.1 = mgr_connections s.1 /\ R s.2 s'.2.
#[export] Instance quiet_preorder {W} `{Host W} (R : W -> W -> Prop) inv ok dir {FR : Frame R inv ok} : PreOrder (quiet R inv ok dir).
Proof.
  split; [intros s Hm _; split_and!; [done|done|reflexivity]|]. intros s1 s2 s3 H1 H2 Hm Hi. destruct (H1 Hm Hi) as (Hm2 & C2 & R2).
  destruct (H2 Hm2 (fr_stays _ _ R2 Hi)) as (Hm3 & C3 & R3). split_and!; [done|congruence|by trans s2.2].
Qed.

Section Handlers.
Context {W : Type} `{Host W} `{Formats} (R : W -> W -> Prop) (inv : W -> Prop) (ok : permissions) {FR : Frame R inv ok} {PT : Paths (W := W) ok} (dir : string).
Abbreviation B := FileSecretsBackend.
Abbreviation MM := (M (NetworkManager B * W)).
Abbreviation calm c := (within R c).
Abbreviation settled m := (settled ok dir m).
Abbreviation quiet := (quiet R inv ok dir).
Abbreviation hush c := (within quiet c).

Lemma quiet_inner {A} (c : M W A) : calm c -> hush (inner (S := NetworkManager B) c).
Proof. intros Hc [m w] Hm _. specialize (Hc w). unfold inner. cbn. by destruct (c w) as [r w']. Qed.
Lemma quiet_get {A} (f : NetworkManager B -> MM A) : (forall m, settled m -> hush (f m)) -> hush (state_get ≫= f).
Proof. intros Hf [m w] Hm. exact (Hf m Hm (m, w) Hm). Qed.
Lemma quiet_base {A} (f : string -> MM A) : (forall base, is_base ok base -> hush (f base)) -> hush (inner base_dir ≫= f).
Proof using FR.
  intros Hf [m w] Hm Hi. exact (Hf _ (fr_inv_base (R := R) _ Hi) (m, w) Hm Hi).
Qed.
Lemma quiet_modify (f : NetworkManager B -> NetworkManager B) :
  (forall m, settled m -> settled (f m) /\ mgr_connections (f m) = mgr_connections m) -> hush (state_modify (W := W) f).
Proof using FR. intros Hf [m w] Hm _. destruct (Hf m Hm). split_and!; [done|done|reflexivity]. Qed.
Lemma quiet_firewall {A} (c : M (FirewallState * W) A) : within (outside R) c -> hush (on_firewall c).
Proof.
  intros Hc [m w] Hm _. specialize (Hc (mgr_firewall m, w)). unfold on_firewall, outside in *. cbn in *. by destruct (c (mgr_firewall m, w)) as [r [f w']].
Qed.
Lemma quiet_device {A} name (c : M (NetworkDevice * W) A) : within (outside R) c -> hush (on_device name c).
Proof using FR.
  intros Hc [m w] Hm _. unfold on_device. cbn. destruct (mgr_devices m !! name) as [d|]; [|split_and!; [done|done|reflexivity]]. specialize (Hc (d, w)).
  unfold outside in Hc. by destruct (c (d, w)) as [r [d' w']].
Qed.
Lemma quiet_answer {A} (c : MM A) k : hush c -> (forall a, hush (k a)) -> hush (answer c k).
Proof using FR. intros Hc Ho. unfold answer. footprint. Qed.
Lemma recently_used_first_calm l : calm (recently_used_first (W := W) dir l).
Proof using FR PT.
  unfold recently_used_first. footprint. induction l as [|p l IH]; cbn [with_mtime]; unfold profile_mtime; footprint.
Qed.
#[local] Hint Resolve recently_used_first_calm : footprint.
#[local] Hint Extern 2 (hush (inner _)) => apply quiet_inner : footprint.
#[local] Hint Extern 1 (hush (state_modify _)) => apply quiet_modify; intros; split; done : footprint.

Ltac hush_step :=
  match goal with
  | E : mgr_profiles_dir ?m = _ |- context [mgr_profiles_dir ?m] => rewrite E
  | |- hush (state_get ≫= _) => apply quiet_get; intros ? (? & ? & ?)
  | |- hush (inner base_dir ≫= _) => apply quiet_base; intros
  | |- within R (base_dir ≫= _) => apply (base_dir_calm R inv ok); intros
  | |- hush (inner _) => apply quiet_inner
  | |- hush (state_modify _) => apply quiet_modify; intros; split; done
  | |- hush (on_firewall _) => apply quiet_firewall
  | |- hush (on_device _ _) => apply quiet_device
  | |- hush (answer _ _) => apply quiet_answer; [|intros]
  | |- _ => footprint_step
  end.
Ltac hush := repeat hush_step.

Lemma all_devices_quiet : hush (all_devices : MM _).
Proof using FR PT. unfold all_devices, entries. hush. Qed.
#[local] Hint Resolve all_devices_quiet : footprint.
Lemma audit_runs actor action detail (s : NetworkManager B * W) :
  exists l w', audit actor action detail s = (Ok tt, (set_audit l s.1, w')) /\ audit_path l = audit_path (mgr_audit s.1).
Proof.
  destruct s as [m w]. destruct (audit_record_ok (mgr_audit m) actor action detail w) as (l & w' & E & [Hl _]). exists l, w'. split; [|done].
  unfold audit, state_get, state_modify, inner, mbind, M_bind. cbn. by rewrite E.
Qed.
Lemma audit_quiet actor action detail : hush (audit actor action detail : MM unit).
Proof using FR PT.
  unfold audit. apply quiet_get. intros m Hm. destruct Hm as (Hd & Hp & Hs).
  intros [m' w] Hg _. destruct (audit_record_ok (mgr_audit m) actor action detail w) as (l & w' & E & [Hl _]).
  pose proof (audit_record_calm R inv ok (mgr_audit m) actor action detail Hp w) as Hc. rewrite E in Hc.
  unfold state_modify, inner, mbind, M_bind. cbn. rewrite E. cbn. split_and!; [|done|done]. destruct Hg as (Hd' & _ & Hs').
  split_and!; cbn; [done| |done]. by rewrite Hl.
Qed.
Lemma broadcast_quiet ev : hush (broadcast ev : MM unit).
Proof using FR PT. unfold broadcast. hush. Qed.
#[local] Hint Resolve audit_quiet broadcast_quiet : footprint.
Lemma broadcast_state_quiet : hush (broadcast_state : MM unit).
Proof using FR PT. unfold broadcast_state. hush. Qed.
Lemma refresh_devices_quiet : hush (refresh_devices : MM unit).
Proof using FR PT. unfold refresh_devices. hush. Qed.
#[local] Hint Resolve broadcast_state_quiet refresh_devices_quiet : footprint.
(** Marking a profile as used. *)
Context (Htouch : forall id, calm (touch (W := W) dir id)).
Lemma activate_profile_quiet id actor : hush (activate_profile id actor : MM Response).
Proof using FR PT Htouch.
  unfold activate_profile, find_device_for_profile, activation_attempt, ctrl_dir. hush.
Qed.
Lemma deactivate_profile_quiet id actor : hush (deactivate_profile id actor : MM Response).
Proof using FR PT. unfold deactivate_profile, entries, ctrl_dir. hush. Qed.
#[local] Hint Resolve activate_profile_quiet deactivate_profile_quiet : footprint.
Lemma try_autoconnect_quiet name : hush (try_autoconnect name : MM unit).
Proof using FR PT Htouch. unfold try_autoconnect, choose_profile. hush. Qed.
#[local] Hint Resolve try_autoconnect_quiet : footprint.
Lemma try_autoconnect_all_quiet : hush (try_autoconnect_all : MM unit).
Proof using FR PT Htouch. unfold try_autoconnect_all, device_names. hush. Qed.
#[local] Hint Resolve try_autoconnect_all_quiet : footprint.
Lemma handle_hotplug_quiet ev : hush (handle_hotplug ev : MM unit).
Proof using FR PT Htouch. unfold handle_hotplug. hush. Qed.
Lemma renew_lease_calm name active : calm (renew_lease (W := W) name active).
Proof using FR PT. unfold renew_lease, load_lease, save_lease. hush. Qed.
#[local] Hint Resolve renew_lease_calm : footprint.
Lemma handle_tick_quiet kind : hush (handle_tick kind : MM unit).
Proof using FR PT Htouch. unfold handle_tick, check_connectivity, entries. hush. Qed.
#[local] Hint Resolve handle_hotplug_quiet handle_tick_quiet : footprint.


(** *** Requests *)

(** The requests that change the profile list. *)
Definition edits_profiles (req : Request) : bool :=
  match req with AddConnection _ | DeleteConnection _ | ConnectWifi _ _ _ _ | ForgetWifi _ _ => true | _ => false end.
Lemma request_quiet req identity : edits_profiles req = false -> hush (handle_request req identity : MM Response).
Proof using FR PT Htouch.
  intros He. unfold handle_request. apply quiet_get. intros m (Hd & Hp & Hs). destruct req; try discriminate He;
    unfold remove_firewall_rule, list_bluetooth_devices, bluetooth_power, bluetooth_scan, pair_bluetooth, trust_bluetooth, connect_bluetooth,
      disconnect_bluetooth, remove_bluetooth, set_proxy_config, get_proxy_config, resolve_proxy, diagnose, reload, audited,
      bt_pair, bt_trust, bt_connect, bt_disconnect, bt_remove, power_on, power_off, start_scan, stop_scan, bt_run; hush.
Qed.
Lemma command_quiet cmd : (forall req identity, cmd <> CmdRequest req identity) -> hush (handle_command cmd : MM (list Reply)).
Proof using FR PT Htouch. intros Hc. destruct cmd; cbn [handle_command]; [by destruct (Hc req identity)|hush..]. Qed.
Lemma log_info_quiet msg : hush (inner (log_info msg) : MM unit).
Proof using FR PT. unfold log_info. hush. Qed.
End Handlers.

(** What [run] does before the first command. *)
Definition before_commands {W} `{Host W} `{Formats} (s : NetworkManager FileSecretsBackend * W) : NetworkManager FileSecretsBackend * W :=
  ((inner (log_info "mitos-network manager started") ;; try_autoconnect_all) s).2.
(** ** Commands about profiles *)

Section Kept.
Context {W : Type} `{Host W} `{Formats} (R : W -> W -> Prop) (inv : W -> Prop) (ok : permissions) {FR : Frame R inv ok} {PT : Paths (W := W) ok} (dir : string).
Abbreviation B := FileSecretsBackend.
Abbreviation MM := (M (NetworkManager B * W)).
Abbreviation calm c := (within R c).
(** Where the profiles may be written, every command goes along [R]. *)
Context (Hprofile : forall id path, profile_path dir id = Ok path -> may_write ok path).

Lemma profile_path_calm {A} id (f : string -> M W A) : (forall path, may_write ok path -> calm (f path)) -> calm (lift (profile_path dir id) ≫= f).
Proof using FR Hprofile. intros Hf. apply within_lift_bind; [apply _|]. intros path Hp. by eapply Hf, Hprofile. Qed.
Lemma save_calm p : calm (save (W := W) dir p).
Proof using FR PT Hprofile. unfold save, write_atomic. apply profile_path_calm. intros path Hp. footprint. Qed.
Lemma delete_profile_calm id : calm (delete_profile (W := W) dir id).
Proof using FR PT Hprofile. unfold delete_profile. apply profile_path_calm. intros path Hp. footprint. Qed.
Lemma touch_own id : calm (touch (W := W) dir id).
Proof using FR PT Hprofile. unfold touch, rewrite_file. apply profile_path_calm. intros path Hp. footprint. Qed.
#[local] Hint Resolve save_calm delete_profile_calm touch_own : footprint.

Definition kept (s s' : NetworkManager B * W) : Prop :=
  settled ok dir s.1 -> inv s.2 -> settled ok dir s'.1 /\ R s.2 s'.2.
#[local] Instance kept_preorder : PreOrder kept.
Proof using FR.
  split; [intros s Hm _; split; [done|reflexivity]|]. intros s1 s2 s3 H1 H2 Hm Hi. destruct (H1 Hm Hi) as [Hm2 R2].
  destruct (H2 Hm2 (fr_stays _ _ R2 Hi)) as [Hm3 R3]. split; [done|by trans s2.2].
Qed.
Lemma quiet_kept {A} (c : MM A) : within (quiet R inv ok dir) c -> within kept c.
Proof. intros Hc s Hm Hi. by destruct (Hc s Hm Hi) as (Hm' & _ & Hr). Qed.
Lemma kept_get {A} (f : NetworkManager B -> MM A) : (forall m, settled ok dir m -> within kept (f m)) -> within kept (state_get ≫= f).
Proof. intros Hf [m w] Hm. exact (Hf m Hm (m, w) Hm). Qed.
Lemma kept_modify f : (forall m, settled ok dir m -> settled ok dir (f m)) -> within kept (state_modify (W := W) f).
Proof using FR. intros Hf [m w] Hm _. split; [by apply Hf|reflexivity]. Qed.
Lemma kept_inner {A} (c : M W A) : calm c -> within kept (inner (S := NetworkManager B) c).
Proof. intros Hc. apply quiet_kept, (quiet_inner _ _ ok). exact Hc. Qed.
Lemma kept_answer {A} (c : MM A) k : within kept c -> (forall a, within kept (k a)) -> within kept (answer c k).
Proof using FR. intros Hc Hk. unfold answer. footprint. Qed.
Ltac keep :=
  repeat match goal with
  | |- within kept (state_get ≫= _) => apply kept_get; intros ? (? & ? & ?)
  | |- within kept (inner _) => apply kept_inner
  | |- within kept (store_profile _) => apply kept_modify; done
  | |- within kept (drop_profile _) => apply kept_modify; done
  | |- within kept (answer _ _) => apply kept_answer; [|intros]
  | |- within kept (audit _ _ _) => apply quiet_kept, (audit_quiet R inv ok dir)
  | |- within kept broadcast_state => apply quiet_kept, (broadcast_state_quiet R inv ok dir)
  | |- within kept (activate_profile _ _) => apply quiet_kept, (activate_profile_quiet R inv ok dir)
  | |- within kept (deactivate_profile _ _) => apply quiet_kept, (deactivate_profile_quiet R inv ok dir)
  | E : mgr_profiles_dir ?m = _ |- context [mgr_profiles_dir ?m] => rewrite E
  | |- _ => footprint_step
  end.
Lemma delete_connection_kept id actor : within kept (delete_connection id actor : MM Response).
Proof using FR PT Hprofile. unfold delete_connection. cbn [secret_delete_all file_secrets]. keep. Qed.
Lemma connect_wifi_kept device ssid security pass actor : within kept (connect_wifi device ssid security pass actor : MM Response).
Proof using FR PT Hprofile. unfold connect_wifi. cbn [secret_set file_secrets]. keep. Qed.
Lemma forget_wifi_kept device ssid actor : within kept (forget_wifi device ssid actor : MM Response).
Proof using FR PT Hprofile. unfold forget_wifi, ctrl_dir. cbn [secret_delete_all file_secrets]. keep. Qed.
Lemma handle_request_kept req identity : within kept (handle_request req identity : MM Response).
Proof using FR PT Hprofile.
  destruct (edits_profiles req) eqn:E; [|apply quiet_kept, request_quiet; [apply _..|apply touch_own|done]].
  unfold handle_request. apply kept_get. intros m (Hd & Hp & Hs). destruct req; try discriminate E.
  - keep.
  - apply delete_connection_kept.
  - apply connect_wifi_kept.
  - apply forget_wifi_kept.
Qed.
Lemma handle_command_kept cmd : within kept (handle_command cmd : MM (list Reply)).
Proof using FR PT Hprofile.
  destruct cmd as [req identity| | | | |]; [|apply quiet_kept, command_quiet; [apply _..|apply touch_own|done]..].
  cbn [handle_command]. apply within_bind; [apply _|apply handle_request_kept|]. intros resp. keep.
Qed.
Lemma serve_kept cmds : within kept (serve cmds : MM (list Reply)).
Proof using FR PT Hprofile.
  induction cmds as [|cmd cmds IH]; cbn [serve]; [keep|]. pose proof (handle_command_kept cmd) as Hc.
  destruct cmd; [..|exact Hc]; (apply within_bind; [apply _|exact Hc|]; intros sent; keep).
Qed.
Lemma start_kept msg : within kept (inner (log_info msg) ;; try_autoconnect_all : MM unit).
Proof using FR PT Hprofile.
  apply within_bind; [apply _|apply quiet_kept, (log_info_quiet R inv ok dir)|intros _]. apply quiet_kept, try_autoconnect_all_quiet; [apply _..|apply touch_own].
Qed.
Lemma run_kept cmds : within kept (run cmds : MM (list Reply)).
Proof using FR PT Hprofile.
  unfold run. apply within_bind; [apply _|apply quiet_kept, (log_info_quiet R inv ok dir)|intros _].
  apply within_bind; [apply _|apply quiet_kept, try_autoconnect_all_quiet; [apply _..|apply touch_own]|intros _].
  apply within_bind; [apply _|apply serve_kept|]. intros replies. apply within_bind; [apply _|apply quiet_kept, (log_info_quiet R inv ok dir)|intros _]. keep.
Qed.
End Kept.

(** ** The start *)

Section Start.
Context {W : Type} `{Host W} `{Formats} (R : W -> W -> Prop) (inv : W -> Prop) (ok : permissions) {FR : Frame R inv ok} {PT : Paths (W := W) ok}.
Abbreviation calm c := (within R c).
Lemma load_all_calm dir : may_mkdir ok dir -> calm (load_all (W := W) dir).
Proof using FR PT.
  intros Hd. unfold load_all. footprint. generalize (@nil ConnectionProfile) as out. induction a0 as [|path paths IH]; intros out; cbn [load_each]; unfold log_warn; footprint.
Qed.
Lemma zones_calm (devs : list NetworkDevice) :
  calm ((fun w => let '(r, (f, w')) := for_each devs (fun dev => ignore (ensure_default_zone (dev_name dev))) (firewall_new, w) in (r ≫= (fun _ => Ok f), w'))
        : M W FirewallState).
Proof using FR PT.
  intros w. assert (Hz : within (outside R) (for_each devs (fun dev => ignore (ensure_default_zone (W := W) (dev_name dev))))) by footprint.
  specialize (Hz (firewall_new, w)). unfold outside in Hz. by destruct (for_each _ _ _) as [r [f w']].
Qed.
Lemma apply_from_config_calm cfg : may_write ok (resolv_conf_path cfg) -> calm (apply_from_config (W := W) cfg).
Proof using FR PT. intros Hp. unfold apply_from_config. footprint. Qed.
Lemma manager_new_calm config : calm (init_data_dir (data_dir (general config))) -> may_mkdir ok (profiles_dir config) ->
  may_write ok (resolv_conf_path (dns_config config)) -> calm (manager_new config).
Proof using FR PT.
  intros Hi Hd Hr. pose proof (load_all_calm _ Hd) as Hl. pose proof zones_calm as Hz. pose proof (apply_from_config_calm _ Hr) as Ha.
  unfold manager_new, init_ctrl_dir, entries, load_proxy_config. change (path_join (data_dir (general config)) "profiles") with (profiles_dir config).
  do 4 (apply within_bind; [apply _|footprint|intros]). apply within_bind; [apply _|apply (refresh_calm R inv ok)|intros].
  do 3 (apply within_bind; [apply _|footprint|intros]). apply (base_dir_calm R inv ok). intros base Hb. footprint.
Qed.
(** The manager that comes of it. *)
Lemma manager_new_settled config (w w' : W) m : secrets_ok ok (file_secrets_new (data_dir (general config))) ->
  may_write ok (path_join (data_dir (general config)) "audit.log") -> manager_new config w = (Ok m, w') -> settled ok (profiles_dir config) m.
Proof.
  intros Hs Ha. unfold manager_new.
  intros (u1 & wa & _ & (u2 & wb & _ & (u3 & wc & _ & (conns & wd & _ & Hn)%M_bind_Ok)%M_bind_Ok)%M_bind_Ok)%M_bind_Ok.
  revert Hn. intros (devices & we & _ & (all & wf & _ & (fw & wg & _ & (u8 & wh & _ & Hn)%M_bind_Ok)%M_bind_Ok)%M_bind_Ok)%M_bind_Ok.
  revert Hn. intros (base & wi & _ & (stored & wj & _ & (u11 & wk & _ & [-> _]%mret_Ok)%M_bind_Ok)%M_bind_Ok)%M_bind_Ok. done.
Qed.
End Start.
#[export] Hint Resolve all_devices_quiet audit_quiet broadcast_quiet broadcast_state_quiet activate_profile_quiet deactivate_profile_quiet
  try_autoconnect_quiet try_autoconnect_all_quiet log_info_quiet : footprint.
