(* ===== verification/Process.v ===== *)
(** * The process

    An outside with the statics of the daemon beside it and a journal of the
    calls that leave something behind.  It is a [Host] where the outside is one,
    and keeps what the outside promises of its files. *)

From Stdlib Require Import Ascii String.
From S2P Require Import Prelude RustStr IpAddr Dhcp4 Sys Persistence Journal World Netlink IpLayer Routing DhcpClient.
From S2P Require Import Dhcp6 Security Firewall Device Connection Ipc Pac Proxy Dns Config Store ProfileStore Wpa.
From S2P Require Import Wireguard OpenVpn Connectivity Monitoring Bluetooth Logging Sharing Activation Manager.

Record process (W : Type) := mkProcess {
  pr_outside : W;
  pr_journal : list deed;
  pr_level : MinLevel;
  pr_sessions : Sessions;
  pr_vpns : ActiveVpns;
  pr_hostapd : HostapdChildren;
  pr_proxy : ProxyState;
  pr_data_dir : DataDir;
  pr_ctrl_dir : CtrlDir
}.
Arguments mkProcess {W}.
Arguments pr_outside {W}.
Arguments pr_journal {W}.
Arguments pr_level {W}.
Arguments pr_sessions {W}.
Arguments pr_vpns {W}.
Arguments pr_hostapd {W}.
Arguments pr_proxy {W}.
Arguments pr_data_dir {W}.
Arguments pr_ctrl_dir {W}.

Section Process.
Context {W : Type}.
Implicit Types s : process W.
Definition after s (w : W) (deeds : list deed) : process W :=
  mkProcess w (pr_journal s ++ deeds) (pr_level s) (pr_sessions s) (pr_vpns s) (pr_hostapd s) (pr_proxy s) (pr_data_dir s) (pr_ctrl_dir s).
(** A call, with what it leaves behind, which may depend on what it returns. *)
Definition noted_by {A} (deeds : A -> list deed) (o : W -> A * W) : process W -> A * process W := fun s =>
  let '(a, w) := o (pr_outside s) in (a, after s w (deeds a)).
Definition noted {A} (deeds : list deed) : (W -> A * W) -> process W -> A * process W := noted_by (fun _ => deeds).
Definition noted_to (deeds : list deed) (o : W -> W) : process W -> process W := fun s => after s (o (pr_outside s)) deeds.
Definition bound (a : sock_addr) : list deed := match a with UnixPath p => [DMake p] | _ => [] end.
End Process.

#[export] Instance process_host {W} `{Host W} : Host (process W) := {|
  host_files := {|
    fs_read p := noted [] (fs_read p); fs_read_raw p := noted [] (fs_read_raw p); fs_write p t := noted_by (fun r => [DWrite p (went_well r)]) (fs_write p t);
    fs_rename a b := noted_by (fun r => [DRename a b (went_well r)]) (fs_rename a b); fs_remove p := noted_by (fun r => [DRemove p r]) (fs_remove p);
    fs_create_dir_all p := noted [DMkdir p] (fs_create_dir_all p); fs_read_dir p := noted [] (fs_read_dir p); fs_mtime p := noted [] (fs_mtime p);
    fs_chmod p m := noted [DChmod p] (fs_chmod p m); fs_exists p := noted [] (fs_exists p); fs_read_link p := noted [] (fs_read_link p);
    fs_open p := noted [] (fs_open p); fs_create_new p m := noted [DMake p] (fs_create_new p m); fs_create_dir p m := noted [DWorkdir p] (fs_create_dir p m) |};
  host_append := {| ap_open p := noted [DMake p] (ap_open p); ap_write p t := noted_by (fun r => [DAppend p t (went_well r)]) (ap_write p t) |};
  host_entropy := {| rand_bytes n := noted [] (rand_bytes n); env_temp_dir := env_temp_dir (W := W) |};
  host_clock := {| clk_instant := noted [] clk_instant; clk_unix := noted [] clk_unix; clk_pid s := clk_pid (pr_outside s); clk_sleep d := noted_to [] (clk_sleep d) |};
  host_children := {| cp_spawn prog args := noted [DRun prog] (cp_spawn prog args); cp_kill p := noted [] (cp_kill p); cp_wait p := noted [] (cp_wait p) |};
  host_workdirs := {| fs_is_file p := noted [] (fs_is_file p); fs_remove_dir_all p := noted [DWorkdir p] (fs_remove_dir_all p) |};
  host_unix := {| us_bind p := noted [DMake p] (us_bind p); us_nonblocking fd b := noted [] (us_nonblocking fd b); us_accept fd := noted [] (us_accept fd);
    us_write fd t := noted [] (us_write fd t); us_try_clone fd := noted [] (us_try_clone fd); us_close fd := noted_to [] (us_close fd) |};
  host_threads := {| thread_starts := noted [] thread_starts; spawn_remove_after d p := noted_to [DRemoveLater p] (spawn_remove_after d p) |};
  host_dhcp_threads := {| dhcpd_spawn i fd cfg := noted [] (dhcpd_spawn i fd cfg); dhcpd_stop h := noted_to [] (dhcpd_stop h) |};
  host_management := {| mg_lines fd t := noted [] (mg_lines fd t) |};
  host_processes := {| run_command prog args := noted [DRun prog] (run_command prog args); run_fed prog args input := noted [DRun prog] (run_fed prog args input) |};
  host_sockets := {| so_socket k := noted [] (so_socket k); so_setsockopt fd o := noted [] (so_setsockopt fd o); so_bind fd a := noted (bound a) (so_bind fd a);
    so_connect fd a := noted [] (so_connect fd a); so_close fd := noted_to [] (so_close fd); so_send fd b d := noted [] (so_send fd b d); so_recv fd n := noted [] (so_recv fd n) |};
  host_tcp := {| tcp_connect h p := noted [] (tcp_connect h p); tcp_connect_timeout i p t := noted [] (tcp_connect_timeout i p t);
    tcp_read_timeout fd t := noted [] (tcp_read_timeout fd t); tcp_write_timeout fd t := noted [] (tcp_write_timeout fd t); tcp_write_all fd b := noted [] (tcp_write_all fd b);
    tcp_read_to_end fd n := noted [] (tcp_read_to_end fd n); tcp_close fd := noted_to [] (tcp_close fd) |};
  host_tcp_reads := {| tcp_read fd n := noted [] (tcp_read fd n) |};
  host_addrs := {| to_socket_addrs t := noted [] (to_socket_addrs t) |};
  host_resolver := {| rs_lookup h := noted [] (rs_lookup h); rs_local_ip := noted [] rs_local_ip |};
  host_names := {| sys_gethostname n := noted [] (sys_gethostname n); sys_sethostname n := noted [] (sys_sethostname n) |};
  host_stderr := {| eprint line := noted_to [] (eprint line) |};
  host_iter := {| hash_iter V m := noted [] (hash_iter m) |};
  host_receivers := {| rx_gone := noted [] rx_gone |};
  host_level := {| st_get s := pr_level s; st_put x s := mkProcess (pr_outside s) (pr_journal s) x (pr_sessions s) (pr_vpns s) (pr_hostapd s) (pr_proxy s) (pr_data_dir s) (pr_ctrl_dir s) |};
  host_sessions := {| st_get s := pr_sessions s; st_put x s := mkProcess (pr_outside s) (pr_journal s) (pr_level s) x (pr_vpns s) (pr_hostapd s) (pr_proxy s) (pr_data_dir s) (pr_ctrl_dir s) |};
  host_vpns := {| st_get s := pr_vpns s; st_put x s := mkProcess (pr_outside s) (pr_journal s) (pr_level s) (pr_sessions s) x (pr_hostapd s) (pr_proxy s) (pr_data_dir s) (pr_ctrl_dir s) |};
  host_hostapd := {| st_get s := pr_hostapd s; st_put x s := mkProcess (pr_outside s) (pr_journal s) (pr_level s) (pr_sessions s) (pr_vpns s) x (pr_proxy s) (pr_data_dir s) (pr_ctrl_dir s) |};
  host_proxy := {| st_get s := pr_proxy s; st_put x s := mkProcess (pr_outside s) (pr_journal s) (pr_level s) (pr_sessions s) (pr_vpns s) (pr_hostapd s) x (pr_data_dir s) (pr_ctrl_dir s) |};
  host_data_dir := {| st_get s := pr_data_dir s; st_put x s := mkProcess (pr_outside s) (pr_journal s) (pr_level s) (pr_sessions s) (pr_vpns s) (pr_hostapd s) (pr_proxy s) x (pr_ctrl_dir s) |};
  host_ctrl_dir := {| st_get s := pr_ctrl_dir s; st_put x s := mkProcess (pr_outside s) (pr_journal s) (pr_level s) (pr_sessions s) (pr_vpns s) (pr_hostapd s) (pr_proxy s) (pr_data_dir s) x |}
|}.

(** What the outside promises of its files, the process does. *)
#[export] Instance process_laws {W} `{Host W} {FL : FileSystemLaws W} : FileSystemLaws (process W).
Proof.
  refine {| files s := files (pr_outside s) |}.
  - intros p s. pose proof (law_read p (pr_outside s)) as Hl. cbn. unfold noted, noted_by. by destruct (fs_read p (pr_outside s)) as [[]].
  - intros p s. pose proof (law_read_raw p (pr_outside s)) as Hl. cbn. unfold noted, noted_by. by destruct (fs_read_raw p (pr_outside s)) as [[]].
  - intros p t s. pose proof (law_write p t (pr_outside s)) as Hl. cbn. unfold noted_by. by destruct (fs_write p t (pr_outside s)) as [[]].
  - intros a b s. pose proof (law_rename a b (pr_outside s)) as Hl. cbn. unfold noted_by. by destruct (fs_rename a b (pr_outside s)) as [[]].
  - intros p s. pose proof (law_remove p (pr_outside s)) as Hl. cbn. unfold noted_by. by destruct (fs_remove p (pr_outside s)) as [[]].
  - intros p s. pose proof (law_create_dir p (pr_outside s)) as Hl. cbn. unfold noted, noted_by. by destruct (fs_create_dir_all p (pr_outside s)).
  - intros p s. pose proof (law_open p (pr_outside s)) as Hl. cbn. unfold noted, noted_by. by destruct (fs_open p (pr_outside s)).
  - intros p m s. pose proof (law_create_new p m (pr_outside s)) as Hl. cbn. unfold noted, noted_by. by destruct (fs_create_new p m (pr_outside s)) as [[]].
  - intros p m s. pose proof (law_chmod p m (pr_outside s)) as Hl. cbn. unfold noted, noted_by. by destruct (fs_chmod p m (pr_outside s)).
  - intros d s. pose proof (law_read_dir d (pr_outside s)) as Hl. cbn. unfold noted, noted_by. by destruct (fs_read_dir d (pr_outside s)) as [[]].
Defined.
#[export] Instance process_dir_laws {W} `{Host W} {FL : FileSystemLaws W} {DL : DirLaws W} : DirLaws (process W).
Proof.
  split.
  - intros line s. apply (law_eprint line (pr_outside s)).
  - intros d s. pose proof (law_list d (pr_outside s)) as Hl. cbn. unfold noted, noted_by. by destruct (fs_read_dir d (pr_outside s)) as [[]].
Qed.
#[export] Instance process_journal {W} `{Host W} : Journal (process W).
Proof.
  refine {| journal s := pr_journal s |}; intros; cbn; unfold noted, noted_by; case_match; cbn; by rewrite ?app_nil_r.
Defined.
