(* ===== verification/Restart.v ===== *)
(** * Restarting the daemon

    The manager keeps its profiles in memory and on disk.  Over every command
    the two agree: [agree] says that the list in memory is the map the profile
    directory holds, but for the files that the journal of the process says are
    in doubt.  Commands that are not about profiles leave both sides
    ([Footprint]); saving, deleting and forgetting change both.  So the manager
    of a restarted daemon has the profiles the last one had, where none of the
    writes and removals the daemon does not look at has failed. *)

From Stdlib Require Import Ascii String.
From S2P Require Import Prelude RustStr IpAddr Dhcp4 Sys Persistence Journal World Netlink IpLayer Routing DhcpClient.
From S2P Require Import Dhcp6 Security Firewall Device Connection Ipc Pac Proxy Dns Config Store ProfileStore Wpa.
From S2P Require Import Wireguard OpenVpn Connectivity Monitoring Bluetooth Logging Sharing Activation Manager ManagerInv Panics.
From S2P Require Import Daemon System Footprint ManagerFrame Process.

(** ** The profile files, and who stays off them *)

(** Removing [p] whole removes [dir]. *)
Definition swept (p dir : string) : Prop := exists rest, join_prefix dir = join_prefix p +:+ rest.
(** The directory of a session is not above the profiles. *)
Definition workdirs_off (dir : string) (sessions : Sessions) : Prop :=
  match sessions with Some m => map_Forall (fun _ s => ~ swept (ses_workdir s) dir) m | None => True end.

(** The files of the directory that the store loads. *)
Definition view {W} `{FileSystemLaws W} (dir : string) (w : W) : gmap string string := filter (fun kv => profile_file dir kv.1) (files w).
Lemma view_lookup {W} `{FileSystemLaws W} dir (w : W) p : view dir w !! p = if decide (profile_file dir p) then files w !! p else None.
Proof.
  unfold view. case_decide as Hp.
  - destruct (files w !! p) as [s|] eqn:E; [by apply map_lookup_filter_Some|]. apply map_lookup_filter_None. by left.
  - apply map_lookup_filter_None. by right.
Qed.
Lemma view_at {W} `{FileSystemLaws W} dir (w w' : W) p : view dir w' = view dir w -> profile_file dir p -> files w' !! p = files w !! p.
Proof. intros Hv Hp. pose proof (f_equal (lookup p) Hv) as Hl. rewrite !view_lookup in Hl. by rewrite !decide_True in Hl. Qed.

Section View.
Context {W : Type} `{Host W} {FL : FileSystemLaws W} (dir : string).
Definition same_view (w w' : W) : Prop := view dir w' = view dir w.
#[export] Instance same_view_preorder : PreOrder same_view.
Proof. split; [done|]. intros w1 w2 w3 H12 H23. unfold same_view in *. congruence. Qed.

(** What is asked of the host: no operation but those on files writes a
    profile, a path that is not a profile's gives none, and the temporary
    directories are not above the profiles. *)
Class HostFrame : Prop := {
  hf_instant : within same_view clk_instant;
  hf_unix : within same_view clk_unix;
  hf_sleep d : moves same_view (clk_sleep d);
  hf_socket k : within same_view (so_socket k);
  hf_setsockopt fd o : within same_view (so_setsockopt fd o);
  hf_bind fd a : (forall p, a = UnixPath p -> ~ profile_file dir p) -> within same_view (so_bind fd a);
  hf_connect fd a : within same_view (so_connect fd a);
  hf_close fd : moves same_view (so_close fd);
  hf_send fd b d : within same_view (so_send fd b d);
  hf_recv fd n : within same_view (so_recv fd n);
  hf_tcp_connect host port : within same_view (tcp_connect host port);
  hf_tcp_connect_timeout ip port t : within same_view (tcp_connect_timeout ip port t);
  hf_tcp_read_timeout fd t : within same_view (tcp_read_timeout fd t);
  hf_tcp_write_timeout fd t : within same_view (tcp_write_timeout fd t);
  hf_tcp_write_all fd b : within same_view (tcp_write_all fd b);
  hf_tcp_read_to_end fd n : within same_view (tcp_read_to_end fd n);
  hf_tcp_close fd : moves same_view (tcp_close fd);
  hf_tcp_read fd n : within same_view (tcp_read fd n);
  hf_addrs s : within same_view (to_socket_addrs s);
  hf_lookup h : within same_view (rs_lookup h);
  hf_local_ip : within same_view rs_local_ip;
  hf_rand n : within same_view (rand_bytes n);
  hf_bytes n : gives bytes_given (io_match (rand_bytes (W := W) n));
  hf_run prog args : within same_view (run_command prog args);
  hf_fed prog args input : within same_view (run_fed prog args input);
  hf_thread_starts : within same_view thread_starts;
  hf_spawn prog args : within same_view (cp_spawn prog args);
  hf_kill pid : within same_view (cp_kill pid);
  hf_wait pid : within same_view (cp_wait pid);
  hf_is_file p : within same_view (fs_is_file p);
  hf_remove_dir p : ~ swept p dir -> within same_view (fs_remove_dir_all p);
  hf_us_bind p : ~ profile_file dir p -> within same_view (us_bind p);
  hf_us_nonblocking fd b : within same_view (us_nonblocking fd b);
  hf_us_accept fd : within same_view (us_accept fd);
  hf_us_write fd s : within same_view (us_write fd s);
  hf_us_clone fd : within same_view (us_try_clone fd);
  hf_us_close fd : moves same_view (us_close fd);
  hf_remove_after d p : ~ profile_file dir p -> moves same_view (spawn_remove_after d p);
  hf_dhcpd_spawn i fd cfg : within same_view (dhcpd_spawn i fd cfg);
  hf_mgmt fd t : within same_view (mg_lines fd t);
  hf_gethostname n : within same_view (sys_gethostname n);
  hf_eprint line : moves same_view (eprint line);
  hf_ap_open p : ~ profile_file dir p -> within same_view (ap_open p);
  hf_ap_write p s : ~ profile_file dir p -> within same_view (ap_write p s);
  hf_iter {V : Type} (m : gmap string V) : within same_view (hash_iter m);
  hf_gone : within same_view rx_gone;
  hf_mtime p : within same_view (fs_mtime p);
  hf_exists p : within same_view (fs_exists p);
  hf_read_link p : within same_view (fs_read_link p);
  hf_create_dir p m : within same_view (fs_create_dir p m);
  hf_temp name : starts_with "mitos-ovpn-" name = true -> ~ swept (path_join (env_temp_dir (W := W)) name) dir
}.

(** *** Calls on files *)

Lemma same_at w w' : (forall p, profile_file dir p -> files w' !! p = files w !! p) -> same_view w w'.
Proof. intros Hp. apply map_eq. intros p. rewrite !view_lookup. case_decide; auto. Qed.
Lemma same_files w w' : files w' = files w -> same_view w w'.
Proof. intros E. apply same_at. intros p _. by rewrite E. Qed.
Lemma read_same p : within same_view (fs_read p).
Proof. intros w. apply same_files. pose proof (law_read p w) as Hl. by destruct (fs_read p w) as [[s|e] w']; destruct Hl. Qed.
Lemma read_raw_same p : within same_view (fs_read_raw p).
Proof. intros w. apply same_files. pose proof (law_read_raw p w) as Hl. destruct (fs_read_raw p w) as [[s|e] w']; [by destruct Hl|done]. Qed.
Lemma read_dir_same p : within same_view (fs_read_dir p).
Proof. intros w. apply same_files. pose proof (law_read_dir p w) as Hl. destruct (fs_read_dir p w) as [[s|e] w']; [by destruct Hl|done]. Qed.
Lemma create_dir_all_same p : within same_view (fs_create_dir_all p).
Proof. intros w. apply same_files, law_create_dir. Qed.
Lemma open_same p : within same_view (fs_open p).
Proof. intros w. apply same_files, law_open. Qed.
Lemma chmod_same p m : within same_view (fs_chmod p m).
Proof. intros w. apply same_files, law_chmod. Qed.
Lemma write_same p s : ~ profile_file dir p -> within same_view (fs_write p s).
Proof.
  intros Hp w. apply same_at. intros q Hq. assert (q <> p) by (by intros ->). pose proof (law_write p s w) as Hl.
  destruct (fs_write p s w) as [[[]|e] w']; cbn; [by rewrite Hl, lookup_insert_ne|].
  by rewrite <- (lookup_delete_ne (files w') p q), Hl, lookup_delete_ne.
Qed.
Lemma remove_same p : ~ profile_file dir p -> within same_view (fs_remove p).
Proof.
  intros Hp w. apply same_at. intros q Hq. assert (q <> p) by (by intros ->). pose proof (law_remove p w) as Hl.
  destruct (fs_remove p w) as [[[]|e] w']; cbn; [by rewrite Hl, lookup_delete_ne|by destruct Hl as [_ ->]].
Qed.
Lemma create_new_same p m : ~ profile_file dir p -> within same_view (fs_create_new p m).
Proof.
  intros Hp w. apply same_at. intros q Hq. assert (q <> p) by (by intros ->). pose proof (law_create_new p m w) as Hl.
  destruct (fs_create_new p m w) as [[[]|e] w']; cbn; [destruct Hl as [_ ->]; by rewrite lookup_insert_ne|by rewrite Hl].
Qed.
Lemma rename_same a b : ~ profile_file dir a -> ~ profile_file dir b -> within same_view (fs_rename a b).
Proof.
  intros Ha Hb w. apply same_at. intros q Hq. assert (q <> a /\ q <> b) as [] by (by split; intros ->).
  pose proof (law_rename a b w) as Hl. destruct (fs_rename a b w) as [[[]|e] w']; cbn; [|by rewrite Hl].
  destruct Hl as (s & _ & ->). by rewrite lookup_insert_ne, lookup_delete_ne.
Qed.
End View.
#[export] Hint Resolve read_same read_raw_same read_dir_same create_dir_all_same open_same chmod_same write_same remove_same create_new_same rename_same : core.

(** *** On a process *)

(** The files in doubt, those that could not be removed among them. *)
Definition doubtful {W} (s : process W) : gset string := in_doubt true (pr_journal s).
(** A deed that leaves no doubt about a profile. *)
Definition harmless (dir : string) (d : deed) : Prop := forall D, lost dir (doubt_step true D d) = lost dir D.
Lemma lost_with dir p D : ~ profile_file dir p -> lost dir ({[p]} ∪ D) = lost dir D.
Proof. intros Hp. apply set_eq. intros q. unfold lost. rewrite !elem_of_filter, elem_of_union, elem_of_singleton. split; [|tauto]. intros [Hq [->|Hd]]; tauto. Qed.
Lemma lost_without dir p D : ~ profile_file dir p -> lost dir (D ∖ {[p]}) = lost dir D.
Proof. intros Hp. apply set_eq. intros q. unfold lost. rewrite !elem_of_filter, elem_of_difference, elem_of_singleton. split; [tauto|]. intros [Hq Hd]. split_and!; [done..|]. by intros ->. Qed.
Lemma harmless_write dir p ok : ~ profile_file dir p -> harmless dir (DWrite p ok).
Proof. intros Hp D. destruct ok; [done|by apply lost_with]. Qed.
Lemma harmless_rename dir a b ok : ~ profile_file dir b -> harmless dir (DRename a b ok).
Proof. intros Hp D. destruct ok; [by apply lost_without|done]. Qed.
Lemma harmless_remove dir p r : ~ profile_file dir p -> harmless dir (DRemove p r).
Proof. intros Hp D. destruct r as [[]|e]; [by apply lost_without|]. cbn. destruct (is_not_found e); [done|by apply lost_with]. Qed.

Section OnProcess.
Context {W : Type} `{Host W} {FL : FileSystemLaws W} (dir : string).
Implicit Types s : process W.
Definition sessions_apart s : Prop := workdirs_off dir (pr_sessions s).
Definition untouched s s' : Prop :=
  same_view dir (pr_outside s) (pr_outside s') /\ lost dir (doubtful s') = lost dir (doubtful s) /\ pr_sessions s' = pr_sessions s.
Definition spares s s' : Prop :=
  sessions_apart s -> sessions_apart s' /\ same_view dir (pr_outside s) (pr_outside s') /\ lost dir (doubtful s') = lost dir (doubtful s).
#[export] Instance spares_preorder : PreOrder spares.
Proof.
  split; [by intros s Hs|]. intros s1 s2 s3 H12 H23 Hs. destruct (H12 Hs) as (Hs2 & V2 & D2). destruct (H23 Hs2) as (Hs3 & V3 & D3).
  split; [done|]. split; [by transitivity (pr_outside s2)|congruence].
Qed.
Lemma untouched_spares s s' : untouched s s' -> spares s s'.
Proof. intros (Hv & Hd & Hst) Hs. split; [|done]. unfold sessions_apart in *. by rewrite Hst. Qed.
Lemma after_untouched s w deeds : same_view dir (pr_outside s) w -> List.Forall (harmless dir) deeds -> untouched s (after s w deeds).
Proof.
  intros Hv Hd. split; [done|]. split; [|done]. unfold doubtful, in_doubt. cbn. rewrite foldl_app. generalize (foldl (doubt_step true) ∅ (pr_journal s)).
  induction Hd as [|d deeds Hd _ IH]; intros D; [done|]. cbn. by rewrite IH, Hd.
Qed.
Lemma noted_by_spares {A} deeds (o : W -> A * W) : within (same_view dir) o -> (forall a, List.Forall (harmless dir) (deeds a)) -> within spares (noted_by deeds o).
Proof. intros Ho Hd s. specialize (Ho (pr_outside s)). unfold noted_by. destruct (o (pr_outside s)) as [a w]. by apply untouched_spares, after_untouched. Qed.
Lemma noted_spares {A} deeds (o : W -> A * W) : within (same_view dir) o -> List.Forall (harmless dir) deeds -> within spares (noted deeds o).
Proof. intros Ho Hd. by apply noted_by_spares. Qed.
Lemma noted_to_spares deeds (o : W -> W) : moves (same_view dir) o -> List.Forall (harmless dir) deeds -> moves spares (noted_to deeds o).
Proof. intros Ho Hd s. by apply untouched_spares, after_untouched. Qed.
End OnProcess.

(** A name that does not end in the letter of [.toml] is no profile's. *)
Lemma profile_file_name dir p : profile_file dir p -> exists f, p = dir +:+ "/" +:+ f /\ extension f = Some "toml"%string /\ contains_char "/" f = false.
Proof.
  unfold profile_file. pose proof (rsplit_once_spec "/" p) as Hs. destruct (rsplit_once "/" p) as [[d f]|]; [|done].
  intros [-> Hx]. destruct Hs as [-> Hc]. by exists f.
Qed.
Lemma off_last dir p : last_byte p <> Some 108 -> ~ profile_file dir p.
Proof.
  intros Hl (f & -> & (stem & ->)%extension_toml_inv & _)%profile_file_name. apply Hl.
  rewrite last_byte_app by done. change ("/" +:+ stem +:+ ".toml") with (("/" +:+ stem) +:+ ".toml"). by rewrite last_byte_app.
Qed.

Ltac off_path := apply off_last; path_end; done.

(** ** The frame *)

Definition off (dir : string) : permissions :=
  mkPermissions (fun p => ~ profile_file dir p) (fun p => ~ profile_file dir p) (fun _ => True) (fun _ => True) (fun d => ~ swept d dir) (fun _ => True).
Section ProfileFrame.
Context {W : Type} `{Host W} {FL : FileSystemLaws W} (dir : string) {HF : HostFrame dir}.
Ltac harmless :=
  intros; repeat first [apply harmless_write | apply harmless_rename | apply harmless_remove | assumption | apply List.Forall_cons | apply List.Forall_nil];
  try (intros ?; reflexivity).
#[export] Instance profile_frame : Frame (spares (W := W) dir) (sessions_apart dir) (off dir).
Proof using HF.
  pose proof HF as Hlaws. destruct Hlaws. split; try (apply _);
    try (intros; apply noted_spares; [solve [eauto]|solve [harmless]]); try (intros; apply noted_by_spares; [solve [eauto]|solve [harmless]]);
    try (intros; apply noted_to_spares; [solve [eauto]|solve [harmless]]); try (intros; intros s0; apply untouched_spares; by repeat split).
  - intros fd a Ha. apply noted_spares; [by apply hf_bind0|]. destruct a; harmless.
  - intros n s. pose proof (hf_bytes0 n (pr_outside s)) as Hb. unfold io_match in *. cbn. unfold noted, noted_by.
    destruct (rand_bytes n (pr_outside s)) as [[l|e] w']; by cbn in *.
  - intros sessions Hs s Hw. split; [exact Hs|done].
  - intros s s' Hr Hi. by apply Hr.
  - intros s s' Hr Hi. by apply Hr.
  - done.
  - done.
  - intros p. apply read_dir_names.
Qed.
#[export] Instance profile_paths : Paths (W := process W) (off dir).
Proof using HF.
  split; try (intros; exact I); try (intros; cbn [off may_write may_remove]; off_path).
  - intros prefix r suffix _ _ Hs. cbn [off may_write]. unfold temp_path. destruct Hs as [<-|[<-|[]]]; off_path.
  - intros r _. exact (hf_temp (W := W) dir ("mitos-ovpn-" +:+ r +:+ "." +:+ "d") eq_refl).
  - intros d name _ Hn. cbn [off may_write]. destruct Hn as [<-|[<-|[<-|[]]]]; off_path.
  - intros p ext _ He. cbn [off may_write]. destruct He as [<-|[<-|[<-|[<-|[]]]]]; off_path.
  - by intros p Hp.
Qed.
End ProfileFrame.

(** A frame for a relation is one for a larger relation. *)
Lemma frame_mono {W} `{Host W} (R R' : W -> W -> Prop) inv ok : Frame R inv ok -> PreOrder R' -> (forall w w', R w w' -> R' w w') ->
  (forall w w', (inv w -> R' w w') -> R' w w') -> (forall w w', R' w w' -> inv w -> inv w') -> Frame R' inv ok.
Proof. intros HF HP HR Hfrom Hstays. destruct HF. split; try done; unfold within, moves in *; eauto. Qed.

(** What the directory holds, by its profile files and those of them in doubt. *)
Lemma holds_same `{Codec ConnectionProfile} dir D D' a f f' : plain_dir dir ->
  (forall p, profile_file dir p -> f' !! p = f !! p) -> lost dir D' = lost dir D -> holds dir D a f -> holds dir D' a f'.
Proof.
  intros Hd Hf HD [Ht Ha]. assert (HD' : forall p, profile_file dir p -> p ∉ D' -> p ∉ D).
  { intros p Hp Hn Hi. apply Hn. assert (Hl : p ∈ lost dir D') by (rewrite HD; by apply elem_of_filter). by apply elem_of_filter in Hl as [_ ?]. }
  split.
  - intros name text p Hx Hc Hn. pose proof (profile_file_join dir name Hd Hx Hc) as Hp. rewrite Hf by done. apply Ht; [done|done|by apply HD'].
  - intros id Hc. assert (Hfile : forall path, profile_path dir id = Ok path -> profile_file dir path).
    { intros path (-> & Hx & Hs)%profile_path_name. by apply profile_file_join. }
    rewrite <- Ha; [|intros path Hp; by apply HD'; [apply Hfile|apply Hc]]. unfold on_disk. destruct (profile_path dir id) as [path|e|why]; [|done..].
    by rewrite Hf by (by apply Hfile).
Qed.
(** Nothing is said of the map where the file is in doubt. *)
Lemma holds_unsure `{Codec ConnectionProfile} dir D a f id path : profile_path dir id = Ok path -> path ∈ D -> holds dir D a f -> holds dir D (delete id a) f.
Proof.
  intros Hp Hi [Ht Ha]. split; [done|]. intros id' Hc. rewrite Ha by done. rewrite lookup_delete_ne; [done|]. intros ->. by apply (Hc path Hp).
Qed.

Section Restart.
Context {W : Type} `{Host W} {FL : FileSystemLaws W} {DL : DirLaws W} `{Formats} (dir : string) {HF : HostFrame (W := W) dir}.
Abbreviation B := FileSecretsBackend.
Abbreviation MM := (M (NetworkManager B * process W)).
(** The format reads back what it writes. *)
Context (Hplain : plain_dir dir) (Hcodec : forall (p : ConnectionProfile) text, encode p = Ok text -> decode text = Ok p).

(** The directory holds the map, as far as it is not in doubt. *)
Definition stores (a : gmap string ConnectionProfile) (s : process W) : Prop := holds dir (doubtful s) a (files s).
(** Whatever the directory held it still does. *)
Definition lasts (s s' : process W) : Prop := sessions_apart dir s -> sessions_apart dir s' /\ forall a, stores a s -> stores a s'.
#[export] Instance lasts_preorder : PreOrder lasts.
Proof.
  split; [by intros s Hs|]. intros s1 s2 s3 H12 H23 Hs. destruct (H12 Hs) as [Hs2 A2]. destruct (H23 Hs2) as [Hs3 A3]. split; [done|auto].
Qed.
Lemma spares_lasts s s' : spares dir s s' -> lasts s s'.
Proof using Hplain.
  intros Hr Hs. destruct (Hr Hs) as (Hs' & Hv & Hd). split; [done|]. intros a. apply holds_same; [done| |done].
  intros p Hp. by apply (view_at dir (pr_outside s) (pr_outside s')).
Qed.
#[export] Instance lasts_frame : Frame lasts (sessions_apart dir) (off dir).
Proof using Hplain HF.
  apply (frame_mono (spares dir)); [apply _|apply _|by apply spares_lasts| |].
  - intros s s' Hr Hs. by apply Hr.
  - intros s s' Hr Hs. by apply Hr.
Qed.
Abbreviation calm c := (within lasts c).

(** ** The store, seen from outside *)

(** The store does not touch the daemon's memory. *)
Definition memory (s s' : process W) : Prop := pr_sessions s' = pr_sessions s.
#[local] Instance memory_preorder : PreOrder memory.
Proof. split; [done|]. intros w1 w2 w3 H1 H2. unfold memory in *. congruence. Qed.
Lemma noted_memory {A} (deeds : A -> list deed) (o : W -> A * W) : within memory (noted_by deeds o).
Proof. intros s. unfold noted_by, memory. by destruct (o (pr_outside s)). Qed.
Lemma save_memory p : within memory (save (W := process W) dir p).
Proof.
  unfold save, write_atomic. apply within_bind; [apply _|intros w; done|]. intros path. apply within_bind; [apply _|intros w; done|]. intros text.
  repeat (apply within_bind; [apply _| |intros _]); apply within_io_try, noted_memory.
Qed.
Lemma delete_memory id : within memory (delete_profile (W := process W) dir id).
Proof.
  unfold delete_profile. apply within_bind; [apply _|intros w; done|]. intros path. apply within_bind; [apply _| |].
  - apply within_io_match, noted_memory.
  - intros [[]|e] w; [done|]. by destruct (is_not_found e).
Qed.
Lemma touch_memory id : within memory (touch (W := process W) dir id).
Proof.
  unfold touch, rewrite_file. apply within_bind; [apply _|intros w; done|]. intros path. apply within_bind; [apply _| |].
  - apply within_io_match, noted_memory.
  - intros [t|e]; [apply within_io_ignore, noted_memory|by intros w].
Qed.
Lemma touch_calm id : calm (touch (W := process W) dir id).
Proof.
  intros s Hs. split; [unfold sessions_apart in *; by rewrite (touch_memory id s)|]. intros a Ha. exact (touch_refines true dir id a s Ha).
Qed.
(** A removal leaves no profile of that name, or some doubt about it. *)
Lemma delete_clears id a (s : process W) : stores a s -> stores (delete id a) (delete_profile dir id s).2.
Proof.
  intros Ha. pose proof (delete_refines true dir id a s Ha) as Hd. unfold stores, doubtful. unfold delete_profile, mbind, M_bind, lift in *.
  destruct (profile_path dir id) as [path|e|why] eqn:Ep.
  2,3: cbn; rewrite delete_id; [exact Ha|]; rewrite <- (proj2 Ha); [unfold on_disk; by rewrite Ep|intros path; congruence].
  pose proof (jr_remove path s) as Hj. unfold io_match in *. destruct (fs_remove path s) as [[[]|e] s'] eqn:Er; [exact Hd|].
  change (journal s') with (pr_journal s') in Hj. cbn [snd fst] in Hj. destruct (is_not_found e) eqn:En; cbn in *.
  - destruct Hd as (Hn & ED & Hd). change (doubts true s') with (in_doubt true (pr_journal s')) in Hd, ED.
    destruct (decide (path ∈ in_doubt true (pr_journal s'))) as [Hi|Hi]; [by eapply holds_unsure|]. rewrite delete_id; [done|].
    apply Hn. rewrite <- ED. intros path' [= <-]%(eq_trans (eq_sym Ep)). exact Hi.
  - eapply holds_unsure; [exact Ep| |exact Hd]. rewrite Hj, in_doubt_snoc. cbn. rewrite En. cbn. apply elem_of_union_l. by apply elem_of_singleton.
Qed.
(** ** The manager's list and the directory *)

Definition settled (m : NetworkManager B) : Prop := ManagerFrame.settled (off dir) dir m.
Definition grounded (s : NetworkManager B * process W) : Prop := settled s.1 /\ sessions_apart dir s.2.
Abbreviation quiet := (ManagerFrame.quiet lasts (sessions_apart (W := W) dir) (off dir) dir).
Abbreviation hush c := (within quiet c).

(** A list is a map by identifier. *)
Definition lists (l : list ConnectionProfile) (a : gmap string ConnectionProfile) : Prop :=
  NoDup (profile_id <$> l) /\ forall p, p ∈ l <-> a !! profile_id p = Some p.
Lemma without_profile_in id l p : p ∈ without_profile id l <-> p ∈ l /\ profile_id p <> id.
Proof.
  unfold without_profile, retain. rewrite !list_elem_of_In, filter_In, negb_true_iff, String.eqb_neq. done.
Qed.
Lemma lists_without id l a : lists l a -> lists (without_profile id l) (delete id a).
Proof.
  intros [Hn Ha]. split.
  - unfold without_profile, retain. clear Ha. induction l as [|p l IH]; [done|]. apply list.NoDup_cons in Hn as [Hp Hn]. cbn.
    destruct (negb _); [|by apply IH]. cbn. apply list.NoDup_cons. split; [|by apply IH]. intros (q & Hq & Hi)%list_elem_of_fmap. apply Hp, list_elem_of_fmap.
    exists q. split; [done|]. apply list_elem_of_In, filter_In in Hi as [Hi _]. by apply list_elem_of_In.
  - intros p. rewrite without_profile_in, Ha, lookup_delete_Some. split; intros []; split; congruence.
Qed.
Lemma lists_store p l a : lists l a -> lists (without_profile (profile_id p) l ++ [p]) (<[profile_id p := p]> a).
Proof.
  intros Hl. destruct (lists_without (profile_id p) l a Hl) as [Hn Ha]. split.
  - rewrite fmap_app. apply list.NoDup_app. split_and!; [done| |apply list.NoDup_singleton]. intros id (q & -> & Hq)%list_elem_of_fmap.
    apply without_profile_in in Hq as [_ Hq]. by intros ?%list_elem_of_singleton.
  - intros q. rewrite elem_of_app, list_elem_of_singleton, Ha, lookup_delete_Some. destruct (decide (profile_id q = profile_id p)) as [E|E].
    + rewrite E, lookup_insert_eq. split; [intros [[? _]| ->]; [congruence|done]|intros [= ->]; by right].
    + rewrite lookup_insert_ne by done. split; [intros [[_ ?]| ->]; done|intros ?; by left].
Qed.
(** The list is [a], the directory holds [b]. *)
Definition between (a b : gmap string ConnectionProfile) (s : NetworkManager B * process W) : Prop :=
  grounded s /\ lists (mgr_connections s.1) a /\ stores b s.2.
Definition agree (s : NetworkManager B * process W) : Prop := exists a, between a a s.
Definition steady (s s' : NetworkManager B * process W) : Prop := agree s -> agree s'.
#[local] Instance steady_preorder : PreOrder steady.
Proof. split; [by intros s Ha|]. intros s1 s2 s3 H1 H2 Ha. by apply H2, H1. Qed.
Lemma quiet_between a b s s' : quiet s s' -> between a b s -> between a b s'.
Proof. intros Hq ([Hm Hi] & Hl & Hh). destruct (Hq Hm Hi) as (Hm' & Hc & Hr). destruct (Hr Hi) as [Hi' Hv]. split_and!; [done|by rewrite Hc|by apply Hv]. Qed.
Lemma quiet_steady {A} (c : MM A) : hush c -> within steady c.
Proof. intros Hc s (a & Ha). exists a. exact (quiet_between a a _ _ (Hc s) Ha). Qed.
Lemma steady_get {A} (f : NetworkManager B -> MM A) : (forall m, settled m -> within steady (f m)) -> within steady (state_get ≫= f).
Proof. intros Hf [m w] Ha. assert (Hm : settled m) by (by destruct Ha as (a & [Hm _] & _)). exact (Hf m Hm (m, w) Ha). Qed.

(** Saving, the record of it, and the list. *)
Lemma save_store_steady p actor action detail (k : MM Response) : within steady k ->
  within steady (answer (inner (save dir p)) (fun _ => audit actor action detail ;; store_profile p ;; k)).
Proof using HF Hplain Hcodec.
  intros Hk [m w] (a & Hg & Hl & Hh). unfold answer, attempt, inner, mbind, M_bind. cbn [fst snd]. pose proof (save_refines true dir p a w (Hcodec p) Hh) as Hs.
  pose proof (save_memory p w) as Hm. destruct (save dir p w) as [r w1]. unfold memory in Hm. cbn in Hm.
  assert (Hg1 : grounded (m, w1)). { destruct Hg as [Hg Ha]. split; [done|]. unfold sessions_apart in *. cbn in *. by rewrite Hm. }
  destruct r as [[]|e|why]; [|by exists a..]. destruct (audit_runs actor action detail (m, w1)) as (l & w2 & E & _).
  assert (Hb : between a (<[profile_id p := p]> a) (set_audit l m, w2)).
  { pose proof (audit_quiet lasts _ (off dir) dir actor action detail (m, w1)) as Hq. rewrite E in Hq. by apply (quiet_between _ _ _ _ Hq). }
  rewrite E. cbn. apply Hk. exists (<[profile_id p := p]> a). destruct Hb as (Hg2 & Hl2 & Hh2). split_and!; [done|by apply lists_store|done].
Qed.
Lemma drop_between id a s : between a (delete id a) s -> agree (drop_profile id s).2.
Proof. intros (Hg & Hl & Hh). exists (delete id a). split_and!; [done|by apply lists_without|done]. Qed.
Lemma delete_grounded id m (w : process W) : grounded (m, w) -> grounded (m, (delete_profile dir id w).2).
Proof.
  intros [Hg Ha]. split; [done|]. pose proof (delete_memory id w) as Hm. unfold memory, sessions_apart in *. cbn in *. by rewrite Hm.
Qed.
Lemma delete_drop_steady id actor action detail (k : MM Response) : within steady k ->
  within steady (answer (inner (delete_profile dir id)) (fun _ => audit actor action detail ;; drop_profile id ;; k)).
Proof using HF Hplain.
  intros Hk [m w] (a & Hg & Hl & Hh). unfold answer, attempt, inner, mbind, M_bind. cbn [fst snd].
  pose proof (delete_refines true dir id a w Hh) as Hd. pose proof (delete_grounded id m w Hg) as Hg1.
  destruct (delete_profile dir id w) as [r w1]. cbn [fst snd] in *. destruct r as [[]|e|why]; [|exists a; split_and!; [done|done|destruct e; by destruct Hd as (? & ? & ?) || done]|by exists a].
  destruct (audit_runs actor action detail (m, w1)) as (l & w2 & E & _).
  assert (Hb : between a (delete id a) (set_audit l m, w2)).
  { pose proof (audit_quiet lasts _ (off dir) dir actor action detail (m, w1)) as Hq. rewrite E in Hq. by apply (quiet_between _ _ _ _ Hq). }
  rewrite E. cbn. apply Hk. exact (drop_between _ _ _ Hb).
Qed.
Lemma forget_drop_steady id (k : MM Response) : within steady k ->
  within steady (inner (ignore (delete_profile dir id)) ;; drop_profile id ;; k).
Proof.
  intros Hk [m w] (a & Hg & Hl & Hh). unfold inner, ignore, mbind, M_bind. cbn [fst snd].
  pose proof (delete_clears id a w Hh) as Hd. pose proof (delete_grounded id m w Hg) as Hg1. pose proof (delete_profile_panics (fun _ => False) dir id w) as Hp.
  destruct (delete_profile dir id w) as [r w1]. cbn [fst snd] in *.
  assert (Hb : agree (drop_profile id (m, w1)).2) by (apply (drop_between _ a); by split_and!).
  by destruct r as [[]|e|why]; [apply Hk, Hb..|destruct Hp].
Qed.

Ltac hush :=
  repeat match goal with
  | |- hush (state_get ≫= _) => eapply quiet_get; intros ? (? & ? & ?)
  | |- hush (inner (ignore (file_delete_all _ _))) => eapply quiet_inner, within_ignore, file_delete_all_calm
  | |- hush (inner _) => eapply quiet_inner
  | |- hush (answer _ _) => eapply quiet_answer; [|intros]
  | |- _ => footprint_step
  end.
#[local] Hint Resolve touch_calm : footprint.
Lemma delete_connection_steady id actor : within steady (delete_connection id actor : MM Response).
Proof using HF Hplain Hcodec.
  unfold delete_connection. apply steady_get. intros m (Hd & Hp & Hs). rewrite Hd. apply within_bind; [apply _|apply quiet_steady; hush|]. intros _.
  apply delete_drop_steady, quiet_steady. cbn [secret_delete_all file_secrets]. hush.
Qed.
Lemma connect_wifi_steady device ssid security pass actor : within steady (connect_wifi device ssid security pass actor : MM Response).
Proof using HF Hplain Hcodec.
  unfold connect_wifi. apply steady_get. intros m (Hd & Hp & Hs). rewrite Hd. cbn [secret_set file_secrets]. apply within_bind; [apply _|apply quiet_steady; hush|].
  intros [_|e]; [|apply quiet_steady; hush]. apply save_store_steady, quiet_steady. hush.
Qed.
Lemma forget_wifi_steady device ssid actor : within steady (forget_wifi device ssid actor : MM Response).
Proof using HF Hplain Hcodec.
  unfold forget_wifi, ctrl_dir. apply steady_get. intros m (Hd & Hp & Hs). rewrite Hd. cbn [secret_delete_all file_secrets].
  do 3 (apply within_bind; [apply _|apply quiet_steady; hush|intros]). apply forget_drop_steady, quiet_steady. hush.
Qed.
Lemma handle_request_steady req identity : within steady (handle_request req identity : MM Response).
Proof using HF Hplain Hcodec.
  destruct (edits_profiles req) eqn:E; [|apply quiet_steady, request_quiet; [apply _..|apply touch_calm|done]].
  unfold handle_request. apply steady_get. intros m (Hd & Hp & Hs). destruct req; try discriminate E.
  - rewrite Hd. apply save_store_steady, quiet_steady. hush.
  - apply delete_connection_steady.
  - apply connect_wifi_steady.
  - apply forget_wifi_steady.
Qed.
Lemma handle_command_steady cmd : within steady (handle_command cmd : MM (list Reply)).
Proof using HF Hplain Hcodec.
  destruct cmd as [req identity| | | | |]; [|apply quiet_steady, command_quiet; [apply _..|apply touch_calm|done]..].
  cbn [handle_command]. apply within_bind; [apply _|apply handle_request_steady|]. intros resp. apply quiet_steady. hush.
Qed.
Lemma serve_steady cmds : within steady (serve cmds : MM (list Reply)).
Proof using HF Hplain Hcodec.
  assert (Hret : forall r, within steady (mret r : MM (list Reply))) by (intros r; apply quiet_steady; hush).
  induction cmds as [|cmd cmds IH]; cbn [serve]; [done|]. pose proof (handle_command_steady cmd) as Hc.
  destruct cmd; [..|done]; (apply within_bind; [apply _|exact Hc|]; intros sent; apply within_bind; [apply _|exact IH|]; intros rest; done).
Qed.
Lemma start_steady msg : within steady (inner (log_info msg) ;; try_autoconnect_all : MM unit).
Proof using HF Hplain Hcodec. unfold log_info. apply within_bind; [apply _|apply quiet_steady; hush|intros _; apply quiet_steady; hush]. Qed.
Lemma run_steady cmds : within steady (run cmds : MM (list Reply)).
Proof using HF Hplain Hcodec.
  unfold run, log_info. do 2 (apply within_bind; [apply _|apply quiet_steady; hush|intros _]). apply within_bind; [apply _|apply serve_steady|].
  intros replies. apply quiet_steady. hush.
Qed.
End Restart.

(** ** The start *)

Section Start.
Context {W : Type} `{Host W} {FL : FileSystemLaws W} {DL : DirLaws W} `{Formats}.
Lemma profiles_dir_join config : profiles_dir config = join_prefix (data_dir (general config)) +:+ "profiles".
Proof. by apply path_join_prefix. Qed.
Lemma plain_join base leaf : leaf <> "" -> last_byte leaf <> Some 47 -> plain_dir (join_prefix base +:+ leaf).
Proof.
  intros Hl Hb. unfold plain_dir, join_prefix at 1. rewrite bool_decide_eq_false_2 by (by apply app_nonempty). cbn [orb].
  destruct (ends_with "/" (join_prefix base +:+ leaf)) eqn:E; [|done]. exfalso. apply Hb. rewrite <- (last_byte_app (join_prefix base)) by done.
  apply ends_with_spec in E as [x ->]. by rewrite last_byte_app.
Qed.
Lemma profiles_dir_plain config : plain_dir (profiles_dir config).
Proof. rewrite profiles_dir_join. by apply plain_join. Qed.
(** The secrets are in a directory of their own. *)
Lemma secrets_ok_start config : secrets_ok (off (profiles_dir config)) (file_secrets_new (data_dir (general config))).
Proof.
  split; [exact I|]. intros f Hf. cbn [off may_write]. unfold file_secrets_new. cbn [secrets_dir]. rewrite !path_join_prefix; [|done|].
  2:{ apply not_true_iff_false. rewrite starts_with_spec. intros [r ->]. by rewrite contains_char_app in Hf. }
  unfold profile_file. rewrite dir_split by (done || by apply plain_join).
  intros [E _]. rewrite profiles_dir_join in E. by apply str_app_inj_l in E.
Qed.
Lemma init_data_dir_calm dir {HF : HostFrame (W := W) dir} d : within (spares (W := W) dir) (init_data_dir d).
Proof.
  unfold init_data_dir. footprint. intros s. apply untouched_spares. by repeat split.
Qed.
(** A new manager lists what the directory held. *)
Lemma manager_new_loads config (s s1 : process W) m D a {HF : HostFrame (W := W) (profiles_dir config)} :
  sessions_apart (profiles_dir config) s -> holds (profiles_dir config) D a (files s) -> manager_new config s = (Ok m, s1) ->
  loads (profiles_dir config) D a (files s) (mgr_connections m).
Proof using DL.
  pose proof (profiles_dir_plain config) as Hplain. set (dir := profiles_dir config) in *. intros Hs Hh. unfold manager_new.
  change (path_join (data_dir (general config)) "profiles") with dir.
  intros (u1 & wa & E1 & (u2 & wb & E2 & (u3 & wc & E3 & (conns & wd & Eload & Hn)%M_bind_Ok)%M_bind_Ok)%M_bind_Ok)%M_bind_Ok.
  assert (Ha : spares dir s wc).
  { trans wa; [exact (within_run _ _ _ _ _ (init_data_dir_calm dir _) E1)|].
    trans wb; [eapply within_run; [|exact E2]|eapply within_run; [|exact E3]]; unfold init_ctrl_dir; footprint. }
  destruct (Ha Hs) as (_ & Hv & _). assert (Hf : forall p, profile_file dir p -> files wc !! p = files s !! p).
  { intros p Hp. exact (view_at dir (pr_outside s) (pr_outside wc) p Hv Hp). }
  assert (Hhc : holds dir D a (files wc)) by (eapply holds_same; [done|exact Hf|done|done]).
  destruct (load_all_gives dir D a conns wc wd Hplain Hhc Eload) as [_ (L1 & L2 & L3)].
  assert (Ec : mgr_connections m = conns).
  { revert Hn. intros (devices & we & _ & (all & wf & _ & (fw & wg & _ & (u8 & wh & _ & Hn)%M_bind_Ok)%M_bind_Ok)%M_bind_Ok)%M_bind_Ok.
    revert Hn. by intros (base & wi & _ & (stored & wj & _ & (u11 & wk & _ & [-> _]%mret_Ok)%M_bind_Ok)%M_bind_Ok)%M_bind_Ok. }
  rewrite Ec. split_and!; [done| |done]. intros p [?|(path & text & Hl & Ht & Hd)]%L2; [by left|right]. exists path, text.
  split; [done|]. split; [|done]. rewrite <- Hf; [done|]. by apply elem_of_filter in Hl as [? _].
Qed.
Lemma loads_lists dir a f ps : loads dir ∅ a f ps -> lists ps a.
Proof. intros (_ & _ & Hl). by apply Hl. Qed.
Lemma manager_new_agree config (s s1 : process W) m a {HF : HostFrame (W := W) (profiles_dir config)} :
  ~ profile_file (profiles_dir config) (resolv_conf_path (dns_config config)) -> sessions_apart (profiles_dir config) s -> pr_journal s = [] ->
  holds (profiles_dir config) ∅ a (files s) -> manager_new config s = (Ok m, s1) -> agree (profiles_dir config) (m, s1).
Proof using DL.
  intros Hp Hs Hj Hh Hn. pose proof (loads_lists _ _ _ _ (manager_new_loads config s s1 m ∅ a Hs Hh Hn)) as Hl.
  pose proof (profiles_dir_plain config) as Hplain. set (dir := profiles_dir config) in *.
  assert (Hc : within (spares dir) (manager_new (W := process W) config)) by (apply (manager_new_calm _ _ (off dir)); [apply init_data_dir_calm; apply _|exact I|exact Hp]).
  pose proof (within_run _ _ _ _ _ Hc Hn) as Hr. destruct (Hr Hs) as [Hs1 _]. destruct (spares_lasts dir Hplain _ _ Hr Hs) as [_ Hv].
  exists a. split; [split|split]; [|done|done|apply Hv; unfold stores, doubtful; by rewrite Hj].
  eapply (manager_new_settled (W := process W) (off dir)); [apply secrets_ok_start| |exact Hn]. cbn [off may_write]. off_path.
Qed.
Lemma lists_same l l' a : lists l a -> lists l' a -> l ≡ₚ l'.
Proof.
  intros [Hn Ha] [Hn' Ha']. apply NoDup_Permutation; [by eapply NoDup_fmap_1|by eapply NoDup_fmap_1|]. intros p. by rewrite Ha, Ha'.
Qed.
End Start.

(** A manager that is started later on the profile files this process left, with
    the same data directory, has every profile of this manager whose file is not
    in doubt, and no profile besides but what files in doubt hold; where none is
    in doubt it has just the same. *)
Definition restarts_as {W} `{Host W} {FL : FileSystemLaws W} `{Formats} (config : NetworkConfig) (s : NetworkManager FileSecretsBackend * process W) : Prop :=
  let dir := profiles_dir config in
  forall config' s2 s2' m, data_dir (general config') = data_dir (general config) -> pr_sessions s2 = None ->
    view dir (pr_outside s2) = view dir (pr_outside s.2) -> manager_new config' s2 = (Ok m, s2') ->
    (forall p, p ∈ mgr_connections s.1 -> clear_of dir (doubtful s.2) (profile_id p) -> p ∈ mgr_connections m)
    /\ (forall p, p ∈ mgr_connections m -> p ∈ mgr_connections s.1 \/ torn dir (doubtful s.2) (files (pr_outside s.2)) p)
    /\ (lost dir (doubtful s.2) = ∅ -> mgr_connections m ≡ₚ mgr_connections s.1).
Section Later.
Context {W : Type} `{Host W} {FL : FileSystemLaws W} {DL : DirLaws W} `{Formats} (config : NetworkConfig)
  {HF : HostFrame (W := W) (profiles_dir config)} (Hcodec : forall (p : ConnectionProfile) text, encode p = Ok text -> decode text = Ok p).
Lemma agree_restarts s : agree (profiles_dir config) s -> restarts_as config s.
Proof using DL HF.
  intros (b & _ & Hlb & Hb). unfold restarts_as. set (dir := profiles_dir config) in *. intros config' s2 s2' m Hdir Hs Hv Hn. assert (Ed : profiles_dir config' = dir) by (unfold dir, profiles_dir; by rewrite Hdir).
  assert (Hf : forall p, profile_file dir p -> files s2 !! p = files (pr_outside s.2) !! p).
  { intros p Hp. exact (view_at dir (pr_outside s.2) (pr_outside s2) p Hv Hp). }
  assert (Hb2 : holds dir (doubtful s.2) b (files s2)).
  { eapply holds_same; [apply profiles_dir_plain|exact Hf|done|exact Hb]. }
  assert (Hl : loads dir (doubtful s.2) b (files s2) (mgr_connections m)).
  { assert (HF' : HostFrame (W := W) (profiles_dir config')) by (rewrite Ed; exact HF). rewrite <- Ed in Hb2 |- *.
    apply (manager_new_loads config' s2 s2' m); [exact HF'|unfold sessions_apart; by rewrite Hs|exact Hb2|exact Hn]. }
  destruct Hl as (L1 & L2 & L3). pose proof Hlb as [_ Hin]. split_and!.
  - intros p Hp. apply L1, Hin, Hp.
  - intros p [Hp|(path & text & Hl & Ht & Hd)]%L2; [left; by apply Hin|right]. exists path, text. split; [done|]. split; [|done].
    rewrite <- Hf; [done|]. by apply elem_of_filter in Hl as [? _].
  - intros HL. apply (lists_same _ _ b); [by apply L3|done].
Qed.
Lemma before_commands_agree s : agree (profiles_dir config) s -> agree (profiles_dir config) (before_commands s).
Proof using HF Hcodec. apply start_steady; [apply _|apply profiles_dir_plain|exact Hcodec]. Qed.
Lemma reachable_agree `{Accounts} m (w : process W) s :
  agree (profiles_dir config) (m, w) -> sys_reachable m w s -> agree (profiles_dir config) (sys_mgr s, sys_world s).
Proof using HF Hcodec.
  intros Ha [_ Hs]%reachable_sequential. pose proof (serve_steady (profiles_dir config) (profiles_dir_plain config) Hcodec (map h_cmd (sys_log s)) (m, w) Ha) as Hl.
  unfold log_cmds in Hs. by rewrite Hs in Hl.
Qed.
End Later.

(** ** Properties *)


(** *** An instance *)

#[local] Existing Instance sim_host.
#[local] Instance sim_host_dir_laws : DirLaws sim.
Proof. split; [done|]. exact (law_list (DirLaws := sim_dir_laws)). Qed.
Lemma sim_bytes n : gives bytes_given (io_match (rand_bytes (W := sim) n)).
Proof. intros w. cbn. unfold bytes_ok. apply Forall_replicate. unfold is_u8. lia. Qed.
(** The simulated host keeps what is in memory apart from its files. *)
Lemma sim_frame dir : (forall name, starts_with "mitos-ovpn-" name = true -> ~ swept (path_join "/tmp" name) dir) -> HostFrame (W := sim) dir.
Proof.
  intros Ht. split; intros; try (intros w'); try done.
  - cbn. by destruct (sim_inbox w') as [|[b|e] l].
  - apply sim_bytes.
  - cbn. apply same_at. intros q Hq. cbn. rewrite lookup_insert_ne; [done|by intros <-].
  - by eapply Ht.
Qed.
(** The formats of the simulation, with one that reads profiles back. *)
#[local] Instance WifiSettings_eq_dec : EqDecision WifiSettings.
Proof. solve_decision. Defined.
#[local] Instance ConnectionProfile_eq_dec : EqDecision ConnectionProfile.
Proof.
  assert (EqDecision AddressMethod) by solve_decision. assert (EqDecision Ipv6Method) by solve_decision. assert (EqDecision VpnKind) by solve_decision.
  assert (EqDecision VpnSettings) by solve_decision. solve_decision.
Defined.
Definition pair_codec : Codec ConnectionProfile := {|
  encode p := if decide (p = home) then Ok "home"%string else if decide (p = work) then Ok "office"%string else Err (Parse "");
  decode text := if String.eqb text "home" then Ok home else if String.eqb text "office" then Ok work else Err (Parse "")
|}.
Definition pair_formats : Formats := {|
  fm_netlink := @fm_netlink sim_formats; fm_pac := @fm_pac sim_formats; fm_wireguard := @fm_wireguard sim_formats; fm_lease := @fm_lease sim_formats;
  fm_lease6 := @fm_lease6 sim_formats; fm_proxy := @fm_proxy sim_formats; fm_profile := pair_codec; fm_general := @fm_general sim_formats;
  fm_interfaces := @fm_interfaces sim_formats; fm_dns := @fm_dns sim_formats; fm_wireless := @fm_wireless sim_formats;
  fm_order := @fm_order sim_formats; fm_fuels := @fm_fuels sim_formats
|}.
#[local] Existing Instances pair_formats no_accounts.
Abbreviation demo_dir := (profiles_dir default_config).
Lemma demo_dir_is : demo_dir = "/var/lib/mitos-network/profiles"%string.
Proof. vm_compute. reflexivity. Qed.
Lemma demo_frame : HostFrame (W := sim) demo_dir.
Proof.
  apply sim_frame. intros name Hn [rest E]. assert (Hs : starts_with "/" name = false) by (apply starts_with_spec in Hn as [r ->]; reflexivity).
  rewrite demo_dir_is, path_join_prefix in E by done. change (join_prefix "/tmp") with "/tmp/"%string in E. unfold join_prefix in E at 2. destruct (_ || _); discriminate E.
Qed.
Lemma pair_codec_reads (p : ConnectionProfile) text : encode p = Ok text -> decode text = Ok p.
Proof. cbn. case_decide as Hh; [intros [= <-]; by rewrite Hh|]. case_decide as Hw; [intros [= <-]; by rewrite Hw|done]. Qed.
(** A disk with one profile; the commands add another and delete the first. *)
Definition with_dumps (f : gmap string string) : sim := with_files f no_interfaces.
Definition first_disk : gmap string string := {["/var/lib/mitos-network/profiles/home.toml"%string := "home"%string]}.
Definition root_peer : PeerIdentity := mkPeer 0 0 1.
Definition profile_run : list Command :=
  [CmdRequest (AddConnection work) root_peer; CmdRequest (DeleteConnection "home") root_peer; CmdRequest (AddConnection demo_profile) root_peer;
   CmdTick TkWifiScan; CmdRequest (DeleteConnection "home") root_peer; CmdRequest ListConnections root_peer].
(** A process that has just started. *)
Definition launched (w : sim) : process sim := mkProcess w [] min_level_default None None None (mkProxyState None None) (mkDataDir None) (mkCtrlDir None).
Definition first_manager : NetworkManager FileSecretsBackend * process sim :=
  match manager_new default_config (launched (with_dumps first_disk)) with (Ok m, w) => (m, w) | (_, w) => (demo_manager Activated ∅, w) end.
Definition left_behind : NetworkManager FileSecretsBackend * process sim := (run profile_run first_manager).2.
(** The next process, on the files the last one left. *)
Definition relaunched (s : process sim) : process sim := launched (with_dumps (sim_files (pr_outside s))).
Definition second_manager : NetworkManager FileSecretsBackend * process sim :=
  match manager_new default_config (relaunched left_behind.2) with (Ok m, w) => (m, w) | (_, w) => (demo_manager Activated ∅, w) end.
(** Two connections at once, one adding a profile and one deleting another. *)
Definition two_peers : list action :=
  [AcAccept 0 root_peer; AcAccept 1 root_peer; AcRegister 0; AcRegister 1; AcManager; AcManager; AcTake 0; AcTake 1;
   AcRequest 0 (AddConnection work); AcRequest 1 (DeleteConnection "home"); AcManager; AcManager].
Definition loop_start : system FileSecretsBackend (process sim) := sys_start (before_commands first_manager).1 (before_commands first_manager).2.
Definition after_two : system FileSecretsBackend (process sim) := default loop_start (schedule two_peers loop_start).
Lemma after_two_reachable : sys_reachable (before_commands first_manager).1 (before_commands first_manager).2 after_two.
Proof.
  unfold after_two. destruct (schedule two_peers loop_start) as [s|] eqn:E; [|apply rtc_refl]. by eapply schedule_reachable.
Qed.
Lemma first_disk_holds : holds demo_dir ∅ ({["home"%string := home]} : gmap string ConnectionProfile) first_disk.
Proof.
  split.
  - intros name text p _ _ _ Hf Hd. unfold first_disk in Hf. apply lookup_singleton_Some in Hf as [En <-]. cbn in Hd. injection Hd as <-.
    rewrite <- En. vm_compute. reflexivity.
  - intros id _. unfold on_disk. destruct (decide (id = "home"%string)) as [->|Hne]; [vm_compute; reflexivity|].
    rewrite lookup_singleton_ne by done. destruct (profile_path demo_dir id) as [path|e|why] eqn:Ep; [|done..].
    unfold first_disk. rewrite lookup_singleton_ne; [done|]. intros <-. apply Hne. by eapply (profile_path_inj demo_dir).
Qed.
Lemma restarted_same s m s' : restarts_as default_config s -> lost demo_dir (doubtful s.2) = ∅ -> manager_new default_config (relaunched s.2) = (Ok m, s') ->
  mgr_connections m ≡ₚ mgr_connections s.1.
Proof. intros Hr Hc Hn. by apply (Hr default_config (relaunched s.2) s' m). Qed.

(** Where a profile cannot be removed, forgetting the network answers with
    success and takes the profile off the list, and the next start has it
    again. *)
Definition cannot_remove : FileSystem sim := {|
  fs_read := fs_read; fs_read_raw := fs_read_raw; fs_write := fs_write; fs_rename := fs_rename;
  fs_remove _ w := (inr (IoError IoPermissionDenied "Permission denied (os error 13)"), w);
  fs_create_dir_all := fs_create_dir_all; fs_read_dir := fs_read_dir; fs_mtime := fs_mtime; fs_chmod := fs_chmod; fs_exists := fs_exists;
  fs_read_link := fs_read_link; fs_open := fs_open; fs_create_new := fs_create_new; fs_create_dir := fs_create_dir
|}.
Definition stuck_host : Host sim := {|
  host_files := cannot_remove; host_append := @host_append _ sim_host; host_entropy := @host_entropy _ sim_host; host_clock := @host_clock _ sim_host;
  host_children := @host_children _ sim_host; host_workdirs := @host_workdirs _ sim_host; host_unix := @host_unix _ sim_host;
  host_threads := @host_threads _ sim_host; host_dhcp_threads := @host_dhcp_threads _ sim_host; host_management := @host_management _ sim_host;
  host_processes := @host_processes _ sim_host; host_sockets := @host_sockets _ sim_host; host_tcp := @host_tcp _ sim_host;
  host_tcp_reads := @host_tcp_reads _ sim_host; host_addrs := @host_addrs _ sim_host; host_resolver := @host_resolver _ sim_host;
  host_names := @host_names _ sim_host; host_stderr := @host_stderr _ sim_host; host_iter := @host_iter _ sim_host;
  host_receivers := @host_receivers _ sim_host; host_level := @host_level _ sim_host; host_sessions := @host_sessions _ sim_host;
  host_vpns := @host_vpns _ sim_host; host_hostapd := @host_hostapd _ sim_host; host_proxy := @host_proxy _ sim_host;
  host_data_dir := @host_data_dir _ sim_host; host_ctrl_dir := @host_ctrl_dir _ sim_host
|}.
Definition cafe : ConnectionProfile := wifi_profile "wlan0" "Cafe" SecOpen.
Definition cafe_codec : Codec ConnectionProfile := {| encode _ := Ok "cafe"%string; decode _ := Ok cafe |}.
Definition cafe_manager : NetworkManager FileSecretsBackend := set_connections [cafe] (demo_manager Activated ∅).
Definition cafe_disk : sim := with_dumps {["/var/lib/mitos/profiles/wifi-Cafe.toml"%string := "cafe"%string]}.
Example forgotten_profile_returns :
  let s := handle_request (H := stuck_host) (ForgetWifi "wlan0" "Cafe") root_peer (cafe_manager, cafe_disk) in
  s.1 = Ok ResOk /\ mgr_connections s.2.1 = []
  /\ (load_all (H := cannot_remove) (H0 := cafe_codec) (mgr_profiles_dir s.2.1) s.2.2).1 = Ok [cafe].
Proof. vm_compute. repeat split. Qed.
