(* ===== verification/Confine.v ===== *)
(** * What the daemon may touch

    The journal of a process names the files written, removed, renamed or bound
    to, directories made, permissions set, and programs started.  Whatever
    commands the manager is given, the journal names only the files
    listed by [owned], their temporary siblings and directories, and four
    programs. *)

From Stdlib Require Import Ascii String.
From S2P Require Import Prelude RustStr IpAddr Dhcp4 Sys Persistence Journal World Netlink IpLayer Routing DhcpClient.
From S2P Require Import Dhcp6 Security Firewall Device Connection Ipc Pac Proxy Dns Config Store ProfileStore Wpa.
From S2P Require Import Wireguard OpenVpn Connectivity Monitoring Bluetooth Logging Sharing Activation Manager ManagerInv Panics.
From S2P Require Import Daemon Serve System Footprint ManagerFrame Process Restart.

(** ** What is the daemon's own *)

Definition workdir (temp d : string) : Prop := exists r, contains_char "/" r = false /\ d = temp_path temp "mitos-ovpn" r "d".
(** The files.  The interface in the name of a lease is taken as the registry
    has it, unchecked; that in the name of a hotspot's configuration is checked,
    and the identifier in the name of a profile. *)
Inductive owned (temp : string) (config : NetworkConfig) : string -> Prop :=
| own_profile id path : profile_path (profiles_dir config) id = Ok path -> owned temp config path
| own_secret f : contains_char "/" f = false -> owned temp config (path_join (secrets_dir (file_secrets_new (data_dir (general config)))) f)
| own_lease ifname : owned temp config (lease_path (data_dir (general config)) ifname)
| own_lease6 ifname : owned temp config (lease6_path (data_dir (general config)) ifname)
| own_socket : owned temp config (socket_path (general config))
| own_proxy : owned temp config (proxy_config_path (data_dir (general config)))
| own_audit : owned temp config (path_join (data_dir (general config)) "audit.log")
| own_resolv : owned temp config DEFAULT_RESOLV_CONF
| own_resolv_config : owned temp config (resolv_conf_path (dns_config config))
| own_script : owned temp config PROFILE_SCRIPT_PATH
| own_forward : owned temp config IP_FORWARD
| own_hostapd ifname : validate_interface_name ifname = Ok tt -> owned temp config (hostapd_path ifname)
| own_temp prefix r suffix : mitos_prefix prefix -> contains_char "/" r = false -> In suffix TEMP_SUFFIXES -> owned temp config (temp_path temp prefix r suffix)
| own_work d name : workdir temp d -> In name WORK_FILES -> owned temp config (path_join d name)
| own_tmp p ext : owned temp config p -> In ext TMP_EXTENSIONS -> owned temp config (with_extension p ext).
(** What is removed is owned, or would be with another interface name: stopping
    a hotspot takes the name as it comes. *)
Definition removable (temp : string) (config : NetworkConfig) (p : string) : Prop := owned temp config p \/ exists ifname, p = hostapd_path ifname.
Definition owned_dir (temp : string) (config : NetworkConfig) (d : string) : Prop :=
  d = profiles_dir config \/ d = secrets_dir (file_secrets_new (data_dir (general config))) \/ exists p, owned temp config p /\ d = path_parent p.
Definition own (temp : string) (config : NetworkConfig) : permissions :=
  mkPermissions (owned temp config) (removable temp config) (owned_dir temp config) (fun prog => In prog PROGRAMS) (workdir temp) (eq (data_dir (general config))).
Definition permitted (ok : permissions) (d : deed) : Prop :=
  match d with
  | DWrite p _ | DMake p | DAppend p _ _ => may_write ok p
  | DRename a b _ => may_write ok a /\ may_write ok b
  | DRemove p _ | DRemoveLater p => may_remove ok p
  | DMkdir p => may_mkdir ok p
  | DChmod p => may_write ok p \/ may_mkdir ok p
  | DWorkdir p => may_sweep ok p
  | DRun prog => may_run ok prog
  end.

(** ** The frame *)

Section Confine.
Context {W : Type} `{Host W} (ok : permissions) (data : string).
(** The memory of a daemon whose data directory is [data]. *)
Definition at_home (s : process W) : Prop := data_dir_cell (pr_data_dir s) = Some data /\ sessions_swept ok (pr_sessions s).
Definition confined (s s' : process W) : Prop :=
  at_home s -> at_home s' /\ exists deeds, pr_journal s' = pr_journal s ++ deeds /\ List.Forall (permitted ok) deeds.
#[export] Instance confined_preorder : PreOrder confined.
Proof.
  split; [intros s Hs; split; [done|]; exists []; by rewrite app_nil_r|]. intros s1 s2 s3 H1 H2 Hs. destruct (H1 Hs) as (Hs2 & d1 & E1 & F1).
  destruct (H2 Hs2) as (Hs3 & d2 & E2 & F2). split; [done|]. exists (d1 ++ d2). rewrite E2, E1, app_assoc. split; [done|]. by apply List.Forall_app.
Qed.
Lemma noted_by_confined {A} deeds (o : W -> A * W) : (forall a, List.Forall (permitted ok) (deeds a)) -> within confined (noted_by deeds o).
Proof. intros Hd s Hs. unfold noted_by. destruct (o (pr_outside s)) as [a w]. split; [done|]. by exists (deeds a). Qed.
Lemma noted_confined {A} deeds (o : W -> A * W) : List.Forall (permitted ok) deeds -> within confined (noted deeds o).
Proof. intros Hd. by apply noted_by_confined. Qed.
Lemma noted_to_confined deeds (o : W -> W) : List.Forall (permitted ok) deeds -> moves confined (noted_to deeds o).
Proof. intros Hd s Hs. split; [done|]. by exists deeds. Qed.
(** Nothing new in the journal. *)
Lemma same_journal (s s' : process W) : pr_journal s' = pr_journal s -> (at_home s -> at_home s') -> confined s s'.
Proof. intros Hj Ha Hs. split; [by apply Ha|]. exists []. by rewrite app_nil_r. Qed.

Context (Hbase : is_base ok data) (Hnames : forall d, gives plain_names (io_match (fs_read_dir (W := W) d)))
  (Hbytes : forall n, gives bytes_given (io_match (rand_bytes (W := W) n))).
#[export] Instance confined_frame : Frame confined at_home ok.
Proof using Hbase Hnames Hbytes.
  split; try (apply _); try (intros; (apply noted_confined || (apply noted_by_confined; intros ?)); repeat constructor; done); try (intros; apply noted_to_confined; repeat constructor; done);
    try (intros; intros w; by apply same_journal).
  - intros fd a Ha. apply noted_confined. destruct a; repeat constructor. by apply Ha.
  - intros n w. pose proof (Hbytes n (pr_outside w)) as Hl. unfold io_match in *. cbn. unfold noted, noted_by.
    destruct (rand_bytes n (pr_outside w)) as [[l|e] w']; by cbn in *.
  - intros sessions Hs w. apply same_journal; [done|]. by intros [Hd _].
  - intros w w' Hr Hs. by apply Hr.
  - intros w w' Hr Hs. by apply Hr.
  - by intros w [_ Hs].
  - intros w [Hd _]. cbn. by rewrite Hd.
  - intros p w. pose proof (Hnames p (pr_outside w)) as Hl. unfold io_match in *. cbn. unfold noted, noted_by.
    destruct (fs_read_dir p (pr_outside w)) as [[l|e] w']; by cbn in *.
  - intros p m Hp. apply noted_confined. apply List.Forall_cons; [exact Hp|constructor].
Qed.
End Confine.

(** The permissions are enough. *)
#[export] Instance own_paths {W} `{Host W} config : Paths (W := process W) (own (env_temp_dir (W := W)) config).
Proof.
  split; cbn [own may_write may_remove may_mkdir may_run may_sweep is_base]; intros; subst.
  - apply own_lease.
  - apply own_lease6.
  - apply own_proxy.
  - apply own_resolv.
  - apply own_script.
  - apply own_forward.
  - by apply own_hostapd.
  - right. by exists ifname.
  - by apply own_temp.
  - by exists r.
  - by apply own_work.
  - by apply own_tmp.
  - by left.
  - right. right. by exists p.
  - done.
Qed.

(** ** The daemon *)

Section Daemon.
Context {W : Type} `{Host W} `{Formats} (config : NetworkConfig) (Hnames : forall d, gives plain_names (io_match (fs_read_dir (W := W) d)))
  (Hbytes : forall n, gives bytes_given (io_match (rand_bytes (W := W) n))).
Abbreviation ok := (own (env_temp_dir (W := W)) config).
Abbreviation data := (data_dir (general config)).
#[local] Instance own_frame : Frame (confined (W := W) ok data) (at_home ok data) ok.
Proof using Hnames Hbytes. by apply confined_frame. Qed.
(** A process that has just started. *)
Definition fresh (s : process W) : Prop := pr_journal s = [] /\ pr_sessions s = None /\ data_dir_cell (pr_data_dir s) = None.
Definition blameless (s : process W) : Prop := List.Forall (permitted ok) (pr_journal s).

(** Setting the data directory first makes no difference. *)
Lemma manager_new_home (s : process W) : fresh s -> exists s0, manager_new config s = manager_new config s0 /\ at_home ok data s0 /\ pr_journal s0 = [].
Proof.
  intros (Hj & Hs & Hd). exists (st_put (mkDataDir (Some data)) s). split_and!; [|split; [done|by cbn; rewrite Hs]|done].
  unfold manager_new. assert (E : init_data_dir data s = (Ok tt, st_put (mkDataDir (Some data)) s)).
  { unfold init_data_dir, static_get, static_put, mbind, M_bind. cbn. by rewrite Hd. }
  unfold mbind at 1, M_bind at 1. rewrite E. done.
Qed.
Lemma init_data_dir_home : within (confined (W := W) ok data) (init_data_dir data).
Proof. intros s Hs. unfold init_data_dir, static_get, mbind, M_bind. cbn. rewrite (proj1 Hs). cbn. by apply (reflexivity (R := confined (W := W) ok data)). Qed.
Lemma own_secrets : secrets_ok ok (file_secrets_new data).
Proof. split; [right; by left|]. intros f Hf. by apply own_secret. Qed.
Lemma start_blameless (s : process W) : fresh s ->
  blameless (manager_new config s).2 /\ at_home ok data (manager_new config s).2.
Proof using Hnames Hbytes.
  intros (s0 & -> & Hh & Hj)%manager_new_home.
  assert (Hc : within (confined ok data) (manager_new config)).
  { apply (manager_new_calm _ _ ok); [apply init_data_dir_home|by left|apply own_resolv_config]. }
  destruct (Hc s0 Hh) as (Hh' & deeds & E & Hd). split; [|done]. unfold blameless. by rewrite E, Hj.
Qed.
(** Along [kept] the journal stays blameless. *)
Definition innocent (s : NetworkManager FileSecretsBackend * process W) : Prop := ManagerFrame.settled ok (profiles_dir config) s.1 /\ at_home ok data s.2 /\ blameless s.2.
Lemma kept_innocent s s' : kept (confined ok data) (at_home ok data) ok (profiles_dir config) s s' -> innocent s -> innocent s'.
Proof.
  intros Hk (Hm & Hh & Hb). destruct (Hk Hm Hh) as [Hm' Hr]. destruct (Hr Hh) as (Hh' & deeds & E & Hd). split_and!; [done|done|].
  unfold blameless. rewrite E. by apply List.Forall_app.
Qed.
Lemma own_profiles id path : profile_path (profiles_dir config) id = Ok path -> may_write ok path.
Proof. apply own_profile. Qed.
Lemma run_innocent cmds s : innocent s -> innocent (run cmds s).2.
Proof using Hnames Hbytes. apply kept_innocent, run_kept; [apply _..|exact own_profiles]. Qed.
Lemma before_commands_innocent s : innocent s -> innocent (before_commands s).
Proof using Hnames Hbytes. apply kept_innocent, start_kept; [apply _..|exact own_profiles]. Qed.
Lemma serve_innocent cmds s : innocent s -> innocent (serve cmds s).2.
Proof using Hnames Hbytes. apply kept_innocent, serve_kept; [apply _..|exact own_profiles]. Qed.
Lemma reachable_innocent `{Accounts} m (w : process W) s : innocent (m, w) -> sys_reachable m w s -> innocent (sys_mgr s, sys_world s).
Proof using Hnames Hbytes. intros Hi%(serve_innocent (log_cmds (sys_log s))) [_ Hs]%reachable_sequential. by rewrite Hs in Hi. Qed.
(** The thread of the server makes its socket, up to the first [accept]. *)
Definition listening (w : process W) : process W := (serve_bind (socket_path (general config)) w).2.
Lemma listening_innocent m w : innocent (m, w) -> innocent (m, listening w).
Proof using Hnames Hbytes.
  intros (Hm & Hh & Hb). assert (Hc : within (confined ok data) (serve_bind (socket_path (general config)))).
  { pose proof (own_socket (env_temp_dir (W := W)) config) as Hs. unfold serve_bind, log_info.
    pose proof (fr_remove (R := confined ok data) (ok := ok) _ (or_introl Hs)) as Hr. pose proof (fr_us_bind (R := confined ok data) (ok := ok) _ Hs) as Hu.
    pose proof (fr_mkdir (R := confined ok data) (ok := ok) _ (pt_parent (W := process W) (ok := ok) _ Hs)) as Hd.
    pose proof (log_calm (W := process W) (confined ok data) (at_home ok data) ok) as Hl.
    footprint. }
  destruct (Hc w Hh) as (Hh' & deeds & E & Hd). split_and!; [done|done|]. unfold blameless, listening. cbn [snd]. rewrite E. by apply List.Forall_app.
Qed.
End Daemon.

(** ** Properties *)


(** *** An instance *)

#[local] Existing Instances sim_host pair_formats no_accounts.

(** The list leaves files out: only a secret, and what the configuration names
    as resolv.conf and as its socket, can have any name. *)
Lemma owned_end temp config p : owned temp config p ->
  (exists f, contains_char "/" f = false /\ p = path_join (secrets_dir (file_secrets_new (data_dir (general config)))) f) \/ p = resolv_conf_path (dns_config config)
  \/ p = socket_path (general config) \/ In (last_byte p) (map Some (str_bytes "lngfhdkp")).
Proof.
  intros Ho. destruct Ho as [id path (-> & (stem & Es)%extension_toml_inv & _)%profile_path_name|f Hf|i|i| | | | | | | |i Hi|x r y Hx Hr Hy|d n Hd Hn|q e Hq He].
  2:{ left. by exists f. }
  4:{ by right; right; left. }
  7:{ by right; left. }
  all: right; right; right; try rewrite Es; try (destruct Hy as [<-|[<-|[]]]); try (destruct Hn as [<-|[<-|[<-|[]]]]); try (destruct He as [<-|[<-|[<-|[<-|[]]]]]).
  all: path_end; cbv; tauto.
Qed.
Example shadow_is_not_owned : ~ owned "/tmp" default_config "/etc/shadow".
Proof.
  intros [(f & Hf & E)|[E|[E|E]]]%owned_end; [|revert E; vm_compute; intuition discriminate..]. revert E. unfold path_join.
  destruct (starts_with "/" f) eqn:Es; [|vm_compute; discriminate]. intros <-. discriminate Hf.
Qed.
(** Stopping a hotspot removes a file named by the client, slashes and all. *)
Example stop_hotspot_unchecked :
  In (DRemove "/run/mitos-network/hostapd-x/../../etc/foo.conf" (inr not_found))
     (pr_journal (handle_request (StopHotspot "x/../../etc/foo") root_peer first_manager).2.2)
  /\ validate_interface_name "x/../../etc/foo" <> Ok tt.
Proof. vm_compute. split; [tauto|discriminate]. Qed.
