(* ===== verification/ConnRefine.v ===== *)
(** * The two models of a connection agree

    [Daemon.handle_connection] is a connection's thread as a function, in front
    of a manager that answers at once ([served]); [System.conn_step] is the same
    thread as steps that interleave with all others.  Here every run of the
    function is a run of the steps, with the manager's steps in between, so that
    what holds of all interleavings holds of the function. *)

From Stdlib Require Import Ascii String.
From S2P Require Import Prelude RustStr IpAddr Sys Persistence World Netlink IpLayer Security Firewall Device.
From S2P Require Import Connection Ipc Config Logging Activation Wp Manager ManagerInv Daemon System.

Section Simulation.
Context {V : Type} `{PeerSocket V} `{ByteStream V} `{Clock V} {W : Type} `{Host W} `{Formats} {B : Type} `{SecretsBackend B W}
  `{Accounts} `{Serde Request} `{Serde ServerMessage}.
Abbreviation Sv := (served V B W).
Abbreviation Sy := (system B W).
Implicit Types (s : Sv) (t : Sy).

(** While the manager lives both see the same manager and world, and the queue
    is [q]. *)
Definition tracks (q : list queued) s t : Prop :=
  sys_alive t = sv_alive s /\ (sv_alive s = true -> sys_mgr t = sv_manager s /\ sys_world t = sv_world s /\ sys_queue t = q).
Definition reading (n : nat) (id : Z) (identity : PeerIdentity) t : Prop :=
  sys_answers t !! n = None /\ exists c, sys_conns t !! n = Some c /\ c_phase c = CpReading id /\ c_identity c = identity.
Definition ended (n : nat) t : Prop := exists c client, sys_conns t !! n = Some c /\ c_phase c = CpEnded client.

(** *** The socket's own operations *)

Definition core s : NetworkManager B * bool * W := (sv_manager s, sv_alive s, sv_world s).
Lemma tracks_core q s s' t : core s' = core s -> tracks q s t -> tracks q s' t.
Proof. unfold core, tracks. intros [= -> -> ->]. done. Qed.
Lemma on_conn_core {A} (c : io V A) : keeps_io core (on_conn (B := B) (W := W) c).
Proof. intros s. unfold on_conn. by destruct (c (sv_conn s)). Qed.
Lemma read_message_core {A} `{Serde A} : Sys.keeps core (read_message : M Sv A).
Proof.
  unfold read_message. apply keeps_bind; [apply keeps_io_try, on_conn_core|]. intros l. case_match; [apply keeps_throw|].
  apply keeps_bind; [apply keeps_io_try, on_conn_core|]. intros b. apply keeps_lift.
Qed.
Lemma write_message_core {A} `{Serde A} (v : A) : Sys.keeps core (write_message v : M Sv unit).
Proof.
  unfold write_message. apply keeps_bind; [apply keeps_lift|]. intros b. cbn zeta. case_match; [apply keeps_throw|].
  repeat (apply keeps_bind; [apply keeps_io_try, on_conn_core|]; intros _). apply keeps_io_try, on_conn_core.
Qed.
Lemma instant_core : Sys.keeps core (instant_now : M Sv Z).
Proof. apply keeps_observe. intros s. cbn. by destruct (clk_instant (sv_conn s)). Qed.
Lemma throttle_core win : Sys.keeps core (throttle win : M Sv window).
Proof.
  unfold throttle. apply keeps_bind; [apply instant_core|]. intros now.
  apply keeps_bind; [case_match; [apply keeps_bind; [apply instant_core|intros; apply keeps_ret]|apply keeps_ret]|].
  intros win'. cbn zeta. case_match; [apply keeps_lift|]. apply keeps_bind; [|intros; apply keeps_ret].
  case_match; [by apply keeps_effect|apply keeps_ret].
Qed.

(** *** The manager's answers *)

Lemma deliver_step cmd from s t :
  cmd <> CmdShutdown -> sv_alive s = true -> tracks [(from, cmd)] s t ->
  exists t', manager_step t t' /\ sys_conns t' = sys_conns t /\ tracks [] (deliver cmd s).2 t'
    /\ match (deliver cmd s).1 with
       | Some replies => expected cmd replies /\ sys_answers t' = answer_to from replies (sys_answers t)
       | None => sv_alive (deliver cmd s).2 = false /\ sys_answers t' = sys_answers t
       end.
Proof.
  intros Hc Ha [Hal Ht]. destruct (Ht Ha) as (Hm & Hw & Hq). rewrite Ha in Hal. unfold deliver.
  destruct (handle_command cmd (sv_manager s, sv_world s)) as [[replies|e|why] [m w]] eqn:E; rewrite <- Hm, <- Hw in E; cbn [fst snd].
  - exists (managed t from cmd [] replies m w). split; [by eapply ms_handle|]. split; [done|]. split; [by split|]. split; [|done].
    by eapply handle_command_expected.
  - exists (stopped t). split; [by eapply ms_panic|]. by split_and!.
  - exists (stopped t). split; [by eapply ms_panic|]. by split_and!.
Qed.
Lemma tracks_conn q s t n c : tracks q s t -> tracks q s (set_conn t n c).
Proof. done. Qed.
Lemma tracks_take q s t n : tracks q s t -> tracks q s (take_answer t n).
Proof. done. Qed.
Lemma tracks_send q x s t : tracks q s t -> tracks (q ++ [x]) s (send t x).
Proof. intros [Ha Ht]. split; [done|]. intros Hs. destruct (Ht Hs) as (Hm & Hw & Hq). cbn. rewrite Ha, Hs, Hq. done. Qed.

(** A connection that has its response: it is written, or cannot be. *)
Definition answerable (n : nat) (id : Z) (identity : PeerIdentity) t : Prop := exists t1 t2,
  sys_step t t1 /\ reading n id identity t1 /\ sys_step t t2 /\ ended n t2
  /\ forall s, tracks [] s t -> tracks [] s t1 /\ tracks [(None, CmdUnregisterEventClient id)] s t2.
Lemma denied_answerable n id identity req e t :
  reading n id identity t -> check identity (required_capability req) = Err e -> answerable n id identity t.
Proof.
  intros (Hn & c & Hc & Hp & <-) Hk. eexists _, _.
  split; [eapply step_conn, (cs_denied n t c id req e); done|].
  split; [split; [done|]; eexists; split; [by cbn; rewrite lookup_insert_eq|done]|].
  split; [eapply step_conn, (cs_denied_unwritten n t c id req e); done|].
  split; [eexists _, _; split; [by cbn; rewrite lookup_insert_eq|done]|].
  intros s Ht. split; [by apply tracks_conn|by apply (tracks_send []), tracks_conn].
Qed.
Lemma answered_answerable n id req c r t :
  sys_conns t !! n = Some c -> c_phase c = CpWaiting id req -> sys_answers t !! n = Some (RepResponse r) -> answerable n id (c_identity c) t.
Proof.
  intros Hc Hp Hr. eexists _, _.
  split; [eapply step_conn, (cs_response n t c id req r); done|].
  split; [split; [by cbn; rewrite lookup_delete_eq|]; eexists; split; [by cbn; rewrite lookup_insert_eq|done]|].
  split; [eapply step_conn, (cs_unwritten n t c id req); [done|done|left; by eexists]|].
  split; [eexists _, _; split; [by cbn; rewrite lookup_insert_eq|done]|].
  intros s Ht. split; [by apply tracks_take, tracks_conn|by apply (tracks_send []), tracks_take, tracks_conn].
Qed.
Lemma lost_answerable n id req c t :
  sys_conns t !! n = Some c -> c_phase c = CpWaiting id req -> sys_answers t !! n = None -> sys_alive t = false -> answerable n id (c_identity c) t.
Proof.
  intros Hc Hp Hr Ha. eexists _, _.
  split; [eapply step_conn, (cs_no_response n t c id req); done|].
  split; [split; [done|]; eexists; split; [by cbn; rewrite lookup_insert_eq|done]|].
  split; [eapply step_conn, (cs_unwritten n t c id req); [done|done|by right]|].
  split; [eexists _, _; split; [by cbn; rewrite lookup_insert_eq|done]|].
  intros s Ht. split; [by apply tracks_conn|by apply (tracks_send []), tracks_take, tracks_conn].
Qed.
Lemma answer_sim n id identity req s t : tracks [] s t -> reading n id identity t ->
  match Ipc.answer identity req s with
  | (Ok _, s') => exists t', rtc sys_step t t' /\ tracks [] s' t' /\ answerable n id identity t'
  | (Err _, s') => exists t', rtc sys_step t t' /\ sv_alive s' = false /\ tracks [] s' t' /\ ended n t'
  | (Panic _, _) => True
  end.
Proof.
  intros Ht Hr. unfold Ipc.answer. destruct (check identity (required_capability req)) as [[]|e|why] eqn:Ek; [|by exists t; split_and!; [done|done|by eapply denied_answerable]|done].
  destruct Hr as (Hn & c & Hc & Hp & <-). unfold mbind, M_bind. rewrite observe_run. cbn -[deliver]. destruct (sv_alive s) eqn:Ea; cbn [fst snd].
  - set (t1 := send (set_conn t n (asks c (CpWaiting id req) req)) (Some n, CmdRequest req (c_identity c))).
    assert (Hs1 : sys_step t t1) by (eapply step_conn, cs_request; [done|done|done|by rewrite (proj1 Ht)]).
    assert (Ht1 : tracks [(Some n, CmdRequest req (c_identity c))] s t1) by (by apply (tracks_send []), tracks_conn).
    assert (Hn1 : sys_answers t1 !! n = None) by done.
    assert (Hc1 : sys_conns t1 !! n = Some (asks c (CpWaiting id req) req)) by (by cbn; rewrite lookup_insert_eq).
    destruct (deliver_step (CmdRequest req (c_identity c)) _ s t1 ltac:(done) Ea Ht1) as (t2 & Hs2 & Hc2 & Ht2 & Hr). rewrite <- Hc2 in Hc1.
    assert (Hrun : rtc sys_step t t2) by (eapply rtc_l; [done|]; by apply rtc_once, step_manager).
    destruct (deliver (CmdRequest req (c_identity c)) s) as [[replies|] s']; cbn [fst snd] in Ht2, Hr.
    + destruct Hr as [[r ->] Hr]. cbn. exists t2. split_and!; [done|done|].
      apply (answered_answerable n id req (asks c (CpWaiting id req) req) r); [done|done|]. rewrite Hr. cbn. by rewrite lookup_insert_eq.
    + destruct Hr as [Hd Hr]. cbn. exists t2. split_and!; [done|done|].
      apply (lost_answerable n id req (asks c (CpWaiting id req) req)); [done|done|by rewrite Hr|by rewrite (proj1 Ht2)].
  - exists (set_conn t n (asks c (CpEnded (Some id)) req)). split_and!; [|done|done|].
    + eapply rtc_once, step_conn, cs_request_gone; [done|done|done|by rewrite (proj1 Ht)].
    + eexists _, _. split; [by cbn; rewrite lookup_insert_eq|done].
Qed.
(** One turn, and any number. *)
Definition loop_sim {A} (n : nat) (id : Z) (identity : PeerIdentity) t (r : outcome A * Sv) : Prop :=
  match r with
  | (Ok _, s') => exists t', rtc sys_step t t' /\ tracks [] s' t' /\ reading n id identity t'
  | (Err _, s') => exists t', rtc sys_step t t' /\ tracks [(None, CmdUnregisterEventClient id)] s' t' /\ ended n t'
  | (Panic _, _) => True
  end.
Lemma hangup_sim n id identity s t : tracks [] s t -> reading n id identity t ->
  exists t', rtc sys_step t t' /\ tracks [(None, CmdUnregisterEventClient id)] s t' /\ ended n t'.
Proof.
  intros Ht (_ & c & Hc & Hp & _). eexists. split; [eapply rtc_once, step_conn, cs_hangup; done|]. split; [by apply (tracks_send []), tracks_conn|].
  eexists _, _. split; [by cbn; rewrite lookup_insert_eq|done].
Qed.
Lemma request_step_sim n id identity win s t : tracks [] s t -> reading n id identity t -> loop_sim n id identity t (request_step identity win s).
Proof.
  intros Ht Hr. unfold request_step. unfold mbind at 1, M_bind at 1. pose proof (read_message_core (A := Request) s) as Kr.
  destruct (read_message s) as [[req|e|why] s1]; cbn in Kr; [| |done].
  2:{ by eapply hangup_sim; [eapply tracks_core|]. }
  apply (tracks_core _ _ _ _ Kr) in Ht. unfold mbind at 1, M_bind at 1. pose proof (throttle_core win s1) as Kt.
  destruct (throttle win s1) as [[win'|e|why] s2]; cbn in Kt; [| |done].
  2:{ by eapply hangup_sim; [eapply tracks_core|]. }
  apply (tracks_core _ _ _ _ Kt) in Ht. unfold mbind at 1, M_bind at 1. pose proof (answer_sim n id identity req s2 t Ht Hr) as Ha.
  destruct (Ipc.answer identity req s2) as [[resp|e|why] s3]; [| |done].
  2:{ destruct Ha as (t' & Hrun & Hd & Ht' & He). exists t'. split_and!; [done| |done]. destruct Ht' as [Hal _]. split; [done|]. by rewrite Hd. }
  destruct Ha as (t' & Hrun & Ht' & (t1 & t2 & Hs1 & Hr1 & Hs2 & He2 & Htr)). unfold mbind at 1, M_bind at 1.
  pose proof (write_message_core (SmResponse resp) s3) as Kw. destruct (write_message (SmResponse resp) s3) as [[u|e|why] s4]; cbn in Kw; [| |done];
    apply (tracks_core _ _ _ _ Kw) in Ht'; destruct (Htr _ Ht') as [Hok Hbad].
  - exists t1. split_and!; [by eapply rtc_r|done|done].
  - exists t2. split_and!; [by eapply rtc_r|done|done].
Qed.
Lemma request_turns_sim k n id identity win s t : tracks [] s t -> reading n id identity t -> loop_sim n id identity t (request_turns k identity win s).
Proof.
  revert win s t. induction k as [|k IH]; intros win s t Ht Hr; cbn [request_turns]; [by exists t|].
  unfold mbind at 1, M_bind at 1. pose proof (request_step_sim n id identity win s t Ht Hr) as Hs.
  destruct (request_step identity win s) as [[win'|e|why] s1]; [|done..]. destruct Hs as (t1 & Hrun & Ht1 & Hr1).
  specialize (IH win' s1 t1 Ht1 Hr1). destruct (request_turns k identity win' s1) as [[win''|e|why] s2]; [| |done];
    destruct IH as (t2 & Hrun2 & IH); exists t2; (split; [by etrans|done]).
Qed.
(** Registering for events. *)
Lemma register_sim n c s t : tracks [] s t -> sys_conns t !! n = Some c -> c_phase c = CpAccepted -> sys_answers t !! n = None ->
  match ev_register s with
  | (RegClient id, s') => exists t', rtc sys_step t t' /\ tracks [] s' t' /\ reading n id (c_identity c) t'
  | (_, s') => exists t', rtc sys_step t t' /\ sv_alive s' = false /\ tracks [] s' t' /\ ended n t'
  end.
Proof.
  intros Ht Hc Hp Hn. cbn -[deliver]. destruct (sv_alive s) eqn:Ea.
  - set (t1 := send (set_conn t n (with_phase c CpRegistering)) (Some n, CmdRegisterEventClient)).
    assert (Hs1 : sys_step t t1) by (eapply step_conn, cs_register; [done|done|by rewrite (proj1 Ht)]).
    assert (Ht1 : tracks [(Some n, CmdRegisterEventClient)] s t1) by (by apply (tracks_send []), tracks_conn).
    assert (Hc1 : sys_conns t1 !! n = Some (with_phase c CpRegistering)) by (by cbn; rewrite lookup_insert_eq).
    destruct (deliver_step CmdRegisterEventClient _ s t1 ltac:(done) Ea Ht1) as (t2 & Hs2 & Hc2 & Ht2 & Hr). rewrite <- Hc2 in Hc1.
    assert (Hrun : rtc sys_step t t2) by (eapply rtc_l; [done|]; by apply rtc_once, step_manager).
    destruct (deliver CmdRegisterEventClient s) as [[replies|] s']; cbn [fst snd] in Ht2, Hr.
    + destruct Hr as [[id ->] Hr]. eexists. split; [eapply rtc_r; [exact Hrun|]; eapply step_conn, (cs_registered n t2 _ id); [done|done|]|].
      { rewrite Hr. cbn. by rewrite lookup_insert_eq. }
      split; [by apply tracks_take, tracks_conn|]. split; [by cbn; rewrite lookup_delete_eq|]. eexists. split; [by cbn; rewrite lookup_insert_eq|done].
    + destruct Hr as [Hd Hr]. eexists. split; [eapply rtc_r; [exact Hrun|]; eapply step_conn, cs_unregistered; [done|done|by rewrite Hr|by rewrite (proj1 Ht2)]|].
      split_and!; [done|by apply tracks_conn|]. eexists _, _. split; [by cbn; rewrite lookup_insert_eq|done].
  - eexists. split; [eapply rtc_once, step_conn, cs_refused; done|]. split_and!; [done|by apply tracks_conn|].
    eexists _, _. split; [by cbn; rewrite lookup_insert_eq|done].
Qed.
(** The thread's last command. *)
Lemma unregister_sim n id s t : tracks [(None, CmdUnregisterEventClient id)] s t -> ended n t ->
  exists t', rtc sys_step t t' /\ tracks [] (ev_unregister id s) t' /\ ended n t'.
Proof.
  intros Ht He. cbn -[deliver]. destruct (sv_alive s) eqn:Ea.
  - destruct (deliver_step (CmdUnregisterEventClient id) _ s t ltac:(done) Ea Ht) as (t' & Hs & Hc & Ht' & _).
    exists t'. split; [by apply rtc_once, step_manager|]. split; [done|]. unfold ended. by rewrite Hc.
  - exists t. split_and!; [done| |done]. destruct Ht as [Hal _]. split; [done|]. by rewrite Ea.
Qed.
Lemma ended_refused n c s t : tracks [] s t -> sys_conns t !! n = Some c -> c_phase c = CpAccepted ->
  exists t', rtc sys_step t t' /\ tracks [] s t' /\ ended n t'.
Proof.
  intros Ht Hc Hp. eexists. split; [eapply rtc_once, step_conn, cs_refused; done|]. split; [by apply tracks_conn|].
  eexists _, _. split; [by cbn; rewrite lookup_insert_eq|done].
Qed.
Lemma request_loop_sim k n id identity s t : tracks [] s t -> reading n id identity t -> loop_sim n id identity t (request_loop k identity s).
Proof.
  intros Ht Hr. unfold request_loop. unfold mbind at 1, M_bind at 1. pose proof (instant_core s) as Ki. unfold instant_now in *.
  rewrite observe_run in Ki |- *. cbn [fst snd] in *. apply request_turns_sim; [|done]. by eapply tracks_core.
Qed.
End Simulation.

(** ** Properties *)

(** C9: A connection's thread, as a function of what its socket does, is one of
    the behaviours of its steps in the system.  From a system that shows the
    same living manager, and a connection just accepted, every run of
    [handle_connection], with any number of requests, failed reads and writes
    and a manager that stops on the way, is matched by steps of the system that
    end with the same manager and world, and with the connection reading on or
    ended as the function has it. *)
Theorem connection_simulated {V} `{PeerSocket V} `{ByteStream V} `{Clock V} {W} `{Host W} `{Formats} {B} `{SecretsBackend B W}
    `{Accounts} `{Serde Request} `{Serde ServerMessage} k n identity (s : served V B W) (t : system B W) :
  (so_peercred (sv_conn s)).1 = inl identity -> tracks [] s t ->
  sys_conns t !! n = Some (mkConnection identity CpAccepted [] [] 0) -> sys_answers t !! n = None ->
  match handle_connection k s with
  | (Ok _, s') => exists t', rtc sys_step t t' /\ tracks [] s' t' /\ exists id, reading n id identity t'
  | (Err _, s') => exists t', rtc sys_step t t' /\ tracks [] s' t' /\ ended n t'
  | (Panic _, _) => True
  end.
Proof.
  intros Hid Ht Hc Hn. unfold handle_connection. unfold mbind at 1, M_bind at 1, peer_identity, io_try_with. cbn [so_peercred served_peer].
  pose proof (on_conn_core so_peercred s) as K1. unfold on_conn at 1 in K1. unfold on_conn at 1.
  destruct (so_peercred (sv_conn s)) as [r0 v0]. cbn in Hid, K1. subst r0. set (s1 := mkServed v0 _ _ _) in *. apply (tracks_core _ _ _ _ K1) in Ht.
  unfold mbind at 1, M_bind at 1, io_try. cbn [ps_try_clone served_peer]. pose proof (on_conn_core ps_try_clone s1) as K2.
  destruct (on_conn ps_try_clone s1) as [[u|e] s2]; cbn [fst snd] in K2; apply (tracks_core _ _ _ _ K2) in Ht; [|by eapply ended_refused].
  unfold mbind at 1, M_bind at 1, register_client, mbind at 1, M_bind at 1. rewrite observe_run.
  pose proof (register_sim n _ s2 t Ht Hc eq_refl Hn) as Hreg. destruct (ev_register s2) as [[| |id] s3]; cbn [fst snd];
    [destruct Hreg as (t' & Hrun & _ & Ht' & He); by exists t'..|]. destruct Hreg as (t1 & Hrun1 & Ht1 & Hr1). cbn [c_identity] in Hr1.
  unfold mret, M_ret. unfold mbind at 1, M_bind at 1, effect at 1. unfold mbind at 1, M_bind at 1, attempt.
  assert (Ht1' : tracks [] (ps_spawn_events id s3) t1) by (by eapply tracks_core; [|exact Ht1]).
  pose proof (request_loop_sim k n id identity _ t1 Ht1' Hr1) as Hl. destruct (request_loop k identity (ps_spawn_events id s3)) as [[win|e|why] s4]; [| |done].
  - destruct Hl as (t2 & Hrun2 & Ht2 & Hr2). exists t2. split; [by etrans|]. split; [done|]. by exists id.
  - destruct Hl as (t2 & Hrun2 & Ht2 & He2). destruct (unregister_sim n id s4 t2 Ht2 He2) as (t3 & Hrun3 & Ht3 & He3).
    unfold mbind, M_bind, effect, throw. exists t3. split; [etrans; [done|]; by etrans|]. split; [by eapply tracks_core; [|exact Ht3]|done].
Qed.
(** The user's connection of [Daemon], on a system with that connection alone. *)
#[local] Existing Instances user_socket conn_stream conn_clock no_accounts demo_request_serde demo_message_serde sim_host sim_formats.
Definition one_conn : system FileSecretsBackend sim :=
  set_conn (sys_start (sv_manager demo_served) (sv_world demo_served)) 0 (mkConnection (mkPeer 1000 1000 1) CpAccepted [] [] 0).
Lemma connection_simulated_witness :
  exists t', rtc sys_step one_conn t' /\ tracks [] (handle_connection 3 demo_served).2 t' /\ ended 0 t'.
Proof.
  assert (Hs : handle_connection 3 demo_served = ((handle_connection 3 demo_served).1, (handle_connection 3 demo_served).2)) by apply surjective_pairing.
  assert (He : match (handle_connection 3 demo_served).1 with Err _ => true | _ => false end = true) by (vm_compute; reflexivity).
  assert (Ht : tracks [] demo_served one_conn) by (split; [reflexivity|intros _; split_and!; reflexivity]).
  pose proof (connection_simulated 3 0 (mkPeer 1000 1000 1) demo_served one_conn eq_refl Ht eq_refl eq_refl) as Hc.
  rewrite Hs in Hc. destruct (handle_connection 3 demo_served).1 as [win|e|why]; [discriminate He|exact Hc|discriminate He].
Defined.
