(* ===== verification/Netctl.v ===== *)
(** * The command-line client (bin/mitos-netctl.rs, ipc/client.rs [connect])

    From the words of a command line to the request that is sent, and from the
    response to what the process prints and exits with. *)

From Stdlib Require Import Ascii String.
From S2P Require Import Prelude RustStr Sys Connection Ipc Config.

(** ** The command line *)

Inductive cli :=
| CliUsage                     (** exit 2 *)
| CliMonitor
| CliSend (req : Request).

(** [match word { "a" => .., "b" => .., _ => usage() }]; a word that is not
    there is also [usage()]. *)
Definition arms (word : option string) (l : list (string * cli)) : cli :=
  match word with
  | None => CliUsage
  | Some word =>
      match List.find (fun a => String.eqb a.1 word) l with
      | Some a => a.2
      | None => CliUsage
      end
  end.
Definition arg_or_usage (args : list string) (index : nat) (k : string -> Request) : cli :=
  match args !! index with Some a => CliSend (k a) | None => CliUsage end.
Definition two_args (args : list string) (i j : nat) (k : string -> string -> Request) : cli :=
  match args !! i with Some a => arg_or_usage args j (k a) | None => CliUsage end.
Definition on_off_or_usage (args : list string) (index : nat) (k : bool -> Request) : cli :=
  arms (args !! index) [("on"%string, CliSend (k true)); ("off"%string, CliSend (k false))].
(** [ProxyConfig { mode, .., ..Default::default() }] *)
Definition manual_proxy (http : string) (https : option string) : ProxyConfig :=
  mkProxyConfig PmManual (Some http) https None None [] None.
Definition auto_proxy (url : string) : ProxyConfig := mkProxyConfig PmAuto None None None None [] (Some url).

Section Words.
Local Open Scope string_scope.
Definition device_command (args : list string) : cli :=
  arms (args !! 1%nat) [("list", CliSend ListDevices); ("show", arg_or_usage args 2 GetDevice)].
Definition connection_command (args : list string) : cli :=
  arms (args !! 1%nat)
    [("list", CliSend ListConnections);
     ("show", arg_or_usage args 2 GetConnection);
     ("up", arg_or_usage args 2 ActivateConnection);
     ("down", arg_or_usage args 2 DeactivateConnection);
     ("delete", arg_or_usage args 2 DeleteConnection)].
Definition wifi_command (args : list string) : cli :=
  arms (args !! 1%nat)
    [("scan", arg_or_usage args 2 ScanWifi);
     ("list", arg_or_usage args 2 ListWifiNetworks);
     ("connect", two_args args 2 3 (fun device ssid =>
        let passphrase := args !! 4%nat in
        ConnectWifi device ssid (match passphrase with Some _ => Wpa2Psk | None => SecOpen end) passphrase));
     ("forget", two_args args 2 3 ForgetWifi)].
Definition hotspot_command (args : list string) : cli :=
  arms (args !! 1%nat)
    [("start", two_args args 2 3 (fun device ssid => StartHotspot device ssid (args !! 4%nat) (args !! 5%nat)));
     ("stop", arg_or_usage args 2 StopHotspot)].
Definition firewall_command (args : list string) : cli :=
  arms (args !! 1%nat) [("zone", two_args args 2 3 SetFirewallZone)].
Definition bluetooth_command (args : list string) : cli :=
  arms (args !! 1%nat)
    [("list", CliSend ListBluetoothDevices);
     ("power", on_off_or_usage args 2 BluetoothPower);
     ("scan", on_off_or_usage args 2 BluetoothScan);
     ("pair", arg_or_usage args 2 PairBluetooth);
     ("trust", arg_or_usage args 2 TrustBluetooth);
     ("connect", arg_or_usage args 2 ConnectBluetooth);
     ("disconnect", arg_or_usage args 2 DisconnectBluetooth);
     ("remove", arg_or_usage args 2 RemoveBluetooth)].
Definition proxy_command (args : list string) : cli :=
  arms (args !! 1%nat)
    [("show", CliSend GetProxyConfig);
     ("resolve", arg_or_usage args 2 ResolveProxy);
     ("set", arms (args !! 2%nat)
        [("none", CliSend (SetProxyConfig proxy_config_default));
         ("manual", arg_or_usage args 3 (fun http => SetProxyConfig (manual_proxy http (args !! 4%nat))));
         ("auto", arg_or_usage args 3 (fun url => SetProxyConfig (auto_proxy url)))])].
Definition netctl (args : list string) : cli :=
  arms (args !! 0%nat)
    [("status", CliSend GetState);
     ("connectivity", CliSend GetConnectivity);
     ("diagnose", CliSend Diagnose);
     ("reload", CliSend Reload);
     ("monitor", CliMonitor);
     ("device", device_command args);
     ("connection", connection_command args);
     ("wifi", wifi_command args);
     ("hotspot", hotspot_command args);
     ("firewall", firewall_command args);
     ("bluetooth", bluetooth_command args);
     ("proxy", proxy_command args)].

(** The words the usage text gives for a request, for those it can express. *)
Definition on_off (on : bool) : string := if on then "on" else "off".
Definition usage_words (req : Request) : option (list string) :=
  match req with
  | GetState => Some ["status"]
  | GetConnectivity => Some ["connectivity"]
  | Diagnose => Some ["diagnose"]
  | Reload => Some ["reload"]
  | ListDevices => Some ["device"; "list"]
  | GetDevice name => Some ["device"; "show"; name]
  | ListConnections => Some ["connection"; "list"]
  | GetConnection id => Some ["connection"; "show"; id]
  | ActivateConnection id => Some ["connection"; "up"; id]
  | DeactivateConnection id => Some ["connection"; "down"; id]
  | DeleteConnection id => Some ["connection"; "delete"; id]
  | ScanWifi device => Some ["wifi"; "scan"; device]
  | ListWifiNetworks device => Some ["wifi"; "list"; device]
  | ConnectWifi device ssid Wpa2Psk (Some pass) => Some ["wifi"; "connect"; device; ssid; pass]
  | ConnectWifi device ssid SecOpen None => Some ["wifi"; "connect"; device; ssid]
  | ForgetWifi device ssid => Some ["wifi"; "forget"; device; ssid]
  | StartHotspot device ssid None None => Some ["hotspot"; "start"; device; ssid]
  | StartHotspot device ssid (Some pass) None => Some ["hotspot"; "start"; device; ssid; pass]
  | StartHotspot device ssid (Some pass) (Some uplink) => Some ["hotspot"; "start"; device; ssid; pass; uplink]
  | StopHotspot device => Some ["hotspot"; "stop"; device]
  | SetFirewallZone interface zone => Some ["firewall"; "zone"; interface; zone]
  | ListBluetoothDevices => Some ["bluetooth"; "list"]
  | BluetoothPower on => Some ["bluetooth"; "power"; on_off on]
  | BluetoothScan on => Some ["bluetooth"; "scan"; on_off on]
  | PairBluetooth mac => Some ["bluetooth"; "pair"; mac]
  | TrustBluetooth mac => Some ["bluetooth"; "trust"; mac]
  | ConnectBluetooth mac => Some ["bluetooth"; "connect"; mac]
  | DisconnectBluetooth mac => Some ["bluetooth"; "disconnect"; mac]
  | RemoveBluetooth mac => Some ["bluetooth"; "remove"; mac]
  | GetProxyConfig => Some ["proxy"; "show"]
  | ResolveProxy url => Some ["proxy"; "resolve"; url]
  | SetProxyConfig (mkProxyConfig PmNone None None None None [] None) => Some ["proxy"; "set"; "none"]
  | SetProxyConfig (mkProxyConfig PmManual (Some http) None None None [] None) => Some ["proxy"; "set"; "manual"; http]
  | SetProxyConfig (mkProxyConfig PmManual (Some http) (Some https) None None [] None) =>
      Some ["proxy"; "set"; "manual"; http; https]
  | SetProxyConfig (mkProxyConfig PmAuto None None None None [] (Some url)) => Some ["proxy"; "set"; "auto"; url]
  | _ => None
  end.
End Words.

(** ** The exchange *)

(** [UnixStream::connect]: the stream is the world's. *)
Class UnixConnect (W : Type) := { ux_connect : string -> io W unit }.
(** What [send] prints, and the status it exits with. *)
Inductive printed :=
| PrOk                          (** "OK" *)
| PrError (e : string)          (** "error: .." on standard error *)
| PrResponse (r : Response)     (** the response as JSON *)
| PrConnect (e : string).       (** the message alone, on standard error *)
Definition exit_status (p : printed) : Z := match p with PrOk | PrResponse _ => 0 | PrError _ | PrConnect _ => 1 end.

Section Send.
Context {W : Type} `{UnixConnect W} `{ByteStream W} `{Serde Request} `{Serde ServerMessage}.
Definition client_connect (socket_path : string) : M W unit :=
  io_try_with (fun e => Other ("could not connect to mitos-network at " +:+ socket_path +:+ ": " +:+ io_err_text e
                               +:+ " (is the daemon running?)")) (ux_connect socket_path).
Definition print_of (r : Response + NetworkError) : printed :=
  match r with
  | inl ResOk => PrOk
  | inl (ResError e) => PrError e
  | inl other => PrResponse other
  | inr e => PrError (error_to_string e)
  end.
Definition netctl_send (fuel : nat) (req : Request) : M W printed :=
  c ← attempt (client_connect DEFAULT_SOCKET_PATH);
  match c with
  | inr e => mret (PrConnect (error_to_string e))
  | inl _ => r ← attempt (client_request fuel req); mret (print_of r)
  end.
(** [monitor]: the events of so many turns, and the error that ended them. *)
Fixpoint netctl_monitor (n fuel : nat) : M W (list Event * option NetworkError) :=
  match n with
  | O => mret ([], None)
  | S n =>
      r ← attempt (next_event fuel);
      match r with
      | inl ev => '(evs, ended) ← netctl_monitor n fuel; mret (ev :: evs, ended)
      | inr e => mret ([], Some e)
      end
  end.
End Send.

(** ** The command line is the usage text *)

Lemma arms_send word l req : arms word l = CliSend req -> exists w c, word = Some w /\ In (w, c) l /\ c = CliSend req.
Proof.
  unfold arms. destruct word as [w|]; [|done]. destruct (List.find _ l) as [[w' c]|] eqn:E; [|done].
  apply List.find_some in E as [Hin Hw%String.eqb_eq]. cbn in Hw. subst. eauto.
Qed.
Lemma arg_send args i k req : arg_or_usage args i k = CliSend req -> exists a, args !! i = Some a /\ req = k a.
Proof. unfold arg_or_usage. destruct (args !! i) as [a|]; [|done]. intros [= <-]. eauto. Qed.
Lemma two_send args i j k req :
  two_args args i j k = CliSend req -> exists a b, args !! i = Some a /\ args !! j = Some b /\ req = k a b.
Proof.
  unfold two_args. destruct (args !! i) as [a|]; [|done]. intros (b & Hb & ->)%arg_send. eauto.
Qed.
(** Down to the arm that was taken. *)
Ltac arm H :=
  let w := fresh "w" in let c := fresh "c" in let Hw := fresh "Hw" in let Hin := fresh "Hin" in
  apply arms_send in H as (w & c & Hw & Hin & H); cbn [In] in Hin;
  repeat (destruct Hin as [Hin|Hin]; [injection Hin as <- <-|]); [..|destruct Hin].
(** And from there to the words that are read. *)
Ltac take_word :=
  match goal with
  | H : CliSend _ = CliSend _ |- _ => injection H as <-
  | H : arg_or_usage _ _ _ = CliSend _ |- _ => apply arg_send in H as (? & ? & ->)
  | H : two_args _ _ _ _ = CliSend _ |- _ => apply two_send in H as (? & ? & ? & ? & ->)
  | H : on_off_or_usage _ _ _ = CliSend _ |- _ => unfold on_off_or_usage in H; arm H
  | H : ?l !! _ = Some _ |- _ => is_var l; destruct l as [|? l]; cbn in *; simplify_eq
  end.
Ltac words :=
  repeat take_word; repeat (cbn; match goal with |- context [match ?l !! _ with _ => _ end] => is_var l; destruct l; cbn end);
  try (by eexists _, _).
Definition spelled (args : list string) (req : Request) : Prop :=
  exists used rest, usage_words req = Some used /\ args = used ++ rest.

Lemma device_words args req : args !! 0%nat = Some "device"%string -> device_command args = CliSend req -> spelled args req.
Proof. intros H0 H. unfold device_command, spelled in *. arm H; words. Qed.
Lemma connection_words args req : args !! 0%nat = Some "connection"%string -> connection_command args = CliSend req -> spelled args req.
Proof. intros H0 H. unfold connection_command, spelled in *. arm H; words. Qed.
Lemma wifi_words args req : args !! 0%nat = Some "wifi"%string -> wifi_command args = CliSend req -> spelled args req.
Proof. intros H0 H. unfold wifi_command, spelled in *. arm H; words. Qed.
Lemma hotspot_words args req : args !! 0%nat = Some "hotspot"%string -> hotspot_command args = CliSend req -> spelled args req.
Proof. intros H0 H. unfold hotspot_command, spelled in *. arm H; words. Qed.
Lemma firewall_words args req : args !! 0%nat = Some "firewall"%string -> firewall_command args = CliSend req -> spelled args req.
Proof. intros H0 H. unfold firewall_command, spelled in *. arm H; words. Qed.
Lemma bluetooth_words args req : args !! 0%nat = Some "bluetooth"%string -> bluetooth_command args = CliSend req -> spelled args req.
Proof. intros H0 H. unfold bluetooth_command, spelled in *. arm H; words. Qed.
Lemma proxy_words args req : args !! 0%nat = Some "proxy"%string -> proxy_command args = CliSend req -> spelled args req.
Proof. intros H0 H. unfold proxy_command, spelled in *. arm H; [words..|arm H; words]. Qed.

(** ** Properties *)

(** C29: The command line and the requests correspond.  The words the usage text
    gives for a request send that request; and a command line that sends a
    request is those words, with nothing but ignored words after them. *)
Theorem netctl_words req :
  (forall args, usage_words req = Some args -> netctl args = CliSend req)
  /\ (forall args, netctl args = CliSend req -> spelled args req).
Proof.
  split.
  - intros args. destruct req; cbn [usage_words]; repeat case_match; intros [= <-]; try destruct on; reflexivity.
  - intros args H. unfold netctl in H. arm H; try discriminate H;
      eauto using device_words, connection_words, wifi_words, hotspot_words, firewall_words, bluetooth_words, proxy_words;
      unfold spelled; words.
Qed.
(** A network joined without a passphrase is taken to be open. *)
Lemma netctl_words_witness :
  netctl ["wifi"; "connect"; "wlan0"; "cafe"]%string = CliSend (ConnectWifi "wlan0" "cafe" SecOpen None)
  /\ spelled ["wifi"; "connect"; "wlan0"; "cafe"]%string (ConnectWifi "wlan0" "cafe" SecOpen None).
Proof.
  split; [apply (proj1 (netctl_words _)); reflexivity|]. apply (proj2 (netctl_words _)). reflexivity.
Defined.
